(* ===== verification/_CoqProject ===== *)
-Q . S2P
Prelude.v
RtpPacket.v
JitterBuffer.v
Srtp.v
Text.v
Logger.v
Wire.v
Config.v
Ice.v
Stun.v
SdpAttribute.v
Sdp.v
CallSession.v
Dtls.v
Media.v
Audio.v
F32.v
Sound.v
Events.v
Capture.v
Codec.v
Rtcp.v
RtpIo.v
Socket.v
MediaLog.v
DataChannel.v
FileTransfer.v
Sctp.v
UserStatus.v
ClientMessage.v
ServerMessage.v
ServerResponse.v
Controller.v
OperatingServer.v
UserHandler.v
Calls.v
CentralServer.v
Server.v
Life.v
Presence.v
Undisturbed.v
System.v
Widgets.v
Ui.v
Screen.v
Devices.v
Startup.v
Application.v
CallLife.v
FileLife.v
Replay.v
ReplaySession.v
ReplayServer.v
ReplayFiles.v
ReplayTransport.v
ReplayMedia.v
