(* ===== verification/Prelude.v ===== *)
(** * RoomRTC: a verified model

    RoomRTC is a peer-to-peer video call application written in Rust: a client
    (user interface, controller, media, ICE, DTLS, RTP/RTCP, SCTP) and a
    signalling server.  This library is a shallow embedding of the program in
    Rocq, with the theorems that make its parts correct, and some that show where
    they are not.  Paths below are relative to src/src/.

    ** How the program is put together

    A client logs in at the server over TLS, keeps a second connection on which
    the server pushes messages, and calls another user by sending a session
    description through the server.  The two clients then check the pairs of
    their ICE candidates, open a DTLS socket on the selected pair, derive SRTP
    keys from it, and run threads that send and receive RTP packets (video
    through a jitter buffer, audio directly) and RTCP reports.  Files go over
    SCTP data channels on a second DTLS socket.  The user interface owns the
    controller; worker threads report to it through events.

    ** Files

    Foundations.
    - Prelude: results, panics, machine integers, big-endian bytes, slices,
      tactics and the hint database [room].
    - Text: Rust strings, UTF-8, the parsing functions of [str].
    - Logger (logger/): the log, its handles and its writing thread.
    - Wire: the format of the client/server messages, and the class through which
      a message is proved against the types embedded in it.

    Media.
    - RtpPacket (transport/rtp/rtp_packet.rs), JitterBuffer
      (transport/jitter_buffer/jitter.rs), Srtp (srtp/context.rs and the
      protection threads of transport/media_transport.rs).
    - Media (frame_handler/encoder.rs, the sending and receiving threads of
      media_pipeline.rs), Audio (ring_buffer.rs, microphone.rs's callback,
      audio_pipeline.rs), F32 and Sound (the samples: IEEE binary32 arithmetic,
      down-mixing and resampling in microphone.rs, playback in speaker.rs),
      Capture (clock, raw frames, camera, start and stop of the media pipeline),
      Codec (the wrappers of Opus, the set-up of openh264, the colour conversion).
    - Rtcp (transport/rtcp/), RtpIo (the sender and receiver threads of
      transport/rtp/, MediaTransport's start and stop), Socket (tools/: the trait
      behind which these threads meet the network, and its mock), MediaLog (what
      the protection threads of transport/media_transport.rs log).

    Session.
    - Config (config.rs), Ice and Stun (session/ice/), SdpAttribute and Sdp
      (session/sdp/), CallSession (session/call_session.rs), Dtls (dtls/).

    Files and channels.
    - DataChannel (sctp_transport/data_channel/ and the stream bookkeeping of
      sctp_transport/transport.rs), FileTransfer (file/), Sctp (the event loop of
      sctp_transport/transport.rs, FileTransferer::new and its listener).

    Signalling.
    - UserStatus, ClientMessage, ServerMessage, ServerResponse (user/,
      client_server_protocol/), OperatingServer, UserHandler, CentralServer and
      Server (server/), Calls (who may end whose call), Life (the server's
      connections over time, interleaved), Presence (who is online in such a
      life), Undisturbed (whose call lasts in one), Controller
      (controller/control.rs).

    The user's side.
    - Events (controller/app_event.rs), Widgets (ui/widget.rs: widgets as data and
      the computations that draw them), Ui (the state machine of ui/interface.rs:
      views, events, buttons), Screen (its drawing: what every view shows and
      which control does what), Devices (camera and microphone under the views).
    - Startup (bin/): what the two programs set up before they run.

    Together.
    - System (clients against the server), Application (the user interface
      against the server), CallLife (two applications and the server: a call from
      the click that makes it to the click that ends it), FileLife (two
      applications and their transferers: a file from the click that sends it to
      the end of the download).

    The program's own unit tests.
    - Replay (what a test is here), ReplaySession, ReplayServer, ReplayFiles,
      ReplayTransport and ReplayMedia: the test modules of the sources, function by
      function, run on the model.  A test that meets the machine (its network, disk,
      clock or codecs) takes it as an argument, and a lemma says on which machines
      it passes.

    ** How code is represented

    - Integers are [Z] with the width written out: [fits], [wrap],
      [saturating_add]; a byte string is a list of [Z].
    - [Result] is [result], a computation that may panic (index, slice, division,
      the clock's subtraction) is [comp]; [let?] and [let!] sequence them.
    - Overflow.  Rust's plain [+] and [-] panic in a build with overflow checks
      (cargo build, cargo run) and wrap in one without (a release build).  The jitter
      buffer and the receive loop above it, whose numbers come from the peer, are
      modelled in both: the argument [checks] is the build ([checked],
      [checked_signed]).  Elsewhere plain arithmetic wraps at its width, as in a
      release build; what is subtracted from the clock panics.
    - State is passed explicitly, one record per struct with the source's fields.
      A lock that a panic may poison is a flag.  A server-side stream that is shut
      down or lost is in the list [closed]: it takes no more writes, and
      [send_message] ignores that, as the source does.
    - A thread is a function on the sequence of what it meets (the flag read, the
      message received, the outcome of each send).  Where threads interleave on
      shared state, their steps are an inductive relation: the report threads of
      Rtcp, the announcement of the end of a call (with the writers that lower the
      flag without announcing) in RtpIo, the server's counter in
      Server, the server's operations against a client's table in System; or a
      list of actions, the sections of the server's connections in Life.
    - Shared mutable state is a store when a claim depends on the sharing: the
      tables of users of Controller, the buffers behind the clones of a mock socket.
    - A trait is a class with its implementations as instances: [Socket],
      [Wire] (Display with FromStr), [DataChannelLike].

    ** Parameters

    Code that is not under src/ is a parameter, with the behaviour relied on as a
    named hypothesis: OpenSSL (cipher, HMAC, SHA-256, PKCS#12, key export),
    udp_dtls, sctp-proto (class [Sctp], records [Dtls.Library] and
    [Sctp.Library]), openh264 and Opus, the INI parser and float parsers, chrono,
    the order in which HashMap and HashSet are walked ([MapOrder], [SetOrder]),
    the text of socket addresses ([Wire]).  Sockets, clocks, files, devices and
    dialogs are arguments.  Every theorem with such a hypothesis has a witness
    with a concrete instance.

    ** What the theorems show

    - Formats: what is written is read back, for packets, reports, messages,
      session descriptions, settings, frames, data channel and file messages, and
      reading never panics; decoders reject exactly what the theorem says.
    - Media: the SRTP pipeline gives back what was protected and lets nothing
      forged through; the jitter buffer keeps its invariant, returns, panics only in
      a build with overflow checks and only where the theorem says, releases only
      complete ordered frames and counts losses exactly; together with the encoder's chunks they deliver a
      video stream; the audio ring buffer is a bounded queue and playback
      always fills the device's buffer; what the camera
      delivers reaches preview and network in step.
    - Session: candidates are ranked and the best working pair selected; an offer
      and its answer settle roles, fingerprints, candidates and codecs; after it
      each side accepts only a DTLS peer with the other's certificate.
    - Signalling: no message removes or damages an account; calls go through
      between available users only; a client's table of users mirrors the
      server's as long as its push stream lasts; a call goes through end to end, from the
      hubs of two applications to the call view and back.  However the connections
      interleave, accounts are kept, and the users file follows them as long as
      sign-ups do not overlap; while connections log in once and log out their own
      user, a user is shown online exactly while one connection is his.  Of all
      messages only four, about its two users, end a call, in any interleaving.
    - Channels and files: data channels open against each other, an iteration of
      the event loop sends all there is to send, files arrive as they were sent,
      offers are answered once, from one application's button to the other's list.
    - Liveness and termination: handshakes complete, capture callbacks return, the
      STUN parser takes a turn per four bytes at most; who announces the end of a
      call is settled the moment the flag goes down.
    - The application: drawing a view and touching a control is exactly a step of
      the state machine; the camera and the microphone run exactly in the call view,
      and the mute button tells the truth, in every run that meets the conditions
      listed at [Devices.smooth_event] and [Devices.smooth_action], each of which
      is necessary during a call; the screen shows of the password its length only; the call view is
      shown only while the call's components are up.
    - The log: every line is a message some component sent, in order, and reading
      the file back gives the messages when no text in them breaks lines; the
      unprotection thread logs an error for every packet it passes on.
    - Fidelity: all but one of the program's unit tests run on the model with the
      outcome they have in the program; several say less than their names.
    - Defects that the models show are stated as theorems or lemmas next to the
      code they concern (account takeover by an untrimmed name, sign-ups that
      destroy each other, the race on the limit of connected users, coalesced
      pushed messages, a listener that one broken channel ends, and others).

    ** Fuel and bounds

    Loops that are not structural run on fuel; running out is [None], different
    from every result, and a theorem shows that the fuel suffices:
    [JitterBuffer.prepare_loop] and
    [JitterBuffer.clear_until] (the size of the buffer and one more; with panics,
    [let!!]), [Stun.attributes] (one turn for each four bytes behind the header, and
    one more), [Audio.drain] (one more than
    the samples held), [Sound.play_loop] (one more than the device's buffer),
    [Sctp.poll_loop] (any fuel beyond the library's queues).
    The standard library's functions on slices, strings and numbers
    ([Media.chunk_loop], [Text.decode_loop], [Text.show_digits]) take the length of
    their data, of which each turn consumes a part, and are proved equal to what
    they should give.
    Retry loops (the STUN requests, RTCP handshake, data channel waits) are functions on the
    list of their turns.

    ** Not modelled

    - What happens inside the libraries: Opus, openh264, OpenCV, the colour
      arithmetic of crate yuv, OpenSSL, sctp-proto; egui's layout, hit testing and
      pixels (a widget is data, a control is known by its number) and the
      operating system's file dialogs (their answers are inputs).
    - controller/mock_utils.rs, which is in no list of modules and so is never
      compiled; the test of the derived Debug of the clock.
    - One-line accessors and constructors that only fill a record (the [*_only]
      methods of config.rs, [Candidate::new] and the like): the records' own.
    - Scheduling beyond the interleavings named above, and memory ordering of the
      atomics, which are taken to be sequentially consistent.

    ** What could follow

    File messages over the event loop of SCTP, the client's reconnection after a
    failure, and termination of the capture loop for every step of at least a
    fraction of a sample. *)

From Stdlib Require Export ZArith Lia Permutation.
From stdpp Require Export base tactics numbers list gmap fin_maps relations.

#[global] Open Scope Z_scope.

(** * Types shared by every component *)

(** A byte string: every element is meant to lie in [0, 256). *)
Abbreviation bytes := (list Z).

(** A Rust [String]/[&str]: the list of its Unicode scalar values. *)
Abbreviation str := (list Z).

(** Rust's [Result<A, E>]. *)
Inductive result (A E : Type) : Type :=
| Ok (a : A)
| Err (e : E).
Arguments Ok {A E} a.
Arguments Err {A E} e.

(** A computation that may panic (an out-of-range index or slice). *)
Inductive comp (A : Type) : Type :=
| Ret (a : A)
| Panic.
Arguments Ret {A} a.
Arguments Panic {A}.

Definition rbind {A B E} (m : result A E) (k : A -> result B E) : result B E :=
  match m with Ok a => k a | Err e => Err e end.

Definition map_err {A E F} (f : E -> F) (m : result A E) : result A F :=
  match m with Ok a => Ok a | Err e => Err (f e) end.

Definition ok_or {A E} (o : option A) (e : E) : result A E :=
  match o with Some a => Ok a | None => Err e end.

Definition is_ok {A E} (m : result A E) : bool :=
  match m with Ok _ => true | Err _ => false end.

Definition result_ok {A E} (m : result A E) : option A :=
  match m with Ok a => Some a | Err _ => None end.

Definition cbind {A B} (m : comp A) (k : A -> comp B) : comp B :=
  match m with Ret a => k a | Panic => Panic end.

(** A loop run on fuel ([None]: out of it) around a computation that may panic. *)
Definition ocbind {A B} (m : option (comp A)) (k : A -> option (comp B)) : option (comp B) :=
  match m with None => None | Some Panic => Some Panic | Some (Ret a) => k a end.

(** [let?] sequences results, [let!] computations that may panic, [let!?] a
    computation that may panic around an [Option] (Rust's [?] inside a function
    returning [Option]), and [let!!] computations on fuel that may panic. *)
Declare Scope room_scope.
Delimit Scope room_scope with room.

Notation "'let?' x ':=' m 'in' k" := (rbind m (fun x => k))
  (at level 10, x pattern, m at level 100, k at level 200) : room_scope.
Notation "'let!' x ':=' m 'in' k" := (cbind m (fun x => k))
  (at level 10, x pattern, m at level 100, k at level 200) : room_scope.
Notation "'let!?' x ':=' m 'in' k" :=
  (cbind m (fun o => match o with Some x => k | None => Ret None end))
  (at level 10, x name, m at level 100, k at level 200) : room_scope.
Notation "'let!!' x ':=' m 'in' k" := (ocbind m (fun x => k))
  (at level 10, x pattern, m at level 100, k at level 200) : room_scope.
#[global] Open Scope room_scope.

(** * Machine integers *)

(** [fits w z]: z is a value of the unsigned w-bit type. *)
Definition fits (w z : Z) : Prop := 0 <= z < 2 ^ w.
Definition fitsb (w z : Z) : bool := (0 <=? z) && (z <? 2 ^ w).
Definition is_byte (b : Z) : Prop := fits 8 b.

(** [wrap w z]: the w-bit two's complement truncation ([as uN]). *)
Definition wrap (w z : Z) : Z := z mod 2 ^ w.
Definition wrapping_add (w a b : Z) : Z := wrap w (a + b).
Definition wrapping_sub (w a b : Z) : Z := wrap w (a - b).
Definition saturating_sub (a b : Z) : Z := Z.max 0 (a - b).
Definition saturating_add (w a b : Z) : Z := Z.min (2 ^ w - 1) (a + b).

(** [as iN]: the signed reading of the low w bits. *)
Definition signed_wrap (w z : Z) : Z :=
  let r := wrap w z in if r <? 2 ^ (w - 1) then r else r - 2 ^ w.

(** Plain arithmetic on uN and iN: in a build with overflow checks ([cargo build],
    [cargo test]) a result that does not fit panics, in one without
    ([--release]) it wraps. *)
Definition checked (checks : bool) (w z : Z) : comp Z :=
  if fitsb w z then Ret z else if checks then Panic else Ret (wrap w z).
Definition signed_fitsb (w z : Z) : bool := (- 2 ^ (w - 1) <=? z) && (z <? 2 ^ (w - 1)).
Definition checked_signed (checks : bool) (w z : Z) : comp Z :=
  if signed_fitsb w z then Ret z else if checks then Panic else Ret (signed_wrap w z).

(** * Big-endian byte encodings ([to_be_bytes] / [from_be_bytes]) *)

Fixpoint to_be (n : nat) (z : Z) : bytes :=
  match n with
  | O => []
  | S n' => to_be n' (z / 256) ++ [z mod 256]
  end.

Definition from_be (l : bytes) : Z := foldl (fun acc b => acc * 256 + b) 0 l.

(** * Checked indexing and slicing *)

(** [&l[lo..hi]]: panics unless lo <= hi <= len. *)
Definition slice {A} (lo hi : nat) (l : list A) : comp (list A) :=
  if (lo <=? hi)%nat && (hi <=? length l)%nat
  then Ret (take (hi - lo) (drop lo l)) else Panic.

(** [&l[lo..]] *)
Definition slice_from {A} (lo : nat) (l : list A) : comp (list A) :=
  slice lo (length l) l.

(** [l[i]] *)
Definition index {A} (l : list A) (i : nat) : comp A :=
  match l !! i with Some a => Ret a | None => Panic end.

(** [data[lo..hi].try_into().ok()] for an array of [n] bytes. *)
Definition array_at (n lo hi : nat) (data : bytes) : comp (option bytes) :=
  let! s := slice lo hi data in
  Ret (if (length s =? n)%nat then Some s else None).

(** [slice.starts_with(p)] *)
Fixpoint starts_with (p l : bytes) : bool :=
  match p, l with
  | [], _ => true
  | x :: p', y :: l' => (x =? y) && starts_with p' l'
  | _ :: _, [] => false
  end.

(** * Equality on the shared types *)

#[global] Instance result_eq_dec {A E} `{EqDecision A, EqDecision E} : EqDecision (result A E).
Proof. solve_decision. Defined.

#[global] Instance comp_eq_dec {A} `{EqDecision A} : EqDecision (comp A).
Proof. solve_decision. Defined.

#[global] Instance fits_dec w z : Decision (fits w z).
Proof. unfold fits. apply _. Defined.

(** * Hint databases and tactics *)

Create HintDb room discriminated.
Create Rewrite HintDb room.

(** Unfold the width predicates and finish with linear arithmetic. *)
Ltac width := unfold is_byte, fits, wrap in *; lia.

(** Case analysis on the boolean comparisons of the goal or the context,
    keeping their propositional content. *)
Ltac case_bool :=
  match goal with
  | |- context [Z.leb ?a ?b] => destruct (Z.leb_spec a b)
  | |- context [Z.ltb ?a ?b] => destruct (Z.ltb_spec a b)
  | |- context [Z.eqb ?a ?b] => destruct (Z.eqb_spec a b)
  | |- context [Nat.leb ?a ?b] => destruct (Nat.leb_spec a b)
  | |- context [Nat.ltb ?a ?b] => destruct (Nat.ltb_spec a b)
  | |- context [Nat.eqb ?a ?b] => destruct (Nat.eqb_spec a b)
  | H : context [Z.leb ?a ?b] |- _ => destruct (Z.leb_spec a b)
  | H : context [Z.ltb ?a ?b] |- _ => destruct (Z.ltb_spec a b)
  | H : context [Z.eqb ?a ?b] |- _ => destruct (Z.eqb_spec a b)
  | H : context [Nat.leb ?a ?b] |- _ => destruct (Nat.leb_spec a b)
  | H : context [Nat.ltb ?a ?b] |- _ => destruct (Nat.ltb_spec a b)
  | H : context [Nat.eqb ?a ?b] |- _ => destruct (Nat.eqb_spec a b)
  end.

(** Membership in concrete lists, their maps and concatenations. *)
Ltac elems :=
  repeat (progress (rewrite ?fmap_app, ?elem_of_app, ?elem_of_cons, ?list_elem_of_singleton, ?elem_of_nil; simpl));
  tauto.

(** * Lemmas on machine integers *)

Lemma pow2_pos w : 0 <= w -> 0 < 2 ^ w.
Proof. intros. apply Z.pow_pos_nonneg; lia. Qed.

Lemma wrap_fits w z : 0 <= w -> fits w (wrap w z).
Proof. intros Hw. apply Z.mod_pos_bound, pow2_pos, Hw. Qed.

Lemma wrap_id w z : fits w z -> wrap w z = z.
Proof. apply Z.mod_small. Qed.

Lemma fitsb_spec w z : fitsb w z = true <-> fits w z.
Proof. unfold fitsb, fits. rewrite andb_true_iff, Z.leb_le, Z.ltb_lt. done. Qed.

Lemma signed_wrap_id w z : 0 < w -> - 2 ^ (w - 1) <= z < 2 ^ (w - 1) -> signed_wrap w z = z.
Proof.
  intros Hw Hz. assert (2 ^ w = 2 * 2 ^ (w - 1)) by (rewrite <-Z.pow_succ_r by lia; f_equal; lia).
  unfold signed_wrap, wrap. destruct (Z.le_gt_cases 0 z).
  - rewrite Z.mod_small by lia. by rewrite (proj2 (Z.ltb_lt _ _)) by lia.
  - rewrite <-(Z.mod_add z 1) by lia. rewrite Z.mod_small by lia. rewrite (proj2 (Z.ltb_ge _ _)) by lia. lia.
Qed.

(** What checked arithmetic returns is what wrapping arithmetic does. *)
Lemma checked_ret checks w z z' : checked checks w z = Ret z' -> z' = wrap w z.
Proof.
  unfold checked. destruct (fitsb w z) eqn:E; [intros [= <-]; symmetry; apply wrap_id; by apply fitsb_spec|].
  destruct checks; [done|]. by intros [= <-].
Qed.
Lemma checked_fits checks w z : fits w z -> checked checks w z = Ret z.
Proof. intros Hz%fitsb_spec. unfold checked. by rewrite Hz. Qed.
Lemma checked_panic checks w z : checked checks w z = Panic <-> checks = true /\ ~ fits w z.
Proof. rewrite <-fitsb_spec. unfold checked. destruct (fitsb w z), checks; split; try done; by intros []. Qed.
Lemma checked_signed_ret checks w z z' : 0 < w -> checked_signed checks w z = Ret z' -> z' = signed_wrap w z.
Proof.
  intros Hw. unfold checked_signed, signed_fitsb. destruct (_ && _) eqn:E.
  - intros [= <-]. symmetry. apply signed_wrap_id; [done|]. apply andb_true_iff in E. lia.
  - destruct checks; [done|]. by intros [= <-].
Qed.
Lemma checked_signed_fits checks w z : - 2 ^ (w - 1) <= z < 2 ^ (w - 1) -> checked_signed checks w z = Ret z.
Proof. intros Hz. unfold checked_signed, signed_fitsb. by rewrite (proj2 (Z.leb_le _ _)), (proj2 (Z.ltb_lt _ _)) by lia. Qed.

Lemma byte_mod z : is_byte (z mod 256).
Proof. apply (Z.mod_pos_bound z 256). lia. Qed.

#[export] Hint Resolve wrap_fits byte_mod : room.

(** * Lemmas on big-endian encodings *)

Lemma length_to_be n z : length (to_be n z) = n.
Proof. revert z. induction n as [|n IH]; intros z; simpl; [done|]. rewrite length_app, IH. simpl. lia. Qed.

Lemma to_be_1 z : to_be 1 z = [z mod 256].
Proof. done. Qed.

Lemma to_be_bytes n z : Forall is_byte (to_be n z).
Proof.
  revert z. induction n as [|n IH]; intros z; simpl; [constructor|].
  apply Forall_app. split; [apply IH|]. constructor; [apply byte_mod | constructor].
Qed.

Lemma from_be_snoc l b : from_be (l ++ [b]) = from_be l * 256 + b.
Proof. unfold from_be. by rewrite foldl_app. Qed.

Lemma from_to_be n z : from_be (to_be n z) = z mod 2 ^ (8 * Z.of_nat n).
Proof.
  revert z. induction n as [|n IH]; intros z; [by rewrite Z.mod_1_r|].
  simpl to_be. rewrite from_be_snoc, IH.
  replace (8 * Z.of_nat (S n)) with (8 + 8 * Z.of_nat n) by lia.
  rewrite Z.pow_add_r by lia. change (2 ^ 8) with 256.
  rewrite Z.rem_mul_r by (try apply Z.pow_nonzero; lia). lia.
Qed.

Lemma from_to_be_id n z : fits (8 * Z.of_nat n) z -> from_be (to_be n z) = z.
Proof. intros H. rewrite from_to_be. by apply Z.mod_small. Qed.

Lemma to_from_be l : Forall is_byte l -> to_be (length l) (from_be l) = l.
Proof.
  induction l as [|b l IH] using rev_ind; [done|].
  intros [Hl Hb]%Forall_app. inversion_clear Hb as [|? ? Hb' _].
  rewrite length_app, Nat.add_1_r, from_be_snoc. simpl.
  rewrite Z.div_add_l, Z.div_small, Z.add_0_r by width.
  rewrite IH by done. do 2 f_equal.
  rewrite Z.add_comm, Z.mod_add, Z.mod_small by width. done.
Qed.

Lemma to_from_be_n n l : length l = n -> Forall is_byte l -> to_be n (from_be l) = l.
Proof. intros <-. apply to_from_be. Qed.

Lemma from_be_fits l : Forall is_byte l -> fits (8 * Z.of_nat (length l)) (from_be l).
Proof.
  intros H. rewrite <-(to_from_be l H) at 2. rewrite from_to_be.
  apply Z.mod_pos_bound, pow2_pos. lia.
Qed.

#[export] Hint Rewrite length_to_be : room.
#[export] Hint Resolve to_be_bytes from_be_fits : room.

(** * Lemmas on slices *)

Lemma slice_ok {A} lo hi (l : list A) :
  (lo <= hi)%nat -> (hi <= length l)%nat -> slice lo hi l = Ret (take (hi - lo) (drop lo l)).
Proof. intros. unfold slice. do 2 case_bool; try lia. done. Qed.

Lemma slice_prefix {A} lo hi (a l : list A) :
  lo = 0%nat -> hi = length a -> slice lo hi (a ++ l) = Ret a.
Proof.
  intros -> ->. rewrite slice_ok by (rewrite ?length_app; lia).
  rewrite drop_0, Nat.sub_0_r, take_app_length. done.
Qed.

Lemma slice_skip {A} lo hi (a l : list A) :
  (length a <= lo)%nat -> (length a <= hi)%nat ->
  slice lo hi (a ++ l) = slice (lo - length a) (hi - length a) l.
Proof.
  intros Hlo Hhi. unfold slice. rewrite length_app.
  repeat case_bool; simpl; try lia; try done.
  rewrite drop_app_ge by done. do 2 f_equal. lia.
Qed.

Lemma slice_from_skip {A} lo (a l : list A) :
  (length a <= lo)%nat -> slice_from lo (a ++ l) = slice_from (lo - length a) l.
Proof.
  intros Hlo. unfold slice_from. rewrite slice_skip by (rewrite ?length_app; lia).
  rewrite length_app. f_equal. lia.
Qed.

Lemma slice_from_0 {A} lo (l : list A) : lo = 0%nat -> slice_from lo l = Ret l.
Proof.
  intros ->. unfold slice_from. rewrite slice_ok by lia.
  by rewrite drop_0, Nat.sub_0_r, take_ge by lia.
Qed.

Lemma index_app_r {A} (a l : list A) i :
  (length a <= i)%nat -> index (a ++ l) i = index l (i - length a).
Proof. intros. unfold index. by rewrite lookup_app_r. Qed.

Lemma index_ok {A} (l : list A) i : (i < length l)%nat -> exists a, index l i = Ret a /\ l !! i = Some a.
Proof.
  intros H. apply lookup_lt_is_Some_2 in H as [a Ha]. exists a. unfold index. by rewrite Ha.
Qed.

(** Compute a slice or an index of a concatenation whose parts have known
    lengths: skip the parts before it, then take the part it covers. *)
Ltac slices :=
  repeat first
    [ rewrite slice_skip by (rewrite ?length_to_be; simpl; lia)
    | rewrite slice_from_skip by (rewrite ?length_to_be; simpl; lia)
    | rewrite index_app_r by (rewrite ?length_to_be; simpl; lia)
    | progress rewrite ?length_to_be
    | rewrite slice_prefix by (rewrite ?length_to_be; simpl; lia)
    | rewrite slice_from_0 by (rewrite ?length_to_be; simpl; lia)
    | progress simpl ].

(** * Lemmas on arrays taken from slices *)

Lemma array_at_skip n lo hi a l :
  (length a <= lo)%nat -> (length a <= hi)%nat ->
  array_at n lo hi (a ++ l) = array_at n (lo - length a) (hi - length a) l.
Proof. intros. unfold array_at. by rewrite slice_skip. Qed.

Lemma array_at_prefix n lo hi a l :
  lo = 0%nat -> hi = n -> length a = n -> array_at n lo hi (a ++ l) = Ret (Some a).
Proof. intros -> -> <-. unfold array_at. rewrite slice_prefix by done. simpl. by rewrite Nat.eqb_refl. Qed.

Lemma array_at_total n lo hi data :
  (lo + n = hi)%nat -> (hi <= length data)%nat ->
  array_at n lo hi data = Ret (Some (take n (drop lo data))).
Proof.
  intros H1 H2. unfold array_at. rewrite slice_ok by lia. simpl.
  rewrite length_take, length_drop. replace (hi - lo)%nat with n by lia.
  by rewrite (proj2 (Nat.eqb_eq _ _)) by lia.
Qed.

(** * Circular indices *)

Lemma mod_small_or_wrap n i d :
  (i < n)%nat -> (d <= n)%nat -> ((i + d) mod n = if i + d <? n then i + d else i + d - n)%nat.
Proof.
  intros Hi Hd. case_bool; [by apply Nat.mod_small|].
  rewrite <-(Nat.mod_small (i + d - n) n) by lia.
  replace (i + d)%nat with (i + d - n + 1 * n)%nat at 1 by lia. apply Nat.Div0.mod_add.
Qed.

Lemma mod_step n i d : (((i + 1) mod n + d) mod n = (i + S d) mod n)%nat.
Proof. rewrite Nat.Div0.add_mod_idemp_l. f_equal. lia. Qed.

Lemma Zmod_small_or_wrap n r d :
  0 < n -> 0 <= d < n -> (r + d) mod n = if r mod n + d <? n then r mod n + d else r mod n + d - n.
Proof.
  intros Hn Hd. pose proof (Z.mod_pos_bound r n Hn). rewrite <-Zplus_mod_idemp_l. case_bool.
  - apply Z.mod_small. lia.
  - rewrite <-(Z.mod_small (r mod n + d - n) n) by lia.
    replace (r mod n + d) with (r mod n + d - n + 1 * n) at 1 by lia. apply Z.mod_add. lia.
Qed.

(** Distinct integers of an interval are no more than its length. *)
Lemma NoDup_Z_bound (l : list Z) a b :
  NoDup l -> (forall x, x ∈ l -> a <= x <= b) -> a <= b + 1 -> Z.of_nat (length l) <= b - a + 1.
Proof.
  intros Hnd Hr Hab. assert (Hs : l ⊆+ seqZ a (b - a + 1)).
  { apply NoDup_submseteq; [done|]. intros x Hx. apply elem_of_seqZ. specialize (Hr x Hx). lia. }
  apply submseteq_length in Hs. rewrite length_seqZ in Hs. lia.
Qed.
