(* ===== verification/RtpPacket.v ===== *)
(** The RTP-like media packet of src/transport/rtp/rtp_packet.rs: the record,
    its 33-byte header layout ([to_bytes]) and its decoder ([from_bytes], whose
    slicing may panic in principle).  The theorems: encode/decode round trip,
    decode/encode canonicity, and that the decoder never panics and rejects
    exactly the inputs shorter than the header. *)

From S2P Require Import Prelude.

Record RtpPacket := mk_packet {
  version : Z;          (* u8 *)
  marker : Z;           (* u8 *)
  total_chunks : Z;     (* u8 *)
  is_i_frame : bool;
  payload_type : Z;     (* u8 *)
  sequence_number : Z;  (* u64 *)
  timestamp : Z;        (* u128 *)
  ssrc : Z;             (* u32 *)
  payload : bytes
}.

(** [#[derive(Default)]] *)
Definition default : RtpPacket :=
  mk_packet 0 0 0 false 0 0 0 0 [].

Definition to_bytes (p : RtpPacket) : bytes :=
  [wrap 8 (Z.shiftl (version p) 6)] ++ [marker p] ++ to_be 1 (total_chunks p) ++
  [Z.b2z (is_i_frame p)] ++ [payload_type p] ++ to_be 8 (sequence_number p) ++
  to_be 16 (timestamp p) ++ to_be 4 (ssrc p) ++ payload p.

Definition array_from_slice (N : nat) (s : bytes) : comp bytes := slice 0 N s.

Definition from_bytes (data : bytes) : comp (option RtpPacket) :=
  if (length data <? 33)%nat then Ret None else
  let! b0 := index data 0 in
  let version := Z.shiftr b0 6 in
  let! marker := index data 1 in
  let! total_chunks := index data 2 in
  let! is_i_frame := index data 3 in
  let! payload_type := index data 4 in
  let! s := slice 5 13 data in
  let! sequence_number := array_from_slice 8 s in
  let! s := slice 13 29 data in
  let! timestamp := array_from_slice 16 s in
  let! s := slice 29 33 data in
  let! ssrc := array_from_slice 4 s in
  let! payload := slice_from 33 data in
  Ret (Some (mk_packet version marker total_chunks (negb (is_i_frame =? 0)) payload_type
    (from_be sequence_number) (from_be timestamp) (from_be ssrc) payload)).

(** The values a packet of the program can hold: every field in its type. *)
Record wf (p : RtpPacket) : Prop := mk_wf {
  wf_version : fits 8 (version p);
  wf_marker : fits 8 (marker p);
  wf_chunks : fits 8 (total_chunks p);
  wf_type : fits 8 (payload_type p);
  wf_seq : fits 64 (sequence_number p);
  wf_ts : fits 128 (timestamp p);
  wf_ssrc : fits 32 (ssrc p);
  wf_payload : Forall is_byte (payload p)
}.

#[global] Instance RtpPacket_eq_dec : EqDecision RtpPacket.
Proof. solve_decision. Defined.

(** * Lemmas *)

Lemma array_from_slice_full N s : length s = N -> array_from_slice N s = Ret s.
Proof. intros <-. unfold array_from_slice. rewrite slice_ok by lia. by rewrite Nat.sub_0_r, drop_0, take_ge. Qed.

(** The version byte keeps two bits. *)
Lemma version_byte v : Z.shiftr (wrap 8 (Z.shiftl v 6)) 6 = v mod 4.
Proof.
  unfold wrap. rewrite Z.shiftl_mul_pow2, Z.shiftr_div_pow2 by lia.
  change (2 ^ 8) with 256. change (2 ^ 6) with 64.
  Z.to_euclidean_division_equations. lia.
Qed.

Lemma version_byte_back b :
  is_byte b -> b mod 64 = 0 -> wrap 8 (Z.shiftl (Z.shiftr b 6) 6) = b.
Proof.
  intros Hb H. unfold is_byte, fits, wrap in *. rewrite Z.shiftl_mul_pow2, Z.shiftr_div_pow2 by lia.
  change (2 ^ 8) with 256 in *. change (2 ^ 6) with 64.
  Z.to_euclidean_division_equations. lia.
Qed.

(** A decoder reading the fixed layout of [to_bytes] gets each field back. *)
Lemma from_bytes_layout b0 m c i t sb tb rb pl :
  length sb = 8%nat -> length tb = 16%nat -> length rb = 4%nat ->
  from_bytes (b0 :: m :: c :: i :: t :: sb ++ tb ++ rb ++ pl) =
  Ret (Some (mk_packet (Z.shiftr b0 6) m c (negb (i =? 0)) t (from_be sb) (from_be tb) (from_be rb) pl)).
Proof.
  intros Hs Ht Hr.
  change (b0 :: m :: c :: i :: t :: sb ++ tb ++ rb ++ pl)
    with ([b0; m; c; i; t] ++ sb ++ tb ++ rb ++ pl).
  unfold from_bytes. rewrite !length_app. rewrite (proj2 (Nat.ltb_ge _ _)) by (simpl; lia).
  assert (Hi : forall k x l, [b0; m; c; i; t] !! k = Some x -> index ([b0; m; c; i; t] ++ l) k = Ret x).
  { intros k x l E. unfold index. by rewrite (lookup_app_l_Some _ _ _ _ E). }
  rewrite !(Hi 0%nat b0), !(Hi 1%nat m), !(Hi 2%nat c), !(Hi 3%nat i), !(Hi 4%nat t) by done.
  cbn [cbind]. rewrite slice_skip by (simpl; lia).
  rewrite slice_prefix by (simpl; lia). cbn [cbind].
  rewrite array_from_slice_full by done. cbn [cbind].
  do 2 rewrite slice_skip by (simpl; lia).
  rewrite slice_prefix by (simpl; lia). cbn [cbind].
  rewrite array_from_slice_full by done. cbn [cbind].
  do 3 rewrite slice_skip by (simpl; lia).
  rewrite slice_prefix by (simpl; lia). cbn [cbind].
  rewrite array_from_slice_full by done. cbn [cbind].
  do 4 rewrite slice_from_skip by (simpl; lia).
  by rewrite slice_from_0 by (simpl; lia).
Qed.

(** Every input of at least 33 bytes has that layout. *)
Lemma split_header (data : bytes) :
  (33 <= length data)%nat ->
  exists b0 m c i t sb tb rb pl,
    data = b0 :: m :: c :: i :: t :: sb ++ tb ++ rb ++ pl /\
    length sb = 8%nat /\ length tb = 16%nat /\ length rb = 4%nat.
Proof.
  intros H. do 5 (destruct data as [|? data]; [simpl in H; lia|]). simpl in H.
  eexists _, _, _, _, _, (take 8 data), (take 16 (drop 8 data)),
    (take 4 (drop 16 (drop 8 data))), (drop 4 (drop 16 (drop 8 data))).
  rewrite !take_drop. split; [done|]. rewrite !length_take, !length_drop. lia.
Qed.

Lemma from_bytes_total data :
  Forall is_byte data ->
  exists o, from_bytes data = Ret o /\ (o = None <-> (length data < 33)%nat) /\
    (forall p, o = Some p -> wf p /\ version p < 4).
Proof.
  intros Hb. destruct (decide (length data < 33)%nat) as [Hl|Hl].
  - exists None. unfold from_bytes. case_bool; [|lia]. split_and!; done.
  - destruct (split_header data) as (b0 & m & c & i & t & sb & tb & rb & pl & -> & Hs & Ht & Hr); [lia|].
    eexists. split; [by apply from_bytes_layout|]. split; [split; [done|lia]|].
    intros p [=<-]. repeat (rewrite ?Forall_cons, ?Forall_app in Hb).
    destruct Hb as (H0 & Hm & Hc & Hi & Hty & Hsb & Htb & Hrb & Hpl).
    apply from_be_fits in Hsb, Htb, Hrb. rewrite Hs in Hsb. rewrite Ht in Htb. rewrite Hr in Hrb.
    assert (Hv : 0 <= Z.shiftr b0 6 < 4).
    { unfold is_byte, fits in H0. rewrite Z.shiftr_div_pow2 by lia.
      change (2 ^ 8) with 256 in H0. change (2 ^ 6) with 64. Z.to_euclidean_division_equations. lia. }
    split; [|simpl; lia]. constructor; simpl; try done. split; [lia|]. change (2 ^ 8) with 256. lia.
Qed.

(** Encode then decode. *)
Lemma decode_encode p :
  wf p ->
  from_bytes (to_bytes p) =
  Ret (Some (mk_packet (version p mod 4) (marker p) (total_chunks p) (is_i_frame p) (payload_type p)
    (sequence_number p) (timestamp p) (ssrc p) (payload p))).
Proof.
  intros [Hv Hm Hc Ht Hs Hts Hr Hp]. unfold to_bytes. rewrite to_be_1. cbn [app].
  rewrite from_bytes_layout by apply length_to_be.
  rewrite version_byte, !from_to_be_id by done.
  rewrite (Z.mod_small (total_chunks p)) by done. by destruct (is_i_frame p).
Qed.

(** * Results *)

(** A packet whose fields hold values of their types survives
    serialisation: [to_bytes p] has 33 bytes and the payload, and decoding it
    panics on no slice and returns p with its version truncated to the two bits the layout keeps (so p itself for
    every version below 4). *)
Lemma rtp_roundtrip p :
  wf p ->
  length (to_bytes p) = (33 + length (payload p))%nat /\
  from_bytes (to_bytes p) =
  Ret (Some (mk_packet (version p mod 4) (marker p) (total_chunks p) (is_i_frame p) (payload_type p)
    (sequence_number p) (timestamp p) (ssrc p) (payload p))).
Proof.
  intros Hp. split; [|by apply decode_encode].
  unfold to_bytes. rewrite !length_app, !length_to_be. simpl. lia.
Qed.

(** The decoder is total on byte strings: it never panics, returns [None]
    exactly for inputs shorter than the 33-byte header, and what it returns is
    a well-formed packet; re-encoding it gives the input back exactly when the
    input is canonical (no stray bits in byte 0, a 0/1 flag in byte 3). *)
Lemma rtp_decode_total data :
  Forall is_byte data ->
  exists o, from_bytes data = Ret o /\ (o = None <-> (length data < 33)%nat) /\
    forall p, o = Some p -> wf p /\ version p < 4 /\ length (to_bytes p) = length data /\
      (to_bytes p = data <->
       exists b0 b3, data !! 0%nat = Some b0 /\ data !! 3%nat = Some b3 /\ b0 mod 64 = 0 /\ (b3 = 0 \/ b3 = 1)).
Proof.
  intros Hb. destruct (from_bytes_total data Hb) as (o & Ho & Hn & Hwf). exists o.
  split_and!; [done|done|]. intros p ->. destruct (Hwf p eq_refl) as [Hw Hv]. split; [done|]. split; [done|].
  assert (Hl : (33 <= length data)%nat). { destruct (decide (length data < 33)%nat) as [h|]; [|lia]. by apply Hn in h. }
  clear Hwf. destruct (split_header data Hl) as (b0 & m & c & i & t & sb & tb & rb & pl & -> & Hs & Ht & Hr).
  rewrite from_bytes_layout in Ho by done. injection Ho as <-.
  repeat (rewrite ?Forall_cons, ?Forall_app in Hb). destruct Hb as (H0 & Hm & Hc & Hi & Hty & Hsb & Htb & Hrb & Hpl).
  unfold to_bytes. cbn [version marker total_chunks is_i_frame payload_type sequence_number timestamp ssrc payload].
  rewrite to_be_1, (to_from_be_n 8 sb), (to_from_be_n 16 tb), (to_from_be_n 4 rb) by done.
  cbn [app length lookup list_lookup]. rewrite (Z.mod_small c) by (apply Hc).
  split; [done|]. split.
  - intros [= E0 Ei]. exists b0, i. split_and!; [done..| |].
    + revert E0. unfold wrap. rewrite Z.shiftl_mul_pow2 by lia. change (2 ^ 8) with 256. change (2 ^ 6) with 64.
      intros. Z.to_euclidean_division_equations. lia.
    + destruct (i =? 0); simpl in Ei; lia.
  - intros (b & b' & [= ->] & [= ->] & Hb0 & Hb3). rewrite version_byte_back by done.
    do 3 f_equal. destruct Hb3 as [-> | ->]; done.
Qed.
