(* ===== verification/JitterBuffer.v ===== *)
(** The receive-side jitter buffer of src/transport/jitter_buffer/jitter.rs and
    the receiver statistics it maintains (src/transport/rtcp/metrics.rs).

    A buffer of capacity [N] is a record with the source's fields; every method
    is a function on it.  The clock is read through explicit arguments: [add]
    takes the arrival reading of [update_stats], [pop] takes the readings
    [clk 0], [clk 1], ... of the deadline tests of [prepare_next_frame_ts] and
    the reading [now] of [synchronize_playout].  The operations take the build as
    an argument: with [checks] an arithmetic operation that does not fit its type
    panics ([Panic]), without it wraps.  The two source loops that are not bounded
    by a [for] run on fuel, whose end is [None]; [prepare_next_frame_ts_total] and
    [advance_read_pointers_total] show that the fuel chosen always suffices.
    [count_packet], [update_stats], [add] and [synchronize_playout] come with the
    pure functions [counted_packet], [after_stats], [after_add] and [synchronized],
    which give what they return when they do not panic.
    Array accesses are [slot], whose out-of-range default is never reached: the
    invariant [wf] keeps both indices below [N].  The logger and the write-only
    field [last_arrival] are left out. *)

From S2P Require Import Prelude.
From S2P Require Import RtpPacket.

Definition TOLERANCE_MILLIS : Z := 120.

Record SenderStats := mk_sender_stats {
  packets_sent : Z;   (* u32 *)
  bytes_sent : Z      (* u64 *)
}.

Record ReceiverStats := mk_receiver_stats {
  packets_received : Z;  (* u32 *)
  packets_lost : Z;      (* u32 *)
  jitter : Z             (* u32 *)
}.

Record JitterBuffer := mk_buffer {
  packets : list (option RtpPacket);
  read_idx : nat;
  write_idx : nat;
  read_seq : option Z;                      (* u64 *)
  write_seq : option Z;                     (* u64 *)
  i_frame_needed : bool;
  last_frame_completed_timestamp : Z;       (* u128 *)
  last_deliver_timestamp : Z;               (* u128 *)
  metrics : ReceiverStats;                  (* behind the mutex *)
  metrics_poisoned : bool;                  (* the mutex is poisoned *)
  last_transit : option Z;                  (* i64 *)
  max_seq_seen : Z                          (* u64 *)
}.

(** Field updates ([self.f = v]). *)
Definition set_packets v s := mk_buffer v (read_idx s) (write_idx s) (read_seq s) (write_seq s)
  (i_frame_needed s) (last_frame_completed_timestamp s) (last_deliver_timestamp s) (metrics s)
  (metrics_poisoned s) (last_transit s) (max_seq_seen s).
Definition set_read i q s := mk_buffer (packets s) i (write_idx s) q (write_seq s)
  (i_frame_needed s) (last_frame_completed_timestamp s) (last_deliver_timestamp s) (metrics s)
  (metrics_poisoned s) (last_transit s) (max_seq_seen s).
Definition set_write i q s := mk_buffer (packets s) (read_idx s) i (read_seq s) q
  (i_frame_needed s) (last_frame_completed_timestamp s) (last_deliver_timestamp s) (metrics s)
  (metrics_poisoned s) (last_transit s) (max_seq_seen s).
Definition set_i_frame_needed b s := mk_buffer (packets s) (read_idx s) (write_idx s) (read_seq s) (write_seq s)
  b (last_frame_completed_timestamp s) (last_deliver_timestamp s) (metrics s)
  (metrics_poisoned s) (last_transit s) (max_seq_seen s).
Definition set_completed t s := mk_buffer (packets s) (read_idx s) (write_idx s) (read_seq s) (write_seq s)
  (i_frame_needed s) t (last_deliver_timestamp s) (metrics s)
  (metrics_poisoned s) (last_transit s) (max_seq_seen s).
Definition set_delivered t s := mk_buffer (packets s) (read_idx s) (write_idx s) (read_seq s) (write_seq s)
  (i_frame_needed s) (last_frame_completed_timestamp s) t (metrics s)
  (metrics_poisoned s) (last_transit s) (max_seq_seen s).
Definition set_stats m q t s := mk_buffer (packets s) (read_idx s) (write_idx s) (read_seq s) (write_seq s)
  (i_frame_needed s) (last_frame_completed_timestamp s) (last_deliver_timestamp s) m
  (metrics_poisoned s) t q.

(** [self.packets[i]] *)
Definition slot (s : JitterBuffer) (i : nat) : option RtpPacket := mjoin (packets s !! i).
(** [self.packets[i] = v] *)
Definition set_slot (i : nat) (v : option RtpPacket) (s : JitterBuffer) : JitterBuffer :=
  set_packets (<[i := v]> (packets s)) s.

(** The RFC 3550 estimator of [update_stats]: prev + (d - prev) / 16 on f64,
    then [as u32] (truncating, saturating).  The f64 computation is exact for
    d below 2^48, and beyond that both it and this value saturate. *)
Definition next_jitter (prev d : Z) : Z :=
  Z.max 0 (Z.min (2 ^ 32 - 1) ((15 * prev + d) / 16)).

Section Arithmetic.
Context (checks : bool).

(** The loss accounting of [update_stats]: the new statistics and [max_seq_seen]. *)
Definition count_packet (m : ReceiverStats) (max_seen seq : Z) : comp (ReceiverStats * Z) :=
  let! received := checked checks 32 (packets_received m + 1) in
  if received =? 1 then Ret (mk_receiver_stats received (packets_lost m) (jitter m), seq)
  else if max_seen <? seq then
    let gap := seq - max_seen - 1 in
    if (0 <? gap) && (gap <? 1000) then
      let! lost := checked checks 32 (packets_lost m + gap) in
      Ret (mk_receiver_stats received lost (jitter m), seq)
    else Ret (mk_receiver_stats received (packets_lost m) (jitter m), seq)
  else if 0 <? packets_lost m then
    Ret (mk_receiver_stats received (packets_lost m - 1) (jitter m), max_seen)
  else Ret (mk_receiver_stats received (packets_lost m) (jitter m), max_seen).

Definition update_stats (arrival : Z) (p : RtpPacket) (s : JitterBuffer) : comp JitterBuffer :=
  if metrics_poisoned s then Ret s else
  let! (m, seen) := count_packet (metrics s) (max_seq_seen s) (sequence_number p) in
  let! transit := checked_signed checks 64 (signed_wrap 64 arrival - signed_wrap 64 (timestamp p)) in
  let! m :=
    match last_transit s with
    | Some last =>
        let! diff := checked_signed checks 64 (transit - last) in
        let! d := checked_signed checks 64 (Z.abs diff) in
        Ret (mk_receiver_stats (packets_received m) (packets_lost m) (next_jitter (jitter m) d))
    | None => Ret m
    end in
  Ret (set_stats m seen (Some transit) s).

Definition synchronize_playout (now : Z) (p : RtpPacket) (s : JitterBuffer) : comp JitterBuffer :=
  if negb (last_deliver_timestamp s =? 0) then
    let delta_rtp := saturating_sub (timestamp p) (last_frame_completed_timestamp s) in
    let! expected := checked checks 128 (last_deliver_timestamp s + delta_rtp) in
    Ret (set_delivered expected s)
  else Ret (set_delivered now s).

Definition valid_playout_time (actual : Z) (frame_timestamp : Z) (s : JitterBuffer) : comp bool :=
  if last_deliver_timestamp s =? 0 then Ret true else
  let! delta_rtp := checked checks 128 (frame_timestamp - last_frame_completed_timestamp s) in
  let! expected := checked checks 128 (last_deliver_timestamp s + delta_rtp) in
  let! deadline := checked checks 128 (expected + TOLERANCE_MILLIS) in
  Ret (actual <=? deadline).

End Arithmetic.

(** The reset shared by both ends of [resync_or_clear]. *)
Definition reset_pointers (s : JitterBuffer) : JitterBuffer :=
  set_i_frame_needed true (set_write 0 None (set_read 0 None s)).

Section Buffer.
Context (checks : bool) (N : nat).

Definition new : JitterBuffer :=
  mk_buffer (replicate N None) 0 0 None None true 0 0 (mk_receiver_stats 0 0 0) false None 0.

(** [(idx + 1) % N] *)
Definition next (i : nat) : nat := ((i + 1) mod N)%nat.

(** [(seq % N as u64) as usize] *)
Definition pos_of (seq : Z) : nat := Z.to_nat (seq mod Z.of_nat N).

Definition valid_packet_seq_num (seq_num : Z) (s : JitterBuffer) : bool :=
  match slot s (read_idx s) with
  | Some read_packet =>
      let window := Z.of_nat (read_idx s + N - write_idx s) in
      if seq_num <? window then true
      else wrapping_sub 64 (sequence_number read_packet) window <? seq_num
  | None => true
  end.

(** The test of [should_discard_packet] after [update_stats]. *)
Definition should_discard (p : RtpPacket) (s : JitterBuffer) : bool :=
  if i_frame_needed s && negb (is_i_frame p) then true
  else if timestamp p <? last_frame_completed_timestamp s then true
  else negb (valid_packet_seq_num (sequence_number p) s).

Definition should_discard_packet (arrival : Z) (p : RtpPacket) (s : JitterBuffer) : comp (bool * JitterBuffer) :=
  let! s := update_stats checks arrival p s in Ret (should_discard p s, s).

(** The scan of [resync_or_clear]: [true] when it stopped at an I-frame. *)
Fixpoint resync_scan (n : nat) (read_timestamp : Z) (s : JitterBuffer) : bool * JitterBuffer :=
  match n with
  | O => (false, s)
  | S n' =>
    let advance :=
      let s := set_slot (read_idx s) None s in
      if (read_idx s =? write_idx s)%nat then (false, s)
      else resync_scan n' read_timestamp (set_read (next (read_idx s)) (read_seq s) s) in
    match slot s (read_idx s) with
    | Some pkt =>
        if is_i_frame pkt && negb (timestamp pkt =? read_timestamp)
        then (true, set_i_frame_needed false (set_read (read_idx s) (Some (sequence_number pkt)) s))
        else advance
    | None => advance
    end
  end.

Definition resync_or_clear (s : JitterBuffer) : JitterBuffer :=
  match slot s (read_idx s) with
  | None => reset_pointers s
  | Some pkt =>
      let '(found, s) := resync_scan N (timestamp pkt) s in
      if found then s else reset_pointers s
  end.

Definition handle_new_write_head (seq : Z) (pos : nat) (s : JitterBuffer) : JitterBuffer :=
  let old_write_idx := write_idx s in
  let s := set_write pos (Some seq) s in
  let collided :=
    if (read_idx s <=? old_write_idx)%nat
    then (read_idx s <=? pos)%nat && (pos <=? old_write_idx)%nat
    else (read_idx s <=? pos)%nat || (pos <=? old_write_idx)%nat in
  if collided then resync_or_clear s else s.

Definition initialize_buffer (p : RtpPacket) (pos : nat) (s : JitterBuffer) : JitterBuffer :=
  let seq := sequence_number p in
  set_i_frame_needed false (set_slot pos (Some p) (set_write pos (Some seq) (set_read pos (Some seq) s))).

(** The rest of [add], for a packet that is not discarded. *)
Definition store (p : RtpPacket) (s : JitterBuffer) : JitterBuffer :=
  let seq := sequence_number p in
  let pos := pos_of seq in
  match read_seq s, write_seq s with
  | Some read, Some write =>
      let s :=
        if seq <? read then set_read pos (Some seq) s
        else if write <? seq then handle_new_write_head seq pos s
        else s in
      set_slot pos (Some p) s
  | _, _ => initialize_buffer p pos s
  end.

Definition add (arrival : Z) (p : RtpPacket) (s : JitterBuffer) : comp JitterBuffer :=
  let! (discard, s) := should_discard_packet arrival p s in
  Ret (if discard then s else store p s).

(** [None]: out of fuel. *)
Fixpoint prepare_loop (fuel : nat) (clk : nat -> Z) (s : JitterBuffer) : option (comp (option Z * JitterBuffer)) :=
  match fuel with
  | O => None
  | S fuel' =>
    match slot s (read_idx s) with
    | None => Some (Ret (None, s))
    | Some pkt =>
        let ts := timestamp pkt in
        let!! valid := Some (valid_playout_time checks (clk 0%nat) ts s) in
        if valid : bool then Some (Ret (Some ts, s))
        else
          let s := resync_or_clear s in
          match write_seq s, read_seq s with
          | Some _, Some _ => prepare_loop fuel' (fun k => clk (S k)) s
          | _, _ => Some (Ret (None, s))
          end
    end
  end.

Definition prepare_next_frame_ts (clk : nat -> Z) (s : JitterBuffer) : option (comp (option Z * JitterBuffer)) :=
  prepare_loop (S N) clk s.

(** The [while] of [advance_read_pointers]. *)
Fixpoint clear_until (fuel : nat) (target_idx : nat) (s : JitterBuffer) : option JitterBuffer :=
  if (read_idx s =? target_idx)%nat then Some s else
  match fuel with
  | O => None
  | S fuel' =>
      let s := set_slot (read_idx s) None s in
      clear_until fuel' target_idx (set_read (next (read_idx s)) (read_seq s) s)
  end.

(** The [for] of [advance_read_pointers]: [true] when a packet was found. *)
Fixpoint find_next (n : nat) (s : JitterBuffer) : bool * JitterBuffer :=
  match n with
  | O => (false, s)
  | S n' =>
      match slot s (read_idx s) with
      | Some next_p => (true, set_read (read_idx s) (Some (sequence_number next_p)) s)
      | None => find_next n' (set_read (next (read_idx s)) (read_seq s) s)
      end
  end.

Definition advance_read_pointers (target_idx : nat) (s : JitterBuffer) : option JitterBuffer :=
  match clear_until N target_idx s with
  | None => None
  | Some s =>
      let '(found, s) := find_next N s in
      Some (if found then s else set_write (write_idx s) None (set_read (read_idx s) None s))
  end.

(** The [for] of [pop]: collects chunks from [idx]; [Some (data, idx, last)]
    when the frame is complete, its [last] packet carrying the marker. *)
Fixpoint collect (n : nat) (ts : Z) (idx : nat) (chunks : Z) (acc : bytes) (s : JitterBuffer)
    : option (bytes * nat * RtpPacket) :=
  match n with
  | O => None
  | S n' =>
      match slot s idx with
      | None => None
      | Some packet =>
          if negb (timestamp packet =? ts) then None else
          let acc := acc ++ payload packet in
          let chunks := chunks + 1 in
          let idx := next idx in
          if marker packet =? 1 then
            if chunks =? total_chunks packet then Some (acc, idx, packet) else None
          else collect n' ts idx chunks acc s
      end
  end.

(** The outer [option] is the fuel of the two inner loops. *)
Definition pop (clk : nat -> Z) (now : Z) (s : JitterBuffer) : option (comp (option bytes * JitterBuffer)) :=
  let!! (next, s) := prepare_next_frame_ts clk s in
  match next with
  | None => Some (Ret (None, s))
  | Some ts =>
      match collect N ts (read_idx s) 0 [] s with
      | None => Some (Ret (None, s))
      | Some (frame_data, idx, packet) =>
          match advance_read_pointers idx s with
          | None => None
          | Some s =>
              let!! s := Some (synchronize_playout checks now packet s) in
              let s := set_completed (timestamp packet) s in
              let s := if is_i_frame packet then set_i_frame_needed false s else s in
              Some (Ret (Some frame_data, s))
          end
      end
  end.

(** One turn of the receive loop's buffer work: a packet and the clock readings
    made while it is added and the buffer is polled. *)
Record event := mk_event {
  ev_arrival : Z;
  ev_clk : nat -> Z;
  ev_now : Z;
  ev_packet : RtpPacket
}.

Definition receive_one (e : event) (s : JitterBuffer) : option (comp (option bytes * JitterBuffer)) :=
  let!! s := Some (add (ev_arrival e) (ev_packet e) s) in pop (ev_clk e) (ev_now e) s.

(** The turns of the loop in order, with what each [pop] returned. *)
Fixpoint receive (es : list event) (s : JitterBuffer) : option (comp (list (option bytes) * JitterBuffer)) :=
  match es with
  | [] => Some (Ret ([], s))
  | e :: es =>
      let!! (o, s) := receive_one e s in
      let!! (os, s) := receive es s in
      Some (Ret (o :: os, s))
  end.

(** The states the program can reach. *)
Inductive reachable : JitterBuffer -> Prop :=
| reach_new : reachable new
| reach_add t p s s' : reachable s -> add t p s = Ret s' -> reachable s'
| reach_pop clk now o s s' : reachable s -> pop clk now s = Some (Ret (o, s')) -> reachable s'.

End Buffer.

(** ** The arithmetic of a build without overflow checks

    What the operations return, in any build, is what these give. *)

Definition counted_packet (m : ReceiverStats) (max_seen seq : Z) : ReceiverStats * Z :=
  let received := wrap 32 (packets_received m + 1) in
  if received =? 1 then (mk_receiver_stats received (packets_lost m) (jitter m), seq)
  else if max_seen <? seq then
    let gap := seq - max_seen - 1 in
    (mk_receiver_stats received
      (if (0 <? gap) && (gap <? 1000) then wrap 32 (packets_lost m + gap) else packets_lost m)
      (jitter m), seq)
  else if 0 <? packets_lost m then
    (mk_receiver_stats received (packets_lost m - 1) (jitter m), max_seen)
  else (mk_receiver_stats received (packets_lost m) (jitter m), max_seen).

Definition after_stats (arrival : Z) (p : RtpPacket) (s : JitterBuffer) : JitterBuffer :=
  if metrics_poisoned s then s else
  let '(m, seen) := counted_packet (metrics s) (max_seq_seen s) (sequence_number p) in
  let transit := signed_wrap 64 (signed_wrap 64 arrival - signed_wrap 64 (timestamp p)) in
  let m := match last_transit s with
    | Some last =>
        let d := signed_wrap 64 (Z.abs (signed_wrap 64 (transit - last))) in
        mk_receiver_stats (packets_received m) (packets_lost m) (next_jitter (jitter m) d)
    | None => m
    end in
  set_stats m seen (Some transit) s.

Definition after_add (N : nat) (arrival : Z) (p : RtpPacket) (s : JitterBuffer) : JitterBuffer :=
  let s := after_stats arrival p s in if should_discard N p s then s else store N p s.

Definition synchronized (now : Z) (p : RtpPacket) (s : JitterBuffer) : JitterBuffer :=
  if negb (last_deliver_timestamp s =? 0) then
    set_delivered (wrap 128 (last_deliver_timestamp s + saturating_sub (timestamp p) (last_frame_completed_timestamp s))) s
  else set_delivered now s.

(** The deadline of a frame fits its type; otherwise a checked build panics on it. *)
Definition schedulable (s : JitterBuffer) (ts : Z) : Prop :=
  let delta := ts - last_frame_completed_timestamp s in
  fits 128 delta /\ fits 128 (last_deliver_timestamp s + delta) /\ fits 128 (last_deliver_timestamp s + delta + TOLERANCE_MILLIS).

(** Statistics after at most [k] packets whose arrivals and time stamps [fine]
    bounds: no counter is near its width. *)
Definition fine (arrival ts : Z) : Prop := 0 <= arrival < 2 ^ 62 /\ 0 <= ts < 2 ^ 62.
Definition sparse (k : Z) (s : JitterBuffer) : Prop :=
  0 <= packets_received (metrics s) <= k /\ 0 <= packets_lost (metrics s) <= 1000 * k /\
  match last_transit s with Some t => - 2 ^ 62 < t < 2 ^ 62 | None => True end.

Arguments update_stats : simpl never.
Arguments after_stats : simpl never.
Arguments count_packet : simpl never.
Arguments counted_packet : simpl never.
Arguments valid_playout_time : simpl never.
Arguments synchronize_playout : simpl never.

(** * Builds *)

Lemma count_packet_ret checks m q seq r : count_packet checks m q seq = Ret r -> r = counted_packet m q seq.
Proof.
  unfold count_packet, counted_packet. destruct (checked checks 32 (packets_received m + 1)) as [x|] eqn:E; [|done].
  apply checked_ret in E as ->. cbn [cbind]. destruct (_ =? 1); [by intros [= <-]|].
  destruct (q <? seq); [|by destruct (0 <? _); intros [= <-]]. cbv zeta. destruct (_ && _); [|by intros [= <-]].
  destruct (checked checks 32 _) as [x|] eqn:E; [|done]. apply checked_ret in E as ->. by intros [= <-].
Qed.

Lemma update_stats_ret checks t p s s' : update_stats checks t p s = Ret s' -> s' = after_stats t p s.
Proof.
  unfold update_stats, after_stats. destruct (metrics_poisoned s); [by intros [= <-]|].
  destruct (count_packet checks _ _ _) as [[m q]|] eqn:E; [|done]. apply count_packet_ret in E. cbn [cbind]. rewrite <-E.
  destruct (checked_signed checks 64 (_ - _)) as [x|] eqn:Ex; [|done]. apply checked_signed_ret in Ex as ->; [|lia].
  cbn [cbind]. destruct (last_transit s) as [l|]; [|by intros [= <-]].
  destruct (checked_signed checks 64 (_ - l)) as [x|] eqn:Ex; [|done]. apply checked_signed_ret in Ex as ->; [|lia].
  cbn [cbind]. destruct (checked_signed checks 64 (Z.abs _)) as [x|] eqn:Ex; [|done]. apply checked_signed_ret in Ex as ->; [|lia].
  by intros [= <-].
Qed.

Lemma add_ret checks N t p s s' : add checks N t p s = Ret s' -> s' = after_add N t p s.
Proof.
  unfold add, should_discard_packet, after_add. destruct (update_stats checks t p s) as [s1|] eqn:E; [|done].
  apply update_stats_ret in E as <-. by intros [= <-].
Qed.

(** * Slots and field updates *)

Lemma slot_set_slot i v s j :
  (i < length (packets s))%nat -> slot (set_slot i v s) j = if decide (i = j) then v else slot s j.
Proof.
  intros Hi. unfold slot, set_slot. simpl. case_decide as E.
  - subst. by rewrite list_lookup_insert_eq.
  - by rewrite list_lookup_insert_ne.
Qed.

Lemma slot_set_slot_eq i v s : (i < length (packets s))%nat -> slot (set_slot i v s) i = v.
Proof. intros. rewrite slot_set_slot by done. by rewrite decide_True. Qed.

Lemma slot_set_slot_ne i v s j : i <> j -> slot (set_slot i v s) j = slot s j.
Proof. intros. unfold slot, set_slot. simpl. by rewrite list_lookup_insert_ne. Qed.

(** The number of occupied slots: the measure of the resynchronisation loop. *)
Fixpoint count_some (l : list (option RtpPacket)) : nat :=
  match l with
  | [] => 0
  | Some _ :: l => S (count_some l)
  | None :: l => count_some l
  end.
Definition occupied (s : JitterBuffer) : nat := count_some (packets s).

Lemma occupied_le s : (occupied s <= length (packets s))%nat.
Proof. unfold occupied. induction (packets s) as [|[p|] l IH]; simpl; lia. Qed.

Lemma count_some_clear l i :
  count_some (<[i := None]> l) =
  (count_some l - match (mjoin (l !! i) : option RtpPacket) with Some _ => 1 | None => 0 end)%nat.
Proof.
  revert i. induction l as [|o l IH]; intros [|i]; simpl; try done; [destruct o; simpl; lia|].
  specialize (IH i). destruct o as [p|]; [|done]. rewrite IH.
  destruct (mjoin (l !! i) : option RtpPacket) eqn:E; [|lia].
  assert (0 < count_some l)%nat; [|lia]. clear IH. revert i E.
  induction l as [|[q|] l IHl]; intros [|i] E; simpl in *; simplify_eq; try lia; eauto.
Qed.

Lemma occupied_clear i s :
  occupied (set_slot i None s) = (occupied s - match slot s i with Some _ => 1 | None => 0 end)%nat.
Proof. apply count_some_clear. Qed.

Lemma occupied_pos i s p : slot s i = Some p -> (0 < occupied s)%nat.
Proof.
  unfold occupied, slot. revert i. induction (packets s) as [|[q|] l IH]; intros [|i] E; simpl in *;
    simplify_eq; try lia; eauto.
Qed.

(** * Statistics *)

Section Stats.
Context (checks : bool) (N : nat).

(** The fields the statistics live in: only [after_stats] writes them. *)
Definition stats (s : JitterBuffer) := (metrics s, metrics_poisoned s, last_transit s, max_seq_seen s).

Lemma stats_resync_scan n ts s b s' : resync_scan N n ts s = (b, s') -> stats s' = stats s.
Proof.
  revert s. induction n as [|n IH]; intros s; simpl; [by intros [= _ <-]|].
  destruct (slot s (read_idx s)) as [p|]; [destruct (_ && _); [by intros [= _ <-]|]|];
    (destruct (_ =? _)%nat; [by intros [= _ <-]|]; by intros ->%IH).
Qed.

Lemma stats_resync_or_clear s : stats (resync_or_clear N s) = stats s.
Proof.
  unfold resync_or_clear. destruct (slot s (read_idx s)) as [p|]; [|done].
  destruct (resync_scan _ _ _ _) as [[] s'] eqn:E; by apply stats_resync_scan in E.
Qed.

Lemma stats_prepare_loop fuel clk s o s' : prepare_loop checks N fuel clk s = Some (Ret (o, s')) -> stats s' = stats s.
Proof.
  revert clk s. induction fuel as [|fuel IH]; intros clk s; [done|]. simpl.
  destruct (slot s (read_idx s)); [|by intros [= _ <-]].
  destruct (valid_playout_time _ _ _ _) as [[]|]; cbn [ocbind]; [by intros [= _ <-]| |done].
  rewrite <-(stats_resync_or_clear s).
  destruct (write_seq _); [destruct (read_seq _)|]; [apply IH|by intros [= _ <-]..].
Qed.

Lemma stats_clear_until fuel t s s' : clear_until N fuel t s = Some s' -> stats s' = stats s.
Proof.
  revert s. induction fuel as [|fuel IH]; intros s; simpl; (destruct (_ =? _)%nat; [by intros [= <-]|]); [done|].
  by intros ->%IH.
Qed.

Lemma stats_find_next n s b s' : find_next N n s = (b, s') -> stats s' = stats s.
Proof.
  revert s. induction n as [|n IH]; intros s; simpl; [by intros [= _ <-]|].
  destruct (slot _ _); [by intros [= _ <-]|]. by intros ->%IH.
Qed.

Lemma synchronize_stats now p s s' : synchronize_playout checks now p s = Ret s' -> stats s' = stats s.
Proof.
  unfold synchronize_playout. destruct (negb _); [|by intros [= <-]].
  destruct (checked _ _ _); [|done]. by intros [= <-].
Qed.

Lemma stats_pop clk now s o s' : pop checks N clk now s = Some (Ret (o, s')) -> stats s' = stats s.
Proof.
  unfold pop, prepare_next_frame_ts. destruct (prepare_loop _ _ _ _ _) as [[[[ts|] s1]|]|] eqn:E1; cbn [ocbind]; [| |done..].
  2:{ intros [= _ <-]. by eapply stats_prepare_loop. }
  apply stats_prepare_loop in E1. rewrite <-E1. clear E1.
  destruct (collect _ _ _ _ _ _ _) as [[[data idx] p]|]; [|by intros [= _ <-]].
  unfold advance_read_pointers. destruct (clear_until _ _ _ _) as [s2|] eqn:E2; [|done].
  apply stats_clear_until in E2. rewrite <-E2. clear E2.
  destruct (find_next _ _ _) as [b s3] eqn:E3. apply stats_find_next in E3. rewrite <-E3.
  destruct (synchronize_playout _ _ _ _) as [s4|] eqn:E4; [|done]. apply synchronize_stats in E4. cbn [ocbind].
  assert (E5 : stats s4 = stats s3) by by destruct b.
  rewrite <-E5. by destruct (is_i_frame p); intros [= _ <-].
Qed.

Lemma stats_add t p s : stats (after_add N t p s) = stats (after_stats t p s).
Proof.
  unfold after_add, store. destruct (should_discard N p _); [done|].
  destruct (read_seq _) as [r|]; [destruct (write_seq _) as [w|]|]; [|done..].
  destruct (_ <? _); [done|]. destruct (_ <? _); [|done].
  change (stats (set_slot ?i ?v ?x)) with (stats x). unfold handle_new_write_head.
  destruct (if (_ <=? _)%nat then _ else _); [by rewrite stats_resync_or_clear|done].
Qed.

(** ** Room in the counters *)

Lemma sparse_stats k s s' : stats s' = stats s -> sparse k s -> sparse k s'.
Proof. intros [= E1 _ E3 _]. unfold sparse. by rewrite E1, E3. Qed.

(** With room in the counters the statistics do not overflow, and room remains. *)
Lemma update_stats_fine k t p s :
  0 <= k < 2 ^ 22 -> sparse k s -> fine t (timestamp p) ->
  update_stats checks t p s = Ret (after_stats t p s) /\ sparse (k + 1) (after_stats t p s).
Proof.
  intros Hk (Hr & Hl & Ht) [Ha Hs]. unfold update_stats, after_stats.
  destruct (metrics_poisoned s); [split; [done|]; unfold sparse; split_and!; try lia; by destruct (last_transit s)|].
  assert (E : count_packet checks (metrics s) (max_seq_seen s) (sequence_number p) =
    Ret (counted_packet (metrics s) (max_seq_seen s) (sequence_number p))).
  { unfold count_packet, counted_packet. rewrite checked_fits, wrap_id by width. cbn [cbind].
    destruct (_ =? 1); [done|]. destruct (_ <? _); [|by destruct (0 <? _)]. cbv zeta. destruct (_ && _) eqn:G; [|done].
    apply andb_true_iff in G. by rewrite checked_fits, wrap_id by width. }
  rewrite E. cbn [cbind]. clear E.
  assert (C : let '(m, _) := counted_packet (metrics s) (max_seq_seen s) (sequence_number p) in
    0 <= packets_received m <= k + 1 /\ 0 <= packets_lost m <= 1000 * (k + 1)).
  { unfold counted_packet. rewrite (wrap_id 32 (_ + 1)) by width. destruct (_ =? 1); [cbn; lia|].
    destruct (_ <? _); [|destruct (Z.ltb_spec 0 (packets_lost (metrics s))); cbn; lia]. cbn. destruct (_ && _) eqn:G; [|lia].
    apply andb_true_iff in G. rewrite wrap_id by width. lia. }
  destruct (counted_packet _ _ _) as [m q]. rewrite (signed_wrap_id 64 t), (signed_wrap_id 64 (timestamp p)) by lia.
  rewrite checked_signed_fits by lia. rewrite (signed_wrap_id 64 (t - _)) by lia. cbn [cbind].
  destruct (last_transit s) as [l|].
  - rewrite checked_signed_fits by lia. rewrite (signed_wrap_id 64 (_ - l)) by lia. cbn [cbind].
    rewrite checked_signed_fits by lia. rewrite (signed_wrap_id 64 (Z.abs _)) by lia. split; [done|].
    unfold sparse. cbn. lia.
  - split; [done|]. unfold sparse. cbn. lia.
Qed.

(** A build without checks never panics here; one with checks does not either as
    long as there is room. *)
Definition roomy (k : Z) (s : JitterBuffer) : Prop := checks = true -> sparse k s.
Definition fits_in (k : Z) (es : list event) : Prop :=
  checks = true -> 0 <= k /\ k + Z.of_nat (length es) <= 2 ^ 22 /\ Forall (fun e => fine (ev_arrival e) (timestamp (ev_packet e))) es.

Lemma update_stats_released t p s : checks = false -> update_stats checks t p s = Ret (after_stats t p s).
Proof.
  intros Hc. destruct (update_stats checks t p s) as [s'|] eqn:E; [by apply update_stats_ret in E as ->|]. exfalso. revert E.
  assert (U : forall w z, exists x, checked checks w z = Ret x) by (intros; unfold checked; rewrite Hc; case_match; eauto).
  assert (S : forall z, exists x, checked_signed checks 64 z = Ret x) by (intros; unfold checked_signed; rewrite Hc; case_match; eauto).
  unfold update_stats. destruct (metrics_poisoned s); [done|].
  destruct (count_packet checks _ _ _) as [[m q]|] eqn:E; cbn [cbind].
  - destruct (S (signed_wrap 64 t - signed_wrap 64 (timestamp p))) as [x ->]. cbn [cbind]. destruct (last_transit s) as [l|]; [|done].
    destruct (S (x - l)) as [y ->]. cbn [cbind]. by destruct (S (Z.abs y)) as [z ->].
  - revert E. unfold count_packet. destruct (U 32 (packets_received (metrics s) + 1)) as [x ->]. cbn [cbind].
    destruct (_ =? 1); [done|]. destruct (_ <? _); [|by destruct (0 <? _)]. cbv zeta. destruct (_ && _); [|done].
    by destruct (U 32 (packets_lost (metrics s) + (sequence_number p - max_seq_seen s - 1))) as [y ->].
Qed.

Lemma add_panics t p s : add checks N t p s = Panic -> checks = true.
Proof.
  intros E. destruct (decide (checks = true)) as [|Hc%not_true_is_false]; [done|].
  unfold add, should_discard_packet in E. by rewrite update_stats_released in E.
Qed.

Lemma add_fine k t p s :
  0 <= k < 2 ^ 22 -> sparse k s -> fine t (timestamp p) ->
  add checks N t p s = Ret (after_add N t p s) /\ sparse (k + 1) (after_add N t p s).
Proof.
  intros Hk Hs Hf. destruct (update_stats_fine k t p s Hk Hs Hf) as [E Hs']. split.
  - unfold add, should_discard_packet, after_add. by rewrite E.
  - apply (sparse_stats _ (after_stats t p s)); [apply stats_add|exact Hs'].
Qed.

Lemma add_fits k e es s :
  fits_in k (e :: es) -> roomy k s ->
  add checks N (ev_arrival e) (ev_packet e) s = Ret (after_add N (ev_arrival e) (ev_packet e) s) /\
  roomy (k + 1) (after_add N (ev_arrival e) (ev_packet e) s) /\ fits_in (k + 1) es.
Proof.
  intros Hf Hr. destruct (decide (checks = true)) as [Hc|Hc%not_true_is_false].
  - destruct (Hf Hc) as (Hk & Hl & Hfe). cbn [length] in Hl. apply Forall_cons in Hfe as [Hfe Hfes].
    destruct (add_fine k (ev_arrival e) (ev_packet e) s) as [E Hs']; [lia|by apply Hr|done|].
    split; [exact E|]. split; [intros _; exact Hs'|]. intros _. split_and!; [lia..|done].
  - split; [unfold add, should_discard_packet, after_add; by rewrite update_stats_released|].
    split; intros Hc'; congruence.
Qed.

Lemma roomy_pop k clk now s o s' : pop checks N clk now s = Some (Ret (o, s')) -> roomy k s -> roomy k s'.
Proof. intros Hp%stats_pop Hr Hc. apply (sparse_stats _ s); [done|by apply Hr]. Qed.

Lemma roomy_new : roomy 0 (new N).
Proof. intros _. unfold sparse. cbn. lia. Qed.

End Stats.

Section Facts.
Context (checks : bool) (N : nat) (HN : (0 < N)%nat).

Lemma next_lt i : (next N i < N)%nat.
Proof. apply Nat.mod_upper_bound. lia. Qed.

Lemma pos_of_lt q : (pos_of N q < N)%nat.
Proof. unfold pos_of. pose proof (Z.mod_pos_bound q (Z.of_nat N)). lia. Qed.

(** ** The buffer invariant *)

(** Both indices are in range, and slot i holds only packets that belong at i. *)
Record wf_slots (s : JitterBuffer) : Prop := mk_wf_slots {
  wf_length : length (packets s) = N;
  wf_read : (read_idx s < N)%nat;
  wf_write : (write_idx s < N)%nat;
  wf_slot : forall i p, slot s i = Some p -> pos_of N (sequence_number p) = i
}.

(** Moreover each tracked sequence number sits at its index. *)
Record wf (s : JitterBuffer) : Prop := mk_wf {
  wf_wf_slots : wf_slots s;
  wf_read_seq : forall q, read_seq s = Some q -> read_idx s = pos_of N q;
  wf_write_seq : forall q, write_seq s = Some q -> write_idx s = pos_of N q
}.

Lemma wf_slots_set_slot i v s :
  wf_slots s -> (forall p, v = Some p -> pos_of N (sequence_number p) = i) -> wf_slots (set_slot i v s).
Proof.
  intros [Hl Hr Hw Hs] Hv. split; simpl; try done.
  - by rewrite length_insert.
  - intros j p. destruct (decide (i = j)) as [<-|]; [|rewrite slot_set_slot_ne by done; apply Hs].
    destruct (decide (i < length (packets s))%nat).
    + rewrite slot_set_slot_eq by done. apply Hv.
    + unfold slot, set_slot. simpl. rewrite lookup_ge_None_2; [done|]. rewrite length_insert. lia.
Qed.

Lemma wf_set_slot i v s :
  wf s -> (forall p, v = Some p -> pos_of N (sequence_number p) = i) -> wf (set_slot i v s).
Proof. intros [Hs Hr Hw] Hv. split; [by apply wf_slots_set_slot|done..]. Qed.

Lemma wf_slots_set_read i q s : wf_slots s -> (i < N)%nat -> wf_slots (set_read i q s).
Proof. intros [Hl Hr Hw Hs] Hi. by split. Qed.

Lemma wf_reset s : wf_slots s -> wf (reset_pointers s).
Proof. intros [Hl Hr Hw Hs]. by repeat split. Qed.

Lemma wf_new : wf (new N).
Proof.
  repeat split; simpl; try done; [apply length_replicate|].
  intros i p. unfold slot, new. simpl. destruct (decide (i < N)%nat).
  - by rewrite lookup_replicate_2.
  - rewrite lookup_ge_None_2; [done|]. rewrite length_replicate. lia.
Qed.

(** What [resync_scan] does: it only clears slots and moves the read pointer. *)
Lemma resync_scan_facts n ts s b s' :
  resync_scan N n ts s = (b, s') -> wf_slots s ->
  wf_slots s' /\ write_idx s' = write_idx s /\ write_seq s' = write_seq s /\
  last_deliver_timestamp s' = last_deliver_timestamp s /\
  last_frame_completed_timestamp s' = last_frame_completed_timestamp s /\
  (forall i p, slot s' i = Some p -> slot s i = Some p) /\
  (occupied s' <= occupied s)%nat /\
  (b = true -> exists p, slot s' (read_idx s') = Some p /\ read_seq s' = Some (sequence_number p)).
Proof.
  revert s. induction n as [|n IH]; intros s; simpl.
  - intros [= <- <-] Hs. by split_and!.
  - set (s1 := set_slot (read_idx s) None s).
    assert (Hadv : ((if (read_idx s =? write_idx s)%nat then (false, s1)
      else resync_scan N n ts (set_read (next N (read_idx s)) (read_seq s) s1)) = (b, s')) ->
      wf_slots s -> wf_slots s' /\ write_idx s' = write_idx s /\ write_seq s' = write_seq s /\
      last_deliver_timestamp s' = last_deliver_timestamp s /\
      last_frame_completed_timestamp s' = last_frame_completed_timestamp s /\
      (forall i p, slot s' i = Some p -> slot s i = Some p) /\ (occupied s' <= occupied s)%nat /\
      (b = true -> exists p, slot s' (read_idx s') = Some p /\ read_seq s' = Some (sequence_number p))).
    { intros H Hs. assert (Hs1 : wf_slots s1) by (by apply wf_slots_set_slot).
      assert (Hsub : forall i p, slot s1 i = Some p -> slot s i = Some p).
      { intros i p. unfold s1. rewrite slot_set_slot by (rewrite (wf_length s) by done; apply Hs).
        by case_decide. }
      assert (Hocc : (occupied s1 <= occupied s)%nat) by (unfold s1; rewrite occupied_clear; lia).
      destruct (read_idx s =? write_idx s)%nat; [injection H as <- <-; by split_and!|].
      apply IH in H as (?&?&?&?&?&Hsl&Hoc&?); [|by apply wf_slots_set_read, next_lt].
      split_and!; try done; [intros i p Hp; apply Hsub, Hsl, Hp | etrans; [apply Hoc|apply Hocc]]. }
    destruct (slot s (read_idx s)) as [pkt|] eqn:Hpkt; [|exact Hadv].
    destruct (is_i_frame pkt && negb (timestamp pkt =? ts)); [|exact Hadv].
    intros [= <- <-] Hs. split_and!; try done; [by destruct Hs; split|]. intros _. by exists pkt.
Qed.

Lemma resync_or_clear_facts s :
  wf_slots s -> (forall q, write_seq s = Some q -> write_idx s = pos_of N q) ->
  wf (resync_or_clear N s) /\
  last_deliver_timestamp (resync_or_clear N s) = last_deliver_timestamp s /\
  last_frame_completed_timestamp (resync_or_clear N s) = last_frame_completed_timestamp s /\
  (forall i p, slot (resync_or_clear N s) i = Some p -> slot s i = Some p).
Proof.
  intros Hs Hw. unfold resync_or_clear. destruct (slot s (read_idx s)) as [pkt|] eqn:Hp;
    [|split_and!; [by apply wf_reset|done..]].
  destruct (resync_scan N N (timestamp pkt) s) as [b s'] eqn:Hr.
  apply resync_scan_facts in Hr as (Hs'&Hwi&Hws&?&?&?&?&Hb); [|done].
  destruct b; [|split_and!; [by apply wf_reset|done..]].
  destruct (Hb eq_refl) as (q & Hq & Hqs). split_and!; try done. split; [done| |].
  - rewrite Hqs. intros q' [= <-]. symmetry. by apply (wf_slot _ Hs').
  - rewrite Hwi, Hws. done.
Qed.

(** The head of the scan is always cleared: a resynchronisation that keeps
    going has dropped at least one packet. *)
Lemma resync_scan_progress n s p b s' :
  wf_slots s -> slot s (read_idx s) = Some p ->
  resync_scan N (S n) (timestamp p) s = (b, s') -> (occupied s' < occupied s)%nat.
Proof.
  intros Hs E. pose proof (occupied_pos _ _ _ E) as Hpos.
  assert (Hc : occupied (set_slot (read_idx s) None s) = (occupied s - 1)%nat)
    by (rewrite occupied_clear, E; done).
  simpl. rewrite E, Z.eqb_refl, andb_false_r.
  destruct (read_idx s =? write_idx s)%nat; [intros [= <- <-]; lia|].
  intros Hr. apply resync_scan_facts in Hr as (_&_&_&_&_&_&Ho&_).
  2:{ apply wf_slots_set_read; [by apply wf_slots_set_slot|apply next_lt]. }
  change (occupied (set_read ?i ?q ?x)) with (occupied x) in Ho. lia.
Qed.

Lemma resync_or_clear_progress s p :
  wf_slots s -> slot s (read_idx s) = Some p -> (occupied (resync_or_clear N s) < occupied s)%nat.
Proof.
  intros Hs Hp. unfold resync_or_clear. rewrite Hp.
  replace (resync_scan N N) with (resync_scan N (S (pred N))) by (f_equal; lia).
  destruct (resync_scan N (S (pred N)) (timestamp p) s) as [b s'] eqn:Hr.
  apply resync_scan_progress in Hr; [|done..]. by destruct b.
Qed.

(** ** The methods preserve the invariant *)

Lemma wf_update_stats t p s : wf s -> wf (after_stats t p s).
Proof.
  intros [[Hl Hr Hw Hs] Hrs Hws]. unfold after_stats. destruct (metrics_poisoned s); [by split|].
  destruct (counted_packet _ _ _). by split.
Qed.

Lemma wf_initialize p s : wf_slots s -> wf (initialize_buffer p (pos_of N (sequence_number p)) s).
Proof.
  intros [Hl Hr Hw Hs]. set (i := pos_of N (sequence_number p)).
  assert (H : wf_slots (set_slot i (Some p) (set_write i (Some (sequence_number p))
    (set_read i (Some (sequence_number p)) s)))).
  { apply wf_slots_set_slot; [split; try done; apply pos_of_lt|by intros ? [= <-]]. }
  destruct H. split; [done|by intros ? [= <-]..].
Qed.

Lemma wf_add t p s : wf s -> wf (after_add N t p s).
Proof.
  intros Hs. unfold after_add, store.
  apply (wf_update_stats t p) in Hs. set (s1 := after_stats t p s) in *. clearbody s1. clear s.
  destruct (should_discard N p s1); [done|]. pose proof (pos_of_lt (sequence_number p)) as Hp.
  destruct Hs as [Hs Hr Hw].
  destruct (read_seq s1) as [r|] eqn:Er; [destruct (write_seq s1) as [w|] eqn:Ew|].
  - apply wf_set_slot; [|by intros ? [= <-]].
    destruct (sequence_number p <? r); [|destruct (w <? sequence_number p)].
    + split; [by apply wf_slots_set_read|by intros ? [= <-]|]. simpl. by rewrite Ew.
    + unfold handle_new_write_head.
      assert (Hs' : wf_slots (set_write (pos_of N (sequence_number p)) (Some (sequence_number p)) s1)).
      { destruct Hs. by split. }
      assert (Hw' : forall q, Some (sequence_number p) = Some q -> pos_of N (sequence_number p) = pos_of N q)
        by (by intros ? [= <-]).
      destruct (if (_ <=? _)%nat then _ else _); [by apply resync_or_clear_facts|].
      split; [done| |done]. simpl. by rewrite Er.
    + split; [done|by rewrite Er|by rewrite Ew].
  - by apply wf_initialize.
  - by apply wf_initialize.
Qed.

(** A build without overflow checks never panics on a deadline; one with checks
    panics exactly on a deadline that does not fit. *)
Lemma valid_panic x ts s :
  valid_playout_time checks x ts s = Panic -> checks = true /\ last_deliver_timestamp s <> 0 /\ ~ schedulable s ts.
Proof.
  unfold valid_playout_time, schedulable. destruct (Z.eqb_spec (last_deliver_timestamp s) 0); [done|].
  destruct (checked checks 128 (ts - _)) as [d|] eqn:E1; [|intros _; apply checked_panic in E1 as [-> Hn]; tauto].
  cbn [cbind]. destruct (checked checks 128 (_ + d)) as [e|] eqn:E2; cbn [cbind].
  - destruct (checked checks 128 (e + _)) as [f|] eqn:E3; cbn [cbind]; [done|]. intros _. apply checked_panic in E3 as [Hc Hn].
    split_and!; [done|done|]. intros (F1 & F2 & F3). rewrite checked_fits in E1 by done. injection E1 as <-.
    rewrite checked_fits in E2 by done. by injection E2 as <-.
  - intros _. apply checked_panic in E2 as [Hc Hn]. split_and!; [done|done|]. intros (F1 & F2 & _).
    rewrite checked_fits in E1 by done. by injection E1 as <-.
Qed.

Lemma valid_schedulable x ts s b :
  checks = true -> last_deliver_timestamp s <> 0 -> valid_playout_time checks x ts s = Ret b -> schedulable s ts.
Proof.
  intros Hc Hd. unfold valid_playout_time, schedulable. rewrite (proj2 (Z.eqb_neq _ 0)) by done. rewrite Hc. unfold checked.
  destruct (fitsb 128 (ts - _)) eqn:F1; [|done]. cbn [cbind]. destruct (fitsb 128 (_ + (ts - _))) eqn:F2; [|done]. cbn [cbind].
  destruct (fitsb 128 (_ + TOLERANCE_MILLIS)) eqn:F3; [|done]. intros _. by apply fitsb_spec in F1, F2, F3.
Qed.

(** What a frame whose deadline was met is synchronized to. *)
Lemma synchronize_valid x now p s b :
  valid_playout_time checks x (timestamp p) s = Ret b ->
  synchronize_playout checks now p s = Ret (synchronized now p s).
Proof.
  intros Hv. unfold synchronize_playout, synchronized. destruct (Z.eqb_spec (last_deliver_timestamp s) 0) as [|Hd]; [done|]. cbn [negb].
  destruct (checked checks 128 _) as [e|] eqn:E; [by apply checked_ret in E as ->|]. exfalso.
  apply checked_panic in E as [Hc Hn]. destruct (valid_schedulable x _ _ b Hc Hd Hv) as (F1 & F2 & _). apply Hn.
  unfold saturating_sub. rewrite Z.max_r by (unfold fits in F1; lia). exact F2.
Qed.

(** What stops a checked build: a stored packet whose deadline does not fit. *)
Definition unschedulable (s : JitterBuffer) : Prop :=
  checks = true /\ last_deliver_timestamp s <> 0 /\ exists i p, slot s i = Some p /\ ~ schedulable s (timestamp p).

(** [prepare_next_frame_ts] terminates, keeps the invariant and only clears
    slots; the timestamp it returns heads the buffer and met its deadline. *)
Definition prepared (clk : nat -> Z) (s : JitterBuffer) (r : comp (option Z * JitterBuffer)) : Prop :=
  match r with
  | Panic => unschedulable s
  | Ret (o, s') => wf s' /\
      last_deliver_timestamp s' = last_deliver_timestamp s /\
      last_frame_completed_timestamp s' = last_frame_completed_timestamp s /\
      (forall i p, slot s' i = Some p -> slot s i = Some p) /\
      (forall ts, o = Some ts -> exists p k, slot s' (read_idx s') = Some p /\ timestamp p = ts /\
         valid_playout_time checks (clk k) ts s = Ret true)
  end.

Lemma valid_same x ts s s' :
  last_deliver_timestamp s' = last_deliver_timestamp s ->
  last_frame_completed_timestamp s' = last_frame_completed_timestamp s ->
  valid_playout_time checks x ts s' = valid_playout_time checks x ts s.
Proof. unfold valid_playout_time. by intros -> ->. Qed.

Lemma prepare_loop_total fuel clk s :
  wf s -> (occupied s < fuel)%nat -> exists r, prepare_loop checks N fuel clk s = Some r /\ prepared clk s r.
Proof.
  revert clk s. induction fuel as [|fuel IH]; intros clk s Hs Hf; [lia|]. simpl.
  destruct (slot s (read_idx s)) as [p|] eqn:Hp; [|by eexists].
  destruct (valid_playout_time checks (clk 0%nat) (timestamp p) s) as [b|] eqn:Hv.
  2:{ eexists. split; [done|]. destruct (valid_panic _ _ _ Hv) as (Hc & Hd & Hn). split_and!; [done|done|]. by exists (read_idx s), p. }
  cbn [ocbind]. destruct b.
  { eexists. split; [done|]. split_and!; try done. intros ts [= <-]. eauto. }
  destruct (resync_or_clear_facts s) as (Hwf & Hld & Hlf & Hsl); [apply Hs|apply Hs|].
  pose proof (resync_or_clear_progress s p (wf_wf_slots _ Hs) Hp) as Hlt.
  assert (Hstop : exists r, Some (Ret (None, resync_or_clear N s)) = Some r /\ prepared clk s r) by by eexists.
  destruct (write_seq (resync_or_clear N s)); [|done]. destruct (read_seq (resync_or_clear N s)); [|done].
  clear Hstop. destruct (IH (fun k => clk (S k)) _ Hwf) as (r & -> & Hr); [lia|].
  exists r. split; [done|]. destruct r as [[o s']|].
  - destruct Hr as (? & E1 & E2 & Hsl' & Ho). split_and!; [done|congruence..| |].
    + intros i q Hq. by apply Hsl, Hsl'.
    + intros ts Hts. destruct (Ho ts Hts) as (q & k & ? & ? & Hq). exists q, (S k). split_and!; try done.
      by rewrite (valid_same _ _ s) in Hq.
  - destruct Hr as (Hc & Hd & i & q & Hq & Hn). split_and!; [done|congruence|]. exists i, q. split; [by apply Hsl|].
    unfold schedulable in *. by rewrite Hld, Hlf in Hn.
Qed.

Lemma prepare_next_frame_ts_total clk s :
  wf s -> exists r, prepare_next_frame_ts checks N clk s = Some r /\ prepared clk s r.
Proof.
  intros Hs. apply prepare_loop_total; [done|].
  pose proof (occupied_le s). rewrite (wf_length s) in * by apply Hs. lia.
Qed.

(** ** Advancing past a delivered frame *)

(** The [d] slots from the read index are cleared, nothing else changes. *)
Lemma clear_until_spec d fuel s :
  length (packets s) = N -> (read_idx s < N)%nat -> (d <= fuel)%nat -> (d < N)%nat ->
  exists l, clear_until N fuel ((read_idx s + d) mod N) s =
      Some (set_read ((read_idx s + d) mod N) (read_seq s) (set_packets l s)) /\
    length l = N /\
    (forall e, (e < d)%nat -> mjoin (l !! ((read_idx s + e) mod N)%nat) = (None : option RtpPacket)) /\
    (forall i, (forall e, (e < d)%nat -> i <> (read_idx s + e) mod N)%nat -> mjoin (l !! i) = slot s i) /\
    (forall i p, mjoin (l !! i) = Some p -> slot s i = Some p).
Proof.
  revert fuel s. induction d as [|d IH]; intros fuel s Hl Hr Hf HdN.
  - exists (packets s). rewrite Nat.add_0_r, Nat.mod_small by done.
    split_and!; try done; [|lia]. destruct fuel; simpl; rewrite Nat.eqb_refl; by destruct s.
  - destruct fuel as [|fuel]; [lia|]. simpl.
    rewrite (proj2 (Nat.eqb_neq _ _)) by (rewrite mod_small_or_wrap by lia; case_bool; lia).
    set (s1 := set_read (next N (read_idx s)) (read_seq s) (set_slot (read_idx s) None s)).
    destruct (IH fuel s1) as (l & E & Hll & Hc & Hsame & Hsub);
      [simpl; by rewrite length_insert | apply next_lt | lia | lia |].
    simpl read_idx in *. unfold next in *. rewrite mod_step in E.
    assert (Hs1 : forall i, slot s1 i = if decide (read_idx s = i) then None else slot s i).
    { intros i. unfold s1. rewrite <-slot_set_slot by lia. done. }
    exists l. split_and!; [exact E|done| | |].
    + intros [|e] He.
      * rewrite Nat.add_0_r, Nat.mod_small by done.
        destruct (mjoin (l !! read_idx s)) as [p|] eqn:Hp; [|done].
        apply Hsub in Hp. rewrite Hs1 in Hp. by rewrite decide_True in Hp by done.
      * rewrite <-mod_step. apply Hc. lia.
    + intros i Hi. rewrite Hsame.
      * rewrite Hs1, decide_False; [done|]. intros <-. apply (Hi 0%nat); [lia|].
        rewrite Nat.add_0_r, Nat.mod_small; done.
      * intros e He. rewrite mod_step. apply Hi. lia.
    + intros i p Hp. apply Hsub in Hp. rewrite Hs1 in Hp. by case_decide.
Qed.

Lemma find_next_spec n s :
  (read_idx s < N)%nat -> (n <= N)%nat ->
  exists b i q, find_next N n s = (b, set_read i q s) /\ (i < N)%nat /\
    (b = true -> exists p, slot s i = Some p /\ q = Some (sequence_number p)) /\
    (b = false -> q = read_seq s /\ i = ((read_idx s + n) mod N)%nat /\
       forall e, (e < n)%nat -> slot s ((read_idx s + e) mod N) = None).
Proof.
  revert s. induction n as [|n IH]; intros s Hr Hn; simpl.
  - exists false, (read_idx s), (read_seq s). split_and!; try done; [by destruct s|].
    intros _. rewrite Nat.add_0_r, Nat.mod_small by done. split_and!; try done. lia.
  - destruct (slot s (read_idx s)) as [p|] eqn:Hp.
    + exists true, (read_idx s), (Some (sequence_number p)). split_and!; try done. eauto.
    + destruct (IH (set_read (next N (read_idx s)) (read_seq s) s)) as (b & i & q & E & Hi & Ht & Hf);
        [apply next_lt|lia|].
      rewrite E. exists b, i, q. split_and!; try done. intros Hb. destruct (Hf Hb) as (-> & -> & Hn').
      simpl. unfold next. rewrite mod_step. split_and!; try done. intros [|e] He.
      * rewrite Nat.add_0_r, Nat.mod_small; done.
      * rewrite <-mod_step. apply Hn'. lia.
Qed.

Lemma advance_read_pointers_total d s :
  wf s -> (d < N)%nat ->
  exists s', advance_read_pointers N ((read_idx s + d) mod N) s = Some s' /\ wf s' /\
    i_frame_needed s' = i_frame_needed s /\
    last_deliver_timestamp s' = last_deliver_timestamp s /\
    last_frame_completed_timestamp s' = last_frame_completed_timestamp s /\
    (forall e, (e < d)%nat -> slot s' ((read_idx s + e) mod N) = None) /\
    (forall i, (forall e, (e < d)%nat -> i <> (read_idx s + e) mod N)%nat -> slot s' i = slot s i) /\
    (forall i p, slot s' i = Some p -> slot s i = Some p) /\
    (forall q, read_seq s' = Some q -> exists i p, slot s' i = Some p).
Proof.
  intros [[Hl Hr Hw Hs] Hrs Hws] Hd. unfold advance_read_pointers.
  destruct (clear_until_spec d N s Hl Hr) as (l & -> & Hll & Hc & Hsame & Hsub); [lia|lia|].
  set (s1 := set_read _ _ _).
  assert (Hi1 : (read_idx s1 < N)%nat) by (apply Nat.mod_upper_bound; lia).
  destruct (find_next_spec N s1 Hi1) as (b & i & q & -> & Hi & Ht & Hf); [lia|].
  destruct b.
  - destruct (Ht eq_refl) as (p & Hp & ->). eexists. split; [done|].
    split_and!; try done; [|by intros; exists i, p].
    split; [by split; eauto| |done]. simpl. intros q [= <-].
    symmetry. apply Hs. apply Hsub. exact Hp.
  - destruct (Hf eq_refl) as (-> & -> & Hn). eexists. split; [done|].
    split_and!; try done.
    + split; [|done..]. split; simpl; eauto.
Qed.

(** ** Collecting a frame *)

(** [pkts] sits in consecutive slots from [idx], shares the timestamp [ts], and
    carries its marker on its last packet only. *)
Definition run_at (ts : Z) (idx : nat) (pkts : list RtpPacket) (s : JitterBuffer) : Prop :=
  forall j p, pkts !! j = Some p ->
    slot s ((idx + j) mod N) = Some p /\ timestamp p = ts /\ (marker p = 1 <-> S j = length pkts).

Lemma run_at_cons ts idx p pkts s :
  (idx < N)%nat ->
  run_at ts idx (p :: pkts) s <->
  slot s idx = Some p /\ timestamp p = ts /\ (marker p = 1 <-> pkts = []) /\ run_at ts (next N idx) pkts s.
Proof.
  intros Hi. split.
  - intros H. destruct (H 0%nat p eq_refl) as (H1 & H2 & H3). rewrite Nat.add_0_r, Nat.mod_small in H1 by done.
    split_and!; try done; [rewrite H3; destruct pkts; simpl; split; (done || lia)|].
    intros j q Hq. destruct (H (S j) q Hq) as (? & ? & H'). unfold next. rewrite mod_step.
    split_and!; try done. rewrite H'. simpl. lia.
  - intros (H1 & H2 & H3 & H) [|j] q Hq; simpl in Hq.
    + injection Hq as <-. rewrite Nat.add_0_r, Nat.mod_small by done. split_and!; try done.
      rewrite H3. destruct pkts; simpl; split; (done || lia).
    + destruct (H j q Hq) as (H4 & H5 & H6). unfold next in H4. rewrite mod_step in H4.
      split_and!; try done. rewrite H6. simpl. lia.
Qed.

Lemma collect_spec n ts idx c acc s data idx' lastp :
  (idx < N)%nat ->
  collect N n ts idx c acc s = Some (data, idx', lastp) <->
  exists pkts, run_at ts idx pkts s /\ last pkts = Some lastp /\ (length pkts <= n)%nat /\
    total_chunks lastp = c + Z.of_nat (length pkts) /\
    data = acc ++ concat (payload <$> pkts) /\ idx' = ((idx + length pkts) mod N)%nat.
Proof.
  revert idx c acc. induction n as [|n IH]; intros idx c acc Hi.
  - simpl. split; [done|]. intros (pkts & _ & Hl & Hn & _). destruct pkts; [done|simpl in Hn; lia].
  - simpl. destruct (slot s idx) as [p|] eqn:Hp.
    2:{ split; [done|]. intros ([|p pkts] & Hr & Hl & _); [done|].
        apply run_at_cons in Hr as (? & _); [congruence|done]. }
    destruct (Z.eqb_spec (timestamp p) ts) as [Hts|Hts]; simpl.
    2:{ split; [done|]. intros ([|p' pkts] & Hr & Hl & _); [done|].
        apply run_at_cons in Hr as (? & ? & _); [congruence|done]. }
    destruct (Z.eqb_spec (marker p) 1) as [Hm|Hm].
    + destruct (Z.eqb_spec (c + 1) (total_chunks p)) as [Ht|Ht].
      * split.
        -- intros [= <- <- <-]. exists [p]. split_and!; simpl; try (done || lia); last by rewrite app_nil_r.
           apply run_at_cons; [done|]. split_and!; try done.
        -- intros ([|p' pkts] & Hr & Hl & _ & _ & -> & ->); [done|].
           apply run_at_cons in Hr as (Hp' & _ & Hmp & _); [|done]. simplify_eq.
           pose proof (proj1 Hmp Hm); subst pkts. simpl in *. simplify_eq. by rewrite app_nil_r.
      * split; [done|]. intros ([|p' pkts] & Hr & Hl & _ & Htc & _ & _); [done|].
        apply run_at_cons in Hr as (Hp' & _ & Hmp & _); [|done]. simplify_eq.
        pose proof (proj1 Hmp Hm); subst pkts. simpl in *. simplify_eq; lia.
    + rewrite IH by apply next_lt. split.
      * intros (pkts & Hr & Hl & Hn & Htc & -> & ->). exists (p :: pkts).
        split_and!.
        -- apply run_at_cons; [done|]. split_and!; try done. split; [done|]. by intros ->.
        -- destruct pkts; done.
        -- simpl. lia.
        -- simpl. lia.
        -- simpl. by rewrite <-app_assoc.
        -- unfold next. simpl. by rewrite mod_step.
      * intros ([|p' pkts] & Hr & Hl & Hn & Htc & -> & ->); [done|].
        apply run_at_cons in Hr as (Hp' & _ & Hmp & Hr); [|done]. simplify_eq. exists pkts.
        assert (pkts <> []) by (intros E; tauto). simpl in Hn.
        split_and!; try done; simpl in *; [by destruct pkts|lia|lia|by rewrite <-app_assoc|].
        unfold next. by rewrite mod_step.
Qed.

(** ** What [pop] does *)

Lemma finish_same now p s :
  let s' := (if is_i_frame p then set_i_frame_needed false else id)
              (set_completed (timestamp p) (synchronized now p s)) in
  packets s' = packets s /\ read_idx s' = read_idx s /\ write_idx s' = write_idx s /\
  read_seq s' = read_seq s /\ write_seq s' = write_seq s /\
  i_frame_needed s' = (if is_i_frame p then false else i_frame_needed s) /\
  last_frame_completed_timestamp s' = timestamp p /\
  last_deliver_timestamp s' = last_deliver_timestamp (synchronized now p s).
Proof. unfold synchronized. destruct (is_i_frame p), (negb _); done. Qed.

Lemma wf_same s s' :
  wf s -> packets s' = packets s -> read_idx s' = read_idx s -> write_idx s' = write_idx s ->
  read_seq s' = read_seq s -> write_seq s' = write_seq s -> wf s'.
Proof.
  intros [[Hl Hr Hw Hs] Hrs Hws] E1 E2 E3 E4 E5.
  split; [split|..]; rewrite ?E1, ?E2, ?E3, ?E4, ?E5; try done. unfold slot. by rewrite E1.
Qed.

(** A frame [pop] returns is a run of consecutive slots of the buffer it was
    called on, complete and within its deadline; the slots are emptied (a run
    shorter than the buffer). *)
Definition popped (s : JitterBuffer) (clk : nat -> Z) (data : bytes) (s' : JitterBuffer) : Prop :=
  exists i pkts lastp k,
    run_at (timestamp lastp) i pkts s /\ last pkts = Some lastp /\ (length pkts <= N)%nat /\
    total_chunks lastp = Z.of_nat (length pkts) /\ data = concat (payload <$> pkts) /\
    valid_playout_time checks (clk k) (timestamp lastp) s = Ret true /\
    last_frame_completed_timestamp s' = timestamp lastp /\
    ((length pkts < N)%nat -> forall j p, pkts !! j = Some p -> slot s' ((i + j) mod N) = None).

Lemma pop_spec clk now s :
  wf s -> exists r, pop checks N clk now s = Some r /\
    match r with
    | Panic => unschedulable s
    | Ret (o, s') => wf s' /\ (forall i p, slot s' i = Some p -> slot s i = Some p) /\
        (forall data, o = Some data -> popped s clk data s')
    end.
Proof.
  intros Hs. unfold pop.
  destruct (prepare_next_frame_ts_total clk s Hs) as (r & -> & Hr). destruct r as [[o s1]|]; [|by exists Panic].
  destruct Hr as (Hs1 & Hd & Hc & Hsub & Ho). cbn [ocbind].
  destruct o as [ts|]; [|by exists (Ret (None, s1))].
  destruct (Ho ts eq_refl) as (p0 & k & Hp0 & Hts & Hv).
  destruct (collect N N ts (read_idx s1) 0 [] s1) as [[[data idx] lastp]|] eqn:Hcol; [|by exists (Ret (None, s1))].
  assert (Hri : (read_idx s1 < N)%nat) by apply Hs1.
  apply collect_spec in Hcol as (pkts & Hrun & Hlast & Hlen & Htc & Hdata & ->); [|done].
  assert (Hlts : timestamp lastp = ts).
  { rewrite last_lookup in Hlast. by destruct (Hrun _ _ Hlast) as (_ & ? & _). }
  assert (Hadv : exists s2, advance_read_pointers N ((read_idx s1 + length pkts) mod N) s1 = Some s2 /\ wf s2 /\
    last_deliver_timestamp s2 = last_deliver_timestamp s1 /\
    last_frame_completed_timestamp s2 = last_frame_completed_timestamp s1 /\
    (forall i p, slot s2 i = Some p -> slot s1 i = Some p) /\
    ((length pkts < N)%nat -> forall j p, pkts !! j = Some p -> slot s2 ((read_idx s1 + j) mod N) = None)).
  { destruct (decide (length pkts < N)%nat) as [Hlt|].
    - destruct (advance_read_pointers_total (length pkts) s1 Hs1 Hlt) as (s2 & -> & ?&_&?&?& Hcl & _ & ? & _).
      exists s2. split_and!; try done. intros _ j p Hj. apply Hcl. by eapply lookup_lt_Some.
    - replace ((read_idx s1 + length pkts) mod N)%nat with ((read_idx s1 + 0) mod N)%nat.
      2:{ replace (length pkts) with (1 * N)%nat by lia. by rewrite Nat.Div0.mod_add, Nat.add_0_r. }
      destruct (advance_read_pointers_total 0 s1 Hs1 HN) as (s2 & -> & ?&_&?&?& Hcl & _ & ? & _).
      by exists s2. }
  destruct Hadv as (s2 & -> & Hs2 & Hd2 & Hc2 & Hsub2 & Hcl).
  rewrite (synchronize_valid (clk k) now lastp s2 true) by (rewrite Hlts, (valid_same _ _ s); [done|congruence..]). cbn [ocbind].
  pose proof (finish_same now lastp s2) as (E1 & E2 & E3 & E4 & E5 & _ & E6 & _).
  set (s3 := (if is_i_frame lastp then set_i_frame_needed false else id) _) in *.
  exists (Ret (Some data, s3)). split.
  { unfold s3, id. by destruct (is_i_frame lastp). }
  split_and!.
  - by eapply wf_same.
  - unfold slot. rewrite E1. intros i p Hp. by apply Hsub, Hsub2.
  - intros d [= <-]. exists (read_idx s1), pkts, lastp, k. rewrite Hlts. split_and!; try done.
    + intros j p Hj. destruct (Hrun j p Hj) as (? & ? & ?). split_and!; eauto.
    + congruence.
    + intros Hlt j p Hj. unfold slot. rewrite E1. by eapply Hcl.
Qed.

(** The read pointer at an unschedulable packet: a checked build panics. *)
Lemma pop_unschedulable clk now s p :
  checks = true -> last_deliver_timestamp s <> 0 -> slot s (read_idx s) = Some p ->
  ~ schedulable s (timestamp p) -> pop checks N clk now s = Some Panic.
Proof.
  intros Hc Hd Hp Hn. unfold pop, prepare_next_frame_ts. cbn [prepare_loop]. rewrite Hp.
  destruct (valid_playout_time checks _ _ _) as [b|] eqn:E; [|done]. by apply valid_schedulable in E.
Qed.

(** ** Positions of nearby sequence numbers *)

Lemma pos_of_Z q : Z.of_nat (pos_of N q) = q mod Z.of_nat N.
Proof. unfold pos_of. pose proof (Z.mod_pos_bound q (Z.of_nat N)). lia. Qed.

Lemma pos_of_add q d : pos_of N (q + Z.of_nat d) = ((pos_of N q + d) mod N)%nat.
Proof.
  apply Nat2Z.inj. rewrite pos_of_Z, Nat2Z.inj_mod, Nat2Z.inj_add, pos_of_Z.
  by rewrite Zplus_mod_idemp_l.
Qed.

(** The position of a sequence number less than N above another. *)
Lemma pos_of_near r d :
  0 <= d < Z.of_nat N ->
  Z.of_nat (pos_of N (r + d)) =
  if Z.of_nat (pos_of N r) + d <? Z.of_nat N then Z.of_nat (pos_of N r) + d
  else Z.of_nat (pos_of N r) + d - Z.of_nat N.
Proof. intros Hd. rewrite !pos_of_Z. apply Zmod_small_or_wrap; lia. Qed.

Lemma pos_of_inj_near a b : Z.abs (a - b) < Z.of_nat N -> pos_of N a = pos_of N b -> a = b.
Proof.
  intros Hab E. destruct (Z.le_gt_cases b a).
  - pose proof (pos_of_near b (a - b)) as H1. replace (b + (a - b)) with a in H1 by lia.
    pose proof (pos_of_lt a). pose proof (pos_of_lt b). rewrite E in H1. revert H1. case_bool; lia.
  - pose proof (pos_of_near a (b - a)) as H1. replace (a + (b - a)) with b in H1 by lia.
    pose proof (pos_of_lt a). pose proof (pos_of_lt b). rewrite E in H1. revert H1. case_bool; lia.
Qed.

(** A number within a buffer's length of the window [r, w] passes the window
    test, once the read number is past the second lap of the buffer. *)
Lemma accepts_near s p r w seq :
  slot s (read_idx s) = Some p -> sequence_number p = r -> read_idx s = pos_of N r ->
  write_idx s = pos_of N w -> r <= w < r + Z.of_nat N -> w - Z.of_nat N < seq ->
  2 * Z.of_nat N <= r < 2 ^ 64 -> valid_packet_seq_num N seq s = true.
Proof.
  intros Hp Hr Hri Hwi Hrw Hseq Hbig. unfold valid_packet_seq_num. rewrite Hp, Hr, Hri, Hwi.
  pose proof (pos_of_near r (w - r)) as Hw. replace (r + (w - r)) with w in Hw by lia.
  pose proof (pos_of_lt r). pose proof (pos_of_lt w).
  assert (Hwin : Z.of_nat (pos_of N r + N - pos_of N w) = Z.of_nat N - (w - r) \/
                 Z.of_nat (pos_of N r + N - pos_of N w) = 2 * Z.of_nat N - (w - r)).
  { revert Hw. case_bool; lia. }
  set (win := Z.of_nat _) in *. case_bool; [done|].
  unfold wrapping_sub. rewrite wrap_id by (unfold fits; lia). apply Z.ltb_lt. lia.
Qed.

(** A new write head less than a lap ahead of the read pointer overtakes nothing. *)
Lemma no_collision s r w seq :
  read_idx s = pos_of N r -> write_idx s = pos_of N w -> r <= w -> w < seq < r + Z.of_nat N ->
  handle_new_write_head N seq (pos_of N seq) s = set_write (pos_of N seq) (Some seq) s.
Proof.
  intros Hri Hwi Hrw Hseq. unfold handle_new_write_head. simpl read_idx. rewrite Hri, Hwi.
  pose proof (pos_of_near r (w - r)) as Hw. replace (r + (w - r)) with w in Hw by lia.
  pose proof (pos_of_near r (seq - r)) as Hs. replace (r + (seq - r)) with seq in Hs by lia.
  pose proof (pos_of_lt r). pose proof (pos_of_lt w). pose proof (pos_of_lt seq).
  assert (E : (if (pos_of N r <=? pos_of N w)%nat
    then (pos_of N r <=? pos_of N seq)%nat && (pos_of N seq <=? pos_of N w)%nat
    else (pos_of N r <=? pos_of N seq)%nat || (pos_of N seq <=? pos_of N w)%nat) = false).
  { revert Hw Hs. repeat case_bool; intros; simpl; try done; lia. }
  by rewrite E.
Qed.

(** ** Receiving one frame *)

(** The packets of one frame of [k] chunks, numbered from [s0]. *)
Record is_frame (b : bool) (ts s0 : Z) (pkts : list RtpPacket) : Prop := mk_is_frame {
  frame_nonempty : pkts <> [];
  frame_packet : forall j p, pkts !! j = Some p ->
    sequence_number p = s0 + Z.of_nat j /\ timestamp p = ts /\ is_i_frame p = b /\
    total_chunks p = Z.of_nat (length pkts) /\ (marker p = 1 <-> S j = length pkts)
}.

(** An idle buffer: nothing stored, no pointer tracked. *)
Record idle (c d : Z) (need : bool) (s : JitterBuffer) : Prop := mk_idle {
  idle_wf : wf s;
  idle_slots : forall i, slot s i = None;
  idle_read : read_seq s = None;
  idle_completed : last_frame_completed_timestamp s = c;
  idle_delivered : last_deliver_timestamp s = d;
  idle_need : i_frame_needed s = need
}.

(** A buffer holding exactly the packets [A]. *)
Record holding (c d : Z) (A : list RtpPacket) (s : JitterBuffer) : Prop := mk_holding {
  hold_wf : wf s;
  hold_slots : forall i p, slot s i = Some p <-> p ∈ A /\ pos_of N (sequence_number p) = i;
  hold_window : exists r w, read_seq s = Some r /\ write_seq s = Some w /\
    (forall p, p ∈ A -> r <= sequence_number p <= w) /\
    (exists p, p ∈ A /\ sequence_number p = r) /\ (exists p, p ∈ A /\ sequence_number p = w);
  hold_completed : last_frame_completed_timestamp s = c;
  hold_delivered : last_deliver_timestamp s = d;
  hold_need : i_frame_needed s = false
}.

Lemma update_stats_same t p s :
  packets (after_stats t p s) = packets s /\ read_idx (after_stats t p s) = read_idx s /\
  write_idx (after_stats t p s) = write_idx s /\ read_seq (after_stats t p s) = read_seq s /\
  write_seq (after_stats t p s) = write_seq s /\ i_frame_needed (after_stats t p s) = i_frame_needed s /\
  last_frame_completed_timestamp (after_stats t p s) = last_frame_completed_timestamp s /\
  last_deliver_timestamp (after_stats t p s) = last_deliver_timestamp s.
Proof. unfold after_stats. destruct (metrics_poisoned s); [done|]. by destruct (counted_packet _ _ _). Qed.

Lemma idle_update_stats t p c d need s : idle c d need s -> idle c d need (after_stats t p s).
Proof.
  intros [Hw Hs Hr Hc Hd Hn]. destruct (update_stats_same t p s) as (E1&E2&E3&E4&E5&E6&E7&E8).
  split; try congruence; [by apply wf_update_stats|]. intros i. unfold slot. rewrite E1. apply Hs.
Qed.

Lemma holding_update_stats t p c d A s : holding c d A s -> holding c d A (after_stats t p s).
Proof.
  intros [Hw Hs Hr Hc Hd Hn]. destruct (update_stats_same t p s) as (E1&E2&E3&E4&E5&E6&E7&E8).
  split; try congruence; [by apply wf_update_stats| |].
  - intros i q. unfold slot. rewrite E1. apply Hs.
  - by rewrite E4, E5.
Qed.

Lemma add_idle t p c d need s :
  idle c d need s -> (need = false \/ is_i_frame p = true) -> c <= timestamp p ->
  holding c d [p] (after_add N t p s).
Proof.
  intros Hs Hn Hc. pose proof (wf_add t p s (idle_wf _ _ _ _ Hs)) as Hwf. revert Hwf.
  unfold after_add, store. apply (idle_update_stats t p) in Hs.
  set (s1 := after_stats t p s) in *. clearbody s1. clear s. destruct Hs as [Hw Hsl Hr Hcs Hd Hns].
  assert (should_discard N p s1 = false) as ->.
  { unfold should_discard, valid_packet_seq_num. rewrite Hsl, Hns, Hcs. case_bool; [lia|].
    destruct Hn as [-> | ->]; [done|]. by rewrite andb_false_r. }
  rewrite Hr. intros Hwf. split; try done.
  - intros i q. unfold initialize_buffer. change (slot (set_i_frame_needed ?b ?x)) with (slot x).
    rewrite slot_set_slot by (simpl; rewrite (wf_length s1) by apply Hw; apply pos_of_lt).
    change (slot (set_write _ _ (set_read _ _ s1))) with (slot s1).
    rewrite list_elem_of_singleton. case_decide as E; [split; [intros [= <-]|intros [-> ?]]; done|].
    rewrite Hsl. split; [done|]. by intros [-> ?].
  - exists (sequence_number p), (sequence_number p). split_and!; try done; [|by exists p; rewrite list_elem_of_singleton..].
    intros q ->%list_elem_of_singleton. lia.
Qed.

Lemma holding_accepts c d A s b ts s0 pkts p :
  is_frame b ts s0 pkts -> (length pkts <= N)%nat -> 2 * Z.of_nat N <= s0 ->
  s0 + Z.of_nat (length pkts) <= 2 ^ 64 -> (forall q, q ∈ p :: A -> q ∈ pkts) ->
  holding c d A s -> valid_packet_seq_num N (sequence_number p) s = true.
Proof.
  intros Hf Hlen Hbig H64 Hsub [Hw Hsl (r & w & Hr & Hws & Hrng & (pr & Hpr & Er) & (pw & Hpw & Ew)) _ _ _].
  assert (Hin : forall q, q ∈ p :: A -> s0 <= sequence_number q < s0 + Z.of_nat (length pkts)).
  { intros q Hq. apply Hsub, list_elem_of_lookup_1 in Hq as [j Hj].
    destruct (frame_packet _ _ _ _ Hf j q Hj) as (-> & _). apply lookup_lt_Some in Hj. lia. }
  pose proof (Hin p ltac:(apply list_elem_of_here)) as Hps.
  pose proof (Hin pr ltac:(by apply list_elem_of_further)) as Hr'. rewrite Er in Hr'.
  pose proof (Hin pw ltac:(by apply list_elem_of_further)) as Hw'. rewrite Ew in Hw'.
  assert (Hri : read_idx s = pos_of N r) by by apply Hw.
  assert (Hrw : r <= w) by (rewrite <-Er; by apply Hrng).
  apply (accepts_near s pr r w); try done; [|by apply Hw|lia..]. apply Hsl. by rewrite Hri, Er.
Qed.

Lemma add_holding t p c d A s b ts s0 pkts :
  is_frame b ts s0 pkts -> (length pkts <= N)%nat -> c <= ts ->
  (forall s, holding c d A s -> valid_packet_seq_num N (sequence_number p) s = true) ->
  (forall q, q ∈ p :: A -> q ∈ pkts) -> p ∉ A ->
  holding c d A s -> holding c d (p :: A) (after_add N t p s).
Proof.
  intros Hf Hlen Hcts Hacc Hsub HpA Hs.
  pose proof (wf_add t p s (hold_wf _ _ _ _ Hs)) as Hwf. revert Hwf.
  unfold after_add, store. apply (holding_update_stats t p) in Hs.
  set (s1 := after_stats t p s) in *. clearbody s1. clear s. specialize (Hacc s1 Hs).
  destruct Hs as [Hw Hsl (r & w & Hr & Hws & Hrng & (pr & Hpr & Er) & (pw & Hpw & Ew)) Hc Hd Hn].
  assert (Hin : forall q, q ∈ p :: A -> s0 <= sequence_number q < s0 + Z.of_nat (length pkts) /\ timestamp q = ts).
  { intros q Hq. apply Hsub, list_elem_of_lookup_1 in Hq as [j Hj].
    destruct (frame_packet _ _ _ _ Hf j q Hj) as (-> & -> & _). apply lookup_lt_Some in Hj. lia. }
  assert (Hinj : forall q q', q ∈ p :: A -> q' ∈ p :: A -> sequence_number q = sequence_number q' -> q = q').
  { intros q q' Hq Hq' E. apply Hsub, list_elem_of_lookup_1 in Hq as [j Hj], Hq' as [j' Hj'].
    destruct (frame_packet _ _ _ _ Hf j q Hj) as (E1 & _). destruct (frame_packet _ _ _ _ Hf j' q' Hj') as (E2 & _).
    assert (j = j') as -> by lia. congruence. }
  destruct (Hin p) as [Hps Hpt]; [apply list_elem_of_here|].
  assert (Hr' := Hin pr ltac:(by apply list_elem_of_further)). rewrite Er in Hr'.
  assert (Hw' := Hin pw ltac:(by apply list_elem_of_further)). rewrite Ew in Hw'.
  assert (Hri : read_idx s1 = pos_of N r) by by apply Hw. assert (Hwi : write_idx s1 = pos_of N w) by by apply Hw.
  assert (Hrw : r <= w) by (rewrite <-Er; by apply Hrng).
  assert (should_discard N p s1 = false) as ->.
  { unfold should_discard. rewrite Hn, Hc, Hpt. simpl. case_bool; [lia|].
    by rewrite Hacc. }
  rewrite Hr, Hws. set (s2 := if _ <? r then _ else _).
  assert (H2 : slot s2 = slot s1 /\ packets s2 = packets s1 /\ last_frame_completed_timestamp s2 = c /\
    last_deliver_timestamp s2 = d /\ i_frame_needed s2 = false /\
    read_seq s2 = Some (Z.min r (sequence_number p)) /\ write_seq s2 = Some (Z.max w (sequence_number p))).
  { unfold s2. case_bool; [|case_bool].
    - simpl. rewrite Hws. split_and!; try done; f_equal; lia.
    - rewrite (no_collision s1 r w) by (done || lia). simpl. rewrite Hr. split_and!; try done; f_equal; lia.
    - rewrite Hr, Hws. split_and!; try done; f_equal; lia. }
  clearbody s2. destruct H2 as (E1 & E2 & E3 & E4 & E5 & E6 & E7). intros Hwf. split; try done.
  - intros i q. rewrite slot_set_slot by (rewrite E2, (wf_length s1) by apply Hw; apply pos_of_lt).
    rewrite E1, elem_of_cons. case_decide as E.
    + split; [by intros [= <-]; auto|]. intros [[->|Hq] Hqi]; [done|]. exfalso.
      assert (q = p) as ->; [|done]. apply Hinj; [by apply list_elem_of_further|apply list_elem_of_here|].
      apply pos_of_inj_near; [|congruence]. destruct (Hin q); [by apply list_elem_of_further|]. lia.
    + rewrite Hsl. split; [intros []; auto|]. intros [[->|Hq] Hqi]; [done|auto].
  - exists (Z.min r (sequence_number p)), (Z.max w (sequence_number p)). split_and!; [done|done| | |].
    + intros q [->|Hq]%elem_of_cons; [lia|]. specialize (Hrng q Hq). lia.
    + destruct (Z.le_gt_cases r (sequence_number p)); [exists pr|exists p]; rewrite elem_of_cons; split; auto; lia.
    + destruct (Z.le_gt_cases (sequence_number p) w); [exists pw|exists p]; rewrite elem_of_cons; split; auto; lia.
Qed.

Lemma prepare_holding clk c d A s b ts s0 pkts :
  is_frame b ts s0 pkts -> (forall q, q ∈ A -> q ∈ pkts) -> holding c d A s ->
  (forall k, valid_playout_time checks (clk k) ts s = Ret true) ->
  prepare_next_frame_ts checks N clk s = Some (Ret (Some ts, s)).
Proof.
  intros Hf Hsub [Hw Hsl (r & w & Hr & _ & _ & (pr & Hpr & Er) & _) _ _ _] Hv.
  assert (Hri : read_idx s = pos_of N r) by by apply Hw.
  assert (Hp : slot s (read_idx s) = Some pr) by (apply Hsl; by rewrite Hri, Er).
  unfold prepare_next_frame_ts. simpl. rewrite Hp.
  apply Hsub, list_elem_of_lookup_1 in Hpr as [j Hj].
  destruct (frame_packet _ _ _ _ Hf j pr Hj) as (_ & -> & _). by rewrite Hv.
Qed.

(** A run of consecutive slots holds distinct packets. *)
Lemma run_at_NoDup ts idx pkts s :
  (idx < N)%nat -> (length pkts <= N)%nat -> wf s -> run_at ts idx pkts s -> NoDup pkts.
Proof.
  intros Hi Hl Hs Hr. apply NoDup_alt. intros j j' p Hj Hj'.
  destruct (Hr j p Hj) as (H1 & _). destruct (Hr j' p Hj') as (H2 & _).
  apply (wf_slot _ (wf_wf_slots _ Hs)) in H1, H2. rewrite H1 in H2. revert H2.
  apply lookup_lt_Some in Hj, Hj'. rewrite !mod_small_or_wrap by lia. repeat case_bool; lia.
Qed.

Lemma pop_partial clk now c d A s b ts s0 pkts q :
  is_frame b ts s0 pkts -> (length pkts <= N)%nat ->
  (forall x, x ∈ A -> x ∈ pkts) -> q ∈ pkts -> q ∉ A -> holding c d A s ->
  (forall k, valid_playout_time checks (clk k) ts s = Ret true) ->
  pop checks N clk now s = Some (Ret (None, s)).
Proof.
  intros Hf Hl Hsub Hq HqA Hs Hv. unfold pop. rewrite (prepare_holding clk c d A s b ts s0 pkts) by done. cbn [ocbind].
  destruct (collect _ _ _ _ _ _ _) as [[[data idx] lastp]|] eqn:Hc; [|done]. exfalso.
  assert (Hri : (read_idx s < N)%nat) by apply Hs.
  apply collect_spec in Hc as (run & Hrun & Hlast & Hlen & Htc & _); [|done].
  pose proof (run_at_NoDup _ _ _ _ Hri Hlen (hold_wf _ _ _ _ Hs) Hrun) as Hnd.
  assert (HrA : forall x, x ∈ run -> x ∈ A).
  { intros x [j Hj]%list_elem_of_lookup_1. destruct (Hrun j x Hj) as (Hx & _). by apply Hs in Hx as [? _]. }
  assert (Hk : length run = length pkts).
  { rewrite last_lookup in Hlast. apply list_elem_of_lookup_2, HrA, Hsub, list_elem_of_lookup_1 in Hlast as [j Hj].
    destruct (frame_packet _ _ _ _ Hf j _ Hj) as (_ & _ & _ & Ht & _). lia. }
  assert (Hperm : run ≡ₚ pkts).
  { apply submseteq_length_Permutation; [|lia]. apply NoDup_submseteq; [done|]. auto. }
  apply HqA, HrA. by rewrite Hperm.
Qed.

Lemma pop_complete clk now c d A s b ts s0 pkts :
  is_frame b ts s0 pkts -> (length pkts < N)%nat ->
  (forall x, x ∈ A <-> x ∈ pkts) -> holding c d A s ->
  (forall k, valid_playout_time checks (clk k) ts s = Ret true) ->
  exists s', pop checks N clk now s = Some (Ret (Some (concat (payload <$> pkts)), s')) /\
    idle ts (if d =? 0 then now else wrap 128 (d + saturating_sub ts c)) false s'.
Proof.
  intros Hf Hl Hsub Hs Hv. unfold pop.
  rewrite (prepare_holding clk c d A s b ts s0 pkts) by (try done; intros; by apply Hsub). cbn [ocbind].
  pose proof Hs as [Hw Hsl (r & w & Hr & _ & Hrng & (pr & Hpr & Er) & _) Hc Hd Hn].
  assert (r = s0) as ->.
  { assert (s0 <= r). { apply Hsub, list_elem_of_lookup_1 in Hpr as [j Hj].
      destruct (frame_packet _ _ _ _ Hf j _ Hj) as (E & _). lia. }
    destruct pkts as [|p0 pkts']; [by destruct (frame_nonempty _ _ _ _ Hf)|].
    destruct (frame_packet _ _ _ _ Hf 0%nat p0 eq_refl) as (E & _).
    destruct (Hrng p0); [apply Hsub, list_elem_of_here|]. lia. }
  assert (Hri : read_idx s = pos_of N s0) by by apply Hw.
  assert (Hrun : run_at ts (read_idx s) pkts s).
  { intros j p Hj. destruct (frame_packet _ _ _ _ Hf j p Hj) as (E & ? & _ & _ & ?). split_and!; try done.
    apply Hsl. split; [apply Hsub; by eapply list_elem_of_lookup_2|]. by rewrite E, pos_of_add, Hri. }
  destruct (last pkts) as [lastp|] eqn:Hlast; [|by apply last_None in Hlast; destruct (frame_nonempty _ _ _ _ Hf)].
  pose proof Hlast as Hlk. rewrite last_lookup in Hlk.
  destruct (frame_packet _ _ _ _ Hf _ _ Hlk) as (_ & Hlts & _ & Htc & _).
  assert (collect N N ts (read_idx s) 0 [] s =
    Some (concat (payload <$> pkts), ((read_idx s + length pkts) mod N)%nat, lastp)) as ->.
  { apply collect_spec; [apply Hw|]. exists pkts. split_and!; try done. lia. }
  destruct (advance_read_pointers_total (length pkts) s Hw Hl)
    as (s2 & -> & Hw2 & Hn2 & Hd2 & Hc2 & Hcl & _ & Hsub2 & Hrs2).
  rewrite (synchronize_valid (clk 0%nat) now lastp s2 true) by (rewrite Hlts, (valid_same _ _ s); [apply Hv|congruence..]). cbn [ocbind].
  pose proof (finish_same now lastp s2) as (E1 & E2 & E3 & E4 & E5 & E6 & E7 & E8).
  set (s3 := (if is_i_frame lastp then set_i_frame_needed false else id) _) in *.
  exists s3. split; [unfold s3; by destruct (is_i_frame lastp)|].
  assert (Hempty : forall i, slot s2 i = None).
  { intros i. destruct (slot s2 i) as [p|] eqn:Hp; [|done]. pose proof Hp as Hp'.
    apply Hsub2, Hsl in Hp' as [HpA Hpi]. apply Hsub, list_elem_of_lookup_1 in HpA as [j Hj].
    destruct (frame_packet _ _ _ _ Hf j p Hj) as (E & _). rewrite E, pos_of_add, <-Hri in Hpi.
    rewrite <-Hpi, Hcl in Hp; [done|]. by eapply lookup_lt_Some. }
  split; [by eapply wf_same|by unfold slot; rewrite E1| |congruence| |].
  - rewrite E4. destruct (read_seq s2) eqn:E; [|done]. destruct (Hrs2 _ eq_refl) as (i & p & Hp).
    by rewrite Hempty in Hp.
  - rewrite E8. unfold synchronized. rewrite Hd2, Hc2, Hd, Hc, Hlts. by destruct (d =? 0).
  - rewrite E6, Hn2, Hn. by destruct (is_i_frame lastp).
Qed.

(** ** Receiving the chunks of a frame in any order *)

(** Every clock reading of the turns [es] meets the deadline of [ts]. *)
Definition on_time (c d ts : Z) (es : list event) : Prop :=
  forall e k, e ∈ es -> d = 0 \/ ev_clk e k <= d + (ts - c) + TOLERANCE_MILLIS.

Lemma valid_on_time c d ts s x :
  last_frame_completed_timestamp s = c -> last_deliver_timestamp s = d ->
  c <= ts -> 0 <= c -> 0 <= d -> d + ts + TOLERANCE_MILLIS < 2 ^ 128 ->
  d = 0 \/ x <= d + (ts - c) + TOLERANCE_MILLIS -> valid_playout_time checks x ts s = Ret true.
Proof.
  intros <- <- Hts Hc Hd Hb Hx. unfold valid_playout_time, TOLERANCE_MILLIS in *. destruct (Z.eqb_spec (last_deliver_timestamp s) 0); [done|].
  rewrite checked_fits by width. cbn [cbind]. rewrite checked_fits by width. cbn [cbind]. rewrite checked_fits by width. cbn [cbind].
  f_equal. apply Z.leb_le. lia.
Qed.

Definition delivered_after (c d ts now : Z) : Z := if d =? 0 then now else wrap 128 (d + saturating_sub ts c).

Section Frame.
Context (b : bool) (ts s0 c d : Z) (pkts : list RtpPacket).
Context (Hf : is_frame b ts s0 pkts) (Hl : (length pkts < N)%nat) (Hbig : 2 * Z.of_nat N <= s0)
  (H64 : s0 + Z.of_nat (length pkts) <= 2 ^ 64)
  (Hts : 0 <= c <= ts) (Hd : 0 <= d) (Hb : d + ts + TOLERANCE_MILLIS < 2 ^ 128).

Lemma frame_NoDup : NoDup pkts.
Proof.
  apply NoDup_alt. intros j j' p Hj Hj'.
  destruct (frame_packet _ _ _ _ Hf j p Hj) as (E & _). destruct (frame_packet _ _ _ _ Hf j' p Hj') as (E' & _). lia.
Qed.

Lemma receive_rest es e A k s :
  (A ++ (ev_packet <$> es ++ [e])) ≡ₚ pkts -> on_time c d ts (es ++ [e]) -> roomy checks k s -> fits_in checks k (es ++ [e]) -> holding c d A s ->
  exists s', receive checks N (es ++ [e]) s =
      Some (Ret (replicate (length es) None ++ [Some (concat (payload <$> pkts))], s')) /\
    idle ts (delivered_after c d ts (ev_now e)) false s' /\ roomy checks (k + Z.of_nat (length (es ++ [e]))) s'.
Proof.
  revert A k s. induction es as [|e0 es IH]; intros A k s Hperm Hot Hroom Hfit Hs.
  - simpl in *. unfold receive_one. destruct (add_fits checks N k e [] s Hfit Hroom) as (Hadd & Hroom' & _).
    rewrite Hadd. cbn [ocbind].
    assert (Hs' : holding c d (ev_packet e :: A) (after_add N (ev_arrival e) (ev_packet e) s)).
    { eapply add_holding; try done; [lia|lia| | |].
      - intros s1. eapply holding_accepts; try done; [lia|].
        intros q. rewrite <-Hperm. elems.
      - intros q. rewrite <-Hperm. elems.
      - pose proof frame_NoDup as Hnd. rewrite <-Hperm in Hnd. apply NoDup_app in Hnd as (_ & Hx & _).
        intros Hin. apply (Hx _ Hin). apply list_elem_of_here. }
    destruct (pop_complete (ev_clk e) (ev_now e) c d (ev_packet e :: A)
      (after_add N (ev_arrival e) (ev_packet e) s) b ts s0 pkts Hf Hl) as (s' & Hp & Hi); try done.
    + intros x. rewrite <-Hperm, elem_of_app, list_elem_of_singleton, elem_of_cons. tauto.
    + intros j. eapply valid_on_time; try apply Hs'; try done; [lia..|]. apply Hot. apply list_elem_of_here.
    + rewrite Hp. cbn [ocbind]. exists s'. split_and!; [done..|]. by apply (roomy_pop _ _ _ _ _ _ _ _ Hp).
  - simpl in *. unfold receive_one. destruct (add_fits checks N k e0 (es ++ [e]) s Hfit Hroom) as (Hadd & Hroom' & Hfit').
    rewrite Hadd. cbn [ocbind].
    assert (Hnd : NoDup (A ++ ev_packet e0 :: (ev_packet <$> es ++ [e]))) by (rewrite Hperm; apply frame_NoDup).
    assert (Hs' : holding c d (ev_packet e0 :: A) (after_add N (ev_arrival e0) (ev_packet e0) s)).
    { eapply add_holding; try done; [lia|lia| | |].
      - intros s1. eapply holding_accepts; try done; [lia|].
        intros q. rewrite <-Hperm. elems.
      - intros q. rewrite <-Hperm. elems.
      - apply NoDup_app in Hnd as (_ & Hx & _). intros Hin. apply (Hx _ Hin). apply list_elem_of_here. }
    rewrite (pop_partial _ _ c d (ev_packet e0 :: A)
      (after_add N (ev_arrival e0) (ev_packet e0) s) b ts s0 pkts (ev_packet e)); try done; [|lia|..].
    + cbn [ocbind]. destruct (IH (ev_packet e0 :: A) (k + 1)
        (after_add N (ev_arrival e0) (ev_packet e0) s)) as (s' & -> & Hi & Hroom2); [| |done..|].
      * rewrite <-Hperm. simpl. by rewrite Permutation_middle.
      * intros x j Hx. apply Hot. by apply list_elem_of_further.
      * cbn [ocbind]. exists s'. split_and!; [done..|].
        match goal with |- roomy _ ?x _ => by replace x with (k + 1 + Z.of_nat (length (es ++ [e]))) by lia end.
    + intros x. rewrite <-Hperm. elems.
    + rewrite <-Hperm. elems.
    + apply NoDup_app in Hnd as (_ & Hx & Hnd2). apply NoDup_cons in Hnd2 as [Hn0 _].
      intros [E|Hin]%elem_of_cons.
      * apply Hn0. rewrite <-E. elems.
      * apply (Hx _ Hin). elems.
    + intros j. eapply valid_on_time; try apply Hs'; try done; [lia..|]. apply Hot. apply list_elem_of_here.
Qed.

(** From an idle buffer: whatever the order in which the chunks arrive, the
    buffer stays silent until the last one and then delivers the frame. *)
Lemma receive_frame es need k s :
  (ev_packet <$> es) ≡ₚ pkts -> on_time c d ts es -> (need = false \/ b = true) -> roomy checks k s -> fits_in checks k es -> idle c d need s ->
  exists e s', last es = Some e /\
    receive checks N es s = Some (Ret (replicate (pred (length pkts)) None ++ [Some (concat (payload <$> pkts))], s')) /\
    idle ts (delivered_after c d ts (ev_now e)) false s' /\ roomy checks (k + Z.of_nat (length es)) s'.
Proof.
  intros Hperm Hot Hneed Hroom Hfit Hs.
  assert (Hlen : length pkts = length es) by (rewrite <-(Permutation_length Hperm); apply length_fmap).
  assert (Hin : forall e, e ∈ es -> exists j, pkts !! j = Some (ev_packet e)).
  { intros e He. apply list_elem_of_lookup_1. rewrite <-Hperm. by apply list_elem_of_fmap_2. }
  destruct es as [|e0 es]; [by destruct (frame_nonempty _ _ _ _ Hf); destruct pkts|].
  destruct (Hin e0) as [j0 Hj0]; [apply list_elem_of_here|].
  destruct (frame_packet _ _ _ _ Hf _ _ Hj0) as (_ & Et & Ei & Etc & Em).
  assert (Hs' : holding c d [ev_packet e0] (after_add N (ev_arrival e0) (ev_packet e0) s)).
  { apply (add_idle _ _ c d need); [done| |lia]. by rewrite Ei. }
  assert (Hv : forall k, valid_playout_time checks (ev_clk e0 k) ts (after_add N (ev_arrival e0) (ev_packet e0) s) = Ret true).
  { intros j. eapply valid_on_time; try apply Hs'; try done; [lia..|]. apply Hot. apply list_elem_of_here. }
  destruct (add_fits checks N k e0 es s Hfit Hroom) as (Hadd & Hroom' & Hfit').
  destruct es as [|e1 es _] using rev_ind.
  - exists e0. simpl. unfold receive_one. rewrite Hadd. cbn [ocbind]. simpl in Hperm.
    destruct (pop_complete (ev_clk e0) (ev_now e0) c d [ev_packet e0]
      (after_add N (ev_arrival e0) (ev_packet e0) s) b ts s0 pkts Hf Hl) as (s' & Hp & Hi); try done.
    + intros x. by rewrite <-Hperm.
    + rewrite Hp. cbn [ocbind]. exists s'. rewrite Hlen. split_and!; [done..|]. by apply (roomy_pop _ _ _ _ _ _ _ _ Hp).
  - rewrite last_cons, last_snoc. exists e1. simpl. unfold receive_one. rewrite Hadd. cbn [ocbind].
    assert (Hnd := frame_NoDup). rewrite <-Hperm in Hnd.
    rewrite (pop_partial _ _ c d [ev_packet e0]
      (after_add N (ev_arrival e0) (ev_packet e0) s) b ts s0 pkts (ev_packet e1)); try done; [|lia|..].
    + cbn [ocbind]. destruct (receive_rest es e1 [ev_packet e0] (k + 1)
        (after_add N (ev_arrival e0) (ev_packet e0) s)) as (s' & -> & Hi & Hroom2); [done| |done..|].
      * intros x j Hx. apply Hot. by apply list_elem_of_further.
      * cbn [ocbind]. exists s'. split_and!; [done| |done|].
        -- rewrite Hlen. simpl. rewrite length_app. simpl. by rewrite Nat.add_1_r.
        -- match goal with |- roomy _ ?x _ => by replace x with (k + 1 + Z.of_nat (length (es ++ [e1]))) by lia end.
    + intros x. rewrite <-Hperm. elems.
    + rewrite <-Hperm. elems.
    + simpl in Hnd. apply NoDup_cons in Hnd as [Hnd _].
      intros E%list_elem_of_singleton. apply Hnd. rewrite <-E. elems.
Qed.

End Frame.

End Facts.

(** * Losses *)

Section Losses.
Context (checks : bool) (N : nat).









End Losses.

(** ** The first lap *)

(** A single packet held: any number below N is accepted. *)
Lemma first_lap_accept N (HN : (0 < N)%nat) p1 p2 c d s :
  holding N c d [p1] s -> sequence_number p2 < Z.of_nat N -> valid_packet_seq_num N (sequence_number p2) s = true.
Proof.
  intros [Hw Hsl (r & w & Hr & Hws & Hrng & (pr & Hpr & Er) & (pw & Hpw & Ew)) _ _ _] Hq.
  apply list_elem_of_singleton in Hpr as ->, Hpw as ->. unfold valid_packet_seq_num.
  destruct (slot s (read_idx s)); [|done].
  rewrite (wf_read_seq _ _ Hw r Hr), (wf_write_seq _ _ Hw w Hws), <-Er, <-Ew.
  rewrite (proj2 (Z.ltb_lt _ _)); [done|]. lia.
Qed.

(** Numbers N-3 and N-2 held: N-1 is refused, the bound having wrapped. *)
Lemma first_lap_discard N (HN : (3 <= N)%nat) (HNb : Z.of_nat N < 2 ^ 63) t p1 p2 p3 c d s :
  holding N c d [p2; p1] s -> sequence_number p1 = Z.of_nat N - 3 -> sequence_number p2 = Z.of_nat N - 2 ->
  sequence_number p3 = Z.of_nat N - 1 -> c <= timestamp p3 -> after_add N t p3 s = after_stats t p3 s.
Proof.
  intros H2 S1 S2 S3 Hc. assert (HN0 : (0 < N)%nat) by lia.
  assert (P1 : Z.of_nat (pos_of N (Z.of_nat N - 3)) = Z.of_nat N - 3) by (rewrite pos_of_Z by done; apply Z.mod_small; lia).
  assert (P2 : Z.of_nat (pos_of N (Z.of_nat N - 2)) = Z.of_nat N - 2) by (rewrite pos_of_Z by done; apply Z.mod_small; lia).
  unfold after_add, store. apply (holding_update_stats N t p3) in H2. set (s3 := after_stats t p3 s) in *.
  destruct H2 as [Hw Hsl (r & w & Hr & Hws & Hrng & (pr & Hpr & Er) & (pw & Hpw & Ew)) Hcc _ Hnn].
  assert (Hr1 := Hrng p1 ltac:(elems)). assert (Hr2 := Hrng p2 ltac:(elems)).
  assert (w = Z.of_nat N - 2) as -> by (apply elem_of_cons in Hpw as [->|Hpw%list_elem_of_singleton]; subst; lia).
  assert (r = Z.of_nat N - 3) as -> by (apply elem_of_cons in Hpr as [->|Hpr%list_elem_of_singleton]; subst; lia).
  assert (Hp : slot s3 (read_idx s3) = Some p1).
  { apply Hsl. split; [elems|]. rewrite (wf_read_seq _ _ Hw _ Hr). f_equal. lia. }
  assert (should_discard N p3 s3 = true) as ->; [|done].
  unfold should_discard. rewrite Hnn, Hcc. simpl. rewrite (proj2 (Z.ltb_ge _ _)) by lia.
  unfold valid_packet_seq_num. rewrite Hp, (wf_read_seq _ _ Hw _ Hr), (wf_write_seq _ _ Hw _ Hws).
  replace (Z.of_nat (pos_of N (Z.of_nat N - 3) + N - pos_of N (Z.of_nat N - 2))) with (Z.of_nat N - 1) by lia.
  rewrite (proj2 (Z.ltb_ge _ _)) by lia.
  replace (wrapping_sub 64 (sequence_number p1) (Z.of_nat N - 1)) with (2 ^ 64 - 2).
  2:{ unfold wrapping_sub, wrap. apply (Z.mod_unique_pos _ _ (-1)); lia. }
  by rewrite (proj2 (Z.ltb_ge _ _)) by lia.
Qed.

(** * Properties *)

(** C27: in every state the program can reach, in a build with overflow checks
    or without them, both indices are inside the array, every stored packet sits
    in the slot of its own sequence number and every tracked sequence number sits
    at its index; [add] and [pop] keep this; and the two open-ended loops of
    [pop] terminate whatever the clock says.  A build without checks never
    panics.  A build with checks panics in [pop] only when a stored packet has a
    deadline that does not fit a u128, and it does so whenever that packet is the
    one under the read pointer. *)
Theorem jitter_invariant checks N s :
  (0 < N)%nat -> reachable checks N s ->
  wf N s /\
  (forall t p, match add checks N t p s with Ret s' => wf N s' | Panic => checks = true end) /\
  forall clk now,
    (exists r, pop checks N clk now s = Some r /\
       match r with Ret (_, s') => wf N s' | Panic => unschedulable checks s end) /\
    (forall p, checks = true -> last_deliver_timestamp s <> 0 -> slot s (read_idx s) = Some p ->
       ~ schedulable s (timestamp p) -> pop checks N clk now s = Some Panic).
Proof.
  intros HN Hr. assert (Hw : wf N s).
  { induction Hr as [|t p s s' _ IH Ha|clk now o s s' _ IH Hp]; [by apply wf_new| |].
    - apply add_ret in Ha as ->. by apply wf_add.
    - destruct (pop_spec checks N HN clk now s IH) as (r & E & Hw). rewrite Hp in E. injection E as <-. apply Hw. }
  split; [done|]. split.
  - intros t p. destruct (add checks N t p s) as [s'|] eqn:Ha; [apply add_ret in Ha as ->; by apply wf_add|by eapply add_panics].
  - intros clk now. split.
    + destruct (pop_spec checks N HN clk now s Hw) as (r & ? & Hp). exists r. split; [done|]. destruct r as [[o s']|]; [apply Hp|done].
    + intros p Hc Hd Hp Hn. by apply (pop_unschedulable _ _ _ _ _ p).
Qed.

Lemma jitter_invariant_witness :
  let p := mk_packet 2 1 1 true 96 5 1000 7 [255] in
  exists s, add true 4 0 p (new 4) = Ret s /\ wf 4 s /\ exists s', pop true 4 (fun _ => 0) 0 s = Some (Ret (Some [255], s')).
Proof.
  set (p := mk_packet 2 1 1 true 96 5 1000 7 [255]). eexists. split; [vm_compute; reflexivity|]. split.
  - apply (jitter_invariant true 4); [lia|]. apply (reach_add true 4 0 p (new 4)); [apply reach_new|vm_compute; reflexivity].
  - eexists. vm_compute. reflexivity.
Defined.

(** Such a state can be reached.  The first chunk of an I-frame stamped 100 is
    stored, then an I-frame of a higher number stamped 50, then the missing
    chunk: the first frame is handed out, and the next poll computes 50 - 100 on
    u128.  A build with overflow checks panics there; without them the deadline
    wraps to the right value. *)
Definition late_frame : list event :=
  let p seq chunks marker ts := mk_event 60 (fun _ => 60) 60 (mk_packet 2 marker chunks true 96 seq ts 7 [seq]) in
  [p 1 2 0 100; p 3 1 1 50; p 2 2 1 100; p 4 1 1 150].

Lemma late_frame_panics :
  receive true 8 late_frame (new 8) = Some Panic /\
  exists s, receive false 8 late_frame (new 8) = Some (Ret ([None; None; Some [1; 2]; Some [3]], s)).
Proof. split; [vm_compute; reflexivity|]. eexists. vm_compute. reflexivity. Qed.

(** And the statistics: a packet stamped 2^63 or more overflows the transit time. *)
Lemma stamp_panics m q p s arrival :
  metrics_poisoned s = false -> count_packet true (metrics s) (max_seq_seen s) (sequence_number p) = Ret (m, q) ->
  0 <= arrival < 2 ^ 63 -> timestamp p = 2 ^ 63 -> update_stats true arrival p s = Panic.
Proof.
  intros Hp Hm Ha Ht. unfold update_stats. rewrite Hp, Hm, Ht. cbn [cbind].
  rewrite (signed_wrap_id 64 arrival) by lia. change (signed_wrap 64 (2 ^ 63)) with (- 2 ^ 63).
  unfold checked_signed, signed_fitsb. rewrite (proj2 (Z.ltb_ge _ _)) by lia. by rewrite andb_false_r.
Qed.

(** C16: every frame [pop] hands to the decoder is whole and in order: its bytes
    are the concatenation of a run of consecutive slots that were all in the
    buffer, share one timestamp, carry the marker on the last packet only and
    number exactly the [total_chunks] announced; the frame met its playout
    deadline, becomes the last completed one, and (when shorter than the
    buffer) its slots are emptied so that it is not delivered twice. *)
Theorem pop_sound checks N clk now s data s' :
  (0 < N)%nat -> wf N s -> pop checks N clk now s = Some (Ret (Some data, s')) ->
  popped checks N s clk data s' /\ (forall i p, slot s' i = Some p -> slot s i = Some p).
Proof.
  intros HN Hw Hp. destruct (pop_spec checks N HN clk now s Hw) as (r & E & Hr).
  rewrite Hp in E. injection E as <-. destruct Hr as (_ & Hsub & Hpop). auto.
Qed.

Lemma pop_sound_witness :
  let p q := mk_packet 2 q 2 true 96 (8 + q) 1000 7 [q] in
  let s := after_add 4 0 (p 0) (after_add 4 0 (p 1) (new 4)) in
  exists s', pop true 4 (fun _ => 0) 3 s = Some (Ret (Some [0; 1], s')) /\ popped true 4 s (fun _ => 0) [0; 1] s'.
Proof.
  set (p := fun q => mk_packet 2 q 2 true 96 (8 + q) 1000 7 [q]). intros p' s.
  eexists. split; [vm_compute; reflexivity|].
  apply (pop_sound true 4 (fun _ => 0) 3 s [0; 1]); [lia| |vm_compute; reflexivity].
  apply wf_add; [lia|]. apply wf_add; [lia|]. apply wf_new. lia.
Defined.



(** The acceptance window is wrong near the first lap of the buffer.  On a
    buffer of capacity N that is idle and ready, a frame of three chunks numbered
    N-3, N-2, N-1 that arrives in order and on time is never delivered: its third
    chunk, less than a lap ahead of the read pointer, is thrown away, because the
    lower bound of the window wraps below zero. *)
Lemma first_lap_frame_lost checks N n b ts c d need p1 p2 p3 e1 e2 e3 s :
  (3 <= N)%nat -> Z.of_nat N < 2 ^ 63 ->
  is_frame b ts (Z.of_nat N - 3) [p1; p2; p3] ->
  ev_packet <$> [e1; e2; e3] = [p1; p2; p3] -> on_time c d ts [e1; e2; e3] ->
  0 <= c <= ts -> 0 <= d -> d + ts + TOLERANCE_MILLIS < 2 ^ 128 ->
  need = false \/ b = true -> roomy checks n s -> fits_in checks n [e1; e2; e3] -> idle N c d need s ->
  exists s', receive checks N [e1; e2; e3] s = Some (Ret ([None; None; None], s')) /\ forall i, slot s' i <> Some p3.
Proof.
  intros HN HNb Hf He Hot Hc Hd Hb Hneed Hroom Hfit Hs. injection He as E1 E2 E3.
  assert (Hi : forall j p, [p1; p2; p3] !! j = Some p -> sequence_number p = Z.of_nat N - 3 + Z.of_nat j /\
    timestamp p = ts /\ is_i_frame p = b).
  { intros j p Hj. by destruct (frame_packet _ _ _ _ Hf j p Hj) as (?&?&?&_). }
  destruct (Hi 0%nat p1 eq_refl) as (S1 & T1 & B1). destruct (Hi 1%nat p2 eq_refl) as (S2 & T2 & B2).
  destruct (Hi 2%nat p3 eq_refl) as (S3 & T3 & B3).
  assert (HN0 : (0 < N)%nat) by lia.
  assert (H1 : holding N c d [p1] (after_add N (ev_arrival e1) (ev_packet e1) s)).
  { rewrite E1. apply (add_idle N HN0 _ _ c d need); [done| |lia]. by rewrite B1. }
  assert (Hv : forall x e A s, e ∈ [e1; e2; e3] -> holding N c d A s -> valid_playout_time checks (ev_clk e x) ts s = Ret true).
  { intros x e A s0 Hin Hh. eapply valid_on_time; try apply Hh; try done; [lia..|]. by apply Hot. }
  assert (Hp32 : p3 <> p2) by (intros ->; lia). assert (Hp31 : p3 <> p1) by (intros ->; lia).
  assert (Hp21 : p2 <> p1) by (intros ->; lia).
  destruct (add_fits checks N n e1 [e2; e3] s Hfit Hroom) as (Ha1 & Hroom1 & Hfit1).
  destruct (add_fits checks N (n + 1) e2 [e3] _ Hfit1 Hroom1) as (Ha2 & Hroom2 & Hfit2).
  destruct (add_fits checks N (n + 1 + 1) e3 [] _ Hfit2 Hroom2) as (Ha3 & _ & _).
  cbn [receive]. unfold receive_one. rewrite Ha1. cbn [ocbind].
  rewrite (pop_partial checks N HN0 _ _ c d [p1] (after_add N (ev_arrival e1) (ev_packet e1) s)
    b ts (Z.of_nat N - 3) [p1; p2; p3] p3); try done; [|intros x; elems|elems| |].
  2:{ intros E%list_elem_of_singleton. done. }
  2:{ intros k. eapply Hv; [apply list_elem_of_here|done]. }
  set (s1 := after_add N (ev_arrival e1) (ev_packet e1) s) in *.
  assert (H2 : holding N c d [p2; p1] (after_add N (ev_arrival e2) (ev_packet e2) s1)).
  { rewrite E2. eapply (add_holding N HN0 _ p2 c d [p1] s1 b ts (Z.of_nat N - 3) [p1; p2; p3]); try done; [lia| | |].
    - intros s0 Hh. apply (first_lap_accept N HN0 p1 p2 c d); [done|simpl in S2; lia].
    - intros q. elems.
    - by intros E%list_elem_of_singleton. }
  clearbody s1. cbn [ocbind]. rewrite Ha2. cbn [ocbind].
  rewrite (pop_partial checks N HN0 _ _ c d [p2; p1] (after_add N (ev_arrival e2) (ev_packet e2) s1)
    b ts (Z.of_nat N - 3) [p1; p2; p3] p3); try done; [|intros x; elems|elems| |].
  2:{ rewrite elem_of_cons, list_elem_of_singleton. tauto. }
  2:{ intros k. eapply Hv; [elems|done]. }
  set (s2 := after_add N (ev_arrival e2) (ev_packet e2) s1) in *. clearbody s2. cbn [ocbind]. rewrite Ha3. cbn [ocbind].
  assert (H3 : after_add N (ev_arrival e3) (ev_packet e3) s2 = after_stats (ev_arrival e3) p3 s2).
  { rewrite E3. apply (first_lap_discard N HN HNb _ p1 p2 p3 c d); try done; simpl in S1, S2, S3; lia. }
  rewrite H3. apply (holding_update_stats N (ev_arrival e3) p3) in H2.
  rewrite (pop_partial checks N HN0 _ _ c d [p2; p1] (after_stats (ev_arrival e3) p3 s2)
    b ts (Z.of_nat N - 3) [p1; p2; p3] p3); try done; [|intros x; elems|elems| |].
  2:{ rewrite elem_of_cons, list_elem_of_singleton. tauto. }
  2:{ intros k. eapply Hv; [elems|done]. }
  eexists. split; [done|]. intros i Hi3. apply H2 in Hi3 as [Hi3 _]. revert Hi3.
  rewrite elem_of_cons, list_elem_of_singleton. tauto.
Qed.
