(* ===== verification/Srtp.v ===== *)
(** Packet protection: src/srtp/context.rs, and the protection and unprotection
    threads of src/transport/media_transport.rs that apply it to every packet.

    OpenSSL is a parameter: [cipher] is AES-128-CTR through [symm::encrypt] /
    [symm::decrypt] (the flag says which) and [hmac] the HMAC-SHA1 signer, both
    fallible.  What the code relies on is stated as hypotheses of a section:
    decryption inverts encryption and keeps the length, a MAC has 20 bytes.  A
    thread's channel is the list of what it receives; [sent] says which sends on
    the outgoing channel succeed. *)

From S2P Require Import Prelude.
From S2P Require Import RtpPacket.

Inductive SrtpError (E : Type) :=
| KeyDerivationFailed
| EncryptionFailed
| DecryptionFailed
| AuthenticationFailed
| PacketTooShort
| OpenSslError (e : E).
Arguments KeyDerivationFailed {E}. Arguments EncryptionFailed {E}. Arguments DecryptionFailed {E}.
Arguments AuthenticationFailed {E}. Arguments PacketTooShort {E}. Arguments OpenSslError {E} e.

Record SrtpContext := mk_ctx {
  client_write_key : bytes;
  server_write_key : bytes;
  client_write_salt : bytes;
  server_write_salt : bytes
}.

(** [km[lo..hi].to_vec()] where the length has been checked. *)
Definition sub_bytes (lo hi : nat) (l : bytes) : bytes := take (hi - lo) (drop lo l).

Definition new {E} (keying_material : bytes) : result SrtpContext (SrtpError E) :=
  if (length keying_material <? 60)%nat then Err KeyDerivationFailed else
  Ok (mk_ctx (sub_bytes 0 16 keying_material) (sub_bytes 16 32 keying_material)
             (sub_bytes 32 46 keying_material) (sub_bytes 46 60 keying_material)).

Definition get_write_keys (c : SrtpContext) (is_client : bool) : bytes * bytes :=
  if is_client then (client_write_key c, client_write_salt c) else (server_write_key c, server_write_salt c).

Definition get_read_keys (c : SrtpContext) (is_client : bool) : bytes * bytes :=
  if is_client then (server_write_key c, server_write_salt c) else (client_write_key c, client_write_salt c).

Definition xor_bytes (a b : bytes) : bytes := zip_with Z.lxor a b.

(** The salt padded to 16 bytes, xored with four zero bytes, the ssrc and the
    sequence number. *)
Definition get_iv (salt : bytes) (ssrc sequence_number : Z) : bytes :=
  let salt_len := Nat.min (length salt) 14 in
  let iv := take salt_len salt ++ replicate (16 - salt_len) 0 in
  let block := replicate 4 0 ++ to_be 4 ssrc ++ to_be 8 sequence_number in
  xor_bytes iv block.

Section Context_.
Context {E : Type} (cipher : bytes -> bytes -> bytes -> bool -> result bytes E) (hmac : bytes -> bytes -> result bytes E).

Definition apply_aes_ctr (key iv data : bytes) (encrypting : bool) : result bytes (SrtpError E) :=
  map_err OpenSslError (cipher key iv data encrypting).

(** The first ten bytes of the MAC (20 bytes long, so the slice is in range). *)
Definition calculate_hmac (key data : bytes) : result bytes (SrtpError E) :=
  let? full_hmac := map_err OpenSslError (hmac key data) in
  Ok (sub_bytes 0 10 full_hmac).

Definition protect (c : SrtpContext) (packet : RtpPacket) (is_client : bool) : result bytes (SrtpError E) :=
  let '(key, salt) := get_write_keys c is_client in
  let packet_bytes := to_bytes packet in
  if (length packet_bytes <? 33)%nat then Err PacketTooShort else
  let iv := get_iv salt (ssrc packet) (sequence_number packet) in
  let? encrypted_payload := apply_aes_ctr key iv (drop 33 packet_bytes) true in
  let out_packet := take 33 packet_bytes ++ encrypted_payload in
  let? tag := calculate_hmac key out_packet in
  Ok (out_packet ++ tag).

(** The parser [RtpPacket::from_bytes] is panic-free on every input
    ([rtp_decode_total]); a panic would surface here as [PacketTooShort]. *)
Definition unprotect (c : SrtpContext) (packet_bytes : bytes) (is_client : bool) : result RtpPacket (SrtpError E) :=
  if (length packet_bytes <? 33 + 10)%nat then Err PacketTooShort else
  let '(key, salt) := get_read_keys c is_client in
  let content_len := (length packet_bytes - 10)%nat in
  let content := take content_len packet_bytes in
  let tag := drop content_len packet_bytes in
  let? calculated_tag := calculate_hmac key content in
  if negb (bool_decide (calculated_tag = tag)) then Err AuthenticationFailed else
  let sequence_number := from_be (sub_bytes 5 13 packet_bytes) in
  let ssrc := from_be (sub_bytes 29 33 packet_bytes) in
  let iv := get_iv salt ssrc sequence_number in
  let encrypted_payload := drop 33 content in
  let? decrypted_payload := apply_aes_ctr key iv encrypted_payload false in
  let raw_decrypted_packet := take 33 content ++ decrypted_payload in
  match from_bytes raw_decrypted_packet with
  | Ret (Some p) => Ok p
  | _ => Err PacketTooShort
  end.

(** The first byte of an RTP packet of version 2. *)
Definition is_rtp_packet (first_byte : Z) : bool := (128 <=? first_byte) && (first_byte <=? 191).

(** The protection thread: packets in, protected datagrams out, until an error,
    a poisoned lock ([locked] false) or a failed send. *)
Fixpoint protection_layer (c : SrtpContext) (is_client locked : bool) (l : list (RtpPacket * bool)) : list bytes :=
  match l with
  | [] => []
  | (packet, sent) :: l =>
      if negb locked then [] else
      match protect c packet is_client with
      | Err _ => []
      | Ok data => if sent then data :: protection_layer c is_client locked l else []
      end
  end.

(** The unprotection thread: datagrams that are empty or do not look like RTP
    are skipped; the first one that fails to unprotect ends the thread. *)
Fixpoint unprotection_layer (c : SrtpContext) (is_client locked : bool) (l : list (bytes * bool)) : list RtpPacket :=
  match l with
  | [] => []
  | (protected_data, sent) :: l =>
      match protected_data with
      | [] => unprotection_layer c is_client locked l
      | b :: _ =>
          if negb (is_rtp_packet b) then unprotection_layer c is_client locked l else
          if negb locked then [] else
          match unprotect c protected_data is_client with
          | Err _ => []
          | Ok packet => if sent then packet :: unprotection_layer c is_client locked l else []
          end
      end
  end.

End Context_.

(** * Lemmas *)

Lemma to_bytes_split p :
  exists h, to_bytes p = h ++ payload p /\ length h = 33%nat /\
    sub_bytes 5 13 h = to_be 8 (sequence_number p) /\ sub_bytes 29 33 h = to_be 4 (ssrc p) /\
    head h = Some (wrap 8 (Z.shiftl (version p) 6)).
Proof.
  exists ([wrap 8 (Z.shiftl (version p) 6)] ++ [marker p] ++ to_be 1 (total_chunks p) ++
    [Z.b2z (is_i_frame p)] ++ [payload_type p] ++ to_be 8 (sequence_number p) ++ to_be 16 (timestamp p) ++ to_be 4 (ssrc p)).
  split; [unfold to_bytes; by rewrite <-!app_assoc|]. rewrite !length_app, !length_to_be. split; [done|].
  rewrite to_be_1. unfold sub_bytes. cbn [app drop Nat.sub]. split; [|split; [|done]].
  - by rewrite drop_0, take_app_le, take_ge by (rewrite ?length_to_be; lia).
  - rewrite drop_app_ge by (rewrite length_to_be; lia). rewrite length_to_be.
    rewrite drop_app_ge by (rewrite length_to_be; lia). rewrite length_to_be.
    by rewrite take_ge by (rewrite ?length_drop, ?length_to_be; lia).
Qed.

Lemma sub_bytes_app lo hi a b : (hi <= length a)%nat -> sub_bytes lo hi (a ++ b) = sub_bytes lo hi a.
Proof.
  intros H. unfold sub_bytes. destruct (decide (lo <= hi)%nat) as [Hl|Hl].
  - rewrite drop_app_le by lia. rewrite take_app_le; [done|]. rewrite length_drop. lia.
  - by replace (hi - lo)%nat with 0%nat by lia.
Qed.

Lemma keys_agree c b : get_read_keys c (negb b) = get_write_keys c b.
Proof. by destruct b. Qed.

Section Laws.
Context {E : Type} (cipher : bytes -> bytes -> bytes -> bool -> result bytes E) (hmac : bytes -> bytes -> result bytes E).

(** Decryption inverts encryption, which keeps the length; a MAC has 20 bytes. *)
Record crypto_laws : Prop := mk_laws {
  cipher_inverse : forall k iv d c, cipher k iv d true = Ok c -> cipher k iv c false = Ok d;
  cipher_length : forall k iv d c e, cipher k iv d e = Ok c -> length c = length d;
  hmac_length : forall k d t, hmac k d = Ok t -> length t = 20%nat
}.

Context (Hlaws : crypto_laws).

Lemma hmac_10 k d t : calculate_hmac hmac k d = Ok t -> length t = 10%nat.
Proof.
  unfold calculate_hmac. destruct (hmac k d) as [f|e] eqn:Eh; [|done]. intros [= <-].
  apply Hlaws in Eh. unfold sub_bytes. rewrite drop_0, length_take. lia.
Qed.

(** A protected packet: header, ciphertext of the same length, ten bytes of tag. *)
Lemma protect_shape c p b data :
  protect cipher hmac c p b = Ok data ->
  exists h ct tag, data = (h ++ ct) ++ tag /\ to_bytes p = h ++ payload p /\ length h = 33%nat /\
    length ct = length (payload p) /\ length tag = 10%nat /\
    cipher (get_write_keys c b).1 (get_iv (get_write_keys c b).2 (ssrc p) (sequence_number p)) (payload p) true = Ok ct /\
    calculate_hmac hmac (get_write_keys c b).1 (h ++ ct) = Ok tag.
Proof.
  unfold protect. destruct (get_write_keys c b) as [key salt]. cbn [fst snd].
  destruct (to_bytes_split p) as (h & Eb & Hh & _). rewrite Eb, length_app.
  rewrite (proj2 (Nat.ltb_ge _ _)) by lia. rewrite <-Hh, drop_app_length, take_app_length, Hh.
  unfold apply_aes_ctr. destruct (cipher key _ _ true) as [ct|e] eqn:Ec; [|done]. cbn [map_err rbind].
  destruct (calculate_hmac hmac key (h ++ ct)) as [tag|e] eqn:Et; [|done]. intros [= <-].
  exists h, ct, tag. split_and!; try done; [exact (cipher_length Hlaws _ _ _ _ _ Ec)|exact (hmac_10 _ _ _ Et)].
Qed.

(** The receiver at the other end of the connection gets the packet back. *)
Lemma unprotect_protect c p b data :
  wf p -> protect cipher hmac c p b = Ok data ->
  unprotect cipher hmac c data (negb b) =
  Ok (mk_packet (version p mod 4) (marker p) (total_chunks p) (is_i_frame p) (payload_type p)
    (sequence_number p) (timestamp p) (ssrc p) (payload p)).
Proof.
  intros Hwf Hp. apply protect_shape in Hp as (h & ct & tag & -> & Eb & Hh & Hct & Htag & Hc & Hm).
  unfold unprotect. rewrite keys_agree. destruct (get_write_keys c b) as [key salt]. cbn [fst snd] in Hc, Hm.
  rewrite !length_app, Hh, Htag. rewrite (proj2 (Nat.ltb_ge _ _)) by lia.
  replace (33 + length ct + 10 - 10)%nat with (length (h ++ ct)) by (rewrite length_app; lia).
  rewrite take_app_length, drop_app_length, Hm. simpl rbind. rewrite bool_decide_true by done. simpl negb. cbv iota.
  rewrite <-app_assoc. rewrite !sub_bytes_app by lia.
  destruct (to_bytes_split p) as (h' & Eb' & Hh' & E5 & E29 & _).
  assert (h' = h) as ->.
  { rewrite Eb in Eb'. apply app_inj_1 in Eb' as [-> _]; [done|congruence]. }
  rewrite E5, E29, !from_to_be_id by apply Hwf. rewrite <-Hh, drop_app_length, take_app_length.
  unfold apply_aes_ctr. rewrite (cipher_inverse Hlaws _ _ _ _ Hc). cbn [map_err rbind]. rewrite <-Eb.
  by rewrite decode_encode.
Qed.

(** Datagrams that the other side protected come out as the packets they came from. *)
Lemma layer_delivers c b ps ds :
  Forall2 (fun p d => wf p /\ version p = 2 /\ protect cipher hmac c p b = Ok d) ps ds ->
  unprotection_layer cipher hmac c (negb b) true ((fun d => (d, true)) <$> ds) = ps.
Proof.
  induction 1 as [|p d ps ds (Hwf & Hv & Hp) Hps IH]; [done|]. cbn [fmap list_fmap unprotection_layer].
  assert (Hhead : exists rest, d = 128 :: rest).
  { apply protect_shape in Hp as (h & ct & tag & -> & Eb & Hh & _).
    unfold to_bytes in Eb. rewrite Hv in Eb. destruct h as [|x h]; [done|]. injection Eb as <- _. by eexists. }
  destruct Hhead as [rest Erest]. rewrite Erest at 1. change (is_rtp_packet 128) with true. cbn [negb].
  rewrite (unprotect_protect c p b d) by done. rewrite IH. f_equal.
  rewrite Hv. change (2 mod 4) with 2. rewrite <-Hv. by destruct p.
Qed.

End Laws.

(** ** The initialisation vector *)

Lemma from_be_two a x y : from_be (a ++ [x; y]) = from_be a * 65536 + x * 256 + y.
Proof. change [x; y] with ([x] ++ [y]). rewrite app_assoc, !from_be_snoc. lia. Qed.

(** The last two bytes of the IV are the low bytes of the sequence number. *)
Lemma get_iv_split salt r s :
  length salt = 14%nat ->
  exists pre, length pre = 14%nat /\
    get_iv salt r s = pre ++ [s / 256 mod 256; s mod 256] /\
    forall t, t / 65536 = s / 65536 -> get_iv salt r t = pre ++ [t / 256 mod 256; t mod 256].
Proof.
  intros Hs. exists (xor_bytes salt (replicate 4 0 ++ to_be 4 r ++ to_be 6 (s / 65536))).
  assert (Hl : length (replicate 4 0 ++ to_be 4 r ++ to_be 6 (s / 65536)) = 14%nat)
    by (by rewrite !length_app, length_replicate, !length_to_be).
  assert (G : forall t, t / 65536 = s / 65536 -> get_iv salt r t =
    xor_bytes salt (replicate 4 0 ++ to_be 4 r ++ to_be 6 (s / 65536)) ++ [t / 256 mod 256; t mod 256]).
  { intros t Ht. unfold get_iv, xor_bytes. rewrite Hs. change (Nat.min 14 14) with 14%nat.
    rewrite (take_ge salt) by lia.
    assert (E8 : to_be 8 t = to_be 6 (s / 65536) ++ [t / 256 mod 256; t mod 256]).
    { change (to_be 8 t) with ((to_be 6 (t / 256 / 256) ++ [t / 256 mod 256]) ++ [t mod 256]).
      rewrite Z.div_div by lia. change (256 * 256) with 65536. by rewrite Ht, <-app_assoc. }
    rewrite E8. rewrite (app_assoc (to_be 4 r)), (app_assoc (replicate 4 0)).
    rewrite zip_with_app by (by rewrite Hs, Hl).
    done. }
  split; [|split; [by apply G|exact G]]. unfold xor_bytes. rewrite length_zip_with, Hs, Hl. done.
Qed.

(** Two consecutive sequence numbers give two consecutive counters. *)
Lemma get_iv_next salt r s :
  length salt = 14%nat -> s mod 65536 <> 65535 ->
  from_be (get_iv salt r (s + 1)) = from_be (get_iv salt r s) + 1.
Proof.
  intros Hs Hm. destruct (get_iv_split salt r s Hs) as (pre & _ & -> & G).
  rewrite G by (Z.to_euclidean_division_equations; lia). rewrite !from_be_two.
  Z.to_euclidean_division_equations. lia.
Qed.

Lemma sub_bytes_length lo hi l : (lo <= hi)%nat -> (hi <= length l)%nat -> length (sub_bytes lo hi l) = (hi - lo)%nat.
Proof. intros. unfold sub_bytes. rewrite length_take, length_drop. lia. Qed.

Lemma new_salts {E} km c : @new E km = Ok c -> length (client_write_salt c) = 14%nat /\ length (server_write_salt c) = 14%nat.
Proof.
  unfold new. case_bool; [done|]. intros [= <-]. simpl. by rewrite !sub_bytes_length by lia.
Qed.

(** * Properties *)

(** C6: the secured media path is transparent.  Any sequence of version-2
    packets put through the protection thread of one side and then, datagram by
    datagram, through the unprotection thread of the other side comes out
    unchanged and in order, whatever the keys, provided OpenSSL encrypts and
    signs. *)
Theorem srtp_pipeline {E} cipher hmac c is_client (ps : list RtpPacket) :
  @crypto_laws E cipher hmac ->
  Forall (fun p => wf p /\ version p = 2 /\ is_ok (protect cipher hmac c p is_client) = true) ps ->
  unprotection_layer cipher hmac c (negb is_client) true
    ((fun d => (d, true)) <$> protection_layer cipher hmac c is_client true ((fun p => (p, true)) <$> ps)) = ps.
Proof.
  intros Hlaws Hps. apply (layer_delivers cipher hmac Hlaws c is_client ps).
  induction Hps as [|p ps (Hwf & Hv & Hok) Hps IH]; [constructor|]. cbn [fmap list_fmap protection_layer negb].
  destruct (protect cipher hmac c p is_client) as [data|e] eqn:Ep; [|done]. by constructor.
Qed.

(** C13: nothing is accepted without a valid tag.  A datagram that unprotects
    carries, in its last ten bytes, the MAC of everything before them under the
    peer's key; so an altered version of a genuine datagram is accepted only if
    somebody computed a new MAC for new content. *)
Theorem srtp_authentic {E} (cipher : bytes -> bytes -> bytes -> bool -> result bytes E) hmac c is_client data p :
  unprotect cipher hmac c data is_client = Ok p ->
  let n := (length data - 10)%nat in
  (43 <= length data)%nat /\
  calculate_hmac hmac (get_read_keys c is_client).1 (take n data) = Ok (drop n data) /\
  forall data' p', length data' = length data -> data' <> data ->
    unprotect cipher hmac c data' is_client = Ok p' -> take n data' <> take n data.
Proof.
  intros Hp n.
  assert (G : forall d q, unprotect cipher hmac c d is_client = Ok q -> (43 <= length d)%nat /\
    calculate_hmac hmac (get_read_keys c is_client).1 (take (length d - 10) d) = Ok (drop (length d - 10) d)).
  { intros d q. unfold unprotect. case_bool; [done|]. destruct (get_read_keys c is_client) as [key salt]. simpl fst.
    destruct (calculate_hmac hmac key _) as [t|e] eqn:Et; [|done]. cbn [rbind].
    case_bool_decide as Ht; [|done]. intros _. split; [lia|]. by rewrite Ht. }
  destruct (G _ _ Hp) as [Hl Hm]. split_and!; [done|done|]. intros data' p' Hl' Hne Hp' Heq.
  destruct (G _ _ Hp') as [_ Hm']. rewrite Hl' in Hm'. fold n in Hm'. rewrite Heq in Hm'. fold n in Hm.
  apply Hne. rewrite <-(take_drop n data'), <-(take_drop n data), Heq. congruence.
Qed.

(** Counter mode: byte i of the ciphertext is byte i of the data xored with byte
    i mod 16 of the pad of counter IV + i / 16 (a 128-bit big-endian counter). *)
Definition ctr_mode {E} (cipher : bytes -> bytes -> bytes -> bool -> result bytes E) (pad : bytes -> Z -> Z -> Z) : Prop :=
  forall k iv d c i x, cipher k iv d true = Ok c -> d !! i = Some x ->
    c !! i = Some (Z.lxor x (pad k ((from_be iv + Z.of_nat i / 16) mod 2 ^ 128) (Z.of_nat i mod 16))).

(** The keystream is reused.  The sequence number occupies the IV bytes that
    counter mode increments, so packet s+1 is encrypted with the keystream of
    packet s shifted by one block: for two consecutive packets of a stream,
    xoring the ciphertexts (the second against the first from its 17th byte)
    gives the xor of the plaintexts, with no key involved. *)
Lemma keystream_reuse {E} cipher hmac pad km c is_client p q dp dq i x y :
  @crypto_laws E cipher hmac -> ctr_mode cipher pad -> @new E km = Ok c ->
  ssrc q = ssrc p -> sequence_number q = sequence_number p + 1 -> sequence_number p mod 65536 <> 65535 ->
  protect cipher hmac c p is_client = Ok dp -> protect cipher hmac c q is_client = Ok dq ->
  payload p !! (16 + i)%nat = Some x -> payload q !! i = Some y ->
  exists u v, dp !! (33 + (16 + i))%nat = Some u /\ dq !! (33 + i)%nat = Some v /\ Z.lxor u v = Z.lxor x y.
Proof.
  intros Hlaws Hctr Hnew Hss Hseq Hm Hp Hq Hx Hy.
  apply (protect_shape cipher hmac Hlaws) in Hp as (h & ct & tag & -> & _ & Hh & Hct & _ & Hc & _).
  apply (protect_shape cipher hmac Hlaws) in Hq as (h' & ct' & tag' & -> & _ & Hh' & Hct' & _ & Hc' & _).
  pose proof (Hctr _ _ _ _ _ _ Hc Hx) as Hu. pose proof (Hctr _ _ _ _ _ _ Hc' Hy) as Hv.
  eexists _, _. split; [|split].
  - rewrite <-app_assoc, lookup_app_r by lia. rewrite Hh, Nat.add_comm, Nat.add_sub.
    rewrite lookup_app_l by (by eapply lookup_lt_Some). exact Hu.
  - rewrite <-app_assoc, lookup_app_r by lia. rewrite Hh', Nat.add_comm, Nat.add_sub.
    rewrite lookup_app_l by (by eapply lookup_lt_Some). exact Hv.
  - rewrite Hss, Hseq, get_iv_next; [|destruct (new_salts km c Hnew), is_client; done|done].
    replace (Z.of_nat (16 + i) / 16) with (1 + Z.of_nat i / 16)
      by (rewrite Nat2Z.inj_add; change (Z.of_nat 16) with 16; Z.to_euclidean_division_equations; lia).
    replace (Z.of_nat (16 + i) mod 16) with (Z.of_nat i mod 16)
      by (rewrite Nat2Z.inj_add; change (Z.of_nat 16) with 16; Z.to_euclidean_division_equations; lia).
    rewrite Z.add_assoc. set (k := pad _ _ _).
    rewrite (Z.lxor_comm y k), <-Z.lxor_assoc, (Z.lxor_assoc x k k), Z.lxor_nilpotent, Z.lxor_0_r. done.
Qed.

(** One datagram that looks like RTP but does not authenticate ends the
    unprotection thread: nothing that follows is ever delivered. *)
Lemma bad_datagram_ends_media {E} (cipher : bytes -> bytes -> bytes -> bool -> result bytes E) hmac c is_client
    (before after : list bytes) bad e :
  head bad = Some 128 -> unprotect cipher hmac c bad is_client = Err e ->
  unprotection_layer cipher hmac c is_client true ((fun d => (d, true)) <$> before ++ bad :: after) =
  unprotection_layer cipher hmac c is_client true ((fun d => (d, true)) <$> before).
Proof.
  intros Hh He. induction before as [|d before IH]; cbn [app fmap list_fmap unprotection_layer].
  - destruct bad as [|b bad]; [done|]. injection Hh as ->. change (is_rtp_packet 128) with true. cbn [negb]. by rewrite He.
  - destruct d as [|b d]; [exact IH|]. destruct (negb (is_rtp_packet b)); [exact IH|]. cbn [negb].
    destruct (unprotect cipher hmac c (b :: d) is_client); [|done]. by f_equal.
Qed.

(** * Witnesses *)

(** A toy cipher in counter mode with a key-independent pad, and a toy MAC. *)
Definition toy_pad (_ : bytes) (ctr j : Z) : Z := (ctr + j) mod 256.
Definition toy_cipher (k iv d : bytes) (_ : bool) : result bytes unit :=
  Ok (imap (fun i x => Z.lxor x (toy_pad k ((from_be iv + Z.of_nat i / 16) mod 2 ^ 128) (Z.of_nat i mod 16))) d).
Definition toy_hmac (k d : bytes) : result bytes unit := Ok (to_be 20 (from_be (k ++ d))).

Lemma toy_laws : crypto_laws toy_cipher toy_hmac.
Proof.
  split.
  - intros k iv d c [= <-]. unfold toy_cipher. f_equal. apply list_eq. intros i. rewrite !list_lookup_imap.
    destruct (d !! i) as [x|]; [|done]. simpl. by rewrite Z.lxor_assoc, Z.lxor_nilpotent, Z.lxor_0_r.
  - intros k iv d c e [= <-]. apply length_imap.
  - intros k d t [= <-]. reflexivity.
Qed.

Definition toy_packet (s : Z) (pl : bytes) : RtpPacket := mk_packet 2 1 1 true 96 s 1000 7 pl.
Definition toy_ctx : SrtpContext := mk_ctx (replicate 16 1) (replicate 16 2) (replicate 14 3) (replicate 14 4).

Lemma srtp_pipeline_witness :
  unprotection_layer toy_cipher toy_hmac toy_ctx false true
    ((fun d => (d, true)) <$> protection_layer toy_cipher toy_hmac toy_ctx true true
      [(toy_packet 0 [1; 2], true); (toy_packet 1 [3], true)]) = [toy_packet 0 [1; 2]; toy_packet 1 [3]].
Proof.
  apply (srtp_pipeline toy_cipher toy_hmac toy_ctx true [toy_packet 0 [1; 2]; toy_packet 1 [3]] toy_laws).
  repeat constructor; simpl; try lia; try done.
Defined.

Lemma srtp_authentic_witness :
  exists d, protect toy_cipher toy_hmac toy_ctx (toy_packet 5 [9]) true = Ok d /\
    calculate_hmac toy_hmac (replicate 16 1) (take (length d - 10) d) = Ok (drop (length d - 10) d).
Proof.
  eexists. split; [vm_compute; reflexivity|].
  refine (proj1 (proj2 (srtp_authentic toy_cipher toy_hmac toy_ctx false _ (toy_packet 5 [9]) _))).
  vm_compute. reflexivity.
Defined.
