(* ===== verification/Text.v ===== *)
(** Rust strings as lists of Unicode scalar values: UTF-8 encoding and strict
    decoding ([str::from_utf8]), the white space of [char::is_whitespace], and
    the [str] methods the parsers use (trim, split, split_once,
    split_whitespace, join, contains, parse, Display of integers), with the
    lemmas that make textual formats invertible. *)

From S2P Require Import Prelude.
From Stdlib Require Export String Ascii.

(** * Definitions *)

(** A string literal of the source (ASCII). *)
Definition char_of (a : ascii) : Z := Z.of_N (N_of_ascii a).
Definition lit (s : string) : str := map char_of (list_ascii_of_string s).
(** [Error: DETAIL] with the detail between double quotes, as the Display impls of
    the error types write it. *)
Definition quoted (s : string) : str := lit "Error: " ++ [34] ++ lit s ++ [34].
Notation "'c!' x" := (ltac:(let v := eval vm_compute in (match lit x with c :: _ => c | [] => 0 end) in exact v))
  (at level 1, x at level 0, only parsing).

(** A [char]: a Unicode scalar value. *)
Definition is_scalar (c : Z) : Prop := 0 <= c < 55296 \/ 57344 <= c < 1114112.
Definition is_str (s : str) : Prop := Forall is_scalar s.

Definition utf8_char (c : Z) : bytes :=
  if c <? 128 then [c]
  else if c <? 2048 then [192 + c / 64; 128 + c mod 64]
  else if c <? 65536 then [224 + c / 4096; 128 + c / 64 mod 64; 128 + c mod 64]
  else [240 + c / 262144; 128 + c / 4096 mod 64; 128 + c / 64 mod 64; 128 + c mod 64].

(** [String::as_bytes] *)
Definition utf8_encode (s : str) : bytes := flat_map utf8_char s.

Definition cont (b : Z) : bool := (128 <=? b) && (b <? 192).

(** One scalar value off the front of a byte string; [None] on malformed
    input (overlong forms, surrogates and values above 10FFFF included). *)
Definition decode_char (l : bytes) : option (Z * bytes) :=
  match l with
  | [] => None
  | b0 :: r0 =>
      if b0 <? 128 then Some (b0, r0) else
      match r0 with
      | [] => None
      | b1 :: r1 =>
          if negb (cont b1) then None
          else if (192 <=? b0) && (b0 <? 224) then
            let c := (b0 - 192) * 64 + (b1 - 128) in
            if 128 <=? c then Some (c, r1) else None
          else match r1 with
          | [] => None
          | b2 :: r2 =>
              if negb (cont b2) then None
              else if (224 <=? b0) && (b0 <? 240) then
                let c := (b0 - 224) * 4096 + (b1 - 128) * 64 + (b2 - 128) in
                if (2048 <=? c) && negb ((55296 <=? c) && (c <? 57344)) then Some (c, r2) else None
              else match r2 with
              | [] => None
              | b3 :: r3 =>
                  if negb (cont b3) then None
                  else if (240 <=? b0) && (b0 <? 248) then
                    let c := (b0 - 240) * 262144 + (b1 - 128) * 4096 + (b2 - 128) * 64 + (b3 - 128) in
                    if (65536 <=? c) && (c <? 1114112) then Some (c, r3) else None
                  else None
              end
          end
      end
  end.

Fixpoint decode_loop (fuel : nat) (l : bytes) : option str :=
  match l, fuel with
  | [], _ => Some []
  | _, O => None
  | _, S fuel' =>
      match decode_char l with
      | Some (c, r) => match decode_loop fuel' r with Some s => Some (c :: s) | None => None end
      | None => None
      end
  end.

(** [str::from_utf8(..).ok()]: each step consumes a byte, so the length is fuel enough. *)
Definition utf8_decode (l : bytes) : option str := decode_loop (List.length l) l.

(** [char::is_whitespace] *)
Definition is_ws (c : Z) : bool :=
  ((9 <=? c) && (c <=? 13)) || (c =? 32) || (c =? 133) || (c =? 160) || (c =? 5760) ||
  ((8192 <=? c) && (c <=? 8202)) || (c =? 8232) || (c =? 8233) || (c =? 8239) || (c =? 8287) || (c =? 12288).

Fixpoint drop_while (f : Z -> bool) (s : str) : str :=
  match s with
  | [] => []
  | c :: s' => if f c then drop_while f s' else s
  end.

Definition trim_start (s : str) : str := drop_while is_ws s.
Definition trim_end (s : str) : str := rev (drop_while is_ws (rev s)).
Definition trim (s : str) : str := trim_end (trim_start s).

(** [s.split(c)]: always at least one piece. *)
Fixpoint split (c : Z) (s : str) : list str :=
  match s with
  | [] => [[]]
  | x :: s' =>
      if x =? c then [] :: split c s'
      else match split c s' with
           | p :: ps => (x :: p) :: ps
           | [] => [[x]]
           end
  end.

(** [s.split_once(c)] *)
Fixpoint split_once (c : Z) (s : str) : option (str * str) :=
  match s with
  | [] => None
  | x :: s' =>
      if x =? c then Some ([], s')
      else match split_once c s' with Some (a, b) => Some (x :: a, b) | None => None end
  end.

(** [s.split_whitespace()]: the maximal runs without white space. *)
Fixpoint words_from (cur : str) (s : str) : list str :=
  match s with
  | [] => match cur with [] => [] | _ => [rev cur] end
  | c :: s' =>
      if is_ws c then match cur with [] => words_from [] s' | _ => rev cur :: words_from [] s' end
      else words_from (c :: cur) s'
  end.
Definition split_whitespace (s : str) : list str := words_from [] s.

(** [v.join(sep)] *)
Fixpoint join (sep : str) (l : list str) : str :=
  match l with
  | [] => []
  | [s] => s
  | s :: l' => s ++ sep ++ join sep l'
  end.

(** [s.contains(p)] for a string pattern *)
Fixpoint contains (p s : str) : bool :=
  starts_with p s || match s with [] => false | _ :: s' => contains p s' end.

(** [s.contains(c)] *)
Definition contains_char (c : Z) (s : str) : bool := existsb (Z.eqb c) s.

(** [char::to_digit] *)
Definition digit_val (radix c : Z) : option Z :=
  let v := if (48 <=? c) && (c <=? 57) then c - 48
           else if (97 <=? c) && (c <=? 122) then c - 87
           else if (65 <=? c) && (c <=? 90) then c - 55
           else 255 in
  if v <? radix then Some v else None.

Fixpoint digits_val (radix acc : Z) (s : str) : option Z :=
  match s with
  | [] => Some acc
  | c :: s' =>
      match digit_val radix c with
      | Some v => digits_val radix (acc * radix + v) s'
      | None => None
      end
  end.

(** [uW::from_str_radix(s, radix).ok()]: an optional plus sign, at least one
    digit, and no overflow. *)
Definition parse_radix (radix w : Z) (s : str) : option Z :=
  let s := match s with c :: s' => if c =? 43 then s' else s | [] => s end in
  match s with
  | [] => None
  | _ => match digits_val radix 0 s with
         | Some v => if v <? 2 ^ w then Some v else None
         | None => None
         end
  end.

(** [s.parse::<uW>().ok()] *)
Definition parse_uint (w : Z) (s : str) : option Z := parse_radix 10 w s.

(** Decimal Display; the fuel bounds the number of digits. *)
Fixpoint show_digits (fuel : nat) (n : Z) : str :=
  match fuel with
  | O => []
  | S fuel' => (if n <? 10 then [] else show_digits fuel' (n / 10)) ++ [48 + n mod 10]
  end.
Definition show (n : Z) : str := show_digits (S (Z.to_nat (Z.log2 n))) n.

(** [str::to_ascii_lowercase] *)
Definition to_ascii_lowercase (s : str) : str :=
  map (fun c => if (65 <=? c) && (c <=? 90) then c + 32 else c) s.

(** * UTF-8 *)

Lemma utf8_encode_app s t : utf8_encode (s ++ t) = utf8_encode s ++ utf8_encode t.
Proof. unfold utf8_encode. apply flat_map_app. Qed.

Lemma utf8_char_bytes c : is_scalar c -> Forall is_byte (utf8_char c).
Proof.
  unfold is_scalar, utf8_char. intros H.
  repeat case_bool; repeat constructor; unfold is_byte, fits; change (2 ^ 8) with 256;
    Z.to_euclidean_division_equations; lia.
Qed.

Lemma utf8_encode_bytes s : is_str s -> Forall is_byte (utf8_encode s).
Proof. induction 1; [constructor|]. apply Forall_app. split; [by apply utf8_char_bytes|done]. Qed.

Ltac eval_bools :=
  repeat (match goal with
  | |- context [Z.leb ?a ?b] =>
      first [rewrite (proj2 (Z.leb_le a b)) by lia | rewrite (proj2 (Z.leb_gt a b)) by lia]
  | |- context [Z.ltb ?a ?b] =>
      first [rewrite (proj2 (Z.ltb_lt a b)) by lia | rewrite (proj2 (Z.ltb_ge a b)) by lia]
  | |- context [Z.eqb ?a ?b] =>
      first [rewrite (proj2 (Z.eqb_eq a b)) by lia | rewrite (proj2 (Z.eqb_neq a b)) by lia]
  end; cbn [andb orb negb]).

Lemma cont_byte x : 0 <= x < 64 -> cont (128 + x) = true.
Proof. intros. unfold cont. by eval_bools. Qed.

Lemma decode_encode_char c r : is_scalar c -> decode_char (utf8_char c ++ r) = Some (c, r).
Proof.
  unfold is_scalar, utf8_char. intros H.
  destruct (Z.ltb_spec c 128); [simpl; by eval_bools|].
  pose proof (Z.mod_pos_bound c 64 eq_refl). pose proof (Z.mod_pos_bound (c / 64) 64 eq_refl).
  pose proof (Z.mod_pos_bound (c / 4096) 64 eq_refl).
  destruct (Z.ltb_spec c 2048); [|destruct (Z.ltb_spec c 65536)]; cbn [decode_char app].
  - assert (2 <= c / 64 < 32) by (Z.to_euclidean_division_equations; lia). eval_bools.
    rewrite !cont_byte by lia. cbn [negb].
    replace ((192 + c / 64 - 192) * 64 + (128 + c mod 64 - 128)) with c by (Z.to_euclidean_division_equations; lia).
    by eval_bools.
  - assert (0 <= c / 4096 < 16) by (Z.to_euclidean_division_equations; lia). eval_bools.
    rewrite !cont_byte by lia. cbn [negb].
    replace ((224 + c / 4096 - 224) * 4096 + (128 + c / 64 mod 64 - 128) * 64 + (128 + c mod 64 - 128)) with c
      by (Z.to_euclidean_division_equations; lia).
    destruct H; by eval_bools.
  - assert (0 <= c / 262144 < 5) by (Z.to_euclidean_division_equations; lia). eval_bools.
    rewrite !cont_byte by lia. cbn [negb].
    replace ((240 + c / 262144 - 240) * 262144 + (128 + c / 4096 mod 64 - 128) * 4096 +
      (128 + c / 64 mod 64 - 128) * 64 + (128 + c mod 64 - 128)) with c
      by (Z.to_euclidean_division_equations; lia).
    by eval_bools.
Qed.

Lemma utf8_char_nonempty c : utf8_char c <> [].
Proof. unfold utf8_char. by repeat case_bool. Qed.

Lemma decode_loop_encode s fuel :
  is_str s -> (List.length (utf8_encode s) <= fuel)%nat -> decode_loop fuel (utf8_encode s) = Some s.
Proof.
  intros H. revert fuel. induction H as [|c s Hc Hs IH]; intros fuel; [by destruct fuel|].
  cbn [utf8_encode flat_map]. rewrite length_app. intros Hf.
  destruct (utf8_char c ++ flat_map utf8_char s) as [|b l] eqn:E.
  { apply app_eq_nil in E as [E _]. by apply utf8_char_nonempty in E. }
  assert (0 < List.length (utf8_char c))%nat by (pose proof (utf8_char_nonempty c); destruct (utf8_char c); simpl; [done|lia]).
  destruct fuel as [|fuel]; [lia|]. cbn [decode_loop]. rewrite <-E, decode_encode_char by done.
  fold (utf8_encode s). rewrite IH; [done|]. unfold utf8_encode. lia.
Qed.

Lemma utf8_roundtrip s : is_str s -> utf8_decode (utf8_encode s) = Some s.
Proof. intros. by apply decode_loop_encode. Qed.

#[export] Hint Resolve utf8_encode_bytes : room.

(** * White space and trimming *)

(** Neither end of the string is white space: [trim] leaves it alone. *)
Definition clean (s : str) : Prop :=
  (forall c, head s = Some c -> is_ws c = false) /\ (forall c, last s = Some c -> is_ws c = false).

Lemma trim_start_clean s : (forall c, head s = Some c -> is_ws c = false) -> trim_start s = s.
Proof. destruct s as [|c s]; [done|]. intros H. unfold trim_start. simpl. by rewrite (H c eq_refl). Qed.

Lemma trim_end_clean s : (forall c, last s = Some c -> is_ws c = false) -> trim_end s = s.
Proof.
  intros H. unfold trim_end. destruct (rev s) as [|c r] eqn:E; [|simpl; rewrite H].
  - rewrite <-(rev_involutive s), E. done.
  - by rewrite <-E, rev_involutive.
  - rewrite <-(rev_involutive s), E. simpl. apply last_snoc.
Qed.

Lemma trim_clean s : clean s -> trim s = s.
Proof. intros [Hh Hl]. unfold trim. rewrite trim_start_clean by done. by apply trim_end_clean. Qed.

Lemma drop_while_suffix f s : exists p, s = p ++ drop_while f s /\ Forall (fun c => f c = true) p.
Proof.
  induction s as [|c s [p [E Hp]]]; [by exists []|]. simpl. destruct (f c) eqn:Hf.
  - exists (c :: p). split; [simpl; by rewrite <-E|by constructor].
  - by exists [].
Qed.

Lemma drop_while_head f s c : head (drop_while f s) = Some c -> f c = false.
Proof. induction s as [|x s IH]; simpl; [done|]. destruct (f x) eqn:E; [done|]. by intros [= <-]. Qed.

(** [trim] returns the middle of the string between two runs of white space. *)
Lemma trim_spec s : exists p q, s = p ++ trim s ++ q /\
  Forall (fun c => is_ws c = true) p /\ Forall (fun c => is_ws c = true) q.
Proof.
  destruct (drop_while_suffix is_ws s) as (p & E & Hp).
  destruct (drop_while_suffix is_ws (rev (trim_start s))) as (q & E' & Hq).
  exists p, (rev q). split_and!; [|done|by apply Forall_rev].
  rewrite E at 1. f_equal. fold (trim_start s).
  rewrite <-(rev_involutive (trim_start s)), E', rev_app_distr. done.
Qed.

Lemma head_rev {A} (s : list A) : head (rev s) = last s.
Proof. induction s as [|x s _] using rev_ind; [done|]. by rewrite rev_unit, last_snoc. Qed.

Lemma trim_is_clean s : clean (trim s).
Proof.
  split; intros c Hc.
  - unfold trim, trim_end in *. destruct (trim_start s) as [|x t] eqn:E; [done|].
    assert (Hx : is_ws x = false) by (apply (drop_while_head is_ws s); unfold trim_start in E; by rewrite E).
    destruct (drop_while_suffix is_ws (rev (x :: t))) as (q & Eq & Hq).
    destruct (drop_while is_ws (rev (x :: t))) as [|y r] eqn:Er using rev_ind; [done|].
    rewrite rev_unit in Hc. simpl in Hc. injection Hc as ->. clear Er.
    apply (f_equal (@rev Z)) in Eq. rewrite rev_involutive, app_assoc, rev_unit in Eq. by injection Eq as -> _.
  - unfold trim, trim_end in Hc. rewrite <-head_rev, rev_involutive in Hc. by apply drop_while_head in Hc.
Qed.

(** * Splitting and joining *)

Lemma split_none c s : c ∉ s -> split c s = [s].
Proof.
  induction s as [|x s IH]; simpl; [done|]. rewrite not_elem_of_cons. intros [Hx Hs].
  rewrite (proj2 (Z.eqb_neq x c)) by congruence. by rewrite IH.
Qed.

Lemma split_cons c s t : c ∉ s -> split c (s ++ c :: t) = s :: split c t.
Proof.
  induction s as [|x s IH]; simpl; [by rewrite Z.eqb_refl|]. rewrite not_elem_of_cons. intros [Hx Hs].
  rewrite (proj2 (Z.eqb_neq x c)) by congruence. by rewrite IH.
Qed.

(** Splitting a joined list gives the pieces back. *)
Lemma split_join c l :
  l <> [] -> Forall (fun s => c ∉ s) l -> split c (join [c] l) = l.
Proof.
  intros Hne H. induction H as [|s l Hs Hl IH]; [done|]. destruct l as [|t l]; [by apply split_none|].
  change (join [c] (s :: t :: l)) with (s ++ c :: join [c] (t :: l)). rewrite split_cons by done. by rewrite IH.
Qed.

(** Conversely the pieces contain no separator and join to the string. *)
Lemma split_spec c s : split c s <> [] /\ Forall (fun p => c ∉ p) (split c s) /\ join [c] (split c s) = s.
Proof.
  induction s as [|x s (Hn & Hf & Hj)]; simpl.
  - split_and!; [done| |done]. constructor; [apply not_elem_of_nil|constructor].
  - destruct (Z.eqb_spec x c) as [->|Hx].
    + split_and!; [done|constructor; [apply not_elem_of_nil|done]|].
      destruct (split c s) as [|p ps] eqn:E; [done|]. simpl in *. by rewrite <-Hj.
    + destruct (split c s) as [|p ps] eqn:E; [done|]. inversion Hf; subst. split_and!; [done| |].
      * constructor; [|done]. rewrite not_elem_of_cons. split; [congruence|done].
      * by destruct ps.
Qed.

Lemma split_once_app c a b : c ∉ a -> split_once c (a ++ c :: b) = Some (a, b).
Proof.
  induction a as [|x a IH]; simpl; [by rewrite Z.eqb_refl|]. rewrite not_elem_of_cons. intros [Hx Ha].
  rewrite (proj2 (Z.eqb_neq x c)) by congruence. by rewrite IH.
Qed.

Lemma split_once_spec c s a b : split_once c s = Some (a, b) -> s = a ++ c :: b /\ c ∉ a.
Proof.
  revert a. induction s as [|x s IH]; intros a; simpl; [done|].
  destruct (Z.eqb_spec x c) as [->|Hx]; [intros [= <- <-]; split; [done|apply not_elem_of_nil]|].
  destruct (split_once c s) as [[a' b']|]; [|done]. intros [= <- <-].
  destruct (IH a' eq_refl) as [-> Ha]. split; [done|]. rewrite not_elem_of_cons. split; [congruence|done].
Qed.

(** A word: not empty, no white space. *)
Definition is_word (s : str) : Prop := s <> [] /\ Forall (fun c => is_ws c = false) s.

Lemma words_from_word cur w s :
  Forall (fun c => is_ws c = false) w -> words_from cur (w ++ s) = words_from (rev w ++ cur) s.
Proof.
  intros H. revert cur. induction H as [|c w Hc Hw IH]; intros cur; [done|].
  simpl. rewrite Hc, IH. by rewrite <-app_assoc.
Qed.

Lemma split_whitespace_join l : Forall is_word l -> split_whitespace (join [32] l) = l.
Proof.
  unfold split_whitespace. induction 1 as [|w l [Hne Hw] Hl IH]; [done|].
  assert (Hr : rev w <> []) by (intros E; apply Hne; rewrite <-(rev_involutive w), E; done).
  destruct l as [|w' l].
  - simpl. rewrite <-(app_nil_r w) at 1. rewrite words_from_word, app_nil_r by done. simpl.
    destruct (rev w) eqn:E; [done|]. rewrite <-E. by rewrite rev_involutive.
  - change (join [32] (w :: w' :: l)) with (w ++ 32 :: join [32] (w' :: l)).
    rewrite words_from_word, app_nil_r by done. cbn [words_from]. change (is_ws 32) with true.
    destruct (rev w) eqn:E; [done|]. rewrite <-E, rev_involutive. by rewrite IH.
Qed.

(** * Numbers *)

Definition is_digit (c : Z) : bool := (48 <=? c) && (c <=? 57).

Lemma digits_val_app r acc a b :
  digits_val r acc (a ++ b) = match digits_val r acc a with Some v => digits_val r v b | None => None end.
Proof. revert acc. induction a as [|c a IH]; intros acc; simpl; [done|]. destruct (digit_val r c); [apply IH|done]. Qed.

Lemma show_digits_spec fuel n :
  0 <= n -> Z.log2 n < Z.of_nat fuel -> digits_val 10 0 (show_digits fuel n) = Some n /\
  Forall (fun c => is_digit c = true) (show_digits fuel n) /\ show_digits fuel n <> [].
Proof.
  revert n. induction fuel as [|fuel IH]; intros n Hn Hf; [pose proof (Z.log2_nonneg n); lia|]. simpl.
  assert (Hd : is_digit (48 + n mod 10) = true /\ digit_val 10 (48 + n mod 10) = Some (n mod 10)).
  { pose proof (Z.mod_pos_bound n 10 eq_refl). unfold is_digit, digit_val. eval_bools.
    replace (48 + n mod 10 - 48) with (n mod 10) by lia. by eval_bools. }
  destruct Hd as [Hd1 Hd2]. case_bool.
  - cbn [app]. split_and!; [|by repeat constructor|done]. cbn [digits_val]. rewrite Hd2.
    rewrite Z.mod_small by lia. f_equal; lia.
  - destruct (IH (n / 10)) as (E & Hall & Hne); [Z.to_euclidean_division_equations; lia| |].
    { assert (Hl : Z.log2 (n / 10) <= Z.log2 (n / 2 ^ 3)).
      { apply Z.log2_le_mono. change (2 ^ 3) with 8. Z.to_euclidean_division_equations. lia. }
      rewrite <-Z.shiftr_div_pow2, Z.log2_shiftr in Hl by lia.
      pose proof (Z.log2_le_mono 10 n). change (Z.log2 10) with 3 in *. lia. }
    split_and!.
    + rewrite digits_val_app, E. cbn [digits_val]. rewrite Hd2. f_equal. Z.to_euclidean_division_equations. lia.
    + apply Forall_app. split; [done|by repeat constructor].
    + by destruct (show_digits fuel (n / 10)).
Qed.

Lemma show_spec n : 0 <= n -> digits_val 10 0 (show n) = Some n /\
  Forall (fun c => is_digit c = true) (show n) /\ show n <> [].
Proof.
  intros Hn. pose proof (Z.log2_nonneg n). apply show_digits_spec; [done|]. rewrite Nat2Z.inj_succ, Z2Nat.id; lia.
Qed.

(** Display then parse. *)
Lemma parse_show w n : fits w n -> parse_uint w (show n) = Some n.
Proof.
  intros H. destruct (show_spec n) as (E & Hall & Hne); [apply H|]. unfold parse_uint, parse_radix.
  destruct (show n) as [|c s]; [done|]. inversion Hall as [|? ? Hc _]; subst.
  unfold is_digit in Hc. apply andb_true_iff in Hc as [Hc _]. apply Z.leb_le in Hc.
  rewrite (proj2 (Z.eqb_neq c 43)) by lia. rewrite E. by rewrite (proj2 (Z.ltb_lt _ _)) by apply H.
Qed.

Lemma digits_val_nonneg r acc s v : 0 <= r -> 0 <= acc -> digits_val r acc s = Some v -> 0 <= v.
Proof.
  intros Hr. revert acc. induction s as [|c s IH]; intros acc Ha; simpl; [by intros [= <-]|].
  destruct (digit_val r c) as [d|] eqn:E; [|done]. apply IH. unfold digit_val in E.
  revert E. repeat case_bool; simpl; intros [= <-]; nia.
Qed.

Lemma parse_radix_fits r w s v : 0 <= r -> parse_radix r w s = Some v -> fits w v.
Proof.
  intros Hr. unfold parse_radix. destruct (match s with [] => _ | _ => _ end) as [|c t]; [done|].
  destruct (digits_val r 0 (c :: t)) as [u|] eqn:E; [|done]. apply digits_val_nonneg in E; [|lia|lia].
  case_bool; [|done]. intros [= <-]. by split.
Qed.

Lemma digit_not_ws c : is_digit c = true -> is_ws c = false.
Proof.
  unfold is_digit, is_ws. intros [H1%Z.leb_le H2%Z.leb_le]%andb_true_iff. by eval_bools.
Qed.

Lemma show_word n : 0 <= n -> is_word (show n).
Proof.
  intros Hn. destruct (show_spec n Hn) as (_ & H & Hne). split; [done|].
  eapply Forall_impl; [exact H|]. intros c. apply digit_not_ws.
Qed.

Lemma word_clean s : Forall (fun c => is_ws c = false) s -> clean s.
Proof.
  rewrite Forall_forall. intros H. split; intros c Hc; apply H.
  - destruct s; simplify_eq/=. apply list_elem_of_here.
  - rewrite last_lookup in Hc. by eapply list_elem_of_lookup_2.
Qed.

Lemma show_no_char c n : 0 <= n -> is_digit c = false -> c ∉ show n.
Proof.
  intros Hn Hc Hin. destruct (show_spec n Hn) as (_ & H & _). rewrite Forall_forall in H.
  specialize (H c Hin). congruence.
Qed.

Lemma show_is_str n : 0 <= n -> is_str (show n).
Proof.
  intros Hn. destruct (show_spec n Hn) as (_ & H & _). eapply Forall_impl; [exact H|].
  intros c [H1%Z.leb_le H2%Z.leb_le]%andb_true_iff. left. lia.
Qed.

#[export] Hint Resolve show_word show_is_str parse_show : room.

(** The pieces of [split_whitespace] are words of its argument. *)
Lemma words_from_words cur s : Forall (fun c => is_ws c = false) cur -> Forall is_word (words_from cur s).
Proof.
  revert cur. induction s as [|c s IH]; intros cur Hc; cbn [words_from].
  - destruct cur as [|x cur]; [constructor|]. repeat constructor; [|by apply Forall_rev].
    intros E. apply (f_equal List.length) in E. rewrite length_rev in E. done.
  - destruct (is_ws c) eqn:Ec; [|by apply IH; constructor].
    destruct cur as [|x cur]; [by apply IH|]. constructor; [|by apply IH; constructor]. split; [|by apply Forall_rev].
    intros E. apply (f_equal List.length) in E. rewrite length_rev in E. done.
Qed.

Lemma split_whitespace_words s : Forall is_word (split_whitespace s).
Proof. apply words_from_words. constructor. Qed.

Lemma word_trim w : Forall (fun c => is_ws c = false) w -> trim w = w.
Proof. intros H. by apply trim_clean, word_clean. Qed.

(** Trimming a line that starts with other than white space. *)
Lemma trim_end_app a x s : is_ws x = false -> trim_end (a ++ x :: s) = a ++ x :: trim_end s.
Proof.
  intros Hx. unfold trim_end. rewrite rev_app_distr. cbn [rev]. rewrite <-!app_assoc.
  assert (G : forall l r, drop_while is_ws (l ++ x :: r) = drop_while is_ws l ++ x :: r).
  { induction l as [|c l IH]; intros r; simpl; [by rewrite Hx|]. by destruct (is_ws c). }
  cbn [app]. rewrite G. rewrite rev_app_distr. cbn [rev]. rewrite rev_involutive, <-app_assoc. done.
Qed.

Lemma trim_key k x s : is_ws k = false -> is_ws x = false -> trim (k :: x :: s) = k :: x :: trim_end s.
Proof.
  intros Hk Hx. unfold trim, trim_start. cbn [drop_while]. rewrite Hk. by apply (trim_end_app [k]).
Qed.

Lemma word_no_char w c : Forall (fun c => is_ws c = false) w -> is_ws c = true -> c ∉ w.
Proof. rewrite Forall_forall. intros H Hc Hin. apply H in Hin. congruence. Qed.

Lemma parse_show_eq w s n : parse_uint w s = Some n -> fits w n.
Proof. apply parse_radix_fits. lia. Qed.
