(* ===== verification/Logger.v ===== *)
(** The log (src/logger/mod.rs): handles with a context, one channel, and one
    thread that appends a line per message to a file.

    Every component holds a handle; how their calls and the writing thread
    interleave is a list of events, and the outcome of each write is part of its
    event.  A write that fails may have written a part of its line. *)

From S2P Require Import Prelude.
From S2P Require Import Text.

(** * Definitions *)

Inductive LogLevel := Debug_ | Info | Warn | Error_.      (* [Debug], [Error] *)

Definition show_level (l : LogLevel) : str :=
  match l with
  | Info => lit "INFO"
  | Warn => lit "WARN"
  | Error_ => lit "ERROR"
  | Debug_ => lit "DEBUG"
  end.

Record LogMessage := mk_message {
  level : LogLevel;
  message : str;
  msg_context : str;     (* [context] in the source *)
  timestamp : str
}.

(** A handle: all handles of a program share the channel. *)
Record Logger := mk_logger { context : str }.

Definition new_logger : Logger := mk_logger [].
Definition with_context (c : str) (_ : Logger) : Logger := mk_logger c.

(** The line of a message. *)
Definition log_line (m : LogMessage) : str :=
  lit "[" ++ timestamp m ++ lit "] [" ++ show_level (level m) ++ lit "] [" ++ msg_context m ++ lit "] " ++ message m ++ [10].

(** ** The channel, the file, and whether the thread still runs *)

Record log := mk_log { queue : list LogMessage; file : bytes; writing : bool }.

(** [Logger::new] on a file that could be opened, which is appended to. *)
Definition new (opened : result bytes str) : result (Logger * log) str :=
  let? old := opened in Ok (new_logger, mk_log [] old true).

(** [send]: without a receiver the message is dropped, and nobody is told. *)
Definition push (m : LogMessage) (l : log) : log :=
  if writing l then mk_log (queue l ++ [m]) (file l) true else l.

Definition send (lv : LogLevel) (text now : str) (g : Logger) : log -> log := push (mk_message lv text (context g) now).
Definition info (text now : str) (g : Logger) : log -> log := send Info text now g.
Definition warn (text now : str) (g : Logger) : log -> log := send Warn text now g.
Definition error (text now : str) (g : Logger) : log -> log := send Error_ text now g.
Definition debug (text now : str) (g : Logger) : log -> log := send Debug_ text now g.

(** One turn of the thread; a failure after [k] bytes ends it, and with it the
    channel. *)
Definition write_turn (failed : option nat) (l : log) : log :=
  match writing l, queue l with
  | true, m :: q =>
      match failed with
      | None => mk_log q (file l ++ utf8_encode (log_line m)) true
      | Some k => mk_log [] (file l ++ take k (utf8_encode (log_line m))) false
      end
  | _, _ => l
  end.

Inductive event := Sent (m : LogMessage) | Turn (failed : option nat).

Definition happen (e : event) (l : log) : log :=
  match e with Sent m => push m l | Turn failed => write_turn failed l end.

Definition run (es : list event) (l : log) : log := foldl (fun l e => happen e l) l es.

Definition sent (es : list event) : list LogMessage :=
  omap (fun e => match e with Sent m => Some m | Turn _ => None end) es.

Definition lines (ms : list LogMessage) : bytes := utf8_encode (List.concat (map log_line ms)).

(** * Lemmas *)

Lemma lines_snoc ms m : lines (ms ++ [m]) = lines ms ++ utf8_encode (log_line m).
Proof. unfold lines. rewrite map_app, concat_app, utf8_encode_app. cbn [map List.concat]. by rewrite app_nil_r. Qed.

(** How far the file has come: [n] lines and [k] bytes of the next, if a write
    has failed. *)
Definition at_line (old : bytes) (ms : list LogMessage) (n k : nat) (l : log) : Prop :=
  (n <= List.length ms)%nat /\
  file l = old ++ lines (take n ms) ++ take k (utf8_encode (from_option log_line [] (ms !! n))) /\
  (writing l = true -> k = 0%nat /\ queue l = drop n ms).

Lemma push_at old ms n k m l : at_line old ms n k l -> at_line old (ms ++ [m]) n k (push m l) \/ (n = List.length ms /\ writing l = false).
Proof.
  intros (Hn & Hf & Hw). unfold push. destruct (writing l) eqn:Ew.
  - left. destruct (Hw eq_refl) as [-> Hq]. split; [rewrite length_app; cbn; lia|]. cbn [file queue writing].
    rewrite Hf, Hq, take_app_le, drop_app_le by lia. by rewrite !take_0.
  - destruct (decide (n = List.length ms)) as [->|Hne]; [by right|left]. split; [rewrite length_app; cbn; lia|].
    rewrite take_app_le by lia. rewrite lookup_app_l by lia. split; [done|congruence].
Qed.

Lemma turn_at old ms n k failed l : at_line old ms n k l -> exists n' k', at_line old ms n' k' (write_turn failed l).
Proof.
  intros Hl. pose proof Hl as (Hn & Hf & Hw). unfold write_turn. destruct (writing l) eqn:Ew; [|by exists n, k].
  destruct (Hw eq_refl) as [-> Hq]. destruct (queue l) as [|m q] eqn:Eq; [by exists n, 0%nat|].
  assert (Em : ms !! n = Some m) by (rewrite <-(Nat.add_0_r n), <-lookup_drop, <-Hq; done).
  assert (Hlt : (n < List.length ms)%nat) by by eapply lookup_lt_Some.
  destruct failed as [k|].
  - exists n, k. split; [done|]. cbn [file writing]. rewrite Hf, Em, take_0, app_nil_r. cbn. rewrite app_assoc. split; [done|done].
  - exists (S n), 0%nat. split; [lia|]. cbn [file writing queue]. split.
    + rewrite Hf, !take_0, !app_nil_r, (take_S_r _ _ _ Em), lines_snoc. by rewrite app_assoc.
    + intros _. split; [done|]. rewrite (drop_S _ _ _ Em) in Hq. by injection Hq.
Qed.

(** Once the thread has ended nothing changes. *)
Lemma run_ended es l : writing l = false -> run es l = l.
Proof.
  revert l. induction es as [|e es IH]; intros l Hl; [done|]. cbn.
  assert (happen e l = l) as ->; [|by apply IH]. destruct e as [m|failed]; cbn; unfold push, write_turn; by rewrite Hl.
Qed.

Lemma run_app es es' l : run (es ++ es') l = run es' (run es l).
Proof. unfold run. apply foldl_app. Qed.

Lemma sent_snoc es e : sent (es ++ [e]) = sent es ++ match e with Sent m => [m] | Turn _ => [] end.
Proof. unfold sent. rewrite omap_app. by destruct e. Qed.

(** The log is faithful.  However the calls of all components and the thread
    interleave, and whatever write fails, the file holds what it held before, the
    lines of the first messages sent, in order and each once, and at most the
    beginning of the next one; as long as no write failed exactly the rest waits
    in the channel. *)
Lemma log_faithful old es : exists n k, at_line old (sent es) n k (run es (mk_log [] old true)).
Proof.
  induction es as [|e es IH] using rev_ind.
  { exists 0%nat, 0%nat. split; [done|]. cbn. by rewrite !app_nil_r. }
  rewrite run_app. destruct IH as (n & k & Hl). set (l := run es (mk_log [] old true)) in *. rewrite sent_snoc.
  destruct e as [m|failed]; cbn [run foldl happen]; [|rewrite app_nil_r; by eapply turn_at].
  destruct (push_at old (sent es) n k m l Hl) as [H|[-> Ew]]; [by exists n, k|].
  destruct Hl as (_ & Hf & _). exists (List.length (sent es)), 0%nat. split; [rewrite length_app; cbn; lia|].
  unfold push. rewrite Ew, Hf, take_app_length, take_0, !app_nil_r. split; [|congruence].
  rewrite lookup_ge_None_2 by done. rewrite firstn_all. cbn. by rewrite take_nil, app_nil_r.
Qed.

(** Without failures, a turn per message empties the channel. *)
Lemma log_complete old ms :
  file (run (map Sent ms ++ repeat (Turn None) (List.length ms)) (mk_log [] old true)) = old ++ lines ms.
Proof.
  rewrite run_app.
  assert (Hs : forall q f, run (map Sent ms) (mk_log q f true) = mk_log (q ++ ms) f true).
  { induction ms as [|m ms IH]; intros q f; [by rewrite app_nil_r|].
    change (run (map Sent ms) (mk_log (q ++ [m]) f true) = mk_log (q ++ m :: ms) f true). by rewrite IH, <-app_assoc. }
  rewrite Hs. cbn [List.app]. clear Hs. revert old. induction ms as [|m ms IH]; intros old; [cbn; by rewrite app_nil_r|].
  change (file (run (repeat (Turn None) (List.length ms)) (mk_log ms (old ++ utf8_encode (log_line m)) true)) = old ++ lines (m :: ms)).
  rewrite IH, <-app_assoc. f_equal.
  unfold lines. cbn [map List.concat]. by rewrite utf8_encode_app.
Qed.

(** ** Reading a log *)

(** Texts without line breaks: a line of the file is a message. *)
Definition unbroken (m : LogMessage) : Prop := Forall (fun c => c <> 10) (timestamp m ++ msg_context m ++ message m).

Lemma split_line s r : Forall (fun c => c <> 10) s -> split 10 (s ++ [10] ++ r) = s :: split 10 r.
Proof.
  induction s as [|c s IH]; intros Hs; cbn; [done|]. apply Forall_cons in Hs as [Hc Hs].
  destruct (Z.eqb_spec c 10); [done|]. cbn in IH. by rewrite IH.
Qed.

Lemma log_readable ms : Forall unbroken ms ->
  split 10 (List.concat (map log_line ms)) = map (fun m => List.removelast (log_line m)) ms ++ [[]].
Proof.
  induction ms as [|m ms IH]; intros Hm; [done|]. apply Forall_cons in Hm as [Hm Hms]. cbn [map List.concat].
  set (body := lit "[" ++ timestamp m ++ lit "] [" ++ show_level (level m) ++ lit "] [" ++ msg_context m ++ lit "] " ++ message m).
  assert (El : log_line m = body ++ [10]) by (unfold log_line, body; by rewrite !app_assoc).
  assert (Hb : Forall (fun c => c <> 10) body).
  { unfold unbroken in Hm. rewrite !Forall_app in Hm. destruct Hm as (Ht & Hc & Hg). unfold body. rewrite !Forall_app.
    repeat split; try done; try (by apply (bool_decide_unpack _); vm_compute).
    destruct (level m); by apply (bool_decide_unpack _); vm_compute. }
  rewrite El, List.removelast_last, <-app_assoc, split_line by done. by rewrite IH.
Qed.

(** A line break inside a message makes a second entry, which nothing tells from
    a real one: a text that a stranger may choose forges entries. *)
Lemma forged_entry m m' :
  log_line (mk_message (level m) (message m ++ [10] ++ List.removelast (log_line m')) (msg_context m) (timestamp m)) =
  log_line m ++ log_line m'.
Proof.
  assert (El : log_line m' = List.removelast (log_line m') ++ [10]).
  { unfold log_line. rewrite !app_assoc. by rewrite List.removelast_last. }
  rewrite El at 2. unfold log_line. cbn [timestamp level msg_context message]. by rewrite <-!app_assoc.
Qed.
