(* ===== verification/Wire.v ===== *)
(** The textual wire format shared by the client/server messages of
    src/client_server_protocol/: fields separated by '|', a final newline, and
    a decoder that validates UTF-8, trims and splits.  The class [Wire] is the
    interface between a message and the types embedded in it through their
    Display and FromStr implementations (session descriptions, socket
    addresses): the message lemmas are proved against it. *)

From S2P Require Import Prelude.
From S2P Require Import Text.

(** * Definitions *)

Definition PIPE : Z := 124.

(** A type with its Display and FromStr implementations. *)
Class Wire (A : Type) := {
  display : A -> str;
  from_str : str -> option A
}.

(** Equality of strings as the literal patterns of a [match] test it. *)
Fixpoint str_eqb (a b : str) : bool :=
  match a, b with
  | [], [] => true
  | x :: a, y :: b => (x =? y) && str_eqb a b
  | _, _ => false
  end.

(** [format!] of the fields, [into_bytes], and the final newline. *)
Definition line (fields : list str) : bytes := utf8_encode (join [PIPE] fields) ++ [10].

(** [str::from_utf8(bytes).ok()?.trim()] and [split('|')]. *)
Definition parts (b : bytes) : option (list str) :=
  match utf8_decode b with
  | Some s => Some (split PIPE (trim s))
  | None => None
  end.

(** The pattern [k if parts.len() == n] on the first part. *)
Definition is_msg (k : string) (n : nat) (ps : list str) : bool :=
  match ps with
  | p :: _ => str_eqb p (lit k) && (List.length ps =? n)%nat
  | [] => false
  end.

(** [parts[i]], under a guard that makes it in range. *)
Definition part (ps : list str) (i : nat) : str := nth i ps [].

(** A field that survives the format: text without the separator. *)
Definition field (f : str) : Prop := is_str f /\ PIPE ∉ f.
(** Nothing [trim] would take from the end. *)
Definition tight (f : str) : Prop := forall c, last f = Some c -> is_ws c = false.

(** A value that its own Display and FromStr carry through a field. *)
Definition wired {A} `{Wire A} (a : A) : Prop :=
  from_str (display a) = Some a /\ field (display a).

(** * Lemmas *)

Lemma str_eqb_spec a b : str_eqb a b = true <-> a = b.
Proof.
  revert b. induction a as [|x a IH]; intros [|y b]; simpl; try done.
  rewrite andb_true_iff, Z.eqb_eq, IH. split; [by intros [-> ->]|by intros [= -> ->]].
Qed.

Lemma str_eqb_refl a : str_eqb a a = true.
Proof. by apply str_eqb_spec. Qed.

Lemma trim_newline s : clean s -> trim (s ++ [10]) = s.
Proof.
  intros [Hh Hl]. unfold trim. destruct s as [|c s]; [done|].
  rewrite trim_start_clean; [|intros x [= <-]; by apply Hh].
  unfold trim_end. rewrite rev_unit. cbn [drop_while]. change (is_ws 10) with true. cbn iota.
  fold (trim_end (c :: s)). by apply trim_end_clean.
Qed.

Lemma last_join c (l : list str) f :
  last l = Some f -> last (join [c] l) = match last f with
    | Some x => Some x
    | None => match l with [_] => None | _ => Some c end
    end.
Proof.
  induction l as [|g l IH]; [done|]. destruct l as [|h l].
  - intros [= ->]. simpl. by destruct (last f).
  - intros H. change (join [c] (g :: h :: l)) with (g ++ [c] ++ join [c] (h :: l)).
    rewrite !last_app. rewrite IH by done. destruct (last f); [done|].
    destruct l as [|k l]; [|done]. simpl. done.
Qed.

Lemma head_join c (l : list str) k ks : head (join [c] ((k :: ks) :: l)) = Some k.
Proof. by destruct l. Qed.

(** Decoding a line gives its fields: the shared half of every round trip. *)
Lemma parts_line fs k ks f :
  head fs = Some (k :: ks) -> is_ws k = false -> last fs = Some f -> tight f ->
  Forall field fs -> parts (line fs) = Some fs.
Proof.
  intros Hh Hk Hl Ht Hf. unfold parts, line.
  assert (Hne : fs <> []) by (by intros ->).
  assert (Hstr : is_str (join [PIPE] fs)).
  { clear Hh Hl. induction Hf as [|g l [Hg _] Hl IH]; [done|]. destruct l as [|h l]; [done|].
    change (join [PIPE] (g :: h :: l)) with (g ++ [PIPE] ++ join [PIPE] (h :: l)).
    apply Forall_app. split; [done|]. apply Forall_app. split; [|by apply IH].
    repeat constructor; unfold PIPE; lia. }
  assert (E : utf8_encode (join [PIPE] fs) ++ [10] = utf8_encode (join [PIPE] fs ++ [10]))
    by (by rewrite utf8_encode_app).
  rewrite E, utf8_roundtrip.
  2:{ apply Forall_app. split; [done|]. repeat constructor; lia. }
  rewrite trim_newline, split_join; [done|done| |].
  - eapply Forall_impl; [exact Hf|]. by intros x [_ ?].
  - destruct fs as [|g fs]; [done|]. injection Hh as ->. split.
    + intros c. rewrite head_join. by intros [= <-].
    + intros c. rewrite (last_join _ _ _ Hl). destruct (last f) eqn:E'; [|destruct fs].
      * intros [= <-]. by apply Ht.
      * done.
      * intros [= <-]. done.
Qed.

Lemma field_lit_ascii s : field s -> is_str s.
Proof. by intros []. Qed.

(** Literals are fields when their characters are ASCII other than '|'. *)
Definition asciib (s : str) : bool := forallb (fun c => (0 <=? c) && (c <? 128) && negb (c =? PIPE)) s.

Lemma ascii_field s : asciib s = true -> field s.
Proof.
  unfold asciib. rewrite forallb_forall. intros H. split.
  - apply Forall_forall. intros c Hc. apply list_elem_of_In, H in Hc. rewrite !andb_true_iff in Hc.
    destruct Hc as [[H1%Z.leb_le H2%Z.ltb_lt] _]. left. lia.
  - intros Hc. apply list_elem_of_In, H in Hc. by rewrite Z.eqb_refl, andb_false_r in Hc.
Qed.

(** Prove [Forall field] of a concrete message: literals by computation. *)
Ltac fields :=
  repeat match goal with |- Forall field (_ :: _) => apply Forall_cons; split end;
  try match goal with |- Forall _ [] => constructor end;
  first [assumption | apply ascii_field; reflexivity | idtac].
