(* ===== verification/Config.v ===== *)
(** Configuration (src/config.rs): the settings records and [Config::load].
    The INI parser (crate ini) is a parameter: a loaded file is the partial map
    from section and key to text that [section(..)] and [get(..)] give.  The
    standard library's float parsers are parameters too. *)

From S2P Require Import Prelude.
From S2P Require Import Text.
From S2P Require Import Wire.

(** * Definitions *)

Record NetworkConfig := mk_network {
  bind_address : str;
  max_udp_packet_size : Z
}.

Record MediaConfig (F64 F32 : Type) := mk_media {
  camera_index : Z;
  frame_width : F64;
  frame_height : F64;
  frame_rate : F32;
  h264_idr_interval : Z;
  rtp_max_chunk_size : Z;
  frame_ssrc : Z;
  audio_ssrc : Z;
  video_payload_type : Z;
  video_codec_name : str;
  clock_rate : Z;
  rtp_version : Z;
  video_media_type : str;
  audio_media_type : str;
  media_protocol : str;
  jitter_buffer_size : Z;
  audio_channels : Z;
  audio_sample_rate : Z;
  audio_frame_size : Z;
  audio_payload_type : Z;
  audio_codec_name : str
}.

Arguments mk_media {F64 F32}.
Arguments camera_index {F64 F32}. Arguments frame_width {F64 F32}. Arguments frame_height {F64 F32}. Arguments frame_rate {F64 F32}.
Arguments h264_idr_interval {F64 F32}. Arguments rtp_max_chunk_size {F64 F32}. Arguments frame_ssrc {F64 F32}. Arguments audio_ssrc {F64 F32}.
Arguments video_payload_type {F64 F32}. Arguments video_codec_name {F64 F32}. Arguments clock_rate {F64 F32}. Arguments rtp_version {F64 F32}.
Arguments video_media_type {F64 F32}. Arguments audio_media_type {F64 F32}. Arguments media_protocol {F64 F32}. Arguments jitter_buffer_size {F64 F32}.
Arguments audio_channels {F64 F32}. Arguments audio_sample_rate {F64 F32}. Arguments audio_frame_size {F64 F32}. Arguments audio_payload_type {F64 F32}.
Arguments audio_codec_name {F64 F32}.

Record RtcpConfig := mk_rtcp {
  report_period_millis : Z;
  receive_limit_millis : Z;
  retry_limit : Z
}.

Record RtpConfig := mk_rtp {
  max_packet_size : Z;
  read_timeout_millis : Z
}.

Record SdpConfig := mk_sdp {
  version : Z;
  origin_id : Z;
  session_name : str;
  timing : str;
  connection_data_net_type : str;
  connection_data_addr_type : str;
  connection_data_address : str
}.

Record IceConfig := mk_ice {
  foundation : str;
  transport : str;
  component_id : Z;
  host_priority_preference : Z;
  srflx_priority_preference : Z;
  host_local_preference : Z
}.

Record ServerConfig := mk_server {
  users_file : str;
  client_server_addr : str;
  server_client_addr : str;
  server_private_key_file : str;
  server_certification_file : str;
  server_name : str;
  max_amount_of_users_connected : Z
}.

Record DCEPConfig := mk_dcep {
  ack_wait_timeout_millis : Z;
  open_wait_timeout_millis : Z
}.

Record Config (F64 F32 : Type) := mk_config {
  network : NetworkConfig;
  media : MediaConfig F64 F32;
  rtcp : RtcpConfig;
  rtp : RtpConfig;
  sdp : SdpConfig;
  ice : IceConfig;
  server : ServerConfig;
  dcep : DCEPConfig
}.
Arguments mk_config {F64 F32}.
Arguments network {F64 F32}. Arguments media {F64 F32}. Arguments rtcp {F64 F32}. Arguments rtp {F64 F32}.
Arguments sdp {F64 F32}. Arguments ice {F64 F32}. Arguments server {F64 F32}. Arguments dcep {F64 F32}.

Definition SdpConfig_default : SdpConfig :=
  mk_sdp 0 0 (lit "-") (lit "0 0") (lit "IN") (lit "IP4") (lit "0.0.0.0").

(** The boxed error: the INI library's, a missing section or key with its
    message, or a value that does not parse. *)
Inductive LoadError : Type :=
| IniError
| Missing (what : str)
| BadValue.

(** A section: its keys; a file: its sections. *)
Definition section_map : Type := string -> option str.
Definition ini : Type := string -> option section_map.

(** [section.get(key).ok_or(msg)?] *)
Definition get (s : section_map) (key : string) (msg : string) : result str LoadError :=
  ok_or (s key) (Missing (lit msg)).

(** [.parse()?] at an unsigned type of w bits. *)
Definition parse (w : Z) (v : str) : result Z LoadError := ok_or (parse_uint w v) BadValue.

Section Load.
Context {F64 F32 : Type} (parse_f64 : str -> option F64) (parse_f32 : str -> option F32).

Definition load_network (network_section : section_map) : result NetworkConfig LoadError :=
  let? bind_address := get network_section "bind_address" "Missing bind_address" in
  let? max_udp_packet_size := get network_section "max_udp_packet_size" "Missing max_udp_packet_size" in
  let? max_udp_packet_size := parse 64 max_udp_packet_size in
  Ok (mk_network bind_address max_udp_packet_size).

Definition load_media (media_section : section_map) : result (MediaConfig F64 F32) LoadError :=
  let? camera_index := get media_section "camera_index" "Missing camera_index" in
  let? camera_index := parse 64 camera_index in
  let? frame_width := get media_section "frame_width" "Missing frame_width" in
  let? frame_width := ok_or (parse_f64 frame_width) BadValue in
  let? frame_height := get media_section "frame_height" "Missing frame_height" in
  let? frame_height := ok_or (parse_f64 frame_height) BadValue in
  let? frame_rate := get media_section "frame_rate" "Missing frame_rate" in
  let? frame_rate := ok_or (parse_f32 frame_rate) BadValue in
  let? h264_idr_interval := get media_section "h264_idr_interval" "Missing h264_idr_interval" in
  let? h264_idr_interval := parse 32 h264_idr_interval in
  let? rtp_max_chunk_size := get media_section "rtp_max_chunk_size" "Missing rtp_max_chunk_size" in
  let? rtp_max_chunk_size := parse 64 rtp_max_chunk_size in
  let? frame_ssrc := get media_section "frame_ssrc" "Missing frame_ssrc" in
  let? frame_ssrc := parse 32 frame_ssrc in
  let? audio_ssrc := get media_section "audio_ssrc" "Missing audio_ssrc" in
  let? audio_ssrc := parse 32 audio_ssrc in
  let? video_payload_type := get media_section "video_payload_type" "Missing video_payload_type" in
  let? video_payload_type := parse 8 video_payload_type in
  let? video_codec_name := get media_section "video_codec_name" "Missing video_codec_name" in
  let? clock_rate := get media_section "clock_rate" "Missing clock_rate" in
  let? clock_rate := parse 32 clock_rate in
  let? rtp_version := get media_section "rtp_version" "Missing rtp_version" in
  let? rtp_version := parse 8 rtp_version in
  let? video_media_type := get media_section "video_media_type" "Missing video_media_type" in
  let? audio_media_type := get media_section "audio_media_type" "Missing audio_media_type" in
  let? media_protocol := get media_section "media_protocol" "Missing media_protocol" in
  let? jitter_buffer_size := get media_section "jitter_buffer_size" "Missing jitter_buffer_size" in
  let? jitter_buffer_size := parse 64 jitter_buffer_size in
  let? audio_channels := get media_section "audio_channels" "Missing audio_channels" in
  let? audio_channels := parse 8 audio_channels in
  let? audio_sample_rate := get media_section "audio_sample_rate" "Missing audio_sample_rate" in
  let? audio_sample_rate := parse 32 audio_sample_rate in
  let? audio_frame_size := get media_section "audio_frame_size" "Missing audio_frame_size" in
  let? audio_frame_size := parse 64 audio_frame_size in
  let? audio_payload_type := get media_section "audio_payload_type" "Missing audio_payload_type" in
  let? audio_payload_type := parse 8 audio_payload_type in
  let? audio_codec_name := get media_section "audio_codec_name" "Missing audio_codec_name" in
  Ok (mk_media camera_index frame_width frame_height frame_rate h264_idr_interval rtp_max_chunk_size
    frame_ssrc audio_ssrc video_payload_type video_codec_name clock_rate rtp_version video_media_type
    audio_media_type media_protocol jitter_buffer_size audio_channels audio_sample_rate
    audio_frame_size audio_payload_type audio_codec_name).

Definition load_rtcp (rtcp_section : section_map) : result RtcpConfig LoadError :=
  let? report_period_millis := get rtcp_section "report_period_millis" "Missing report_period_millis" in
  let? report_period_millis := parse 64 report_period_millis in
  let? receive_limit_millis := get rtcp_section "receive_limit_millis" "Missing receive_limit_millis" in
  let? receive_limit_millis := parse 64 receive_limit_millis in
  let? retry_limit := get rtcp_section "retry_limit" "Missing retry_limit" in
  let? retry_limit := parse 64 retry_limit in
  Ok (mk_rtcp report_period_millis receive_limit_millis retry_limit).

Definition load_rtp (rtp_section : section_map) : result RtpConfig LoadError :=
  let? max_packet_size := get rtp_section "max_packet_size" "Missing max_packet_size" in
  let? max_packet_size := parse 64 max_packet_size in
  let? read_timeout_millis := get rtp_section "read_timeout_millis" "Missing read_timeout_millis" in
  let? read_timeout_millis := parse 64 read_timeout_millis in
  Ok (mk_rtp max_packet_size read_timeout_millis).

Definition load_sdp (sdp_section : section_map) : result SdpConfig LoadError :=
  let? version := get sdp_section "version" "Missing version" in
  let? version := parse 8 version in
  let? origin_id := get sdp_section "origin_id" "Missing origin_id" in
  let? origin_id := parse 64 origin_id in
  let? session_name := get sdp_section "session_name" "Missing session_name" in
  let? timing := get sdp_section "timing" "Missing timing" in
  let? connection_data_net_type := get sdp_section "connection_data_net_type" "Missing connection_data_net_type" in
  let? connection_data_addr_type := get sdp_section "connection_data_addr_type" "Missing connection_data_addr_type" in
  let? connection_data_address := get sdp_section "connection_data_address" "Missing connection_data_address" in
  Ok (mk_sdp version origin_id session_name timing connection_data_net_type connection_data_addr_type
    connection_data_address).

Definition load_ice (ice_section : section_map) : result IceConfig LoadError :=
  let? foundation := get ice_section "foundation" "Missing foundation" in
  let? transport := get ice_section "transport" "Missing transport" in
  let? component_id := get ice_section "component_id" "Missing component_id" in
  let? component_id := parse 8 component_id in
  let? host_priority_preference := get ice_section "host_priority_preference" "Missing host_priority_preference" in
  let? host_priority_preference := parse 32 host_priority_preference in
  let? srflx_priority_preference := get ice_section "srflx_priority_preference" "Missing srflx_priority_preference" in
  let? srflx_priority_preference := parse 32 srflx_priority_preference in
  let? host_local_preference := get ice_section "host_local_preference" "Missing host_local_preference" in
  let? host_local_preference := parse 16 host_local_preference in
  Ok (mk_ice foundation transport component_id host_priority_preference srflx_priority_preference
    host_local_preference).

Definition load_server (server_section : section_map) : result ServerConfig LoadError :=
  let? users_file := get server_section "users_file" "Missing path to users file" in
  let? client_server_addr := get server_section "client_server_addr" "Missing client-server address" in
  let? server_client_addr := get server_section "server_client_addr" "Missing server-client address" in
  let? server_private_key_file := get server_section "server_private_key_file" "Missing key file address" in
  let? server_certification_file := get server_section "server_certification_file" "Missing certification file address" in
  let? server_name := get server_section "server_name" "Missing server_name" in
  let? max_amount_of_users_connected := get server_section "max_amount_of_users_connected" "Missing max amount of users connected" in
  let? max_amount_of_users_connected := parse 64 max_amount_of_users_connected in
  Ok (mk_server users_file client_server_addr server_client_addr server_private_key_file
    server_certification_file server_name max_amount_of_users_connected).

Definition load_dcep (dcep_section : section_map) : result DCEPConfig LoadError :=
  let? ack_wait_timeout_millis := get dcep_section "ack_wait_timeout_millis" "Missing ack_wait_timeout_millis" in
  let? ack_wait_timeout_millis := parse 16 ack_wait_timeout_millis in
  let? open_wait_timeout_millis := get dcep_section "open_wait_timeout_millis" "Missing open_wait_timeout_millis" in
  let? open_wait_timeout_millis := parse 16 open_wait_timeout_millis in
  Ok (mk_dcep ack_wait_timeout_millis open_wait_timeout_millis).

Definition load (file : option ini) : result (Config F64 F32) LoadError :=
  let? conf := ok_or file IniError in
  let? network_section := ok_or (conf "network"%string) (Missing (lit "Missing [network] section")) in
  let? media_section := ok_or (conf "media"%string) (Missing (lit "Missing [media] section")) in
  let? rtp_section := ok_or (conf "rtp"%string) (Missing (lit "Missing [rtp] section")) in
  let? rtcp_section := ok_or (conf "rtcp"%string) (Missing (lit "Missing [rtcp] section")) in
  let? sdp_section := ok_or (conf "sdp"%string) (Missing (lit "Missing [sdp] section")) in
  let? ice_section := ok_or (conf "ice"%string) (Missing (lit "Missing [ice] section")) in
  let? server_section := ok_or (conf "server"%string) (Missing (lit "Missing [server] section")) in
  let? dcep_section := ok_or (conf "dcep"%string) (Missing (lit "Missing [dcep] section")) in
  let? network := load_network network_section in
  let? media := load_media media_section in
  let? rtcp := load_rtcp rtcp_section in
  let? rtp := load_rtp rtp_section in
  let? sdp := load_sdp sdp_section in
  let? ice := load_ice ice_section in
  let? server := load_server server_section in
  let? dcep := load_dcep dcep_section in
  Ok (mk_config network media rtcp rtp sdp ice server dcep).

End Load.

(** * Specification: the settings of a configuration as a file states them *)

Section Settings.
Context {F64 F32 : Type} (show_f64 : F64 -> str) (show_f32 : F32 -> str).

Definition settings (c : Config F64 F32) : list (string * string * str) :=
  [ ("network", "bind_address", bind_address (network c));
    ("network", "max_udp_packet_size", show (max_udp_packet_size (network c)));
    ("media", "camera_index", show (camera_index (media c)));
    ("media", "frame_width", show_f64 (frame_width (media c)));
    ("media", "frame_height", show_f64 (frame_height (media c)));
    ("media", "frame_rate", show_f32 (frame_rate (media c)));
    ("media", "h264_idr_interval", show (h264_idr_interval (media c)));
    ("media", "rtp_max_chunk_size", show (rtp_max_chunk_size (media c)));
    ("media", "frame_ssrc", show (frame_ssrc (media c)));
    ("media", "audio_ssrc", show (audio_ssrc (media c)));
    ("media", "video_payload_type", show (video_payload_type (media c)));
    ("media", "video_codec_name", video_codec_name (media c));
    ("media", "clock_rate", show (clock_rate (media c)));
    ("media", "rtp_version", show (rtp_version (media c)));
    ("media", "video_media_type", video_media_type (media c));
    ("media", "audio_media_type", audio_media_type (media c));
    ("media", "media_protocol", media_protocol (media c));
    ("media", "jitter_buffer_size", show (jitter_buffer_size (media c)));
    ("media", "audio_channels", show (audio_channels (media c)));
    ("media", "audio_sample_rate", show (audio_sample_rate (media c)));
    ("media", "audio_frame_size", show (audio_frame_size (media c)));
    ("media", "audio_payload_type", show (audio_payload_type (media c)));
    ("media", "audio_codec_name", audio_codec_name (media c));
    ("rtcp", "report_period_millis", show (report_period_millis (rtcp c)));
    ("rtcp", "receive_limit_millis", show (receive_limit_millis (rtcp c)));
    ("rtcp", "retry_limit", show (retry_limit (rtcp c)));
    ("rtp", "max_packet_size", show (max_packet_size (rtp c)));
    ("rtp", "read_timeout_millis", show (read_timeout_millis (rtp c)));
    ("sdp", "version", show (version (sdp c)));
    ("sdp", "origin_id", show (origin_id (sdp c)));
    ("sdp", "session_name", session_name (sdp c));
    ("sdp", "timing", timing (sdp c));
    ("sdp", "connection_data_net_type", connection_data_net_type (sdp c));
    ("sdp", "connection_data_addr_type", connection_data_addr_type (sdp c));
    ("sdp", "connection_data_address", connection_data_address (sdp c));
    ("ice", "foundation", foundation (ice c));
    ("ice", "transport", transport (ice c));
    ("ice", "component_id", show (component_id (ice c)));
    ("ice", "host_priority_preference", show (host_priority_preference (ice c)));
    ("ice", "srflx_priority_preference", show (srflx_priority_preference (ice c)));
    ("ice", "host_local_preference", show (host_local_preference (ice c)));
    ("server", "users_file", users_file (server c));
    ("server", "client_server_addr", client_server_addr (server c));
    ("server", "server_client_addr", server_client_addr (server c));
    ("server", "server_private_key_file", server_private_key_file (server c));
    ("server", "server_certification_file", server_certification_file (server c));
    ("server", "server_name", server_name (server c));
    ("server", "max_amount_of_users_connected", show (max_amount_of_users_connected (server c)));
    ("dcep", "ack_wait_timeout_millis", show (ack_wait_timeout_millis (dcep c)));
    ("dcep", "open_wait_timeout_millis", show (open_wait_timeout_millis (dcep c))) ]%string.

(** The machine-width settings with their widths. *)
Definition widths (c : Config F64 F32) : list (Z * Z) :=
  [ (64, max_udp_packet_size (network c)); (64, camera_index (media c)); (32, h264_idr_interval (media c));
    (64, rtp_max_chunk_size (media c)); (32, frame_ssrc (media c)); (32, audio_ssrc (media c));
    (8, video_payload_type (media c)); (32, clock_rate (media c)); (8, rtp_version (media c));
    (64, jitter_buffer_size (media c)); (8, audio_channels (media c)); (32, audio_sample_rate (media c));
    (64, audio_frame_size (media c)); (8, audio_payload_type (media c)); (64, report_period_millis (rtcp c));
    (64, receive_limit_millis (rtcp c)); (64, retry_limit (rtcp c)); (64, max_packet_size (rtp c));
    (64, read_timeout_millis (rtp c)); (8, version (sdp c)); (64, origin_id (sdp c));
    (8, component_id (ice c)); (32, host_priority_preference (ice c)); (32, srflx_priority_preference (ice c));
    (16, host_local_preference (ice c)); (64, max_amount_of_users_connected (server c));
    (16, ack_wait_timeout_millis (dcep c)); (16, open_wait_timeout_millis (dcep c)) ].

End Settings.

(** The file states the setting (section, key, text). *)
Definition states (f : ini) (e : string * string * str) : Prop :=
  exists s, f e.1.1 = Some s /\ s e.1.2 = Some e.2.

(** * Lemmas *)

Lemma get_ok s k msg v : get s k msg = Ok v <-> s k = Some v.
Proof. unfold get. destruct (s k); simpl; split; by intros [= ->]. Qed.

Lemma ok_or_ok {A E} (o : option A) (e : E) a : ok_or o e = Ok a <-> o = Some a.
Proof. destruct o; simpl; split; by intros [= ->]. Qed.

Lemma parse_ok w v z : parse w v = Ok z -> fits w z.
Proof. intros H%ok_or_ok. by apply parse_radix_fits in H. Qed.

Lemma parse_shown w z : fits w z -> parse w (show z) = Ok z.
Proof. intros H. unfold parse. by rewrite parse_show. Qed.

(** Run a sequence of binds forwards, and take one apart. *)
Ltac run_binds :=
  repeat first
    [ rewrite (proj2 (get_ok _ _ _ _)) by eassumption
    | rewrite parse_shown by assumption
    | progress cbn [rbind ok_or] ].
Ltac take_binds H :=
  repeat match type of H with rbind ?m _ = Ok _ => destruct m eqn:?; [cbn [rbind] in H|discriminate H] end;
  repeat match goal with
  | E : get _ _ _ = Ok _ |- _ => apply get_ok in E
  | E : parse _ _ = Ok _ |- _ => apply parse_ok in E
  | E : ok_or _ _ = Ok _ |- _ => apply ok_or_ok in E
  end.

(** The names a file must define. *)
Definition present (f : ini) (e : string * string * str) : Prop :=
  exists s, f e.1.1 = Some s /\ is_Some (s e.1.2).

(** Splitting a statement about a concrete list into its elements. *)
Ltac split_list H := repeat (let H1 := fresh "E" in apply Forall_cons in H as [H1 H]).

#[local] Arguments show : simpl never.

Section Sections.
Context {F64 F32 : Type} (show_f64 : F64 -> str) (show_f32 : F32 -> str).
Context (parse_f64 : str -> option F64) (parse_f32 : str -> option F32).

Lemma config_stated f c :
  (forall x, parse_f64 (show_f64 x) = Some x) -> (forall x, parse_f32 (show_f32 x) = Some x) ->
  Forall (states f) (settings show_f64 show_f32 c) -> Forall (fun e => fits e.1 e.2) (widths c) ->
  load parse_f64 parse_f32 (Some f) = Ok c.
Proof.
  intros H64 H32 Hs Hw. unfold settings in Hs. split_list Hs. clear Hs.
  repeat match goal with E : states _ _ |- _ => destruct E as (? & ? & ?); cbn [fst snd] in * end.
  simplify_eq. unfold widths in Hw. split_list Hw. clear Hw. cbn [fst snd] in *.
  destruct c as [[] [] [] [] [] [] [] []]. cbn [network media rtcp rtp sdp ice server dcep] in *.
  unfold load. cbn [ok_or rbind].
  repeat match goal with E : f _ = Some _ |- _ => rewrite E; clear E end. cbn [ok_or rbind].
  unfold load_network, load_media, load_rtcp, load_rtp, load_sdp, load_ice, load_server, load_dcep.
  cbn in *. run_binds. rewrite !H64. run_binds. rewrite H32. run_binds. reflexivity.
Qed.

(** Each list of names and widths is checked section by section. *)
Lemma config_accepted f c :
  load parse_f64 parse_f32 (Some f) = Ok c ->
  Forall (present f) (settings show_f64 show_f32 c) /\ Forall (fun e => fits e.1 e.2) (widths c).
Proof.
  unfold load. cbn [ok_or rbind]. intros H. take_binds H. injection H as <-.
  unfold load_network, load_media, load_rtcp, load_rtp, load_sdp, load_ice, load_server, load_dcep in *.
  repeat match goal with E : rbind _ _ = Ok _ |- _ => progress take_binds E end.
  repeat match goal with E : Ok _ = Ok _ |- _ => injection E as <- end.
  split; repeat (apply Forall_cons; split); try apply Forall_nil; try done; cbn; try assumption;
    eexists; cbn [fst snd]; (split; [eassumption|by eexists]).
Qed.

End Sections.

(** * Properties *)

(** C38: the configuration file is read faithfully and completely.  A file
    that states every setting of a configuration whose integers fit their
    types (whatever else it holds) loads to exactly that configuration; and
    whatever loads had every one of these keys and only in-range integers. *)
Theorem config_load {F64 F32} (show_f64 : F64 -> str) (show_f32 : F32 -> str) parse_f64 parse_f32 f c :
  (forall x, parse_f64 (show_f64 x) = Some x) -> (forall x, parse_f32 (show_f32 x) = Some x) ->
  (Forall (states f) (settings show_f64 show_f32 c) -> Forall (fun e => fits e.1 e.2) (widths c) ->
   load parse_f64 parse_f32 (Some f) = Ok c) /\
  (load parse_f64 parse_f32 (Some f) = Ok c ->
   Forall (present f) (settings show_f64 show_f32 c) /\ Forall (fun e => fits e.1 e.2) (widths c)).
Proof.
  intros H64 H32. split.
  - by apply (config_stated show_f64 show_f32).
  - apply (config_accepted show_f64 show_f32).
Qed.

(** * Witnesses *)

Definition sample : Config Z Z :=
  mk_config (mk_network (lit "0.0.0.0:0") 1500)
    (mk_media 0 640 480 30 30 1200 1 2 96 (lit "H264") 90000 2 (lit "video") (lit "audio") (lit "RTP/AVP")
       2048 1 48000 960 111 (lit "opus"))
    (mk_rtcp 1000 5000 3) (mk_rtp 1500 1000) SdpConfig_default
    (mk_ice (lit "1") (lit "UDP") 1 126 100 65535)
    (mk_server (lit "users") (lit "a") (lit "b") (lit "k") (lit "c") (lit "n") 100) (mk_dcep 0 0).

(** A file made of the settings of a configuration. *)
Definition file_of (l : list (string * string * str)) : ini := fun sec => Some (fun key =>
  match list_find (fun e => e.1.1 = sec /\ e.1.2 = key) l with Some (_, e) => Some e.2 | None => None end).

(** Integers stand for the floats, each written as one character. *)
Definition show_float (z : Z) : str := [z].
Definition parse_float (s : str) : option Z := head s.

Lemma config_load_witness :
  load parse_float parse_float (Some (file_of (settings show_float show_float sample))) = Ok sample.
Proof.
  refine (proj1 (config_load show_float show_float parse_float parse_float _ sample _ _) _ _); try (by intros).
  - unfold settings. repeat (apply Forall_cons; split); try apply Forall_nil;
      (eexists; split; reflexivity).
  - unfold widths. repeat (apply Forall_cons; split); try apply Forall_nil; (split; vm_compute; congruence).
Defined.
