(* ===== verification/Ice.v ===== *)
(** ICE (src/session/ice/): candidates and their priorities
    (candidate_type.rs, candidate.rs), pairs (candidate_pair.rs,
    connectivity_state.rs) and the agent (ice_agent.rs): gathering, pairing and
    connectivity checks.  The network interfaces, the STUN answer and what the
    socket does during each check are arguments; logging is left out. *)

From S2P Require Import Prelude.
From S2P Require Import Text.
From S2P Require Import Wire.
From S2P Require Import Config.
From Stdlib Require Import Sorted.

(** * Definitions *)

Inductive IceError : Type :=
| NetworkInterfaceError | NoNetworkInterfaceFound | InvalidCandidateAddress | InvalidCandidatePort
| InvalidCandidateType | NoLocalCandidates | NoRemoteCandidates | CandidatePairCreationFailed
| NoCandidatePairs | InvalidConnectivityState | UnsupportedCandidateType | InternalError | NoSelectedPair.

Definition show_ice_error (e : IceError) : str :=
  match e with
  | NetworkInterfaceError => quoted "could not obtain network interface"
  | NoNetworkInterfaceFound => quoted "no network interface found"
  | InvalidCandidateAddress => quoted "invalid candidate address"
  | InvalidCandidatePort => quoted "invalid candidate port"
  | InvalidCandidateType => quoted "invalid candidate type"
  | NoLocalCandidates => quoted "no local candidate available"
  | NoRemoteCandidates => quoted "no remote candidate available"
  | CandidatePairCreationFailed => quoted "pair creation failed"
  | NoCandidatePairs => quoted "no candidate pairs available"
  | InvalidConnectivityState => quoted "invalid connectivity state"
  | UnsupportedCandidateType => quoted "unsupported candidate type"
  | InternalError => quoted "internal error"
  | NoSelectedPair => quoted "no selected pair available"
  end.

(** ** Candidates *)

Inductive CandidateType : Type := Host | ServerReflexive.

#[global] Instance CandidateType_eq_dec : EqDecision CandidateType.
Proof. solve_decision. Defined.

Definition type_priority (t : CandidateType) : Z := match t with Host => 126 | ServerReflexive => 100 end.

Definition show_type (t : CandidateType) : str :=
  match t with Host => lit "host" | ServerReflexive => lit "srflx" end.

Definition type_from_str (s : str) : result CandidateType IceError :=
  if str_eqb s (lit "host") then Ok Host
  else if str_eqb s (lit "srflx") then Ok ServerReflexive
  else Err InvalidCandidateType.

Record Candidate := mk_candidate {
  candidate_type : CandidateType;
  priority : Z;
  address : str;
  port : Z;
  component_id : Z;
  foundation : str;
  transport : str
}.

#[global] Instance Candidate_eq_dec : EqDecision Candidate.
Proof. solve_decision. Defined.

(** u32 arithmetic; the shift drops the bits above the width. *)
Definition calculate_priority (t : CandidateType) (local_preference : Z) (ice_config : IceConfig) : Z :=
  let type_preference :=
    match t with
    | Host => host_priority_preference ice_config
    | ServerReflexive => srflx_priority_preference ice_config
    end in
  Z.lor (Z.lor (wrap 32 (Z.shiftl type_preference 24)) (Z.shiftl local_preference 8)) (256 - 1).

Definition new_host (addr : str) (component : Z) (ice_config : IceConfig) : Candidate :=
  mk_candidate Host (calculate_priority Host (host_local_preference ice_config) ice_config) addr 0 component
    (Config.foundation ice_config) (Config.transport ice_config).

Definition with_port (p : Z) (c : Candidate) : Candidate :=
  mk_candidate (candidate_type c) (priority c) (address c) p (component_id c) (foundation c) (transport c).

Definition show_candidate (c : Candidate) : str :=
  address c ++ lit ":" ++ show (port c) ++ lit "@" ++ show_type (candidate_type c) ++
  lit " (" ++ show (priority c) ++ lit ")".

(** ** Pairs *)

Inductive ConnectivityState : Type := Waiting | InProgress | Succeeded | Failed.

Definition show_state (s : ConnectivityState) : str :=
  match s with
  | Waiting => lit "Waiting" | InProgress => lit "In Progress"
  | Succeeded => lit "Succeeded" | Failed => lit "Failed"
  end.

Record CandidatePair := mk_pair {
  local : Candidate;
  remote : Candidate;
  pair_priority : Z;
  state : ConnectivityState
}.

(** u64 arithmetic. *)
Definition calculate_pair_priority (l r : Candidate) : Z :=
  let g := Z.min (priority l) (priority r) in
  let h := Z.max (priority l) (priority r) in
  wrap 64 (Z.shiftl 1 32 * g + 2 * h + Z.b2z (priority r <? priority l)).

Definition new_pair (l r : Candidate) : CandidatePair := mk_pair l r (calculate_pair_priority l r) Waiting.

Definition with_state (s : ConnectivityState) (p : CandidatePair) : CandidatePair :=
  mk_pair (local p) (remote p) (pair_priority p) s.

Definition show_pair (p : CandidatePair) : str :=
  show_candidate (local p) ++ lit " <-> " ++ show_candidate (remote p) ++ lit " [" ++ show_state (state p) ++
  lit "] (priority: " ++ show (pair_priority p) ++ lit ")".

(** ** The agent *)

Record IceAgent := mk_agent {
  local_candidates : list Candidate;
  remote_candidates : list Candidate;
  candidate_pairs : list CandidatePair;
  selected_pair : option CandidatePair
}.

Definition new : IceAgent := mk_agent [] [] [] None.

(** The interfaces of the host: loopback or not, and the IPv4 address if it is one. *)
Fixpoint first_address (interfaces : list (bool * option str)) : result str IceError :=
  match interfaces with
  | [] => Err NoNetworkInterfaceFound
  | (is_loopback, ip) :: rest =>
      match negb is_loopback, ip with
      | true, Some ipv4 => Ok ipv4
      | _, _ => first_address rest
      end
  end.

Definition get_local_ip (interfaces : option (list (bool * option str))) : result str IceError :=
  let? interfaces := ok_or interfaces NetworkInterfaceError in
  first_address interfaces.

Definition push_local (c : Candidate) (a : IceAgent) : IceAgent :=
  mk_agent (local_candidates a ++ [c]) (remote_candidates a) (candidate_pairs a) (selected_pair a).

(** [local_port]: the port of [socket.local_addr()], if it can be read;
    [public]: the answer of [stun_client::get_public_ip_and_port]. *)
Definition gather_candidates (interfaces : option (list (bool * option str))) (local_port : option Z)
    (public : result str str) (ice_config : IceConfig) (a : IceAgent) : result unit IceError * IceAgent :=
  let a :=
    match get_local_ip interfaces with
    | Ok local_ip =>
        let p := match local_port with Some p => p | None => 0 end in
        push_local (with_port p (new_host local_ip (Config.component_id ice_config) ice_config)) a
    | Err _ => a
    end in
  let a :=
    match public with
    | Ok addr =>
        match split_once (c! ":") addr with
        | Some (ip, port_str) =>
            match parse_uint 16 port_str with
            | Some stun_port =>
                push_local (mk_candidate ServerReflexive (wrap 32 (srflx_priority_preference ice_config * 1000)) ip
                  stun_port (Config.component_id ice_config) (Config.foundation ice_config)
                  (Config.transport ice_config)) a
            | None => a
            end
        | None => a
        end
    | Err _ => a
    end in
  (Ok tt, a).

(** All the combinations, local candidates outermost. *)
Definition all_pairs (ls rs : list Candidate) : list CandidatePair :=
  flat_map (fun l => map (fun r => new_pair l r) rs) ls.

Definition create_candidate_pair (a : IceAgent) : result unit IceError * IceAgent :=
  match local_candidates a, remote_candidates a with
  | [], _ => (Err NoLocalCandidates, a)
  | _, [] => (Err NoRemoteCandidates, a)
  | ls, rs =>
      let pairs := candidate_pairs a ++ all_pairs ls rs in
      let a' := mk_agent ls rs pairs (selected_pair a) in
      match pairs with [] => (Err NoCandidatePairs, a') | _ => (Ok tt, a') end
  end.

Definition push_remote (cs : list Candidate) (a : IceAgent) : IceAgent :=
  mk_agent (local_candidates a) (remote_candidates a ++ cs) (candidate_pairs a) (selected_pair a).

Definition add_remote_candidate (c : Candidate) (a : IceAgent) : result unit IceError * IceAgent :=
  create_candidate_pair (push_remote [c] a).

Definition add_remote_candidates (cs : list Candidate) (a : IceAgent) : result unit IceError * IceAgent :=
  create_candidate_pair (push_remote cs a).

(** What happens in one turn of the checking loop: the PING cannot be sent, a
    datagram arrives (bytes and source address), or receiving times out. *)
Inductive turn : Type :=
| SendError
| Received (msg : bytes) (src_ip : str)
| RecvError.

Definition PING : bytes := [80; 73; 78; 71].
Definition PONG : bytes := [80; 79; 78; 71].

(** The turns that fit in the two seconds of the check; the result and what
    was sent to the target. *)
Fixpoint verify_candidate_pair (target : str) (turns : list turn) : bool * list bytes :=
  match turns with
  | [] => (false, [])
  | SendError :: turns => verify_candidate_pair target turns
  | RecvError :: turns => let '(b, sent) := verify_candidate_pair target turns in (b, PING :: sent)
  | Received msg src :: turns =>
      if negb (contains src target) then
        let '(b, sent) := verify_candidate_pair target turns in (b, PING :: sent)
      else if str_eqb msg PONG then (true, [PING])
      else
        let '(b, sent) := verify_candidate_pair target turns in
        (b, PING :: (if str_eqb msg PING then [PONG] else []) ++ sent)
  end.

(** Stable sort by decreasing priority ([sort_by]). *)
Fixpoint insert_pair (p : CandidatePair) (l : list CandidatePair) : list CandidatePair :=
  match l with
  | [] => [p]
  | q :: l' => if pair_priority q <=? pair_priority p then p :: l else q :: insert_pair p l'
  end.
Definition sort_pairs (l : list CandidatePair) : list CandidatePair := foldr insert_pair [] l.

Definition is_srflx (c : Candidate) : bool :=
  match candidate_type c with ServerReflexive => true | Host => false end.

Definition target_of (p : CandidatePair) : str := address (remote p) ++ lit ":" ++ show (port (remote p)).

(** [traffic i]: what the socket does while pair number i is checked. *)
Fixpoint check_pairs (traffic : nat -> list turn) (index : nat) (pairs : list CandidatePair) :
    list CandidatePair * option nat :=
  match pairs with
  | [] => ([], None)
  | p :: rest =>
      if is_srflx (local p) || is_srflx (remote p) then
        let '(rest, sel) := check_pairs traffic (S index) rest in (p :: rest, sel)
      else if (verify_candidate_pair (target_of p) (traffic index)).1 then
        (with_state Succeeded p :: rest, Some index)
      else
        let '(rest, sel) := check_pairs traffic (S index) rest in (with_state Failed p :: rest, sel)
  end.

(** [timeout_set]: whether [socket.set_read_timeout] succeeded. *)
Definition start_connectivity_checks (timeout_set : bool) (traffic : nat -> list turn) (a : IceAgent) :
    result unit IceError * IceAgent :=
  match candidate_pairs a with
  | [] => (Err NoCandidatePairs, a)
  | _ =>
      let sorted := sort_pairs (candidate_pairs a) in
      let a := mk_agent (local_candidates a) (remote_candidates a) sorted (selected_pair a) in
      if negb timeout_set then (Err NetworkInterfaceError, a) else
      let '(pairs, selected_index) := check_pairs traffic 0 sorted in
      let a := mk_agent (local_candidates a) (remote_candidates a) pairs (selected_pair a) in
      match selected_index with
      | Some index =>
          (Ok tt, mk_agent (local_candidates a) (remote_candidates a) pairs (pairs !! index))
      | None => (Err NoSelectedPair, a)
      end
  end.

Definition get_local_candidate (a : IceAgent) : option Candidate := head (local_candidates a).
Definition get_local_candidates (a : IceAgent) : list Candidate := local_candidates a.
Definition get_selected_pair (a : IceAgent) : result CandidatePair IceError := ok_or (selected_pair a) NoSelectedPair.
Definition clean_remote_candidates (a : IceAgent) : IceAgent := mk_agent (local_candidates a) [] [] None.

(** * Lemmas *)

Lemma lor_low a b n : 0 <= n -> 0 <= b < 2 ^ n -> Z.lor (Z.shiftl a n) b = a * 2 ^ n + b.
Proof.
  intros Hn Hb. rewrite <-Z.shiftl_mul_pow2 by done.
  assert (Hd : Z.land (Z.shiftl a n) b = 0).
  { apply Z.bits_inj'. intros k Hk. rewrite Z.land_spec, Z.bits_0. destruct (Z.ltb_spec k n).
    - by rewrite Z.shiftl_spec_low.
    - rewrite <-(Z.mod_small b (2 ^ n)), Z.mod_pow2_bits_high by lia. apply andb_false_r. }
  by rewrite <-Z.lxor_lor, Z.add_nocarry_lxor.
Qed.

(** Type preference, local preference and the constant 255 side by side. *)
Lemma host_priority t lp c :
  0 <= (match t with Host => host_priority_preference c | ServerReflexive => srflx_priority_preference c end) < 256 ->
  fits 16 lp ->
  calculate_priority t lp c =
  (match t with Host => host_priority_preference c | ServerReflexive => srflx_priority_preference c end) * 2 ^ 24 +
  lp * 2 ^ 8 + 255.
Proof.
  intros Ht Hl. unfold calculate_priority. set (tp := match t with Host => _ | _ => _ end) in *.
  rewrite wrap_id by (rewrite Z.shiftl_mul_pow2 by lia; width).
  rewrite <-Z.lor_assoc. rewrite (lor_low lp (256 - 1) 8) by lia. rewrite lor_low by width. lia.
Qed.

Lemma pair_priority_exact l r :
  fits 31 (priority l) -> fits 31 (priority r) ->
  calculate_pair_priority l r =
  2 ^ 32 * Z.min (priority l) (priority r) + 2 * Z.max (priority l) (priority r) + Z.b2z (priority r <? priority l).
Proof.
  intros Hl Hr. unfold calculate_pair_priority. change (Z.shiftl 1 32) with (2 ^ 32).
  apply wrap_id. unfold fits in *. destruct (Z.ltb_spec (priority r) (priority l)); simpl; lia.
Qed.

(** ** Sorting *)

Definition better (p q : CandidatePair) : Prop := pair_priority q <= pair_priority p.

Lemma insert_pair_perm p l : insert_pair p l ≡ₚ p :: l.
Proof. induction l as [|q l IH]; simpl; [done|]. case_bool; [done|]. rewrite IH. constructor. Qed.

Lemma sort_pairs_perm l : sort_pairs l ≡ₚ l.
Proof. induction l as [|p l IH]; simpl; [done|]. by rewrite insert_pair_perm, IH. Qed.

Lemma insert_pair_sorted p l : StronglySorted better l -> StronglySorted better (insert_pair p l).
Proof.
  induction 1 as [|q l Hl IH Hq]; simpl; [by repeat constructor|]. case_bool.
  - constructor; [by constructor|]. constructor; [unfold better; lia|].
    eapply Forall_impl; [exact Hq|]. unfold better. intros. lia.
  - constructor; [done|]. rewrite insert_pair_perm. constructor; [unfold better; lia|done].
Qed.

Lemma sort_pairs_sorted l : StronglySorted better (sort_pairs l).
Proof. induction l as [|p l IH]; simpl; [constructor|]. by apply insert_pair_sorted. Qed.

(** ** Checking *)

(** A pair that is checked at all, and one whose check at position i succeeds. *)
Definition eligible (p : CandidatePair) : bool := negb (is_srflx (local p) || is_srflx (remote p)).
Definition reachable (traffic : nat -> list turn) (i : nat) (p : CandidatePair) : bool :=
  eligible p && (verify_candidate_pair (target_of p) (traffic i)).1.

(** What a pair that was not selected becomes. *)
Definition tried (p : CandidatePair) : CandidatePair := if eligible p then with_state Failed p else p.

Lemma check_pairs_spec traffic pairs k out sel :
  check_pairs traffic k pairs = (out, sel) ->
  match sel with
  | None => out = map tried pairs /\ forall i p, pairs !! i = Some p -> reachable traffic (k + i) p = false
  | Some j => exists i p, j = (k + i)%nat /\ pairs !! i = Some p /\ reachable traffic j p = true /\
      out = map tried (take i pairs) ++ with_state Succeeded p :: drop (S i) pairs /\
      forall i' p', (i' < i)%nat -> pairs !! i' = Some p' -> reachable traffic (k + i') p' = false
  end.
Proof.
  revert k out sel. induction pairs as [|p pairs IH]; intros k out sel; cbn [check_pairs].
  { intros [= <- <-]. split; [done|]. by intros. }
  assert (Hmiss : forall rest s, reachable traffic k p = false -> check_pairs traffic (S k) pairs = (rest, s) ->
    (tried p :: rest, s) = (out, sel) -> match sel with
  | None => out = map tried (p :: pairs) /\ forall i q, (p :: pairs) !! i = Some q -> reachable traffic (k + i) q = false
  | Some j => exists i q, j = (k + i)%nat /\ (p :: pairs) !! i = Some q /\ reachable traffic j q = true /\
      out = map tried (take i (p :: pairs)) ++ with_state Succeeded q :: drop (S i) (p :: pairs) /\
      forall i' q', (i' < i)%nat -> (p :: pairs) !! i' = Some q' -> reachable traffic (k + i') q' = false
  end).
  { intros rest s Hp Hrec [= <- <-]. apply IH in Hrec. destruct s as [j|].
    - destruct Hrec as (i & q & -> & Hq & Hr & -> & Hbefore). exists (S i), q. split_and!; try done; [lia|].
      intros [|i'] q' Hi'; [intros [= <-]; by rewrite Nat.add_0_r|]. intros Hq'.
      rewrite <-Nat.add_succ_comm. apply Hbefore; [lia|done].
    - destruct Hrec as [-> Hall]. split; [done|]. intros [|i] q; [intros [= <-]; by rewrite Nat.add_0_r|].
      intros Hq. rewrite <-Nat.add_succ_comm. by apply Hall. }
  destruct (is_srflx (local p) || is_srflx (remote p)) eqn:Es.
  - assert (Hr : reachable traffic k p = false) by (unfold reachable, eligible; by rewrite Es).
    assert (Ht : tried p = p) by (unfold tried, eligible; by rewrite Es).
    destruct (check_pairs traffic (S k) pairs) as [rest s]. intros E. eapply Hmiss; [done|done|by rewrite Ht].
  - destruct (verify_candidate_pair (target_of p) (traffic k)).1 eqn:Ev.
    + intros [= <- <-]. exists 0%nat, p. rewrite Nat.add_0_r. split_and!; try done; [|intros; lia].
      unfold reachable, eligible. by rewrite Es, Ev.
    + assert (Hr : reachable traffic k p = false) by (unfold reachable; by rewrite Ev, andb_false_r).
      assert (Ht : tried p = with_state Failed p) by (unfold tried, eligible; by rewrite Es).
      destruct (check_pairs traffic (S k) pairs) as [rest s]. intros E. eapply Hmiss; [done|done|by rewrite Ht].
Qed.

(** ** Pairing *)

Lemma all_pairs_in ls rs p : p ∈ all_pairs ls rs <-> exists l r, l ∈ ls /\ r ∈ rs /\ p = new_pair l r.
Proof.
  unfold all_pairs. rewrite list_elem_of_In, in_flat_map. split.
  - intros (l & Hl & (r & <- & Hr)%in_map_iff). exists l, r. by rewrite !list_elem_of_In.
  - intros (l & r & Hl & Hr & ->). rewrite list_elem_of_In in Hl, Hr. exists l. split; [done|]. by apply in_map.
Qed.

Lemma all_pairs_ne ls rs : ls <> [] -> rs <> [] -> all_pairs ls rs <> [].
Proof. destruct ls as [|l ls], rs as [|r rs]; simpl; done. Qed.

(** The pairs of an agent are combinations of its candidates, and all of them. *)
Definition paired (a : IceAgent) : Prop :=
  local_candidates a <> [] /\
  (forall p, p ∈ candidate_pairs a -> exists l r, l ∈ local_candidates a /\ r ∈ remote_candidates a /\
    local p = l /\ remote p = r /\ pair_priority p = calculate_pair_priority l r) /\
  (forall l r, l ∈ local_candidates a -> r ∈ remote_candidates a -> exists p, p ∈ candidate_pairs a /\
    local p = l /\ remote p = r).

(** Adding remote candidates to an agent that has local ones succeeds, keeps
    the pairs complete and the local candidates unchanged. *)
Lemma add_remote_spec cs a :
  paired a -> cs <> [] ->
  exists a', add_remote_candidates cs a = (Ok tt, a') /\ paired a' /\
    local_candidates a' = local_candidates a /\ remote_candidates a' = remote_candidates a ++ cs /\
    selected_pair a' = selected_pair a.
Proof.
  intros (Hl & Hs & Hc) Hne. unfold add_remote_candidates, create_candidate_pair, push_remote.
  cbn [local_candidates remote_candidates candidate_pairs selected_pair].
  destruct (local_candidates a) as [|l0 ls] eqn:El; [done|]. destruct (remote_candidates a ++ cs) as [|r0 rs] eqn:Er.
  { by apply app_eq_nil in Er as [_ ->]. }
  pose proof (all_pairs_ne (l0 :: ls) (r0 :: rs) ltac:(done) ltac:(done)) as Hp.
  destruct (candidate_pairs a ++ all_pairs (l0 :: ls) (r0 :: rs)) as [|p0 ps] eqn:Ep.
  { by apply app_eq_nil in Ep as [_ ?]. }
  eexists. split; [reflexivity|]. split; [|done]. unfold paired.
  cbn [local_candidates remote_candidates candidate_pairs]. rewrite <-Ep. split_and!; [done| |].
  - intros p [Hp'|Hp']%elem_of_app.
    + destruct (Hs _ Hp') as (l & r & Hl' & Hr & ?). exists l, r. split_and!; try done; try tauto.
      rewrite <-Er. apply elem_of_app. by left.
    + apply all_pairs_in in Hp' as (l & r & Hl' & Hr & ->). by exists l, r.
  - intros l r Hl' Hr. exists (new_pair l r). split; [|done]. apply elem_of_app. right. apply all_pairs_in. by exists l, r.
Qed.

Lemma add_remote_one c a : add_remote_candidate c a = add_remote_candidates [c] a.
Proof. done. Qed.

(** ** Probing *)

(** A turn that completes a check of the target. *)
Definition pong_turn (target : str) (t : turn) : bool :=
  match t with Received msg src => contains src target && str_eqb msg PONG | _ => false end.

Lemma verify_iff target turns :
  (verify_candidate_pair target turns).1 = existsb (pong_turn target) turns.
Proof.
  induction turns as [|t turns IH]; [done|]. destruct t as [|msg src|]; cbn [verify_candidate_pair existsb pong_turn];
    [done| |by destruct (verify_candidate_pair target turns)].
  destruct (contains src target); cbn [negb andb orb];
    [destruct (str_eqb msg PONG); cbn [orb fst]; [done|]|]; by destruct (verify_candidate_pair target turns).
Qed.

(** * Properties *)

(** Candidate and pair priorities.  For type preferences below 128 a host
    candidate's priority is the three fields of RFC 8445 side by side and fits
    31 bits; for candidates whose priorities fit 31 bits the pair priority is
    computed without overflow, the two peers' values differ in the last bit at
    most, and pairs are ranked by the smaller priority, then the larger. *)
Lemma pair_priority_order :
  (forall c addr comp, 0 <= host_priority_preference c < 128 -> fits 16 (host_local_preference c) ->
     priority (new_host addr comp c) = host_priority_preference c * 2 ^ 24 + host_local_preference c * 2 ^ 8 + 255 /\
     fits 31 (priority (new_host addr comp c))) /\
  (forall l r, fits 31 (priority l) -> fits 31 (priority r) ->
     calculate_pair_priority l r / 2 = calculate_pair_priority r l / 2 /\
     fits 64 (calculate_pair_priority l r) /\
     forall l' r', fits 31 (priority l') -> fits 31 (priority r') ->
       Z.min (priority l) (priority r) < Z.min (priority l') (priority r') \/
       (Z.min (priority l) (priority r) = Z.min (priority l') (priority r') /\
        Z.max (priority l) (priority r) < Z.max (priority l') (priority r')) ->
       calculate_pair_priority l r < calculate_pair_priority l' r').
Proof.
  split.
  - intros c addr comp Ht Hl. change (priority (new_host addr comp c)) with
      (calculate_priority Host (host_local_preference c) c).
    rewrite (host_priority Host) by (done || lia). split; [done|]. width.
  - intros l r Hl Hr. rewrite !pair_priority_exact by done. unfold fits in *. split_and!.
    + destruct (Z.ltb_spec (priority r) (priority l)), (Z.ltb_spec (priority l) (priority r));
        unfold Z.b2z; Z.to_euclidean_division_equations; lia.
    + destruct (Z.ltb_spec (priority r) (priority l)); unfold Z.b2z; lia.
    + destruct (Z.ltb_spec (priority r) (priority l)); unfold Z.b2z; lia.
    + intros l' r' Hl' Hr' H. rewrite pair_priority_exact by done.
      destruct (Z.ltb_spec (priority r) (priority l)), (Z.ltb_spec (priority r') (priority l')); unfold Z.b2z; lia.
Qed.

(** C18: connectivity checks select the best working pair.  The pairs are
    ranked by decreasing priority; the checks succeed exactly when some pair of
    two host candidates answers, and then the selected pair is the first such
    one in the ranking, marked Succeeded, every host pair before it Failed, and
    the pairs after it untouched; otherwise nothing is selected. *)
Theorem ice_selection traffic a :
  candidate_pairs a <> [] ->
  let '(r, a') := start_connectivity_checks true traffic a in
  exists ranked, ranked ≡ₚ candidate_pairs a /\ StronglySorted better ranked /\
  local_candidates a' = local_candidates a /\ remote_candidates a' = remote_candidates a /\
  ((r = Ok tt /\ exists i p, ranked !! i = Some p /\ reachable traffic i p = true /\
      (forall j q, (j < i)%nat -> ranked !! j = Some q -> reachable traffic j q = false) /\
      selected_pair a' = Some (with_state Succeeded p) /\
      candidate_pairs a' = map tried (take i ranked) ++ with_state Succeeded p :: drop (S i) ranked) \/
   (r = Err NoSelectedPair /\ (forall j q, ranked !! j = Some q -> reachable traffic j q = false) /\
      selected_pair a' = selected_pair a /\ candidate_pairs a' = map tried ranked)).
Proof.
  intros Hne. unfold start_connectivity_checks. destruct (candidate_pairs a) as [|p0 ps] eqn:Ep; [done|]. rewrite <-Ep.
  cbn [negb local_candidates remote_candidates].
  destruct (check_pairs traffic 0 (sort_pairs (candidate_pairs a))) as [out sel] eqn:Ec.
  apply check_pairs_spec in Ec. destruct sel as [j|].
  - destruct Ec as (i & p & -> & Hp & Hr & -> & Hb). exists (sort_pairs (candidate_pairs a)).
    split_and!; [apply sort_pairs_perm|apply sort_pairs_sorted|done|done|]. left. split; [done|].
    exists i, p. split_and!; try done. cbn [selected_pair]. rewrite lookup_app_r; rewrite length_map, length_take.
    + apply lookup_lt_Some in Hp. by rewrite Nat.min_l, Nat.sub_diag by lia.
    + simpl. lia.
  - destruct Ec as [-> Hall]. exists (sort_pairs (candidate_pairs a)).
    split_and!; [apply sort_pairs_perm|apply sort_pairs_sorted|done|done|]. by right.
Qed.

(** A pair is validated exactly when a PONG arrives in time from an
    address whose text occurs anywhere inside the target; in particular a host
    whose address is a piece of the target's can answer for it. *)
Lemma probe_spec target turns :
  ((verify_candidate_pair target turns).1 = true <->
   exists src, Received PONG src ∈ turns /\ contains src target = true) /\
  (verify_candidate_pair (lit "110.0.0.51:4000") [RecvError; Received PONG (lit "10.0.0.5")]).1 = true.
Proof.
  split; [|reflexivity]. rewrite verify_iff, existsb_exists. split.
  - intros (t & Ht & Hp). destruct t as [|msg src|]; try done. apply andb_true_iff in Hp as [Hc ->%str_eqb_spec].
    exists src. split; [by apply list_elem_of_In|done].
  - intros (src & Hin & Hc). exists (Received PONG src). split; [by apply list_elem_of_In|]. simpl. by rewrite Hc.
Qed.

(** * Witnesses *)

Definition cand (t : CandidateType) (addr : string) (pr : Z) : Candidate :=
  mk_candidate t pr (lit addr) 4000 1 (lit "1") (lit "UDP").

(** Two remote hosts, of which only the worse one answers. *)
Definition toy_agent : IceAgent :=
  snd (add_remote_candidates [cand Host "10.0.0.2" 900; cand Host "10.0.0.3" 800]
    (mk_agent [cand Host "10.0.0.1" 1000; cand ServerReflexive "1.2.3.4" 7] [] [] None)).
Definition toy_traffic (i : nat) : list turn := [RecvError; Received PONG (lit "10.0.0.3")].

Lemma ice_selection_witness :
  candidate_pairs toy_agent <> [] /\
  (exists a', start_connectivity_checks true toy_traffic toy_agent = (Ok tt, a') /\
   option_map (fun p => address (remote p)) (selected_pair a') = Some (lit "10.0.0.3")).
Proof.
  split; [done|]. pose proof (ice_selection toy_traffic toy_agent) as H.
  destruct (start_connectivity_checks true toy_traffic toy_agent) as [r a'] eqn:E. exists a'.
  destruct H as (rk & _ & _ & _ & _ & H); [done|].
  vm_compute in E. injection E as <- <-. destruct H as [_|[? _]]; [|done]. by split.
Defined.
