(* ===== verification/Stun.v ===== *)
(** The STUN client (src/session/ice/stun_client.rs): the retry loop of
    [get_public_ip_and_port] and the response parser.  The socket and name
    resolution outcomes are arguments; logging is left out.  The attribute loop
    runs on fuel, whose end is [None].  Error strings the
    code takes from the operating system are a parameter. *)

From S2P Require Import Prelude.
From S2P Require Import Text.

(** * Definitions *)

Definition u16_at (data : bytes) (i : nat) : comp Z :=
  let! a := Prelude.index data i in
  let! b := Prelude.index data (i + 1) in
  Ret (from_be [a; b]).

Definition dotted (a b c d : Z) : str :=
  show a ++ lit "." ++ show b ++ lit "." ++ show c ++ lit "." ++ show d.

(** The body of [if attr_type == 0x0020 ..]: the address, when the value holds an
    IPv4 one. *)
Definition mapped_address (val : bytes) : comp (option str) :=
  if (8 <=? List.length val)%nat then
    let! family := Prelude.index val 1 in
    if family =? 1 then
      let! v2 := Prelude.index val 2 in let! v3 := Prelude.index val 3 in
      let! v4 := Prelude.index val 4 in let! v5 := Prelude.index val 5 in
      let! v6 := Prelude.index val 6 in let! v7 := Prelude.index val 7 in
      let port := from_be [Z.lxor v2 33; Z.lxor v3 18] in
      let ip := dotted (Z.lxor v4 33) (Z.lxor v5 18) (Z.lxor v6 164) (Z.lxor v7 66) in
      Ret (Some (ip ++ lit ":" ++ show port))
    else Ret None
  else Ret None.

(** One turn of the attribute loop; [continue] is the rest of the loop. *)
Definition attribute_turn (data : bytes) (msg_len : nat) (continue : nat -> option (comp (option str))) (pos : nat) :
    option (comp (option str)) :=
  if (pos <? 20 + msg_len)%nat && (pos + 4 <=? List.length data)%nat then
    let!! attr_type := Some (u16_at data pos) in
    let!! attr_len := Some (u16_at data (pos + 2)) in
    let attr_len := Z.to_nat attr_len in
    let pos := (pos + 4)%nat in
    let!! found :=
      Some (if (attr_type =? 32) && (pos + attr_len <=? List.length data)%nat then
        let! val := slice pos (pos + attr_len) data in
        mapped_address val
      else Ret None) in
    match found with
    | Some a => Some (Ret (Some a))
    | None =>
        let padding := ((4 - attr_len mod 4) mod 4)%nat in
        continue (pos + attr_len + padding)%nat
    end
  else Some (Ret None).

(** The loop, of at most [fuel] turns; [None]: more are needed. *)
Fixpoint attributes (fuel : nat) (data : bytes) (msg_len pos : nat) : option (comp (option str)) :=
  match fuel with
  | O => None
  | S fuel => attribute_turn data msg_len (attributes fuel data msg_len) pos
  end.

(** Every turn moves forward by at least four bytes, so the length of the data is
    enough fuel. *)
Definition parse_stun_response (data : bytes) : option (comp (result str str)) :=
  if (List.length data <? 20)%nat then Some (Ret (Err (lit "Invalid STUN response (too short)"))) else
  let!! cookie := Some (slice 4 8 data) in
  if negb (bool_decide (cookie = [33; 18; 164; 66])) then
    Some (Ret (Err (lit "Invalid STUN response: Magic Cookie mismatch")))
  else
    let!! msg_len := Some (u16_at data 2) in
    let!! found := attributes (List.length data) data (Z.to_nat msg_len) 20 in
    match found with
    | Some a => Some (Ret (Ok a))
    | None => Some (Ret (Err (lit "XOR-MAPPED-ADDRESS (public IP) attribute not found in response")))
    end.

(** One attempt: sending fails, nothing arrives in time, or a datagram does. *)
Inductive attempt : Type := SendFailed | NoReply | Reply (data : bytes).

Fixpoint try_server (l : list attempt) : option (comp (result str str)) :=
  match l with
  | [] => Some (Ret (Err (lit "STUN Timeout: No response received from server")))
  | SendFailed :: l => try_server l
  | NoReply :: l => try_server l
  | Reply data :: _ => parse_stun_response data
  end.

(** [timeout]: the outcome of [set_read_timeout]; [resolved]: the addresses of
    the server, each IPv4 or not; three attempts are made, each sending
    [request]. *)
Definition get_public_ip_and_port (timeout : result unit str) (resolved : result (list bool) str)
    (attempts : list attempt) : option (comp (result str str)) :=
  match timeout with
  | Err e => Some (Ret (Err e))
  | Ok _ =>
      match resolved with
      | Err e => Some (Ret (Err e))
      | Ok addrs =>
          if existsb id addrs then try_server (take 3 attempts)
          else Some (Ret (Err (lit "DNS Error: No IPv4 address found for STUN server")))
      end
  end.

(** The request: header, and twelve random bytes. *)
Definition request (transaction : bytes) : bytes := [0; 1; 0; 0; 33; 18; 164; 66] ++ transaction.

(** * Specification: the encoding of a response (RFC 5389) *)

Definition padding (n : nat) : nat := ((4 - n mod 4) mod 4)%nat.

(** A type-length-value attribute, padded to four bytes. *)
Definition attribute (t : Z) (v : bytes) : bytes :=
  to_be 2 t ++ to_be 2 (Z.of_nat (List.length v)) ++ v ++ replicate (padding (List.length v)) 0.

(** XOR-MAPPED-ADDRESS of an IPv4 address. *)
Definition xor_mapped (a b c d p : Z) : bytes :=
  [0; 1; Z.lxor (p / 256) 33; Z.lxor (p mod 256) 18; Z.lxor a 33; Z.lxor b 18; Z.lxor c 164; Z.lxor d 66].

(** A response: the header, the attributes, and what follows. *)
Definition message (msg_len : Z) (transaction : bytes) (attrs : list (Z * bytes)) (rest : bytes) : bytes :=
  [1; 1] ++ to_be 2 msg_len ++ [33; 18; 164; 66] ++ transaction ++
  List.concat (map (fun e => attribute e.1 e.2) attrs) ++ rest.

Definition response (msg_len : Z) (transaction : bytes) (attrs : list (Z * bytes)) (a b c d p : Z) (rest : bytes) : bytes :=
  message msg_len transaction attrs (attribute 32 (xor_mapped a b c d p) ++ rest).

(** An attribute that holds no IPv4 address for the parser: one of another type,
    or an XOR-MAPPED-ADDRESS that is too short or of another family. *)
Definition skipped (e : Z * bytes) : Prop :=
  fits 16 e.1 /\ fits 16 (Z.of_nat (List.length e.2)) /\
  (e.1 = 32 -> (List.length e.2 < 8)%nat \/ e.2 !! 1%nat <> Some 1).

Definition attributes_length (attrs : list (Z * bytes)) : Z :=
  Z.of_nat (List.length (List.concat (map (fun e => attribute e.1 e.2) attrs))).

(** * Lemmas *)

Lemma u16_at_ok data i : Forall is_byte data -> (i + 2 <= List.length data)%nat -> exists z, u16_at data i = Ret z /\ fits 16 z.
Proof.
  intros Hb Hi. unfold u16_at. destruct (index_ok data i) as (a & -> & Ha); [lia|].
  destruct (index_ok data (i + 1)) as (b & -> & Hb'); [lia|]. eexists. split; [reflexivity|].
  apply (from_be_fits [a; b]). rewrite Forall_lookup in Hb. repeat constructor; by eapply Hb.
Qed.

Lemma u16_at_app pre z rest : fits 16 z -> u16_at (pre ++ to_be 2 z ++ rest) (List.length pre) = Ret z.
Proof.
  intros Hz. unfold u16_at, Prelude.index. rewrite !(lookup_app_r pre) by lia.
  replace (List.length pre - List.length pre)%nat with 0%nat by lia. cbn [cbind].
  replace (List.length pre + 1 - List.length pre)%nat with 1%nat by lia.
  change (Ret (from_be (to_be 2 z)) = Ret z). by rewrite from_to_be_id.
Qed.

Lemma mapped_address_ok val : exists r, mapped_address val = Ret r.
Proof.
  unfold mapped_address. case_bool; [|by eexists].
  do 8 (destruct val as [|? val]; [simpl in *; lia|]). unfold Prelude.index. cbn [lookup list_lookup cbind].
  case_bool; cbn [cbind]; by eexists.
Qed.

Lemma mapped_address_skipped e : skipped e -> e.1 = 32 -> mapped_address e.2 = Ret None.
Proof.
  intros (_ & _ & H) He. specialize (H He). unfold mapped_address. case_bool; [|done].
  unfold Prelude.index. destruct (e.2 !! 1%nat) as [f|] eqn:E; [|apply lookup_ge_None in E; lia].
  cbn [cbind]. case_bool; [|done]. destruct H as [H|H]; [lia|]. subst. done.
Qed.

(** The loop never leaves the data, and takes at most one turn for each four
    bytes after [pos], and one test more. *)
Lemma attributes_ok turns data m pos :
  Forall is_byte data -> (List.length data < pos + 4 + 4 * turns)%nat ->
  exists r, attributes (S turns) data m pos = Some (Ret r).
Proof.
  intros Hb. revert pos. induction turns as [|turns IH]; intros pos Hl; cbn [attributes]; unfold attribute_turn.
  { rewrite (proj2 (Nat.leb_gt (pos + 4) _)) by lia. rewrite andb_false_r. by eexists. }
  destruct (pos <? 20 + m)%nat; [|by eexists]. destruct (Nat.leb_spec (pos + 4) (List.length data)); [|by eexists]. cbn [andb].
  destruct (u16_at_ok data pos Hb) as (t & -> & _); [lia|].
  destruct (u16_at_ok data (pos + 2) Hb) as (n & -> & _); [lia|]. cbn [ocbind].
  change (attribute_turn data m (attributes turns data m)) with (attributes (S turns) data m).
  destruct ((t =? 32) && (pos + 4 + Z.to_nat n <=? List.length data)%nat) eqn:E; [|cbn [ocbind]; apply IH; lia].
  apply andb_true_iff in E as [_ Hn%Nat.leb_le]. rewrite slice_ok by lia. cbn [cbind].
  match goal with |- context [mapped_address ?v] => destruct (mapped_address_ok v) as [[r|] ->] end; cbn [ocbind];
    [by eexists|apply IH; lia].
Qed.

(** More fuel gives the same result. *)
Lemma attributes_more fuel more data m pos r :
  attributes fuel data m pos = Some r -> attributes (fuel + more) data m pos = Some r.
Proof.
  revert pos. induction fuel as [|fuel IH]; intros pos; [done|]. cbn [attributes Nat.add]. unfold attribute_turn.
  destruct (_ && _); [|done]. destruct (u16_at data pos) as [t|]; [|done]. destruct (u16_at data (pos + 2)) as [l|]; [|done].
  cbn [ocbind]. destruct (if _ && _ then _ else _) as [[a|]|]; try done. apply IH.
Qed.

Lemma length_attribute t v : List.length (attribute t v) = (4 + List.length v + padding (List.length v))%nat.
Proof. unfold attribute. rewrite !length_app, !length_to_be, length_replicate. lia. Qed.

Lemma u16_at_mid pre x z rest i :
  fits 16 z -> i = (List.length pre + List.length x)%nat -> u16_at (pre ++ x ++ to_be 2 z ++ rest) i = Ret z.
Proof. intros Hz ->. rewrite app_assoc, <-length_app. by apply u16_at_app. Qed.

(** One turn over an attribute without an address skips it. *)
Lemma skip_attribute fuel pre e rest m :
  skipped e -> (List.length pre < 20 + m)%nat ->
  attributes (S fuel) (pre ++ attribute e.1 e.2 ++ rest) m (List.length pre) =
  attributes fuel (pre ++ attribute e.1 e.2 ++ rest) m (List.length (pre ++ attribute e.1 e.2)).
Proof.
  intros Hs Hm. destruct (Hs) as (Ht & Hl & _). cbn [attributes]. unfold attribute_turn. rewrite (proj2 (Nat.ltb_lt _ _)) by done.
  rewrite (proj2 (Nat.leb_le _ _)) by (rewrite !length_app, length_attribute; lia). cbn [andb].
  assert (E1 : u16_at (pre ++ attribute e.1 e.2 ++ rest) (List.length pre) = Ret e.1).
  { unfold attribute. rewrite <-!app_assoc. by apply u16_at_app. }
  assert (E2 : u16_at (pre ++ attribute e.1 e.2 ++ rest) (List.length pre + 2) = Ret (Z.of_nat (List.length e.2))).
  { unfold attribute. rewrite <-!app_assoc. apply u16_at_mid; [done|]. by rewrite length_to_be. }
  rewrite E1, E2. cbn [ocbind]. rewrite Nat2Z.id.
  rewrite (proj2 (Nat.leb_le _ _)) by (rewrite !length_app, length_attribute; lia). rewrite andb_true_r.
  assert (E3 : (if e.1 =? 32 then
      let! val := slice (List.length pre + 4) (List.length pre + 4 + List.length e.2) (pre ++ attribute e.1 e.2 ++ rest) in
      mapped_address val
    else Ret None) = Ret None).
  { destruct (Z.eqb_spec e.1 32) as [He|]; [|done]. unfold attribute. rewrite <-!app_assoc. rewrite slice_skip by lia.
    rewrite slice_skip by (rewrite length_to_be; lia). rewrite slice_skip by (rewrite !length_to_be; lia).
    rewrite slice_prefix by (rewrite !length_to_be; lia). by apply mapped_address_skipped. }
  rewrite E3. cbn [ocbind]. f_equal. rewrite length_app, length_attribute. unfold padding. lia.
Qed.

Lemma lxor_cancel a b : Z.lxor (Z.lxor a b) b = a.
Proof. by rewrite Z.lxor_assoc, Z.lxor_nilpotent, Z.lxor_0_r. Qed.

Lemma mapped_xor a b c d p :
  fits 16 p -> mapped_address (xor_mapped a b c d p) = Ret (Some (dotted a b c d ++ lit ":" ++ show p)).
Proof.
  intros Hp. unfold mapped_address, xor_mapped. cbn -[show lit Z.lxor dotted]. rewrite !lxor_cancel.
  do 4 f_equal. replace ((0 * 256 + p / 256) * 256 + p mod 256) with p; [done|].
  Z.to_euclidean_division_equations. lia.
Qed.

(** The turn that meets the address returns it. *)
Lemma take_attribute fuel pre a b c d p rest m :
  fits 16 p -> (List.length pre < 20 + m)%nat ->
  attributes (S fuel) (pre ++ attribute 32 (xor_mapped a b c d p) ++ rest) m (List.length pre) =
  Some (Ret (Some (dotted a b c d ++ lit ":" ++ show p))).
Proof.
  intros Hp Hm. cbn [attributes]. unfold attribute_turn. rewrite (proj2 (Nat.ltb_lt _ _)) by done.
  rewrite (proj2 (Nat.leb_le _ _)) by (rewrite !length_app, length_attribute; lia). cbn [andb].
  unfold attribute. rewrite <-!app_assoc. rewrite u16_at_app by (unfold fits; lia).
  rewrite u16_at_mid by (by unfold fits; rewrite ?length_to_be; simpl; lia). cbn [ocbind].
  change (Z.to_nat (Z.of_nat (List.length (xor_mapped a b c d p)))) with 8%nat. change (32 =? 32) with true.
  rewrite (proj2 (Nat.leb_le _ _)) by (rewrite !length_app, !length_to_be; simpl; lia). cbn [andb].
  rewrite slice_skip by lia. rewrite slice_skip by (rewrite length_to_be; lia).
  rewrite slice_skip by (rewrite !length_to_be; lia). rewrite slice_prefix by (rewrite !length_to_be; simpl; lia).
  cbn [cbind]. by rewrite mapped_xor.
Qed.

(** The attributes without an address are skipped, whatever follows. *)
Lemma scan_skipped fuel pre attrs rest m :
  Forall skipped attrs ->
  (List.length pre + List.length (List.concat (map (fun e => attribute e.1 e.2) attrs)) <= 20 + m)%nat ->
  attributes (List.length attrs + fuel) (pre ++ List.concat (map (fun e => attribute e.1 e.2) attrs) ++ rest) m (List.length pre) =
  attributes fuel ((pre ++ List.concat (map (fun e => attribute e.1 e.2) attrs)) ++ rest) m
    (List.length (pre ++ List.concat (map (fun e => attribute e.1 e.2) attrs))).
Proof.
  intros Ha. revert pre. induction Ha as [|e attrs He Ha IH]; intros pre Hm; cbn [map List.concat].
  - by rewrite app_nil_r.
  - cbn [map List.concat] in Hm. rewrite length_app, length_attribute in Hm. cbn [List.length Nat.add].
    rewrite <-!app_assoc, skip_attribute by (done || lia). rewrite (app_assoc pre). rewrite IH by (rewrite length_app, length_attribute; lia).
    by rewrite <-!app_assoc.
Qed.

Lemma length_attrs attrs : (List.length attrs <= List.length (List.concat (map (fun e => attribute e.1 e.2) attrs)))%nat.
Proof. induction attrs as [|e attrs IH]; [done|]. cbn [map List.concat]. rewrite length_app, length_attribute. simpl. lia. Qed.

(** The parser's checks of the header pass; what is left is the loop. *)
Lemma parse_message msg_len transaction attrs rest :
  List.length transaction = 12%nat -> Forall skipped attrs -> fits 16 msg_len -> attributes_length attrs <= msg_len ->
  parse_stun_response (message msg_len transaction attrs rest) =
  (let head := [1; 1] ++ to_be 2 msg_len ++ [33; 18; 164; 66] ++ transaction in
   let pre := head ++ List.concat (map (fun e => attribute e.1 e.2) attrs) in
   let!! found := attributes (20 + List.length (List.concat (map (fun e => attribute e.1 e.2) attrs)) - List.length attrs + List.length rest)
     (pre ++ rest) (Z.to_nat msg_len) (List.length pre) in
   match found with
   | Some a => Some (Ret (Ok a))
   | None => Some (Ret (Err (lit "XOR-MAPPED-ADDRESS (public IP) attribute not found in response")))
   end).
Proof.
  intros Ht Ha Hm Hl. unfold attributes_length in Hl. pose proof (length_attrs attrs) as Hn. unfold parse_stun_response, message.
  set (mid := List.concat (map (fun e => attribute e.1 e.2) attrs)) in *. cbv zeta.
  set (head := [1; 1] ++ to_be 2 msg_len ++ [33; 18; 164; 66] ++ transaction).
  assert (Hhead : List.length head = 20%nat) by (unfold head; rewrite !length_app, length_to_be, Ht; done).
  assert (E : [1; 1] ++ to_be 2 msg_len ++ [33; 18; 164; 66] ++ transaction ++ mid ++ rest = head ++ mid ++ rest)
    by (unfold head; by rewrite <-!app_assoc).
  rewrite (proj2 (Nat.ltb_ge _ _)) by (rewrite E, !length_app; lia).
  rewrite slice_skip by (simpl; lia). rewrite slice_skip by (rewrite length_to_be; simpl; lia).
  rewrite slice_prefix by (rewrite ?length_to_be; simpl; lia). cbn [ocbind]. rewrite bool_decide_true by done. cbn [negb].
  rewrite (u16_at_app [1; 1]) by done. cbn [ocbind]. rewrite E, <-Hhead.
  replace (List.length (head ++ mid ++ rest)) with
    (List.length attrs + (List.length head + List.length mid - List.length attrs + List.length rest))%nat
    by (rewrite !length_app; lia).
  unfold mid at 2. rewrite scan_skipped; [done|done|]. fold mid. lia.
Qed.

(** * Properties *)

(** C20: the STUN response parser returns on every datagram, and finds the
    address.  Its loop ends after at most one turn for each four bytes behind the
    header (and the last test), without an out-of-range access, whatever the
    lengths in the attributes: with that many turns of fuel, or more, it has a
    result, and always the same one.  On a message whose attributes hold no IPv4
    address (of other types, too short, or an IPv6 XOR-MAPPED-ADDRESS) and end
    where the header says, the answer is that there is none; and on a response of
    RFC 5389 the first XOR-MAPPED-ADDRESS of IPv4 is decoded to the exact address
    and port, whatever such attributes precede it and whatever follows. *)
Theorem stun_response :
  (forall data, Forall is_byte data ->
     (exists r, parse_stun_response data = Some (Ret r)) /\
     forall turns m, (List.length data < 24 + 4 * turns)%nat ->
       exists r, forall more, attributes (S turns + more) data m 20 = Some (Ret r)) /\
  (forall transaction attrs rest,
     List.length transaction = 12%nat -> Forall skipped attrs -> fits 16 (attributes_length attrs) ->
     parse_stun_response (message (attributes_length attrs) transaction attrs rest) =
     Some (Ret (Err (lit "XOR-MAPPED-ADDRESS (public IP) attribute not found in response")))) /\
  (forall msg_len transaction attrs a b c d p rest,
     List.length transaction = 12%nat -> Forall skipped attrs -> fits 16 p -> fits 16 msg_len ->
     attributes_length attrs < msg_len ->
     parse_stun_response (response msg_len transaction attrs a b c d p rest) =
     Some (Ret (Ok (dotted a b c d ++ lit ":" ++ show p)))).
Proof.
  split_and!.
  - intros data Hb. split.
    + unfold parse_stun_response. destruct (Nat.ltb_spec (List.length data) 20) as [|H20]; [by eexists|].
      rewrite slice_ok by lia. cbn [ocbind].
      case_bool_decide; [|by eexists]. cbn [negb]. destruct (u16_at_ok data 2 Hb) as (n & -> & _); [lia|]. cbn [ocbind].
      destruct (attributes_ok (pred (List.length data)) data (Z.to_nat n) 20 Hb) as [r Hr]; [lia|].
      replace (S (pred (List.length data))) with (List.length data) in Hr by lia. rewrite Hr. destruct r; by eexists.
    + intros turns m Hl. destruct (attributes_ok turns data m 20 Hb) as [r Hr]; [lia|]. exists r. intros more. by apply attributes_more.
  - intros tr attrs rest Ht Ha Hm. rewrite parse_message by (done || lia). cbv zeta.
    pose proof (length_attrs attrs). destruct (_ - _ + _)%nat as [|fuel] eqn:Ef; [lia|]. cbn [attributes]. unfold attribute_turn.
    rewrite (proj2 (Nat.ltb_ge _ _)); [done|]. unfold attributes_length. rewrite !length_app, length_to_be, Ht. simpl. lia.
  - intros msg_len tr attrs a b c d p rest Ht Ha Hp Hm Hl. unfold response. rewrite parse_message by (done || lia). cbv zeta.
    pose proof (length_attrs attrs). destruct (_ - _ + _)%nat as [|fuel] eqn:Ef; [lia|].
    rewrite take_attribute; [done|done|]. unfold attributes_length in Hl. rewrite !length_app, length_to_be, Ht. simpl. lia.
Qed.

(** * Witnesses *)

(** An IPv6 address and another attribute before the IPv4 address. *)
Lemma stun_response_witness :
  parse_stun_response (response 48 (replicate 12 7) [(32, [0; 2; 1; 1; 5; 5; 5; 5; 5; 5]); (32802, [1; 2; 3; 4; 5])]
    192 168 1 50 12345 []) = Some (Ret (Ok (lit "192.168.1.50:12345"))).
Proof.
  refine (proj2 (proj2 stun_response) 48 (replicate 12 7) [(32, [0; 2; 1; 1; 5; 5; 5; 5; 5; 5]); (32802, [1; 2; 3; 4; 5])]
    192 168 1 50 12345 [] _ _ _ _ _);
    first [reflexivity | split; vm_compute; congruence | idtac].
  repeat (apply Forall_cons_2; [split_and!; [split; vm_compute; congruence|split; vm_compute; congruence|]|]); [by right|done|constructor].
Defined.
