(* ===== verification/SdpAttribute.v ===== *)
(** Attributes of session descriptions (src/session/sdp/attribute.rs, error.rs):
    roles, fingerprints and the [a=] lines with their Display and FromStr, the
    lemmas that carry the round trip of a line, and what the parser accepts. *)

From S2P Require Import Prelude.
From S2P Require Import Text.
From S2P Require Import Wire.
From S2P Require Import Config.
From S2P Require Import Ice.

(** * Definitions *)

Inductive SdpError : Type :=
| InvalidPriorityError | InvalidPortError | InvalidComponentIdError | InvalidLineFormatError
| InvalidCandidateFormatError | InvalidAttributeFormatError | InvalidCandidateTypeError
| InvalidRtpMapFormatError | MissingEncodingNameError | MissingClockRateError
| InvalidClockRateParsingError | ExtraRtpFieldsError | InvalidCandidateParsingError
| MissingFingerprintValueError | InvalidFingerprintFormatError | InvalidSetupRoleError
| MissingMediaDescriptionError | InvalidMediaDescriptionFormatError
| InvalidMediaDescriptionAttributeFormat | InvalidFmtError | UnmatchingMediaDescriptionAndAttributeError.

Definition show_error (e : SdpError) : str :=
  match e with
  | InvalidPriorityError => quoted "Invalid priority"
  | InvalidPortError => quoted "Invalid port number"
  | InvalidComponentIdError => quoted "Invalid component id"
  | InvalidLineFormatError => quoted "Invalid line format"
  | InvalidCandidateFormatError => quoted "Invalid candidate format"
  | InvalidAttributeFormatError => quoted "Invalid attribute format"
  | InvalidCandidateTypeError => quoted "Invalid candidate type"
  | InvalidRtpMapFormatError => quoted "Invalid RTP map format"
  | MissingEncodingNameError => quoted "Missing encoding name"
  | MissingClockRateError => quoted "Missing clock rate"
  | InvalidClockRateParsingError => quoted "Invalid clock rate parsing error"
  | ExtraRtpFieldsError => quoted "Extra RTP fields"
  | InvalidCandidateParsingError => quoted "Invalid Candidate parsing error"
  | MissingFingerprintValueError => quoted "Missing fingerprint value"
  | InvalidFingerprintFormatError => quoted "Invalid fingerprint format"
  | InvalidSetupRoleError => quoted "Invalid setup role"
  | MissingMediaDescriptionError => quoted "Missing media description"
  | InvalidMediaDescriptionFormatError => quoted "Invalid media description"
  | InvalidMediaDescriptionAttributeFormat => quoted "Invalid media description attribute format"
  | InvalidFmtError => quoted "Invalid fmt error"
  | UnmatchingMediaDescriptionAndAttributeError => quoted "Unmatching media description and attribute"
  end.

(** ** Attributes *)

Inductive DtlsSetupRole : Type := ActPass | Active | Passive | HoldConn.

#[global] Instance DtlsSetupRole_eq_dec : EqDecision DtlsSetupRole.
Proof. solve_decision. Defined.

Definition show_role (r : DtlsSetupRole) : str :=
  match r with
  | ActPass => lit "actpass" | Active => lit "active" | Passive => lit "passive" | HoldConn => lit "holdconn"
  end.

Definition role_from_str (s : str) : result DtlsSetupRole SdpError :=
  let k := to_ascii_lowercase (trim s) in
  if str_eqb k (lit "actpass") then Ok ActPass
  else if str_eqb k (lit "active") then Ok Active
  else if str_eqb k (lit "passive") then Ok Passive
  else if str_eqb k (lit "holdconn") then Ok HoldConn
  else Err InvalidSetupRoleError.

Record Fingerprint := mk_fingerprint {
  algorithm : str;
  fp_bytes : bytes
}.

Fixpoint parse_hash_parts (parts : list str) : result bytes SdpError :=
  match parts with
  | [] => Ok []
  | part :: parts =>
      let cleaned := trim part in
      match cleaned with
      | [] => Err InvalidFingerprintFormatError
      | _ =>
          let? byte := ok_or (parse_radix 16 8 cleaned) InvalidFingerprintFormatError in
          let? rest := parse_hash_parts parts in
          Ok (byte :: rest)
      end
  end.

Definition from_hash_string (alg hash : str) : result Fingerprint SdpError :=
  let trimmed_hash := trim hash in
  match trimmed_hash with
  | [] => Err MissingFingerprintValueError
  | _ =>
      let? parsed := parse_hash_parts (split (c! ":") trimmed_hash) in
      match parsed with
      | [] => Err MissingFingerprintValueError
      | _ => Ok (mk_fingerprint alg parsed)
      end
  end.

(** [{b:02X}] *)
Definition hex_digit (n : Z) : Z := if n <? 10 then 48 + n else 55 + n.
Definition hex_byte (b : Z) : str := [hex_digit (b / 16); hex_digit (b mod 16)].
Definition hex_value (f : Fingerprint) : str := join (lit ":") (map hex_byte (fp_bytes f)).

Inductive Attribute : Type :=
| CandidateAttr (c : Candidate)
| RTPMap (fmt : Z) (enc_name : str) (rate : Z) (encoding_params : option str)
| FingerprintAttr (f : Fingerprint)
| Setup (role : DtlsSetupRole).

Definition show_attribute (a : Attribute) : str :=
  match a with
  | CandidateAttr c =>
      lit "a=candidate:" ++ Ice.foundation c ++ lit " " ++ show (Ice.component_id c) ++ lit " " ++
      Ice.transport c ++ lit " " ++ show (priority c) ++ lit " " ++ address c ++ lit " " ++ show (Ice.port c) ++
      lit " typ " ++ show_type (candidate_type c)
  | RTPMap fmt enc_name rate (Some params) =>
      lit "a=rtpmap:" ++ show fmt ++ lit " " ++ enc_name ++ lit "/" ++ show rate ++ lit "/" ++ params
  | RTPMap fmt enc_name rate None =>
      lit "a=rtpmap:" ++ show fmt ++ lit " " ++ enc_name ++ lit "/" ++ show rate
  | FingerprintAttr f => lit "a=fingerprint:" ++ algorithm f ++ lit " " ++ hex_value f
  | Setup role => lit "a=setup:" ++ show_role role
  end.

Definition parse_rptmap_attr_values (values : str) : result Attribute SdpError :=
  match split_whitespace values with
  | p0 :: p1 :: _ =>
      let? fmt := ok_or (parse_uint 8 p0) InvalidRtpMapFormatError in
      match split (c! "/") p1 with
      | [] => Err MissingEncodingNameError
      | [] :: _ => Err MissingEncodingNameError
      | encoding_name :: rest =>
          match rest with
          | [] => Err MissingClockRateError
          | rate :: rest =>
              let? rate := ok_or (parse_uint 32 rate) InvalidClockRateParsingError in
              match rest with
              | [] => Ok (RTPMap fmt encoding_name rate None)
              | [params] => Ok (RTPMap fmt encoding_name rate (Some params))
              | _ => Err ExtraRtpFieldsError
              end
          end
      end
  | _ => Err InvalidRtpMapFormatError
  end.

Definition parse_candidate_attr_values (values : str) : result Attribute SdpError :=
  match split_whitespace values with
  | p0 :: p1 :: p2 :: p3 :: p4 :: p5 :: p6 :: p7 :: _ =>
      if negb (str_eqb p6 (lit "typ")) then Err InvalidCandidateFormatError else
      let? ty := map_err (fun _ => InvalidCandidateTypeError) (type_from_str p7) in
      let? prio := ok_or (parse_uint 32 p3) InvalidPriorityError in
      let? port := ok_or (parse_uint 16 p5) InvalidPortError in
      let? comp := ok_or (parse_uint 8 p1) InvalidComponentIdError in
      Ok (CandidateAttr (mk_candidate ty prio p4 port comp p0 p2))
  | _ => Err InvalidLineFormatError
  end.

Definition parse_fingerprint_attr_values (values : str) : result Attribute SdpError :=
  let parts := split_whitespace values in
  let? alg := ok_or (head parts) InvalidAttributeFormatError in
  let? hash := ok_or (head (tail parts)) MissingFingerprintValueError in
  let? fingerprint := from_hash_string (trim alg) (trim hash) in
  Ok (FingerprintAttr fingerprint).

Definition parse_setup_attr_values (value : str) : result Attribute SdpError :=
  let? role := role_from_str (trim value) in
  Ok (Setup role).

Definition attribute_from_str (s : str) : result Attribute SdpError :=
  match split_once (c! ":") s with
  | Some (key, value) =>
      if str_eqb key (lit "candidate") then parse_candidate_attr_values value
      else if str_eqb key (lit "rtpmap") then parse_rptmap_attr_values value
      else if str_eqb key (lit "fingerprint") then parse_fingerprint_attr_values value
      else if str_eqb key (lit "setup") then parse_setup_attr_values value
      else Err InvalidAttributeFormatError
  | None => Err InvalidAttributeFormatError
  end.

(** * Lemmas: attributes *)

(** What the format can carry: words where it writes words, numbers in range. *)
Definition wf_candidate (c : Candidate) : Prop :=
  is_word (Ice.foundation c) /\ is_word (Ice.transport c) /\ is_word (address c) /\
  fits 8 (Ice.component_id c) /\ fits 32 (priority c) /\ fits 16 (Ice.port c).

(** Text without white space or slash, possibly empty. *)
Definition piece (s : str) : Prop := Forall (fun c => is_ws c = false) s /\ c! "/" ∉ s.

Definition wf_attribute (a : Attribute) : Prop :=
  match a with
  | CandidateAttr c => wf_candidate c
  | RTPMap fmt name rate params =>
      fits 8 fmt /\ name <> [] /\ piece name /\ fits 32 rate /\
      match params with Some p => piece p | None => True end
  | FingerprintAttr f => is_word (algorithm f) /\ fp_bytes f <> [] /\ Forall is_byte (fp_bytes f)
  | Setup _ => True
  end.

(** The part of an attribute line after [a=]. *)
Definition attribute_body (a : Attribute) : str := drop 2 (show_attribute a).

Lemma show_attribute_body a : show_attribute a = lit "a=" ++ attribute_body a.
Proof. destruct a as [c|fmt name rate [p|]|f|r]; reflexivity. Qed.

Lemma split_once_key k s : c! ":" ∉ k -> split_once (c! ":") (k ++ lit ":" ++ s) = Some (k, s).
Proof. apply (split_once_app (c! ":") k s). Qed.

(** *** Hexadecimal *)

Definition hex_ok (b : Z) : bool :=
  bool_decide (parse_radix 16 8 (hex_byte b) = Some b) &&
  forallb (fun c => negb (is_ws c) && negb (c =? 58)) (hex_byte b).

Lemma hex_table : forallb hex_ok (seqZ 0 256) = true.
Proof. vm_compute. reflexivity. Qed.

Lemma hex_byte_spec b :
  is_byte b -> parse_radix 16 8 (hex_byte b) = Some b /\ Forall (fun c => is_ws c = false) (hex_byte b) /\
  c! ":" ∉ hex_byte b.
Proof.
  intros Hb. pose proof hex_table as H. rewrite forallb_forall in H.
  specialize (H b). rewrite <-list_elem_of_In, elem_of_seqZ in H.
  specialize (H ltac:(unfold is_byte, fits in Hb; lia)). apply andb_true_iff in H as [E%bool_decide_eq_true H].
  rewrite forallb_forall in H. split_and!; [done| |].
  - apply Forall_forall. intros c Hc%list_elem_of_In. apply H in Hc. apply andb_true_iff in Hc as [Hc _].
    by apply negb_true_iff in Hc.
  - intros Hc%list_elem_of_In. apply H in Hc. apply andb_true_iff in Hc as [_ Hc]. done.
Qed.

Lemma parse_hash_show bs : Forall is_byte bs -> parse_hash_parts (map hex_byte bs) = Ok bs.
Proof.
  induction 1 as [|b bs Hb Hbs IH]; [done|]. cbn [map parse_hash_parts].
  destruct (hex_byte_spec b Hb) as (E & Hw & _). rewrite word_trim by done.
  unfold hex_byte at 1. rewrite E. cbn [ok_or rbind]. by rewrite IH.
Qed.

Lemma hex_value_word f : Forall is_byte (fp_bytes f) -> fp_bytes f <> [] -> is_word (hex_value f).
Proof.
  unfold hex_value. intros H Hne. destruct (fp_bytes f) as [|b bs]; [done|]. clear Hne. split; [by destruct bs|].
  induction H as [|x l Hx Hl IH]; [constructor|]. destruct (hex_byte_spec x Hx) as (_ & Hw & _).
  destruct l as [|y l]; [done|]. cbn [map join]. apply Forall_app. split; [done|]. constructor; [done|exact IH].
Qed.

Lemma fingerprint_roundtrip f :
  Forall is_byte (fp_bytes f) -> fp_bytes f <> [] -> from_hash_string (algorithm f) (hex_value f) = Ok f.
Proof.
  intros Hb Hne. pose proof (hex_value_word f Hb Hne) as [Hv Hw]. unfold from_hash_string.
  rewrite word_trim by done. destruct (hex_value f) as [|v vs] eqn:Ev; [done|]. rewrite <-Ev. unfold hex_value.
  change (lit ":") with [c! ":"]. rewrite split_join.
  - rewrite parse_hash_show by done. cbn [rbind]. destruct f as [alg [|b bs]]; done.
  - destruct (fp_bytes f); done.
  - apply Forall_map. eapply Forall_impl; [exact Hb|]. intros b Hb'. by apply hex_byte_spec.
Qed.

Lemma parse_hash_parts_bytes l bs : parse_hash_parts l = Ok bs -> Forall is_byte bs.
Proof.
  revert bs. induction l as [|p l IH]; intros bs; cbn [parse_hash_parts]; [by intros [= <-]|].
  destruct (trim p) as [|x t]; [done|]. destruct (parse_radix 16 8 (x :: t)) as [b|] eqn:E; [|done]. cbn [ok_or rbind].
  destruct (parse_hash_parts l); [|done]. intros [= <-]. constructor; [|by apply IH].
  apply parse_radix_fits in E; [exact E|lia].
Qed.

(** *** Round trips *)

Lemma show_type_word t : is_word (show_type t) /\ type_from_str (show_type t) = Ok t.
Proof. by destruct t; (split; [split; [done|repeat constructor]|]). Qed.

Lemma candidate_roundtrip c : wf_candidate c -> attribute_from_str (attribute_body (CandidateAttr c)) = Ok (CandidateAttr c).
Proof.
  intros (Hf & Ht & Ha & Hc & Hp & Hport).
  assert (E : attribute_body (CandidateAttr c) = lit "candidate" ++ lit ":" ++
    join [32] [Ice.foundation c; show (Ice.component_id c); Ice.transport c; show (priority c); address c;
      show (Ice.port c); lit "typ"; show_type (candidate_type c)]) by reflexivity.
  rewrite E. unfold attribute_from_str. rewrite split_once_key by (by apply (bool_decide_unpack _)).
  change (str_eqb _ (lit "candidate")) with true. cbv iota. unfold parse_candidate_attr_values.
  destruct (show_type_word (candidate_type c)) as [Hty Ety].
  rewrite split_whitespace_join.
  2:{ repeat constructor; try apply Hf; try apply Ht; try apply Ha; try apply Hty; try done; apply show_word;
      unfold fits in *; lia. }
  change (str_eqb (lit "typ") (lit "typ")) with true. cbn [negb]. rewrite Ety. cbn [map_err rbind].
  rewrite !parse_show by done. by destruct c.
Qed.

Lemma rtpmap_text name rate params :
  name <> [] -> piece name -> fits 32 rate -> match params with Some p => piece p | None => True end ->
  let text := name ++ lit "/" ++ show rate ++ match params with Some p => lit "/" ++ p | None => [] end in
  is_word text /\ split (c! "/") text = name :: show rate :: match params with Some p => [p] | None => [] end.
Proof.
  intros Hne [Hw Hs] Hr Hp text. destruct (show_word rate) as [_ Hrw]; [apply Hr|].
  assert (Hrs : c! "/" ∉ show rate) by (apply show_no_char; [apply Hr|done]).
  split.
  - split; [by destruct name|]. unfold text. apply Forall_app. split; [done|]. constructor; [done|]. apply Forall_app. split; [done|].
    destruct params as [p|]; [|done]. constructor; [done|apply Hp].
  - unfold text. change (lit "/") with [c! "/"]. cbn [app]. rewrite (split_cons (c! "/") name) by done. f_equal.
    destruct params as [p|].
    + rewrite split_cons by done. by rewrite split_none by apply Hp.
    + by rewrite app_nil_r, split_none.
Qed.

Lemma rtpmap_roundtrip fmt name rate params :
  wf_attribute (RTPMap fmt name rate params) ->
  attribute_from_str (attribute_body (RTPMap fmt name rate params)) = Ok (RTPMap fmt name rate params).
Proof.
  intros (Hf & Hne & Hn & Hr & Hp).
  destruct (rtpmap_text name rate params Hne Hn Hr Hp) as [Hword Hsplit].
  set (text := name ++ lit "/" ++ show rate ++ match params with Some p => lit "/" ++ p | None => [] end) in *.
  assert (E : attribute_body (RTPMap fmt name rate params) = lit "rtpmap" ++ lit ":" ++ join [32] [show fmt; text]).
  { unfold text. destruct params; [reflexivity|]. by rewrite app_nil_r. }
  rewrite E. unfold attribute_from_str. rewrite split_once_key by (by apply (bool_decide_unpack _)).
  change (str_eqb (lit "rtpmap") (lit "candidate")) with false. change (str_eqb (lit "rtpmap") (lit "rtpmap")) with true.
  cbv iota. unfold parse_rptmap_attr_values. rewrite split_whitespace_join.
  2:{ repeat constructor; try apply Hword; apply show_word, Hf. }
  rewrite parse_show by done. cbn [ok_or rbind]. rewrite Hsplit. destruct name as [|x name]; [done|].
  rewrite parse_show by done. cbn [ok_or rbind]. by destruct params.
Qed.

Lemma fingerprint_attr_roundtrip f :
  wf_attribute (FingerprintAttr f) -> attribute_from_str (attribute_body (FingerprintAttr f)) = Ok (FingerprintAttr f).
Proof.
  intros (Ha & Hne & Hb). pose proof (hex_value_word f Hb Hne) as Hv.
  assert (E : attribute_body (FingerprintAttr f) = lit "fingerprint" ++ lit ":" ++ join [32] [algorithm f; hex_value f])
    by reflexivity.
  rewrite E. unfold attribute_from_str. rewrite split_once_key by (by apply (bool_decide_unpack _)).
  change (str_eqb (lit "fingerprint") (lit "candidate")) with false.
  change (str_eqb (lit "fingerprint") (lit "rtpmap")) with false.
  change (str_eqb (lit "fingerprint") (lit "fingerprint")) with true.
  cbv iota. unfold parse_fingerprint_attr_values. rewrite split_whitespace_join by (by repeat apply Forall_cons_2).
  cbn [head tail ok_or rbind]. rewrite !word_trim by (apply Ha || apply Hv). by rewrite fingerprint_roundtrip.
Qed.

Lemma attribute_roundtrip a : wf_attribute a -> attribute_from_str (attribute_body a) = Ok a.
Proof.
  destruct a as [c|fmt name rate params|f|r].
  - apply candidate_roundtrip.
  - apply rtpmap_roundtrip.
  - apply fingerprint_attr_roundtrip.
  - intros _. by destruct r.
Qed.

(** *** What the parser accepts *)

Lemma split_incl c s p x : p ∈ split c s -> x ∈ p -> x ∈ s.
Proof.
  revert p. induction s as [|y s IH]; intros p; cbn [split].
  - rewrite list_elem_of_singleton. by intros ->.
  - destruct (y =? c).
    + rewrite elem_of_cons. intros [->|Hp] Hx; [by apply elem_of_nil in Hx|]. apply elem_of_cons. right. by apply (IH p).
    + destruct (split c s) as [|q l] eqn:E.
      * rewrite list_elem_of_singleton. intros -> Hx. apply list_elem_of_singleton in Hx as ->. by left.
      * rewrite elem_of_cons. intros [->|Hp] Hx.
        -- apply elem_of_cons in Hx as [->|Hx]; apply elem_of_cons; [by left|right]. apply (IH q); [by left|done].
        -- apply elem_of_cons. right. apply (IH p); [by right|done].
Qed.

Lemma split_pieces s : is_word s -> Forall piece (split (c! "/") s).
Proof.
  intros [_ Hw]. destruct (split_spec (c! "/") s) as (_ & Hs & _). rewrite Forall_forall in Hs. rewrite Forall_forall in Hw.
  apply Forall_forall. intros p Hp. split; [|by apply Hs]. apply Forall_forall. intros x Hx. apply Hw. by eapply split_incl.
Qed.

Lemma candidate_parsed_wf s a : parse_candidate_attr_values s = Ok a -> wf_attribute a.
Proof.
  unfold parse_candidate_attr_values. pose proof (split_whitespace_words s) as Hw.
  destruct (split_whitespace s) as [|p0 [|p1 [|p2 [|p3 [|p4 [|p5 [|p6 [|p7 l]]]]]]]]; try done.
  destruct (str_eqb p6 _); [|done]. destruct (type_from_str p7) as [t|]; [|done]. cbn [negb map_err rbind].
  destruct (parse_uint 32 p3) eqn:E3; [|done]. destruct (parse_uint 16 p5) eqn:E5; [|done].
  destruct (parse_uint 8 p1) eqn:E1; [|done]. intros [= <-].
  rewrite !Forall_cons in Hw. destruct Hw as (H0 & _ & H2 & _ & H4 & _).
  apply parse_show_eq in E1, E3, E5. by unfold wf_attribute, wf_candidate.
Qed.

Lemma rtpmap_parsed_wf s a : parse_rptmap_attr_values s = Ok a -> wf_attribute a.
Proof.
  unfold parse_rptmap_attr_values. pose proof (split_whitespace_words s) as Hw.
  destruct (split_whitespace s) as [|p0 [|p1 l]]; try done. destruct (parse_uint 8 p0) as [f|] eqn:E0; [|done].
  cbn [ok_or rbind]. rewrite !Forall_cons in Hw. destruct Hw as (_ & H1 & _). apply split_pieces in H1.
  destruct (split (c! "/") p1) as [|[|x name] rest]; try done. destruct rest as [|rate rest]; [done|].
  destruct (parse_uint 32 rate) as [r|] eqn:Er; [|done]. cbn [ok_or rbind]. apply parse_show_eq in E0, Er.
  rewrite !Forall_cons in H1. destruct H1 as (Hn & _ & Hr).
  destruct rest as [|params [|extra rest]]; try done; intros [= <-]; unfold wf_attribute; [done|].
  apply Forall_cons in Hr as [Hr _]. done.
Qed.

Lemma fingerprint_parsed_wf s a : parse_fingerprint_attr_values s = Ok a -> wf_attribute a.
Proof.
  unfold parse_fingerprint_attr_values. pose proof (split_whitespace_words s) as Hw.
  destruct (split_whitespace s) as [|p0 [|p1 l]]; try done. cbn [head tail ok_or rbind].
  apply Forall_cons in Hw as [H0 _]. rewrite (word_trim p0) by apply H0. unfold from_hash_string.
  destruct (trim (trim p1)) as [|x t]; [done|]. destruct (parse_hash_parts _) as [bs|] eqn:E; [|done]. cbn [rbind].
  destruct bs as [|b bs]; [done|]. intros [= <-]. split_and!; [done|done|]. by eapply parse_hash_parts_bytes.
Qed.

Lemma attribute_parsed_wf s a : attribute_from_str s = Ok a -> wf_attribute a.
Proof.
  unfold attribute_from_str. destruct (split_once _ s) as [[k v]|]; [|done].
  destruct (str_eqb k _); [apply candidate_parsed_wf|]. destruct (str_eqb k _); [apply rtpmap_parsed_wf|].
  destruct (str_eqb k _); [apply fingerprint_parsed_wf|]. destruct (str_eqb k _); [|done].
  unfold parse_setup_attr_values. destruct (role_from_str _); [|done]. by intros [= <-].
Qed.

(** * Lemmas: lines *)

(** An attribute line is a sequence of words. *)
Lemma attribute_words a :
  wf_attribute a -> exists w ws, show_attribute a = join [32] (w :: ws) /\ Forall is_word (w :: ws).
Proof.
  assert (P : forall k w, is_word w -> Forall (fun c => is_ws c = false) k -> is_word (k ++ w)).
  { intros k w [Hne Hw] Hk. split; [by destruct k|]. by apply Forall_app. }
  destruct a as [c|fmt name rate params|f|r]; unfold wf_attribute.
  - intros (Hf & Ht & Ha & Hc & Hp & Hport).
    exists (lit "a=candidate:" ++ Ice.foundation c),
      [show (Ice.component_id c); Ice.transport c; show (priority c); address c; show (Ice.port c); lit "typ";
       show_type (candidate_type c)].
    split; [cbn [join]; by rewrite <-app_assoc|].
    repeat apply Forall_cons_2; try apply Forall_nil_2; try done; try (apply show_word; unfold fits in *; lia).
    + apply P; [done|by repeat constructor].
    + split; [done|by repeat constructor].
    + apply show_type_word.
  - intros (Hf & Hne & Hn & Hr & Hp). destruct (rtpmap_text name rate params Hne Hn Hr Hp) as [Hw _].
    eexists (lit "a=rtpmap:" ++ show fmt), [_]. split.
    2:{ repeat apply Forall_cons_2; try apply Forall_nil_2; [|exact Hw].
        apply P; [apply show_word, Hf|by repeat constructor]. }
    destruct params; [reflexivity|]. cbn [join]. by rewrite app_nil_r.
  - intros (Ha & Hne & Hb). exists (lit "a=fingerprint:" ++ algorithm f), [hex_value f].
    split; [cbn [join]; by rewrite <-app_assoc|].
    repeat apply Forall_cons_2; try apply Forall_nil_2; [|by apply hex_value_word].
    apply P; [done|by repeat constructor].
  - intros _. exists (show_attribute (Setup r)), []. split; [done|].
    apply Forall_cons_2; [|done]. by destruct r; (split; [done|repeat constructor]).
Qed.

(** A line of words has no newline and nothing to trim. *)
Lemma words_line w ws : Forall is_word (w :: ws) -> (10 ∉ join [32] (w :: ws)) /\ clean (join [32] (w :: ws)).
Proof.
  intros H. split.
  - induction H as [|v l [_ Hv] Hl IH]; [apply not_elem_of_nil|]. destruct l as [|v' l].
    + by apply (word_no_char v).
    + change (join [32] (v :: v' :: l)) with (v ++ 32 :: join [32] (v' :: l)).
      rewrite elem_of_app, elem_of_cons. intros [Hin|[Hin|Hin]]; [by apply (word_no_char v) in Hin|done|by apply IH].
  - split; intros c.
    + destruct w as [|x w]; [by apply Forall_cons in H as [[] _]|]. rewrite head_join. intros [= <-].
      apply Forall_cons in H as [[_ Hw] _]. by apply Forall_cons in Hw as [].
    + destruct (last (w :: ws)) as [f|] eqn:El; [|by apply last_None in El].
      rewrite (last_join _ _ _ El). apply last_Some in El as [l' El]. rewrite El in H.
      apply Forall_app in H as [_ H]. apply Forall_cons in H as [[Hne Hf] _].
      destruct (last f) as [y|] eqn:Ef; [|by apply last_None in Ef].
      intros [= <-]. apply last_Some in Ef as [f' ->]. apply Forall_app in Hf as [_ Hf]. by apply Forall_cons in Hf as [].
Qed.

Lemma trim_space s : clean s -> trim (32 :: s) = s.
Proof. intros H. unfold trim, trim_start. cbn [drop_while]. change (is_ws 32) with true. cbv iota. by apply trim_clean. Qed.

(** ** Characters *)

(** The characters a protocol field may hold: what is read from a field is
    written back with such characters only. *)
Definition fchar (c : Z) : Prop := is_scalar c /\ c <> PIPE.

Lemma field_chars f : field f <-> Forall fchar f.
Proof.
  unfold field, is_str. split.
  - intros [Hs Hp]. apply Forall_forall. intros c Hc. split; [by rewrite Forall_forall in Hs; apply Hs|]. by intros ->.
  - intros H. split; [eapply Forall_impl; [exact H|]; by intros c []|]. rewrite Forall_forall in H. by intros [_ ?]%H.
Qed.

Lemma show_chars n : 0 <= n -> Forall fchar (show n).
Proof. intros Hn. apply field_chars. split; [by apply show_is_str|by apply show_no_char]. Qed.

Lemma lit_chars s : asciib (lit s) = true -> Forall fchar (lit s).
Proof. intros H. by apply field_chars, ascii_field. Qed.

(** The characters of a concatenation of literals, numbers and known parts. *)
Ltac chars :=
  repeat match goal with
  | |- Forall _ (_ ++ _) => apply Forall_app; split
  | |- Forall fchar (lit _) => apply lit_chars; reflexivity
  | |- Forall fchar (show _) => apply show_chars; unfold fits in *; lia
  | |- Forall fchar [] => constructor
  end; try assumption.

Lemma words_from_chars cur s : Forall fchar cur -> Forall fchar s -> Forall (Forall fchar) (words_from cur s).
Proof.
  intros Hc Hs. revert cur Hc. induction Hs as [|c s Hx Hs IH]; intros cur Hc; cbn [words_from].
  - destruct cur; repeat constructor. by apply Forall_rev.
  - destruct (is_ws c); [|by apply IH; constructor].
    destruct cur; [by apply IH|]. constructor; [by apply Forall_rev|by apply IH].
Qed.

Lemma split_whitespace_chars s : Forall fchar s -> Forall (Forall fchar) (split_whitespace s).
Proof. by apply words_from_chars. Qed.

Lemma split_chars c s : Forall fchar s -> Forall (Forall fchar) (split c s).
Proof.
  intros H. rewrite Forall_forall in H. apply Forall_forall. intros p Hp. apply Forall_forall. intros x Hx.
  apply H. by eapply split_incl.
Qed.

Lemma split_once_chars c s k v : Forall fchar s -> split_once c s = Some (k, v) -> Forall fchar v.
Proof. intros H [-> _]%split_once_spec. apply Forall_app in H as [_ H]. by apply Forall_cons in H as []. Qed.

Lemma trim_chars s : Forall fchar s -> Forall fchar (trim s).
Proof. destruct (trim_spec s) as (p & q & E & _). rewrite E at 1. intros [_ H]%Forall_app. by apply Forall_app in H as []. Qed.

Lemma hex_value_chars f : Forall is_byte (fp_bytes f) -> Forall fchar (hex_value f).
Proof.
  assert (G : forall b, is_byte b -> Forall fchar (hex_byte b)).
  { intros b Hb. unfold is_byte, fits in Hb. assert (D : forall n, 0 <= n < 16 -> fchar (hex_digit n)).
    { intros n Hn. unfold fchar, hex_digit, is_scalar, PIPE. case_bool; lia. }
    unfold hex_byte. repeat apply Forall_cons_2; try apply Forall_nil_2; apply D; Z.to_euclidean_division_equations; lia. }
  unfold hex_value. induction 1 as [|b l Hb Hl IH]; [constructor|]. destruct l as [|b' l]; [by apply G|].
  cbn [map join]. apply Forall_app. split; [by apply G|]. apply Forall_app. split; [by apply lit_chars|exact IH].
Qed.

Lemma candidate_chars s a : Forall fchar s -> parse_candidate_attr_values s = Ok a -> Forall fchar (show_attribute a).
Proof.
  intros Hs Ha. pose proof (candidate_parsed_wf s a Ha) as Hwf. revert Ha. unfold parse_candidate_attr_values.
  pose proof (split_whitespace_chars s Hs) as Hw.
  destruct (split_whitespace s) as [|p0 [|p1 [|p2 [|p3 [|p4 [|p5 [|p6 [|p7 l]]]]]]]]; try done.
  destruct (str_eqb p6 _); [|done]. destruct (type_from_str p7) as [t|]; [|done]. cbn [negb map_err rbind].
  destruct (parse_uint 32 p3); [|done]. destruct (parse_uint 16 p5); [|done]. destruct (parse_uint 8 p1); [|done].
  intros [= <-]. rewrite !Forall_cons in Hw. destruct Hw as (H0 & _ & H2 & _ & H4 & _).
  destruct Hwf as (_ & _ & _ & Hc & Hp & Hport). cbn [priority Ice.port Ice.component_id] in *.
  unfold show_attribute. cbn [Ice.foundation Ice.transport address Ice.component_id priority Ice.port candidate_type].
  chars. destruct t; by apply lit_chars.
Qed.

Lemma rtpmap_chars s a : Forall fchar s -> parse_rptmap_attr_values s = Ok a -> Forall fchar (show_attribute a).
Proof.
  intros Hs Ha. pose proof (rtpmap_parsed_wf s a Ha) as Hwf. revert Ha. unfold parse_rptmap_attr_values.
  pose proof (split_whitespace_chars s Hs) as Hw.
  destruct (split_whitespace s) as [|p0 [|p1 l]]; try done. destruct (parse_uint 8 p0) as [f|]; [|done].
  cbn [ok_or rbind]. rewrite !Forall_cons in Hw. destruct Hw as (_ & H1 & _). apply (split_chars (c! "/")) in H1.
  destruct (split (c! "/") p1) as [|[|x name] rest]; try done. destruct rest as [|rate rest]; [done|].
  destruct (parse_uint 32 rate) as [r|]; [|done]. cbn [ok_or rbind].
  apply Forall_cons in H1 as [Hn [_ Hr]%Forall_cons].
  destruct rest as [|params [|extra rest]]; try done; intros [= <-]; destruct Hwf as (Hf & _ & _ & Hrate & _);
    unfold show_attribute; [chars|]. apply Forall_cons in Hr as [Hr _]. chars.
Qed.

Lemma fingerprint_chars s a : Forall fchar s -> parse_fingerprint_attr_values s = Ok a -> Forall fchar (show_attribute a).
Proof.
  intros Hs Ha. pose proof (fingerprint_parsed_wf s a Ha) as Hwf. revert Ha. unfold parse_fingerprint_attr_values.
  pose proof (split_whitespace_chars s Hs) as Hw. destruct (split_whitespace s) as [|p0 [|p1 l]]; try done.
  cbn [head tail ok_or rbind]. apply Forall_cons in Hw as [H0 _]. apply trim_chars in H0.
  unfold from_hash_string. destruct (trim (trim p1)) as [|x t]; [done|].
  destruct (parse_hash_parts _) as [bs|]; [|done]. cbn [rbind]. destruct bs as [|b bs]; [done|]. intros [= <-].
  destruct Hwf as (_ & _ & Hb). unfold show_attribute. cbn [algorithm]. chars. by apply hex_value_chars.
Qed.

Lemma attribute_chars s a : Forall fchar s -> attribute_from_str s = Ok a -> Forall fchar (show_attribute a).
Proof.
  intros Hs. unfold attribute_from_str. destruct (split_once _ s) as [[k v]|] eqn:E; [|done].
  assert (Hv : Forall fchar v) by (by eapply split_once_chars).
  destruct (str_eqb k _); [by apply candidate_chars|]. destruct (str_eqb k _); [by apply rtpmap_chars|].
  destruct (str_eqb k _); [by apply fingerprint_chars|]. destruct (str_eqb k _); [|done].
  unfold parse_setup_attr_values. destruct (role_from_str _) as [r|]; [|done]. intros [= <-].
  unfold show_attribute. chars. destruct r; by apply lit_chars.
Qed.
