(* ===== verification/Sdp.v ===== *)
(** Session descriptions (src/session/sdp/): media sections
    (media_description.rs) and whole descriptions (session_description.rs), each
    with its Display and FromStr, and the answer to an offer.  The iteration
    order of the [HashSet] of payload formats is the parameter [SetOrder].  The
    last part gives the [Wire] instance through which session descriptions
    travel inside the client/server messages. *)

From S2P Require Import Prelude.
From S2P Require Import Text.
From S2P Require Import Wire.
From S2P Require Import Config.
From S2P Require Import Ice.
From S2P Require Import SdpAttribute.

(** * Definitions *)

(** ** Media sections *)

(** The order in which a [HashSet<u8>] yields its elements. *)
Class SetOrder := {
  order : gset Z -> list Z;
  order_perm s : order s ≡ₚ elements s
}.

Record MediaDescription := mk_md {
  media_type : str;
  md_port : Z;
  protocol : str;
  fmts : gset Z;
  md_attributes : list Attribute
}.

Definition new_md (mtype : str) (p : Z) (proto : str) (fs : gset Z) : MediaDescription := mk_md mtype p proto fs [].

Definition with_attributes (l : list Attribute) (m : MediaDescription) : MediaDescription :=
  mk_md (media_type m) (md_port m) (protocol m) (fmts m) l.

(** Each format of the line goes into the set. *)
Fixpoint parse_fmts (l : list str) (s : gset Z) : result (gset Z) SdpError :=
  match l with
  | [] => Ok s
  | f :: l =>
      let? fmt := ok_or (parse_uint 8 f) InvalidFmtError in
      parse_fmts l ({[fmt]} ∪ s)
  end.

Definition md_from_str (s : str) : result MediaDescription SdpError :=
  match split_whitespace s with
  | p0 :: p1 :: p2 :: ((_ :: _) as formats) =>
      let? port := ok_or (parse_uint 16 p1) InvalidPortError in
      let? parsed_fmt := parse_fmts formats ∅ in
      Ok (new_md p0 port p2 parsed_fmt)
  | _ => Err InvalidMediaDescriptionFormatError
  end.

Definition show_md `{SetOrder} (m : MediaDescription) : str :=
  lit "m=" ++ media_type m ++ lit " " ++ show (md_port m) ++ lit " " ++ protocol m ++
  flat_map (fun f => lit " " ++ show f) (order (fmts m)) ++
  flat_map (fun a => [10] ++ lit " " ++ show_attribute a) (md_attributes m).

Definition add_attribute (m : MediaDescription) (a : Attribute) : result MediaDescription SdpError :=
  match a with
  | RTPMap fmt _ _ _ =>
      if negb (bool_decide (fmt ∈ fmts m)) then Err UnmatchingMediaDescriptionAndAttributeError
      else Ok (with_attributes (md_attributes m ++ [a]) m)
  | _ => Ok (with_attributes (md_attributes m ++ [a]) m)
  end.

Definition get_candidates (m : MediaDescription) : list Candidate :=
  omap (fun a => match a with CandidateAttr c => Some c | _ => None end) (md_attributes m).

Fixpoint first_fingerprint (l : list Attribute) : option Fingerprint :=
  match l with
  | [] => None
  | FingerprintAttr f :: _ => Some f
  | _ :: l => first_fingerprint l
  end.
Definition get_fingerprint (m : MediaDescription) : option Fingerprint := first_fingerprint (md_attributes m).

Fixpoint first_setup (l : list Attribute) : option DtlsSetupRole :=
  match l with
  | [] => None
  | Setup r :: _ => Some r
  | _ :: l => first_setup l
  end.
Definition get_setup_role (m : MediaDescription) : option DtlsSetupRole := first_setup (md_attributes m).

(** ** Session descriptions *)

Record SessionDescriptionProtocol := mk_sdp {
  version : Z;
  origin_id : Z;
  session_name : str;
  timing : str;
  media_descriptions : list MediaDescription;
  connection_data : str
}.

Definition new (mds : list MediaDescription) (sdp_config : SdpConfig) : SessionDescriptionProtocol :=
  mk_sdp (Config.version sdp_config) (Config.origin_id sdp_config) (Config.session_name sdp_config)
    (Config.timing sdp_config) mds
    (connection_data_net_type sdp_config ++ lit " " ++ connection_data_addr_type sdp_config ++ lit " " ++
     connection_data_address sdp_config).

Definition handle_media_description_line (line : str) (mds : list MediaDescription) :
    result (list MediaDescription) SdpError :=
  let? md := md_from_str line in
  Ok (mds ++ [md]).

(** The last section of the vector is updated in place. *)
Definition handle_attribute_line (line : str) (mds : list MediaDescription) :
    result (list MediaDescription) SdpError :=
  let? attribute := attribute_from_str line in
  match last mds with
  | Some m =>
      let? m := add_attribute m attribute in
      Ok (removelast mds ++ [m])
  | None => Err MissingMediaDescriptionError
  end.

Definition handle_line (line : str) (mds : list MediaDescription) : result (list MediaDescription) SdpError :=
  let line := trim line in
  match line with
  | [] => Ok mds
  | _ =>
      match split_once (c! "=") line with
      | None => Err InvalidMediaDescriptionFormatError
      | Some (key, value) =>
          if str_eqb key (lit "m") then handle_media_description_line value mds
          else if str_eqb key (lit "a") then handle_attribute_line value mds
          else Ok mds
      end
  end.

Fixpoint handle_lines (lines : list str) (mds : list MediaDescription) : result (list MediaDescription) SdpError :=
  match lines with
  | [] => Ok mds
  | line :: lines =>
      let? mds := handle_line line mds in
      handle_lines lines mds
  end.

Definition sdp_from_str (s : str) : result SessionDescriptionProtocol SdpError :=
  let? mds := handle_lines (split 10 s) [] in
  Ok (new mds SdpConfig_default).

Definition show_sdp `{SetOrder} (s : SessionDescriptionProtocol) : str :=
  let content :=
    lit "v=" ++ show (version s) ++ [10] ++ lit "o=" ++ show (origin_id s) ++ [10] ++
    lit "s=" ++ session_name s ++ [10] ++ lit "t=" ++ timing s ++ [10] ++ lit "c=" ++ connection_data s in
  foldl (fun content md => content ++ [10] ++ show_md md) content (media_descriptions s).

Definition set_connection_data (net_type addr_type addr : str) (s : SessionDescriptionProtocol) :
    SessionDescriptionProtocol :=
  mk_sdp (version s) (origin_id s) (session_name s) (timing s) (media_descriptions s)
    (net_type ++ lit " " ++ addr_type ++ lit " " ++ addr).

(** ** Answers *)

(** The inner loop: one local rtpmap against the attributes of the offer. *)
Fixpoint match_rtpmap (local_fmt : Z) (local_name : str) (local_attr : Attribute) (offer : list Attribute)
    (acc : gset Z * list Attribute) : gset Z * list Attribute :=
  match offer with
  | [] => acc
  | RTPMap _ offer_name _ _ :: offer =>
      match_rtpmap local_fmt local_name local_attr offer
        (if str_eqb local_name offer_name then ({[local_fmt]} ∪ acc.1, acc.2 ++ [local_attr]) else acc)
  | _ :: offer => match_rtpmap local_fmt local_name local_attr offer acc
  end.

Fixpoint compatible_loop (local offer : list Attribute) (acc : gset Z * list Attribute) : gset Z * list Attribute :=
  match local with
  | [] => acc
  | a :: local =>
      compatible_loop local offer
        (match a with
         | RTPMap fmt name _ _ => match_rtpmap fmt name a offer acc
         | _ => (acc.1, acc.2 ++ [a])
         end)
  end.

Definition compatible_attributes_data (local_md offer_md : MediaDescription) : gset Z * list Attribute :=
  compatible_loop (md_attributes local_md) (md_attributes offer_md) (∅, []).

Fixpoint add_attributes (m : MediaDescription) (l : list Attribute) : result MediaDescription SdpError :=
  match l with
  | [] => Ok m
  | a :: l => let? m := add_attribute m a in add_attributes m l
  end.

Definition create_answer_md (local_md : MediaDescription) (fs : gset Z) (attrs : list Attribute) :
    result MediaDescription SdpError :=
  add_attributes
    (new_md (media_type local_md) (match attrs with [] => 0 | _ => md_port local_md end) (protocol local_md) fs)
    attrs.

Definition same_media (local_md m : MediaDescription) : bool :=
  str_eqb (media_type m) (media_type local_md) && str_eqb (protocol m) (protocol local_md).

(** [iter().find(..)] *)
Fixpoint find_md (f : MediaDescription -> bool) (l : list MediaDescription) : option MediaDescription :=
  match l with
  | [] => None
  | m :: l => if f m then Some m else find_md f l
  end.

Fixpoint answer_loop (local offer : list MediaDescription) : result (list MediaDescription) SdpError :=
  match local with
  | [] => Ok []
  | local_md :: local =>
      match find_md (same_media local_md) offer with
      | Some offer_md =>
          let '(fs, attrs) := compatible_attributes_data local_md offer_md in
          let? answer_md := create_answer_md local_md fs attrs in
          let? rest := answer_loop local offer in
          Ok (answer_md :: rest)
      | None => answer_loop local offer
      end
  end.

Definition create_answer (s offer_sdp : SessionDescriptionProtocol) :
    result SessionDescriptionProtocol SdpError :=
  let? answer_mds := answer_loop (media_descriptions s) (media_descriptions offer_sdp) in
  Ok (new answer_mds
        (Config.mk_sdp (version s) (origin_id s) (session_name s) (timing s)
           (lit "IN") (lit "IP4") (lit "0.0.0.0"))).

(** * Lemmas *)

Lemma join_flat c w l : join [c] (w :: l) = w ++ flat_map (fun x => c :: x) l.
Proof.
  revert w. induction l as [|x l IH]; intros w; [by rewrite app_nil_r|].
  change (join [c] (w :: x :: l)) with (w ++ c :: join [c] (x :: l)). by rewrite IH.
Qed.

(** ** Media sections *)

(** A section that prints as well-formed lines, and one that can be read back. *)
Definition wf_section (m : MediaDescription) : Prop :=
  is_word (media_type m) /\ is_word (protocol m) /\ fits 16 (md_port m) /\
  (forall f, f ∈ fmts m -> fits 8 f) /\ Forall wf_attribute (md_attributes m) /\
  (forall f n r p, RTPMap f n r p ∈ md_attributes m -> f ∈ fmts m).
Definition wf_md (m : MediaDescription) : Prop := wf_section m /\ fmts m <> ∅.

Section Show.
Context `{ord : SetOrder}.

Lemma elem_of_order s f : f ∈ order s <-> f ∈ s.
Proof. rewrite (order_perm s). apply elem_of_elements. Qed.

Definition m_words (m : MediaDescription) : list str :=
  media_type m :: show (md_port m) :: protocol m :: map show (order (fmts m)).

Definition md_lines (m : MediaDescription) : list str :=
  (lit "m=" ++ join [32] (m_words m)) :: map (fun a => 32 :: show_attribute a) (md_attributes m).

Lemma flat_map_map' {A B C} (f : B -> list C) (g : A -> B) l : flat_map f (map g l) = flat_map (fun x => f (g x)) l.
Proof. induction l as [|x l IH]; simpl; [done|]. by rewrite IH. Qed.

Lemma show_md_lines m : show_md m = join [10] (md_lines m).
Proof.
  unfold md_lines, m_words. rewrite join_flat, flat_map_map', join_flat. cbn [flat_map app].
  rewrite flat_map_map'. unfold show_md. change (lit " ") with [32].
  repeat (rewrite <-!app_assoc; cbn [app]). done.
Qed.

Lemma m_words_ok m : wf_section m -> Forall is_word (m_words m).
Proof.
  intros (Ht & Hp & Hport & Hf & _). unfold m_words.
  apply Forall_cons_2; [done|]. apply Forall_cons_2; [apply show_word, Hport|]. apply Forall_cons_2; [done|].
  apply Forall_map, Forall_forall. intros f Hin%elem_of_order. apply show_word, (Hf f Hin).
Qed.

Lemma parse_fmts_show l s : Forall (fits 8) l -> parse_fmts (map show l) s = Ok (list_to_set l ∪ s).
Proof.
  intros Hl. revert s. induction Hl as [|f l Hf Hl IH]; intros s; cbn [map parse_fmts list_to_set].
  - by rewrite (left_id_L ∅ (∪)).
  - rewrite parse_show by done. cbn [ok_or rbind]. rewrite IH. by rewrite (assoc_L (∪)), (comm_L (∪) _ {[f]}).
Qed.

Lemma md_line_roundtrip m : wf_md m -> md_from_str (join [32] (m_words m)) = Ok (with_attributes [] m).
Proof.
  intros [Hm Hne]. unfold md_from_str. rewrite split_whitespace_join by (by apply m_words_ok).
  destruct Hm as (Ht & Hp & Hport & Hf & _). unfold m_words.
  assert (Hall : Forall (fits 8) (order (fmts m))).
  { apply Forall_forall. intros f Hin%elem_of_order. by apply Hf. }
  assert (Hset : list_to_set (order (fmts m)) ∪ ∅ = fmts m).
  { apply set_eq. intros f. rewrite (right_id_L ∅ (∪)), elem_of_list_to_set. apply elem_of_order. }
  destruct (order (fmts m)) as [|f l] eqn:Eo.
  { exfalso. by apply Hne. }
  cbn [map]. rewrite parse_show by done. cbn [ok_or rbind].
  change (show f :: map show l) with (map show (f :: l)). rewrite parse_fmts_show by done. cbn [rbind].
  rewrite Hset. by destruct m.
Qed.

(** ** Whole descriptions *)

Definition sdp_lines (s : SessionDescriptionProtocol) : list str :=
  [c! "v" :: 61 :: show (version s); c! "o" :: 61 :: show (origin_id s); c! "s" :: 61 :: session_name s;
   c! "t" :: 61 :: timing s; c! "c" :: 61 :: connection_data s] ++ flat_map md_lines (media_descriptions s).

Lemma foldl_flat {A} (f : A -> str) l c : foldl (fun acc x => acc ++ [10] ++ f x) c l = c ++ flat_map (fun x => 10 :: f x) l.
Proof. revert c. induction l as [|x l IH]; intros c; cbn [foldl flat_map]; [by rewrite app_nil_r|]. by rewrite IH, <-app_assoc. Qed.

Lemma flat_lines (mds : list MediaDescription) :
  flat_map (fun m => 10 :: show_md m) mds = flat_map (fun x => 10 :: x) (flat_map md_lines mds).
Proof.
  induction mds as [|m mds IH]; [done|]. cbn [flat_map]. rewrite flat_map_app, <-IH, show_md_lines.
  unfold md_lines at 1. by rewrite join_flat.
Qed.

Lemma show_sdp_lines s : show_sdp s = join [10] (sdp_lines s).
Proof.
  unfold show_sdp, sdp_lines. rewrite foldl_flat, flat_lines. cbn [app]. rewrite join_flat. cbn [flat_map].
  repeat (rewrite <-!app_assoc; cbn [app]). done.
Qed.

Definition wf_sdp (s : SessionDescriptionProtocol) : Prop :=
  0 <= version s /\ 0 <= origin_id s /\ (10 ∉ session_name s) /\ (10 ∉ timing s) /\ (10 ∉ connection_data s) /\
  Forall wf_md (media_descriptions s).

(** The header is free of newlines and the sections print well. *)
Definition printable (s : SessionDescriptionProtocol) : Prop :=
  0 <= version s /\ 0 <= origin_id s /\ (10 ∉ session_name s) /\ (10 ∉ timing s) /\ (10 ∉ connection_data s) /\
  Forall wf_section (media_descriptions s).

Lemma wf_printable s : wf_sdp s -> printable s.
Proof.
  intros (? & ? & ? & ? & ? & Hm). split_and!; try done. eapply Forall_impl; [exact Hm|]. by intros m [].
Qed.

Lemma md_lines_no_newline m : wf_section m -> Forall (fun l => 10 ∉ l) (md_lines m).
Proof.
  intros Hm. unfold md_lines. constructor.
  - rewrite elem_of_app. intros [Hin|Hin]; [revert Hin; by apply (bool_decide_unpack (10 ∉ lit "m="))|].
    pose proof (m_words_ok m Hm) as Hw. unfold m_words in *. apply words_line in Hw as [Hw _]. done.
  - destruct Hm as (_ & _ & _ & _ & Ha & _). apply Forall_map. eapply Forall_impl; [exact Ha|].
    intros a Hwf. destruct (attribute_words a Hwf) as (w & ws & -> & Hw). apply words_line in Hw as [Hw _].
    rewrite elem_of_cons. intros [?|?]; [done|by apply Hw].
Qed.

Lemma no_newline_show n : 0 <= n -> 10 ∉ show n.
Proof. intros. by apply show_no_char. Qed.

Lemma sdp_lines_no_newline s : printable s -> Forall (fun l => 10 ∉ l) (sdp_lines s).
Proof.
  intros (Hv & Ho & Hs & Ht & Hc & Hm). apply no_newline_show in Hv, Ho.
  assert (Q : forall k x, k <> 10 -> 10 ∉ x -> 10 ∉ (k :: 61 :: x)) by (intros k x ? ?; rewrite !elem_of_cons; intros [?|[?|?]]; done).
  unfold sdp_lines. apply Forall_app. split.
  - repeat (apply Forall_cons_2); try apply Forall_nil_2; by apply Q.
  - clear -Hm. induction Hm as [|m mds Hm _ IH]; [constructor|]. cbn [flat_map]. apply Forall_app.
    split; [by apply md_lines_no_newline|done].
Qed.

(** *** Reading the lines back *)

Lemma handle_lines_app a b mds :
  handle_lines (a ++ b) mds = let? mds := handle_lines a mds in handle_lines b mds.
Proof.
  revert mds. induction a as [|l a IH]; intros mds; [done|]. cbn [app handle_lines].
  destruct (handle_line l mds) as [mds'|e]; cbn [rbind]; [apply IH|done].
Qed.

(** A line with another key changes nothing. *)
Lemma handle_header k x mds :
  is_ws k = false -> k <> 61 -> k <> c! "m" -> k <> c! "a" -> handle_line (k :: 61 :: x) mds = Ok mds.
Proof.
  intros Hk H61 Hm Ha. unfold handle_line. rewrite trim_key by done.
  change (k :: 61 :: trim_end x) with ([k] ++ c! "=" :: trim_end x).
  rewrite split_once_app by (by rewrite list_elem_of_singleton). cbn [app].
  destruct (str_eqb [k] (lit "m")) eqn:E1; [apply str_eqb_spec in E1; injection E1 as E1; by destruct (Hm E1)|].
  destruct (str_eqb [k] (lit "a")) eqn:E2; [apply str_eqb_spec in E2; injection E2 as E2; by destruct (Ha E2)|]. done.
Qed.

Lemma handle_m_line m mds :
  wf_md m -> handle_line (lit "m=" ++ join [32] (m_words m)) mds = Ok (mds ++ [with_attributes [] m]).
Proof.
  intros Hm. unfold handle_line.
  assert (Hc : clean (join [32] (m_words m))) by (apply words_line; apply m_words_ok, Hm).
  change (lit "m=" ++ join [32] (m_words m)) with (c! "m" :: c! "=" :: join [32] (m_words m)).
  rewrite trim_key by done. rewrite trim_end_clean by apply Hc.
  change (c! "m" :: c! "=" :: ?x) with ([c! "m"] ++ c! "=" :: x). 
  rewrite split_once_app by (by apply (bool_decide_unpack _)). cbn [app].
  change (str_eqb [c! "m"] (lit "m")) with true. cbv iota. unfold handle_media_description_line.
  by rewrite md_line_roundtrip.
Qed.

(** Without formats the line has three words and is refused. *)
Lemma handle_short_m_line m mds :
  wf_section m -> fmts m = ∅ -> is_ok (handle_line (lit "m=" ++ join [32] (m_words m)) mds) = false.
Proof.
  intros Hm Hf. unfold handle_line.
  assert (Hc : clean (join [32] (m_words m))) by (apply words_line; apply m_words_ok, Hm).
  change (lit "m=" ++ join [32] (m_words m)) with (c! "m" :: c! "=" :: join [32] (m_words m)).
  rewrite trim_key by done. rewrite trim_end_clean by apply Hc.
  change (c! "m" :: c! "=" :: ?x) with ([c! "m"] ++ c! "=" :: x).
  rewrite split_once_app by (by apply (bool_decide_unpack _)). cbn [app].
  change (str_eqb [c! "m"] (lit "m")) with true. cbv iota. unfold handle_media_description_line, md_from_str.
  rewrite split_whitespace_join by (by apply m_words_ok). unfold m_words.
  assert (Eo : order (fmts m) = []).
  { destruct (order (fmts m)) as [|f l] eqn:E; [done|]. exfalso. apply (not_elem_of_empty (C:=gset Z) f).
    rewrite <-Hf, <-elem_of_order, E. left. }
  by rewrite Eo.
Qed.

Lemma add_attribute_ok m a :
  (forall f n r p, a = RTPMap f n r p -> f ∈ fmts m) ->
  add_attribute m a = Ok (with_attributes (md_attributes m ++ [a]) m).
Proof. destruct a as [c|fmt name rate params|f|r]; try done. intros Hf. cbn. by rewrite bool_decide_true by (by eapply Hf). Qed.

Lemma handle_a_line m mds a :
  wf_attribute a -> (forall f n r p, a = RTPMap f n r p -> f ∈ fmts m) ->
  handle_line (32 :: show_attribute a) (mds ++ [m]) = Ok (mds ++ [with_attributes (md_attributes m ++ [a]) m]).
Proof.
  intros Ha Hf. unfold handle_line.
  assert (Hc : clean (show_attribute a)).
  { destruct (attribute_words a Ha) as (w & ws & -> & Hw). by apply words_line. }
  rewrite trim_space by done. rewrite show_attribute_body.
  change (lit "a=" ++ attribute_body a) with ([c! "a"] ++ c! "=" :: attribute_body a).
  rewrite split_once_app by (by apply (bool_decide_unpack _)). cbn [app].
  change (str_eqb [c! "a"] (lit "m")) with false. change (str_eqb [c! "a"] (lit "a")) with true. cbv iota.
  unfold handle_attribute_line. rewrite attribute_roundtrip by done. cbn [rbind]. rewrite last_snoc.
  rewrite add_attribute_ok by done. cbn [rbind]. by rewrite removelast_last.
Qed.

Lemma handle_md_lines m mds : wf_md m -> handle_lines (md_lines m) mds = Ok (mds ++ [m]).
Proof.
  intros Hm. unfold md_lines. cbn [handle_lines]. rewrite handle_m_line by done. cbn [rbind].
  destruct Hm as [(_ & _ & _ & _ & Ha & Hr) _].
  assert (G : forall l l0, Forall wf_attribute l -> (forall f n r p, RTPMap f n r p ∈ l -> f ∈ fmts m) ->
    handle_lines (map (fun a => 32 :: show_attribute a) l) (mds ++ [with_attributes l0 m]) =
    Ok (mds ++ [with_attributes (l0 ++ l) m])).
  { induction l as [|a l IH]; intros l0 Hl Hin; cbn [map handle_lines]; [by rewrite app_nil_r|].
    apply Forall_cons in Hl as [Hwf Hl]. rewrite handle_a_line; [|done|].
    - cbn [rbind md_attributes with_attributes]. change (with_attributes ?x (with_attributes _ m)) with (with_attributes x m).
      rewrite IH; [by rewrite <-app_assoc|done|]. intros f n r p Hf. eapply Hin. right. exact Hf.
    - intros f n r p ->. eapply Hin. left. }
  rewrite G by done. by destruct m.
Qed.

Lemma handle_mds mds mds0 : Forall wf_md mds -> handle_lines (flat_map md_lines mds) mds0 = Ok (mds0 ++ mds).
Proof.
  intros Hm. revert mds0. induction Hm as [|m mds Hm _ IH]; intros mds0; [by rewrite app_nil_r|]. cbn [flat_map].
  rewrite handle_lines_app, handle_md_lines by done. cbn [rbind]. by rewrite IH, <-app_assoc.
Qed.

(** Printing and parsing: the sections survive, the header is reset. *)
Lemma sdp_print_parse s : wf_sdp s -> sdp_from_str (show_sdp s) = Ok (new (media_descriptions s) SdpConfig_default).
Proof.
  intros Hs. unfold sdp_from_str. rewrite show_sdp_lines, split_join; [|done|by apply sdp_lines_no_newline, wf_printable].
  destruct Hs as (_ & _ & _ & _ & _ & Hm). unfold sdp_lines. cbn [app handle_lines].
  do 5 (rewrite handle_header by done; cbn [rbind]). by rewrite handle_mds.
Qed.

End Show.

(** ** What the parser produces *)

Lemma parse_fmts_spec l s r :
  parse_fmts l s = Ok r -> (forall f, f ∈ s -> fits 8 f) ->
  (forall f, f ∈ r -> fits 8 f) /\ s ⊆ r /\ (l <> [] -> r <> ∅).
Proof.
  revert s. induction l as [|x l IH]; intros s; cbn [parse_fmts]; [by intros [= <-] ?|].
  destruct (parse_uint 8 x) as [f|] eqn:E; [|done]. cbn [ok_or rbind]. intros Hr Hs. apply parse_show_eq in E.
  apply IH in Hr as (H1 & H2 & _); [|intros g [->%elem_of_singleton|Hg]%elem_of_union; [done|by apply Hs]].
  split_and!; [done|intros g Hg; apply H2, elem_of_union; by right|]. intros _ ->.
  apply (not_elem_of_empty (C:=gset Z) f), H2, elem_of_union. left. by apply elem_of_singleton.
Qed.

Lemma md_parsed_wf s m : md_from_str s = Ok m -> wf_md m.
Proof.
  unfold md_from_str. pose proof (split_whitespace_words s) as Hw.
  destruct (split_whitespace s) as [|p0 [|p1 [|p2 [|f l]]]]; try done.
  destruct (parse_uint 16 p1) as [port|] eqn:Ep; [|done]. cbn [ok_or rbind].
  destruct (parse_fmts (f :: l) ∅) as [fs|] eqn:Ef; [|done]. intros [= <-].
  apply parse_fmts_spec in Ef as (H1 & _ & H3); [|by intros g Hg%elem_of_empty]. apply parse_show_eq in Ep.
  rewrite !Forall_cons in Hw. destruct Hw as (H0 & _ & H2 & _).
  split; [|by apply H3]. unfold wf_section, new_md. cbn. split_and!; try done. intros g n r p Hin. by apply elem_of_nil in Hin.
Qed.

Lemma add_attribute_wf m a m' : wf_attribute a -> add_attribute m a = Ok m' ->
  m' = with_attributes (md_attributes m ++ [a]) m /\ (wf_md m -> wf_md m').
Proof.
  intros Ha H. assert (E : m' = with_attributes (md_attributes m ++ [a]) m /\ forall f n r p, a = RTPMap f n r p -> f ∈ fmts m).
  { destruct a as [c|fmt name rate params|f|r]; cbn in H; try (by injection H as <-).
    case_bool_decide; [|done]. cbn in H. injection H as <-. split; [done|]. by intros ? ? ? ? [= <- <- <- <-]. }
  destruct E as [-> Hf]. split; [done|]. intros [(H1 & H2 & H3 & H4 & H5 & H6) Hne].
  split; [|done]. unfold wf_section. cbn. split_and!; try done.
  - apply Forall_app. by split; [|constructor].
  - intros f n r p [Hin|Hin]%elem_of_app; [by eapply H6|]. apply list_elem_of_singleton in Hin. by eapply Hf.
Qed.

Lemma last_removelast {A} (l : list A) x : last l = Some x -> l = removelast l ++ [x].
Proof. intros [l' ->]%last_Some. by rewrite removelast_last. Qed.

Lemma handle_line_wf line mds mds' : Forall wf_md mds -> handle_line line mds = Ok mds' -> Forall wf_md mds'.
Proof.
  intros Hm. unfold handle_line. destruct (trim line) as [|x t]; [by intros [= <-]|].
  destruct (split_once _ _) as [[k v]|]; [|done]. destruct (str_eqb k _).
  { unfold handle_media_description_line. destruct (md_from_str v) as [m|] eqn:E; [|done]. intros [= <-].
    apply Forall_app. split; [done|]. constructor; [by eapply md_parsed_wf|done]. }
  destruct (str_eqb k _); [|by intros [= <-]]. unfold handle_attribute_line.
  destruct (attribute_from_str v) as [a|] eqn:E; [|done]. cbn [rbind]. destruct (last mds) as [m|] eqn:El; [|done].
  destruct (add_attribute m a) as [m'|] eqn:Ea; [|done]. intros [= <-].
  apply last_removelast in El. rewrite El in Hm. apply Forall_app in Hm as [H1 H2].
  apply Forall_app. split; [done|]. constructor; [|done]. apply Forall_cons in H2 as [H2 _].
  eapply add_attribute_wf; [by eapply attribute_parsed_wf|exact Ea|done].
Qed.

Lemma handle_lines_wf lines mds mds' : Forall wf_md mds -> handle_lines lines mds = Ok mds' -> Forall wf_md mds'.
Proof.
  revert mds. induction lines as [|l lines IH]; intros mds Hm; cbn [handle_lines]; [by intros [= <-]|].
  destruct (handle_line l mds) as [mds1|] eqn:E; [|done]. apply IH. by eapply handle_line_wf.
Qed.

Lemma new_default_wf mds : Forall wf_md mds -> wf_sdp (new mds SdpConfig_default).
Proof. intros Hm. unfold wf_sdp. cbn [new version]. split_and!; try done; by apply (bool_decide_unpack _). Qed.

Lemma sdp_parsed_wf t s : sdp_from_str t = Ok s -> wf_sdp s.
Proof.
  unfold sdp_from_str. destruct (handle_lines _ _) as [mds|] eqn:E; [|done]. intros [= <-].
  apply new_default_wf. eapply handle_lines_wf; [|exact E]. constructor.
Qed.

(** ** Answers *)

(** The number of rtpmaps of the list with that codec name. *)
Fixpoint offered (name : str) (l : list Attribute) : nat :=
  match l with
  | [] => O
  | RTPMap _ n _ _ :: l => (if str_eqb name n then 1 else 0) + offered name l
  | _ :: l => offered name l
  end.

(** How often an attribute of the local section is copied into the answer. *)
Definition copies (offer : list Attribute) (a : Attribute) : nat :=
  match a with RTPMap _ n _ _ => offered n offer | _ => 1 end.

Lemma match_rtpmap_spec f n a offer fs attrs :
  exists fs', match_rtpmap f n a offer (fs, attrs) = (fs', attrs ++ replicate (offered n offer) a) /\
    forall x, x ∈ fs' <-> x ∈ fs \/ (x = f /\ offered n offer <> 0%nat).
Proof.
  revert fs attrs. induction offer as [|b offer IH]; intros fs attrs; cbn [match_rtpmap offered].
  { exists fs. rewrite app_nil_r. split; [done|]. intros x. intuition. }
  destruct b as [c|f' n' r' p'|g|r]; try apply IH. destruct (str_eqb n n'); [|apply IH]. cbn [fst snd].
  destruct (IH ({[f]} ∪ fs) (attrs ++ [a])) as (fs' & -> & Hfs). exists fs'. rewrite <-app_assoc. split; [done|].
  intros x. rewrite Hfs, elem_of_union, elem_of_singleton. intuition lia.
Qed.

Lemma compatible_loop_spec local offer fs attrs :
  exists fs', compatible_loop local offer (fs, attrs) = (fs', attrs ++ flat_map (fun a => replicate (copies offer a) a) local) /\
    forall x, x ∈ fs' <-> x ∈ fs \/ exists n r p, RTPMap x n r p ∈ local /\ offered n offer <> 0%nat.
Proof.
  revert fs attrs. induction local as [|a local IH]; intros fs attrs; cbn [compatible_loop flat_map].
  { exists fs. rewrite app_nil_r. split; [done|]. intros x. split; [by left|].
    intros [?|(n & r & p & Hin & _)]; [done|]. by apply elem_of_nil in Hin. }
  assert (Hother : forall y, (forall f n r p, y <> RTPMap f n r p) ->
    exists fs', compatible_loop local offer (fs, attrs ++ [y]) =
      (fs', attrs ++ [y] ++ flat_map (fun a => replicate (copies offer a) a) local) /\
    forall x, x ∈ fs' <-> x ∈ fs \/ exists n r p, RTPMap x n r p ∈ y :: local /\ offered n offer <> 0%nat).
  { intros y Hy. destruct (IH fs (attrs ++ [y])) as (fs2 & -> & H2). exists fs2. rewrite <-app_assoc. split; [done|].
    intros x. rewrite H2. split; (intros [?|(n' & r' & p' & Hin & ?)]; [by left|right; exists n', r', p']);
      (split; [|done]); [by right|]. apply elem_of_cons in Hin as [Hin|?]; [|done]. by destruct (Hy x n' r' p'). }
  destruct a as [c|f n r p|g|ro]; try by apply Hother. cbn [copies replicate].
  destruct (match_rtpmap_spec f n (RTPMap f n r p) offer fs attrs) as (fs1 & -> & H1).
  destruct (IH fs1 (attrs ++ replicate (offered n offer) (RTPMap f n r p))) as (fs2 & -> & H2).
  exists fs2. rewrite <-app_assoc. split; [done|]. intros x. rewrite H2, H1. split.
  - intros [[?|[-> ?]]|(n' & r' & p' & Hin & ?)]; [by left|right; exists n, r, p; split; [left|done]|].
    right. exists n', r', p'. split; [by right|done].
  - intros [?|(n' & r' & p' & Hin & ?)]; [by left; left|].
    apply elem_of_cons in Hin as [[= -> -> -> ->]|Hin]; [left; by right|right; by exists n', r', p'].
Qed.

(** What an answer section keeps of the local one. *)
Definition answers (local_md offer_md ans : MediaDescription) : Prop :=
  media_type ans = media_type local_md /\ protocol ans = protocol local_md /\
  md_port ans = (match md_attributes ans with [] => 0 | _ => md_port local_md end) /\
  (forall f, f ∈ fmts ans <->
     exists n r p, RTPMap f n r p ∈ md_attributes local_md /\ offered n (md_attributes offer_md) <> 0%nat) /\
  md_attributes ans = flat_map (fun a => replicate (copies (md_attributes offer_md) a) a) (md_attributes local_md).

Lemma add_attributes_ok m l :
  (forall f n r p, RTPMap f n r p ∈ l -> f ∈ fmts m) ->
  add_attributes m l = Ok (with_attributes (md_attributes m ++ l) m).
Proof.
  revert m. induction l as [|a l IH]; intros m Hf; cbn [add_attributes]; [rewrite app_nil_r; by destruct m|].
  rewrite add_attribute_ok by (intros f n r p ->; eapply Hf; left). cbn [rbind].
  rewrite IH by (intros f n r p Hin; cbn; eapply Hf; right; exact Hin). cbn. by rewrite <-app_assoc.
Qed.

Lemma elem_of_copies offer l a :
  a ∈ flat_map (fun a => replicate (copies offer a) a) l <-> a ∈ l /\ copies offer a <> 0%nat.
Proof.
  rewrite !list_elem_of_In, in_flat_map. split.
  - intros (b & Hb & Ha%list_elem_of_In%elem_of_replicate). by destruct Ha as [-> ?].
  - intros [Ha Hc]. exists a. split; [done|]. apply list_elem_of_In, elem_of_replicate. done.
Qed.

Lemma answer_section local_md offer_md :
  exists ans, (let '(fs, attrs) := compatible_attributes_data local_md offer_md in create_answer_md local_md fs attrs) = Ok ans /\
    answers local_md offer_md ans.
Proof.
  unfold compatible_attributes_data, create_answer_md.
  destruct (compatible_loop_spec (md_attributes local_md) (md_attributes offer_md) ∅ []) as (fs & -> & Hfs).
  cbn [app]. rewrite add_attributes_ok.
  - eexists. split; [reflexivity|]. unfold answers. cbn. split_and!; try done.
    intros f. rewrite Hfs. split; [by intros [?%elem_of_empty|?]|by right].
  - intros f n r p [Hin Hc]%elem_of_copies. cbn. apply Hfs. right. by exists n, r, p.
Qed.

Lemma find_md_spec f l m : find_md f l = Some m -> m ∈ l /\ f m = true.
Proof.
  induction l as [|x l IH]; simpl; [done|]. destruct (f x) eqn:E.
  - intros [= <-]. split; [left|done].
  - intros H. destruct (IH H). split; [by right|done].
Qed.

(** The local sections that have a counterpart in the offer, with it. *)
Definition matched (offer local : list MediaDescription) : list (MediaDescription * MediaDescription) :=
  omap (fun m => option_map (pair m) (find_md (same_media m) offer)) local.

Lemma answer_loop_spec local offer :
  exists l, answer_loop local offer = Ok l /\ Forall2 (fun p ans => answers p.1 p.2 ans) (matched offer local) l.
Proof.
  induction local as [|m local (l & IH & Hl)]; cbn [answer_loop]; [by exists []|]. unfold matched. cbn [omap list_omap].
  destruct (find_md (same_media m) offer) as [o|]; [|by exists l]. cbn [option_map].
  destruct (answer_section m o) as (ans & E & Ha). destruct (compatible_attributes_data m o) as [fs attrs].
  rewrite E, IH. cbn [rbind]. exists (ans :: l). split; [done|]. by constructor.
Qed.

Lemma answers_wf m o ans : wf_section m -> answers m o ans -> wf_section ans.
Proof.
  intros (H1 & H2 & H3 & H4 & H5 & H6) (E1 & E2 & E3 & E4 & E5). unfold wf_section. rewrite E1, E2. split_and!; try done.
  - rewrite E3. destruct (md_attributes ans); [by vm_compute|done].
  - intros f (n & r & p & Hin & _)%E4. apply H4. by eapply H6.
  - rewrite E5. rewrite Forall_forall in H5. apply Forall_forall. intros a [Ha _]%elem_of_copies. by apply H5.
  - intros f n r p Hin. rewrite E5 in Hin. apply elem_of_copies in Hin as [Hin Hc]. apply E4. by exists n, r, p.
Qed.

(** A line that no state accepts makes the text unreadable. *)
Lemma handle_lines_err l lines mds :
  l ∈ lines -> (forall mds, is_ok (handle_line l mds) = false) -> is_ok (handle_lines lines mds) = false.
Proof.
  intros Hin Hl. revert mds. induction lines as [|x lines IH]; intros mds; [by apply elem_of_nil in Hin|].
  cbn [handle_lines]. destruct (handle_line x mds) as [mds'|e] eqn:E; [|done]. cbn [rbind].
  apply elem_of_cons in Hin as [->|Hin]; [|by apply IH]. specialize (Hl mds). by rewrite E in Hl.
Qed.

(** ** Session descriptions inside messages *)

(** The text of a section written back from what was read. *)
Definition md_chars `{SetOrder} (m : MediaDescription) : Prop :=
  Forall fchar (media_type m) /\ Forall fchar (protocol m) /\
  Forall (fun a => Forall fchar (show_attribute a)) (md_attributes m).

Lemma md_parsed_chars `{SetOrder} s m : Forall fchar s -> md_from_str s = Ok m -> md_chars m.
Proof.
  intros Hs. unfold md_from_str. pose proof (split_whitespace_chars s Hs) as Hw.
  destruct (split_whitespace s) as [|p0 [|p1 [|p2 [|f l]]]]; try done.
  destruct (parse_uint 16 p1); [|done]. cbn [ok_or rbind]. destruct (parse_fmts (f :: l) ∅); [|done]. intros [= <-].
  apply Forall_cons in Hw as [H0 [_ [H2 _]%Forall_cons]%Forall_cons]. by split_and!.
Qed.

Lemma handle_line_chars `{SetOrder} line mds mds' :
  Forall fchar line -> Forall md_chars mds -> handle_line line mds = Ok mds' -> Forall md_chars mds'.
Proof.
  intros Hl Hm. unfold handle_line. pose proof (trim_chars line Hl) as Ht.
  destruct (trim line) as [|x t]; [by intros [= <-]|].
  destruct (split_once _ _) as [[k v]|] eqn:Es; [|done]. apply split_once_chars in Es; [|done]. destruct (str_eqb k _).
  { unfold handle_media_description_line. destruct (md_from_str v) as [m|] eqn:E; [|done]. intros [= <-].
    apply Forall_app. split; [done|]. constructor; [by eapply md_parsed_chars|done]. }
  destruct (str_eqb k _); [|by intros [= <-]]. unfold handle_attribute_line.
  destruct (attribute_from_str v) as [a|] eqn:E; [|done]. cbn [rbind]. destruct (last mds) as [m|] eqn:El; [|done].
  destruct (add_attribute m a) as [m'|] eqn:Ea; [|done]. intros [= <-].
  apply last_removelast in El. rewrite El in Hm. apply Forall_app in Hm as [H1 [(H2 & H3 & H4) _]%Forall_cons].
  apply Forall_app. split; [done|]. constructor; [|done].
  apply add_attribute_wf in Ea as [-> _]; [|by eapply attribute_parsed_wf].
  unfold md_chars. cbn. split_and!; try done. apply Forall_app. split; [done|]. constructor; [|done].
  by eapply attribute_chars.
Qed.

Lemma handle_lines_chars `{SetOrder} lines mds mds' :
  Forall (Forall fchar) lines -> Forall md_chars mds -> handle_lines lines mds = Ok mds' -> Forall md_chars mds'.
Proof.
  intros Hl. revert mds. induction Hl as [|l lines Hl _ IH]; intros mds Hm; cbn [handle_lines]; [by intros [= <-]|].
  destruct (handle_line l mds) as [mds1|] eqn:E; [|done]. apply IH. by eapply handle_line_chars.
Qed.

Lemma join_chars c l : fchar c -> Forall (Forall fchar) l -> Forall fchar (join [c] l).
Proof.
  intros Hc. induction 1 as [|x l Hx Hl IH]; [constructor|]. destruct l as [|y l]; [done|].
  apply Forall_app. split; [done|]. by constructor.
Qed.

Lemma md_lines_chars `{SetOrder} m : wf_section m -> md_chars m -> Forall (Forall fchar) (md_lines m).
Proof.
  intros (_ & _ & Hp & Hf & _) (H1 & H2 & H3). unfold md_lines. constructor.
  - apply Forall_app. split; [by apply lit_chars|]. apply join_chars; [unfold fchar, is_scalar, PIPE; lia|].
    unfold m_words. repeat apply Forall_cons_2; try done; [apply show_chars, Hp|].
    apply Forall_map, Forall_forall. intros f Hin%elem_of_order. apply show_chars, Hf, Hin.
  - apply Forall_map. eapply Forall_impl; [exact H3|]. intros a Ha. constructor; [unfold fchar, is_scalar, PIPE; lia|done].
Qed.

(** Everything that was read from a protocol field fits a protocol field. *)
Lemma sdp_parsed_field `{SetOrder} t s : Forall fchar t -> sdp_from_str t = Ok s -> Forall fchar (show_sdp s).
Proof.
  intros Ht Hs. pose proof (sdp_parsed_wf t s Hs) as (_ & _ & _ & _ & _ & Hwf).
  unfold sdp_from_str in Hs. destruct (handle_lines _ _) as [mds|] eqn:E; [|done]. injection Hs as <-.
  assert (Hc : Forall md_chars mds).
  { eapply handle_lines_chars; [|by constructor|exact E]. by apply split_chars. }
  rewrite show_sdp_lines. apply join_chars; [unfold fchar, is_scalar, PIPE; lia|].
  unfold sdp_lines, new, SdpConfig_default. cbn [media_descriptions] in *.
  apply Forall_app. split; [repeat (apply Forall_cons_2; [by apply field_chars, ascii_field|]); apply Forall_nil_2|].
  clear E. revert Hwf. induction Hc as [|m mds Hm _ IH]; [by constructor|]. intros [Hw Hwf]%Forall_cons. cbn [flat_map].
  apply Forall_app. split; [apply md_lines_chars; [apply Hw|done]|by apply IH].
Qed.

(** The Display and FromStr pair the messages use. *)
#[export] Instance sdp_wire `{SetOrder} : Wire SessionDescriptionProtocol :=
  { display := show_sdp; from_str s := result_ok (sdp_from_str s) }.

(** The sections of an answer print well. *)
Lemma answer_printable s offer l :
  printable s -> Forall2 (fun p a => answers p.1 p.2 a) (matched (media_descriptions offer) (media_descriptions s)) l ->
  printable (new l (Config.mk_sdp (version s) (origin_id s) (session_name s) (timing s)
    (lit "IN") (lit "IP4") (lit "0.0.0.0"))).
Proof.
  intros (H1 & H2 & H3 & H4 & H5 & Hm) Hl. unfold printable. cbn [new version origin_id session_name timing
    connection_data media_descriptions Config.version Config.origin_id Config.session_name Config.timing].
  split_and!; try done; [by apply (bool_decide_unpack _)|].
  apply Forall_forall. intros a Ha. apply list_elem_of_lookup_1 in Ha as [i Hi].
  destruct (Forall2_lookup_r _ _ _ _ _ Hl Hi) as ([m o] & Hmo & Hans). eapply answers_wf; [|exact Hans].
  apply list_elem_of_lookup_2 in Hmo. unfold matched in Hmo. apply list_elem_of_omap in Hmo as (m' & Hm' & E).
  destruct (find_md _ _); [|done]. injection E as -> ->. rewrite Forall_forall in Hm. by apply Hm.
Qed.

(** A section without formats prints a line that no parser state accepts. *)
Lemma unreadable_section `{SetOrder} s a :
  printable s -> a ∈ media_descriptions s -> fmts a = ∅ -> is_ok (sdp_from_str (show_sdp s)) = false.
Proof.
  intros Hs Ha Hf. unfold sdp_from_str. rewrite show_sdp_lines, split_join; [|done|by apply sdp_lines_no_newline].
  assert (E : is_ok (handle_lines (sdp_lines s) []) = false).
  { eapply (handle_lines_err (lit "m=" ++ join [32] (m_words a))).
    - unfold sdp_lines. apply elem_of_app. right. apply list_elem_of_In, in_flat_map. exists a.
      split; [by apply list_elem_of_In|]. left. done.
    - intros mds. destruct Hs as (_ & _ & _ & _ & _ & Hs). rewrite Forall_forall in Hs. specialize (Hs a Ha).
      by apply handle_short_m_line. }
  by destruct (handle_lines (sdp_lines s) []).
Qed.

(** * Properties *)

(** C22: printing then parsing.  A description whose strings are single words
    where the format writes words, whose numbers are in range and whose rtpmaps
    use advertised formats is read back with exactly the same media sections, in
    any iteration order of the format sets; the header comes back with its
    default values, so a description with the default header is read back
    unchanged. *)
Theorem sdp_roundtrip `{SetOrder} s :
  wf_sdp s ->
  sdp_from_str (show_sdp s) = Ok (new (media_descriptions s) SdpConfig_default) /\
  (s = new (media_descriptions s) SdpConfig_default -> sdp_from_str (show_sdp s) = Ok s).
Proof. intros Hs. rewrite (sdp_print_parse s Hs). split; [done|]. by intros <-. Qed.

(** C15: whatever parses is relayed intact.  The description read from any text
    satisfies the invariant of the format and is read back identically once
    printed; if the text came out of a field of a client/server message, the
    printed description fits such a field again.  So the offers and answers that
    the server reads from one client and writes to another are carried exactly,
    whatever text the first client sent. *)
Theorem sdp_relay `{SetOrder} t s :
  sdp_from_str t = Ok s -> wf_sdp s /\ sdp_from_str (show_sdp s) = Ok s /\ (field t -> wired s).
Proof.
  intros Hs. pose proof (sdp_parsed_wf t s Hs) as Hwf. pose proof (sdp_print_parse s Hwf) as E.
  assert (Hn : new (media_descriptions s) SdpConfig_default = s).
  { unfold sdp_from_str in Hs. destruct (handle_lines _ _); [|done]. by injection Hs as <-. }
  rewrite Hn in E. split_and!; [done|done|]. intros Ht. split; cbn [from_str display sdp_wire]; [by rewrite E|].
  apply field_chars. eapply sdp_parsed_field; [by apply field_chars|exact Hs].
Qed.

(** Creating an answer always succeeds.  It has one section for every local
    section that has a counterpart in the offer (same media type and protocol),
    in local order; each keeps exactly the local formats whose codec the offer
    also has, every other local attribute, and only common rtpmaps; and when
    each of these sections shares a codec with its counterpart, the peer reads
    back exactly these sections. *)
Lemma answer_spec `{SetOrder} s offer :
  printable s ->
  exists ans, create_answer s offer = Ok ans /\
    Forall2 (fun p a => answers p.1 p.2 a) (matched (media_descriptions offer) (media_descriptions s)) (media_descriptions ans) /\
    (Forall (fun a => fmts a <> ∅) (media_descriptions ans) ->
     sdp_from_str (show_sdp ans) = Ok (new (media_descriptions ans) SdpConfig_default)).
Proof.
  intros Hp. unfold create_answer.
  destruct (answer_loop_spec (media_descriptions s) (media_descriptions offer)) as (l & -> & Hl). cbn [rbind].
  eexists. split; [reflexivity|]. cbn [media_descriptions new]. split; [done|]. intros Hne. apply sdp_print_parse.
  destruct (answer_printable s offer l Hp Hl) as (? & ? & ? & ? & ? & Hs). split_and!; try done.
  cbn [media_descriptions new] in *. rewrite Forall_forall in Hne. rewrite Forall_forall in Hs.
  apply Forall_forall. intros a Ha. split; [by apply Hs|by apply Hne].
Qed.

(** An answer in which some section has no common codec cannot be read by
    the peer: the whole answer is refused, the compatible sections included. *)
Lemma answer_unreadable `{SetOrder} s offer m o ans :
  printable s -> (m, o) ∈ matched (media_descriptions offer) (media_descriptions s) ->
  (forall f n r p, RTPMap f n r p ∈ md_attributes m -> offered n (md_attributes o) = 0%nat) ->
  create_answer s offer = Ok ans -> is_ok (sdp_from_str (show_sdp ans)) = false.
Proof.
  intros Hp0 Hin Hno. unfold create_answer.
  destruct (answer_loop_spec (media_descriptions s) (media_descriptions offer)) as (l & -> & Hl). cbn [rbind]. intros [= <-].
  assert (Hp : printable (new l (Config.mk_sdp (version s) (origin_id s) (session_name s) (timing s)
    (lit "IN") (lit "IP4") (lit "0.0.0.0")))) by (by apply (answer_printable s offer)).
  apply list_elem_of_lookup_1 in Hin as [i Hi]. destruct (Forall2_lookup_l _ _ _ _ _ Hl Hi) as (a & Ha & Hans).
  apply list_elem_of_lookup_2 in Ha. apply (unreadable_section _ a Hp Ha).
  destruct Hans as (_ & _ & _ & Hf & _). apply set_eq. intros f. rewrite Hf. split; [|by intros ?%elem_of_empty].
  intros (n & r & p & Hr & Hc). by apply Hno in Hr.
Qed.

(** * Witnesses *)

Definition by_elements : SetOrder := {| order s := elements s; order_perm s := reflexivity _ |}.
#[local] Existing Instance by_elements.

Definition video_md : MediaDescription :=
  mk_md (lit "video") 5004 (lit "RTP/AVP") {[96]}
    [RTPMap 96 (lit "H264") 90000 None; FingerprintAttr (mk_fingerprint (lit "sha-256") [171; 5]); Setup ActPass;
     CandidateAttr (mk_candidate Host 2130706431 (lit "10.0.0.1") 5004 1 (lit "1") (lit "UDP"))].
Definition audio_md (codec : string) : MediaDescription :=
  mk_md (lit "audio") 5004 (lit "RTP/AVP") {[111]} [RTPMap 111 (lit codec) 48000 (Some (lit "1")); Setup ActPass].
Definition sample (codec : string) : SessionDescriptionProtocol := new [video_md; audio_md codec] SdpConfig_default.

Lemma word_ok s : bool_decide (s <> []) && forallb (fun c => negb (is_ws c)) s = true -> is_word s.
Proof.
  intros [Hne%bool_decide_eq_true Hf]%andb_true_iff. split; [done|]. apply Forall_forall. intros c Hc%list_elem_of_In.
  rewrite forallb_forall in Hf. by apply negb_true_iff, Hf.
Qed.

Lemma piece_ok s : forallb (fun c => negb (is_ws c) && negb (c =? c! "/")) s = true -> piece s.
Proof.
  intros Hf. rewrite forallb_forall in Hf. split.
  - apply Forall_forall. intros c [Hc _]%list_elem_of_In%Hf%andb_true_iff. by apply negb_true_iff.
  - intros [_ Hc]%list_elem_of_In%Hf%andb_true_iff. done.
Qed.

Lemma one_format f (P : Z -> Prop) : P f -> (forall g, g ∈ ({[f]} : gset Z) -> P g) /\ ({[f]} : gset Z) <> ∅.
Proof. intros Hf. split; [by intros g ->%elem_of_singleton|]. apply non_empty_singleton_L. Qed.

Lemma video_wf : wf_md video_md.
Proof.
  destruct (one_format 96 (fits 8)) as [Hf Hne]; [split; vm_compute; congruence|]. split; [|exact Hne].
  unfold wf_section. cbn [media_type protocol md_port fmts md_attributes video_md].
  split_and!; try (apply word_ok; reflexivity); try (split; vm_compute; congruence); [exact Hf| |].
  - repeat apply Forall_cons_2; try apply Forall_nil_2; [| | |].
    + split_and!; [split; vm_compute; congruence|done|apply piece_ok; reflexivity|split; vm_compute; congruence|done].
    + split_and!; [apply word_ok; reflexivity|done|by apply (bool_decide_unpack (Forall is_byte [171; 5]))].
    + done.
    + split_and!; try (apply word_ok; reflexivity); split; vm_compute; congruence.
  - intros f n r p. rewrite !elem_of_cons, elem_of_nil. intros [[= -> -> -> ->]|[?|[?|[?|?]]]]; by try apply elem_of_singleton.
Qed.

Lemma audio_wf codec : is_word (lit codec) -> c! "/" ∉ lit codec -> wf_md (audio_md codec).
Proof.
  intros Hw Hs. destruct (one_format 111 (fits 8)) as [Hf Hne]; [split; vm_compute; congruence|]. split; [|exact Hne].
  unfold wf_section. cbn [media_type protocol md_port fmts md_attributes audio_md].
  split_and!; try (apply word_ok; reflexivity); try (split; vm_compute; congruence); [exact Hf| |].
  - repeat apply Forall_cons_2; try apply Forall_nil_2; [|done].
    split_and!; [split; vm_compute; congruence|apply Hw|by split; [apply Hw|]|split; vm_compute; congruence|apply piece_ok; reflexivity].
  - intros f n r p. rewrite !elem_of_cons, elem_of_nil. intros [[= -> -> -> ->]|[?|?]]; by try apply elem_of_singleton.
Qed.

Lemma sample_wf codec : is_word (lit codec) -> c! "/" ∉ lit codec -> wf_sdp (sample codec).
Proof. intros Hw Hs. apply new_default_wf. repeat apply Forall_cons_2; [apply video_wf|by apply audio_wf|constructor]. Qed.

Lemma opus_wf : wf_sdp (sample "opus").
Proof. apply sample_wf; [apply word_ok; reflexivity|by apply (bool_decide_unpack _)]. Qed.

Lemma sdp_roundtrip_witness : sdp_from_str (show_sdp (sample "opus")) = Ok (sample "opus").
Proof.
  refine (proj2 (sdp_roundtrip (sample "opus") _) eq_refl). apply opus_wf.
Defined.

Lemma sdp_relay_witness :
  exists s, sdp_from_str (lit "m=video 5004 RTP/AVP 96 97") = Ok s /\ wired s.
Proof.
  eexists. split; [vm_compute; reflexivity|].
  apply (sdp_relay (lit "m=video 5004 RTP/AVP 96 97")); [vm_compute; reflexivity|]. apply ascii_field. reflexivity.
Defined.
