(* ===== verification/CallSession.v ===== *)
(** The call session (src/session/call_session.rs): creation of the local
    description, offers and answers, and the negotiation of the DTLS roles.
    The socket, the network interfaces, the STUN answer and the self-signed
    certificate (dtls/key_manager.rs, OpenSSL) are arguments. *)

From S2P Require Import Prelude.
From S2P Require Import Text.
From S2P Require Import Wire.
From S2P Require Import Config.
From S2P Require Import Ice.
From S2P Require Import SdpAttribute.
From S2P Require Import Sdp.

(** * Definitions *)

(** error.rs *)
Inductive CallSessionError : Type :=
| SdpCreationError (e : str)
| IceConnectionError (e : str)
| BadAddress
| SecurityInitializationError (e : str)
| MapError (e : str).

Definition show_session_error (e : CallSessionError) : str :=
  match e with
  | BadAddress => quoted "Bad address"
  | SdpCreationError e | IceConnectionError e | SecurityInitializationError e =>
      lit "Error: " ++ [34] ++ e ++ [34]
  | MapError e => e
  end.

(** The session without its socket; of the certificate, the fingerprint text. *)
Record CallSession := mk_session {
  sdp : SessionDescriptionProtocol;
  ice_agent : IceAgent;
  local_cert : str;
  remote_fingerprint : option Fingerprint;
  remote_setup_role : option DtlsSetupRole;
  local_setup_role : DtlsSetupRole
}.

Inductive RemoteSdpType : Type := Offer | Answer.

(** ** Creation *)

Section Create.
Context {F64 F32 : Type} (config : Config F64 F32).

Definition generate_video_md (local_port : Z) : result MediaDescription CallSessionError :=
  let md := new_md (video_media_type (media config)) local_port (media_protocol (media config))
    {[video_payload_type (media config)]} in
  map_err (fun e => SdpCreationError (lit "Failed to add Video RTPMap: " ++ show_error e))
    (add_attribute md (RTPMap (video_payload_type (media config)) (video_codec_name (media config))
      (clock_rate (media config)) None)).

Definition generate_audio_md (local_port : Z) : result MediaDescription CallSessionError :=
  let md := new_md (audio_media_type (media config)) local_port (media_protocol (media config))
    {[audio_payload_type (media config)]} in
  map_err (fun e => SdpCreationError (lit "Failed to add Audio RTPMap: " ++ show_error e))
    (add_attribute md (RTPMap (audio_payload_type (media config)) (audio_codec_name (media config))
      (audio_sample_rate (media config)) (Some (show (audio_channels (media config)))))).

Definition sdp_err {A} (m : result A SdpError) : result A CallSessionError :=
  map_err (fun e => SdpCreationError (show_error e)) m.

Definition apply_common_attributes (md : MediaDescription) (fingerprint : Fingerprint) (role : DtlsSetupRole)
    (candidates : list Candidate) : result MediaDescription CallSessionError :=
  let? md := sdp_err (add_attribute md (FingerprintAttr fingerprint)) in
  let? md := sdp_err (add_attribute md (Setup role)) in
  sdp_err (add_attributes md (map CandidateAttr candidates)).

(** [local_addr]: the port of the socket or the error of reading it; [cert]:
    the fingerprint of the generated certificate or the generator's error. *)
Definition new (interfaces : option (list (bool * option str))) (local_addr : result Z str)
    (public : result str str) (cert : result str str) : result CallSession CallSessionError :=
  let '(gathered, agent) := gather_candidates interfaces (result_ok local_addr) public (Config.ice config) Ice.new in
  let? _ := map_err (fun e => IceConnectionError (lit "Failed to gather ICE candidates: " ++ show_ice_error e)) gathered in
  let? local_port := map_err IceConnectionError local_addr in
  let? video := map_err (fun e => MapError (show_session_error e)) (generate_video_md local_port) in
  let? audio := map_err (fun e => MapError (show_session_error e)) (generate_audio_md local_port) in
  let? local_cert :=
    map_err (fun e => SecurityInitializationError (lit "Failed to generate local certificate: " ++ e)) cert in
  let? fingerprint := map_err (fun e => MapError (show_error e)) (from_hash_string (lit "sha-256") local_cert) in
  let candidates := get_local_candidates agent in
  let? video := apply_common_attributes video fingerprint ActPass candidates in
  let? audio := apply_common_attributes audio fingerprint ActPass candidates in
  let s := Sdp.new [video; audio] (Config.sdp config) in
  let s := match get_local_candidate agent with
           | Some c => set_connection_data (lit "IN") (lit "IP4") (address c) s
           | None => s
           end in
  Ok (mk_session s agent local_cert None None ActPass).

End Create.

(** ** Roles *)

Definition determine_complementary_role (remote_role : DtlsSetupRole) (remote_type : RemoteSdpType) : DtlsSetupRole :=
  match remote_role with
  | Active => Passive
  | Passive => Active
  | HoldConn => Passive
  | ActPass => match remote_type with Offer => Active | Answer => Passive end
  end.

Definition determine_local_role (s : CallSession) (remote_sdp : SessionDescriptionProtocol)
    (remote_type : RemoteSdpType) : DtlsSetupRole :=
  match head (media_descriptions remote_sdp) ≫= get_setup_role with
  | Some remote_role => determine_complementary_role remote_role remote_type
  | None => match remote_type with Offer => Active | Answer => local_setup_role s end
  end.

Definition is_setup (a : Attribute) : bool := match a with Setup _ => true | _ => false end.

(** The loop over the sections: the first one that fails stops it. *)
Fixpoint replace_setup (role : DtlsSetupRole) (mds : list MediaDescription) :
    result unit CallSessionError * list MediaDescription :=
  match mds with
  | [] => (Ok tt, [])
  | md :: mds =>
      let kept := with_attributes (List.filter (fun a => negb (is_setup a)) (md_attributes md)) md in
      match add_attribute kept (Setup role) with
      | Err e => (Err (SdpCreationError (lit "Failed to update setup attribute: " ++ show_error e)), kept :: mds)
      | Ok md => let '(r, mds) := replace_setup role mds in (r, md :: mds)
      end
  end.

Definition with_sections (mds : list MediaDescription) (s : SessionDescriptionProtocol) : SessionDescriptionProtocol :=
  mk_sdp (Sdp.version s) (Sdp.origin_id s) (Sdp.session_name s) (Sdp.timing s) mds (connection_data s).

Definition with_sdp (d : SessionDescriptionProtocol) (s : CallSession) : CallSession :=
  mk_session d (ice_agent s) (local_cert s) (remote_fingerprint s) (remote_setup_role s) (local_setup_role s).
Definition with_role (r : DtlsSetupRole) (s : CallSession) : CallSession :=
  mk_session (sdp s) (ice_agent s) (local_cert s) (remote_fingerprint s) (remote_setup_role s) r.
Definition with_agent (a : IceAgent) (s : CallSession) : CallSession :=
  mk_session (sdp s) a (local_cert s) (remote_fingerprint s) (remote_setup_role s) (local_setup_role s).
Definition with_remote_fingerprint (f : Fingerprint) (s : CallSession) : CallSession :=
  mk_session (sdp s) (ice_agent s) (local_cert s) (Some f) (remote_setup_role s) (local_setup_role s).
Definition with_remote_role (r : DtlsSetupRole) (s : CallSession) : CallSession :=
  mk_session (sdp s) (ice_agent s) (local_cert s) (remote_fingerprint s) (Some r) (local_setup_role s).

Definition set_local_setup_role (role : DtlsSetupRole) (s : CallSession) : result unit CallSessionError * CallSession :=
  if decide (local_setup_role s = role) then (Ok tt, s) else
  let '(r, mds) := replace_setup role (media_descriptions (sdp s)) in
  let s := with_sdp (with_sections mds (sdp s)) s in
  match r with
  | Err e => (Err e, s)
  | Ok _ => (Ok tt, with_role role s)
  end.

(** ** Remote descriptions *)

Fixpoint add_candidates (cs : list Candidate) (s : CallSession) : result unit CallSessionError * CallSession :=
  match cs with
  | [] => (Ok tt, s)
  | c :: cs =>
      let '(r, a) := add_remote_candidate c (ice_agent s) in
      let s := with_agent a s in
      match r with
      | Err e => (Err (IceConnectionError (show_ice_error e)), s)
      | Ok _ => add_candidates cs s
      end
  end.

Fixpoint process_sections (remote_type : RemoteSdpType) (mds : list MediaDescription) (s : CallSession) :
    result unit CallSessionError * CallSession :=
  match mds with
  | [] => (Ok tt, s)
  | md :: mds =>
      let '(r, s) := add_candidates (get_candidates md) s in
      match r with
      | Err e => (Err e, s)
      | Ok _ =>
          let s := match get_fingerprint md with Some f => with_remote_fingerprint f s | None => s end in
          match get_setup_role md with
          | Some remote_role =>
              let s := with_remote_role remote_role s in
              let '(r, s) := set_local_setup_role (determine_complementary_role remote_role remote_type) s in
              match r with
              | Err e => (Err e, s)
              | Ok _ => process_sections remote_type mds s
              end
          | None => process_sections remote_type mds s
          end
      end
  end.

Definition process_remote_sdp (remote : SessionDescriptionProtocol) (remote_type : RemoteSdpType) (s : CallSession) :
    result unit CallSessionError * CallSession :=
  process_sections remote_type (media_descriptions remote) s.

Definition process_offer (offer_sdp : SessionDescriptionProtocol) (s : CallSession) :
    result SessionDescriptionProtocol CallSessionError * CallSession :=
  let desired_role := determine_local_role s offer_sdp Offer in
  let '(r, s) := set_local_setup_role desired_role s in
  match r with
  | Err e => (Err e, s)
  | Ok _ =>
      match create_answer (sdp s) offer_sdp with
      | Err e => (Err (SdpCreationError (show_error e)), s)
      | Ok answer_sdp =>
          let '(r, s) := process_remote_sdp offer_sdp Offer s in
          match r with
          | Err e => (Err e, s)
          | Ok _ => (Ok answer_sdp, s)
          end
      end
  end.

Definition process_answer (answer_sdp : SessionDescriptionProtocol) (s : CallSession) :
    result unit CallSessionError * CallSession :=
  process_remote_sdp answer_sdp Answer s.

Definition start_ice_checks (timeout_set : bool) (traffic : nat -> list turn) (s : CallSession) :
    result unit CallSessionError * CallSession :=
  let '(r, a) := start_connectivity_checks timeout_set traffic (ice_agent s) in
  (map_err (fun e => IceConnectionError (show_ice_error e)) r, with_agent a s).

Definition get_offer (s : CallSession) : SessionDescriptionProtocol := sdp s.

Definition session_selected_pair (s : CallSession) : result CandidatePair CallSessionError :=
  map_err (fun e => IceConnectionError (show_ice_error e)) (get_selected_pair (ice_agent s)).

(** * Lemmas *)

(** ** Roles and sections *)

(** A section that announces one role and one identity. *)
Definition announces (role : DtlsSetupRole) (fp : Fingerprint) (cs : list Candidate) (m : MediaDescription) : Prop :=
  wf_section m /\ List.filter is_setup (md_attributes m) = [Setup role] /\ get_fingerprint m = Some fp /\
  get_candidates m = cs.

Lemma first_setup_filter l : first_setup l = match List.filter is_setup l with Setup r :: _ => Some r | _ => None end.
Proof. induction l as [|a l IH]; [done|]. by destruct a. Qed.

Lemma announces_role role fp cs m : announces role fp cs m -> get_setup_role m = Some role.
Proof. intros (_ & E & _). unfold get_setup_role. by rewrite first_setup_filter, E. Qed.

Lemma filter_setup_none l : List.filter is_setup (List.filter (fun a => negb (is_setup a)) l) = [].
Proof. induction l as [|a l IH]; [done|]. by destruct a. Qed.

Lemma fingerprint_kept l r : first_fingerprint (List.filter (fun a => negb (is_setup a)) l ++ [Setup r]) = first_fingerprint l.
Proof. induction l as [|a l IH]; [done|]. by destruct a. Qed.

Lemma candidates_kept l r :
  omap (fun a => match a with CandidateAttr c => Some c | _ => None end)
    (List.filter (fun a => negb (is_setup a)) l ++ [Setup r]) =
  omap (fun a => match a with CandidateAttr c => Some c | _ => None end) l.
Proof. induction l as [|a l IH]; [done|]. destruct a; cbn in *; try done. by f_equal. Qed.

(** Replacing the role of a section. *)
Definition resetup (role : DtlsSetupRole) (m : MediaDescription) : MediaDescription :=
  with_attributes (List.filter (fun a => negb (is_setup a)) (md_attributes m) ++ [Setup role]) m.

Lemma replace_setup_ok role mds : replace_setup role mds = (Ok tt, map (resetup role) mds).
Proof. induction mds as [|m mds IH]; [done|]. cbn [replace_setup add_attribute map]. by rewrite IH. Qed.

Lemma resetup_announces role role' fp cs m : announces role fp cs m -> announces role' fp cs (resetup role' m).
Proof.
  intros ((H1 & H2 & H3 & H4 & H5 & H6) & Hs & Hf & Hc). unfold announces, wf_section, get_fingerprint, get_candidates, resetup.
  cbn [md_attributes with_attributes media_type protocol md_port fmts]. split_and!; try done.
  - apply Forall_app. split; [|by constructor]. apply Forall_forall. intros a Ha%list_elem_of_In%List.filter_In.
    rewrite Forall_forall in H5. apply H5, list_elem_of_In, Ha.
  - intros f n r p [Ha%list_elem_of_In%List.filter_In|Ha%list_elem_of_singleton]%elem_of_app; [|done].
    eapply H6. apply list_elem_of_In, Ha.
  - by rewrite List.filter_app, filter_setup_none.
  - rewrite fingerprint_kept. exact Hf.
  - rewrite candidates_kept. exact Hc.
Qed.

(** Setting the role: never fails, and touches the sections and the role only. *)
Lemma set_role_ok role s :
  exists s', set_local_setup_role role s = (Ok tt, s') /\ local_setup_role s' = role /\
    ice_agent s' = ice_agent s /\ remote_fingerprint s' = remote_fingerprint s /\
    remote_setup_role s' = remote_setup_role s /\
    s' = (if decide (local_setup_role s = role) then s
          else with_role role (with_sdp (with_sections (map (resetup role) (media_descriptions (sdp s))) (sdp s)) s)).
Proof.
  unfold set_local_setup_role. destruct (decide (local_setup_role s = role)) as [E|E].
  - exists s. by split_and!.
  - rewrite replace_setup_ok. eexists. split; [reflexivity|]. by split_and!.
Qed.

(** ** Remote candidates *)

Lemma add_candidates_ok cs s :
  paired (ice_agent s) ->
  exists a', add_candidates cs s = (Ok tt, with_agent a' s) /\ paired a' /\
    local_candidates a' = local_candidates (ice_agent s) /\
    remote_candidates a' = remote_candidates (ice_agent s) ++ cs.
Proof.
  revert s. induction cs as [|c cs IH]; intros s Hp; cbn [add_candidates].
  - exists (ice_agent s). rewrite app_nil_r. split_and!; try done. by destruct s.
  - rewrite add_remote_one. destruct (add_remote_spec [c] (ice_agent s) Hp ltac:(done)) as (a & -> & Ha & Hl & Hr & _).
    destruct (IH (with_agent a s) Ha) as (a' & -> & Ha' & Hl' & Hr'). exists a'. split_and!; try done.
    + rewrite Hl'. exact Hl.
    + rewrite Hr'. cbn [ice_agent with_agent]. by rewrite Hr, <-app_assoc.
Qed.

(** Processing sections that all announce the same role and identity. *)
Lemma process_sections_ok ty r fp cs mds s :
  Forall (announces r fp cs) mds -> mds <> [] -> paired (ice_agent s) ->
  exists s', process_sections ty mds s = (Ok tt, s') /\
    local_setup_role s' = determine_complementary_role r ty /\ remote_setup_role s' = Some r /\
    remote_fingerprint s' = Some fp /\ paired (ice_agent s') /\
    local_candidates (ice_agent s') = local_candidates (ice_agent s) /\
    (forall c, c ∈ cs -> c ∈ remote_candidates (ice_agent s')).
Proof.
  intros Hall. revert s. induction Hall as [|m mds Hm Hall IH]; intros s Hne Hp; [done|]. cbn [process_sections].
  pose proof (announces_role _ _ _ _ Hm) as Hrole. destruct Hm as (_ & _ & Hf & Hc). rewrite Hc.
  destruct (add_candidates_ok cs s Hp) as (a & -> & Ha & Hl & Hr). rewrite Hf, Hrole.
  set (s1 := with_remote_role r (with_remote_fingerprint fp (with_agent a s))).
  destruct (set_role_ok (determine_complementary_role r ty) s1) as (s2 & -> & H1 & H2 & H3 & H4 & _).
  assert (Hin : forall c, c ∈ cs -> c ∈ remote_candidates (ice_agent s2)).
  { intros c Hcin. rewrite H2. cbn. rewrite Hr. apply elem_of_app. by right. }
  assert (Hl2 : local_candidates (ice_agent s2) = local_candidates (ice_agent s)) by (rewrite H2; exact Hl).
  assert (Hp2 : paired (ice_agent s2)) by (by rewrite H2).
  destruct mds as [|m' mds].
  - exists s2. split_and!; try done.
  - destruct (IH s2 ltac:(done) Hp2) as (s' & -> & I1 & I2 & I3 & I4 & I5 & I6).
    exists s'. split_and!; try done. by rewrite I5.
Qed.

(** ** Answers *)

(** A function of the attributes that ignores rtpmaps does not see the copies. *)
Lemma copies_skip {B} (f : list Attribute -> B) (g : Attribute -> B -> B) offer l :
  (forall a l, f (a :: l) = g a (f l)) -> (forall fm n r p b, g (RTPMap fm n r p) b = b) ->
  f (flat_map (fun a => replicate (copies offer a) a) l) = f l.
Proof.
  intros Hf Hg. assert (R : forall k fm n r p l', f (replicate k (RTPMap fm n r p) ++ l') = f l').
  { intros k fm n r p l'. induction k as [|k IH]; [done|]. cbn [replicate app]. by rewrite Hf, Hg. }
  induction l as [|a l IH]; [done|]. cbn [flat_map]. destruct a as [c|fm n r p|fp|r].
  2:{ by rewrite R, IH, Hf, Hg. }
  all: cbn [copies replicate app]; by rewrite !Hf, IH.
Qed.

Lemma answers_announce role fp cs m o ans : announces role fp cs m -> answers m o ans -> announces role fp cs ans.
Proof.
  intros (Hw & Hs & Hf & Hc) Ha. split; [by eapply answers_wf|].
  destruct Ha as (_ & _ & _ & _ & E). unfold get_fingerprint, get_candidates in *. rewrite E. split_and!.
  - rewrite <-Hs. apply (copies_skip (List.filter is_setup) (fun a b => if is_setup a then a :: b else b)); done.
  - rewrite <-Hf. apply (copies_skip first_fingerprint (fun a b => match a with FingerprintAttr f => Some f | _ => b end)); [|done].
    by intros [].
  - rewrite <-Hc. apply (copies_skip _ (fun a b => match a with CandidateAttr c => c :: b | _ => b end)); [|done]. by intros [].
Qed.

(** Every local section with a counterpart shares a codec with it, and there is one. *)
Definition compatible (local offer : list MediaDescription) : Prop :=
  matched offer local <> [] /\
  forall m o, (m, o) ∈ matched offer local ->
    exists f n r p, RTPMap f n r p ∈ md_attributes m /\ offered n (md_attributes o) <> 0%nat.

Lemma matched_in offer local m o : (m, o) ∈ matched offer local -> m ∈ local /\ o ∈ offer.
Proof.
  unfold matched. intros (m' & Hm & E)%list_elem_of_omap. destruct (find_md (same_media m') offer) as [o'|] eqn:Ef; [|done].
  injection E as -> ->. split; [done|]. by apply find_md_spec in Ef as [].
Qed.

Lemma find_md_resetup role m offer : find_md (same_media (resetup role m)) offer = find_md (same_media m) offer.
Proof. done. Qed.

Lemma matched_resetup role offer local :
  matched offer (map (resetup role) local) = map (fun p => (resetup role p.1, p.2)) (matched offer local).
Proof.
  induction local as [|m local IH]; [done|]. unfold matched in *. cbn [map omap list_omap].
  rewrite find_md_resetup. destruct (find_md (same_media m) offer); cbn [option_map map]; [by f_equal|done].
Qed.

Lemma compatible_resetup role local offer : compatible local offer -> compatible (map (resetup role) local) offer.
Proof.
  intros [Hne Hc]. unfold compatible. rewrite matched_resetup. split; [by destruct (matched offer local)|].
  intros m o Hin. apply list_elem_of_fmap in Hin as ([m' o'] & [= -> ->] & Hin).
  destruct (Hc m' o' Hin) as (f & n & r & p & Hr & Ho). exists f, n, r, p. split; [|done].
  apply elem_of_app. left. apply list_elem_of_In, List.filter_In. split; [by apply list_elem_of_In|done].
Qed.

(** ** The session invariant *)

(** A session with a role: its description is well formed, every section
    announces the role, the identity and all the local candidates. *)
Definition ready (role : DtlsSetupRole) (fp : Fingerprint) (s : CallSession) : Prop :=
  local_setup_role s = role /\ wf_sdp (sdp s) /\ media_descriptions (sdp s) <> [] /\
  Forall (announces role fp (local_candidates (ice_agent s))) (media_descriptions (sdp s)) /\
  paired (ice_agent s).

Lemma ready_set_role role role' fp s :
  ready role fp s -> role' <> role ->
  exists s', set_local_setup_role role' s = (Ok tt, s') /\ ready role' fp s' /\
    media_descriptions (sdp s') = map (resetup role') (media_descriptions (sdp s)) /\
    ice_agent s' = ice_agent s.
Proof.
  intros (Hr & Hwf & Hne & Hall & Hp) Hneq. destruct (set_role_ok role' s) as (s' & E & H1 & H2 & H3 & H4 & Es).
  exists s'. rewrite E. split; [done|]. rewrite decide_False in Es by congruence. subst s'.
  cbn [sdp with_role with_sdp with_sections media_descriptions ice_agent]. split_and!; try done.
  assert (Hall' : Forall (announces role' fp (local_candidates (ice_agent s))) (map (resetup role') (media_descriptions (sdp s)))).
  { apply Forall_map. eapply Forall_impl; [exact Hall|]. intros m. apply resetup_announces. }
  unfold ready. cbn [local_setup_role sdp with_role with_sdp with_sections media_descriptions ice_agent].
  split_and!; try done; [|by destruct (media_descriptions (sdp s))].
  destruct Hwf as (W1 & W2 & W3 & W4 & W5 & W6). unfold wf_sdp.
  cbn [Sdp.version Sdp.origin_id Sdp.session_name Sdp.timing connection_data media_descriptions with_sections].
  split_and!; try done. apply Forall_map. rewrite Forall_forall in W6. rewrite Forall_forall in Hall.
  apply Forall_forall. intros m Hm. split; [|by apply (W6 m Hm)].
  eapply (resetup_announces role role'). by apply Hall.
Qed.

(** The answer of a ready session to compatible sections is readable. *)
Lemma ready_answer role fp s offer :
  ready role fp s -> compatible (media_descriptions (sdp s)) (media_descriptions offer) ->
  exists ans, create_answer (sdp s) offer = Ok ans /\ wf_sdp ans /\ media_descriptions ans <> [] /\
    Forall (announces role fp (local_candidates (ice_agent s))) (media_descriptions ans).
Proof.
  intros (_ & Hwf & _ & Hall & _) [Hne Hc]. unfold create_answer.
  destruct (answer_loop_spec (media_descriptions (sdp s)) (media_descriptions offer)) as (l & -> & Hl). cbn [rbind].
  eexists. split; [reflexivity|]. cbn [media_descriptions Sdp.new].
  assert (Hl' : forall a, a ∈ l -> announces role fp (local_candidates (ice_agent s)) a /\ fmts a <> ∅).
  { intros a Ha. apply list_elem_of_lookup_1 in Ha as [i Hi].
    destruct (Forall2_lookup_r _ _ _ _ _ Hl Hi) as ([m o] & Hmo%list_elem_of_lookup_2 & Hans). cbn [fst snd] in Hans. split.
    - eapply answers_announce; [|exact Hans]. rewrite Forall_forall in Hall. apply Hall, (matched_in _ _ _ _ Hmo).
    - destruct (Hc m o Hmo) as (f & n & r & p & Hr & Ho). destruct Hans as (_ & _ & _ & Hf & _).
      assert (Hin : f ∈ fmts a) by (apply Hf; by exists n, r, p). intros E. rewrite E in Hin. by apply elem_of_empty in Hin. }
  split_and!.
  - pose proof (answer_printable (sdp s) offer l (wf_printable _ Hwf) Hl) as (P1 & P2 & P3 & P4 & P5 & P6).
    split_and!; try done. cbn [media_descriptions Sdp.new] in *. rewrite Forall_forall in P6. apply Forall_forall.
    intros a Ha. split; [by apply P6|by apply Hl'].
  - intros ->. apply Forall2_nil_inv_r in Hl. done.
  - apply Forall_forall. intros a Ha. by apply Hl'.
Qed.

(** ** Creation *)

(** Settings with which the local description can be written down. *)
Record usable {F64 F32} (c : Config F64 F32) : Prop := mk_usable {
  us_video : is_word (video_media_type (media c));
  us_audio : is_word (audio_media_type (media c));
  us_proto : is_word (media_protocol (media c));
  us_vcodec : video_codec_name (media c) <> [] /\ piece (video_codec_name (media c));
  us_acodec : audio_codec_name (media c) <> [] /\ piece (audio_codec_name (media c));
  us_vtype : fits 8 (video_payload_type (media c));
  us_atype : fits 8 (audio_payload_type (media c));
  us_vrate : fits 32 (clock_rate (media c));
  us_arate : fits 32 (audio_sample_rate (media c));
  us_channels : fits 8 (audio_channels (media c));
  us_foundation : is_word (Config.foundation (Config.ice c));
  us_transport : is_word (Config.transport (Config.ice c));
  us_comp : fits 8 (Config.component_id (Config.ice c));
  us_pref : 0 <= host_priority_preference (Config.ice c) < 128;
  us_lpref : fits 16 (host_local_preference (Config.ice c));
  us_version : 0 <= Config.version (Config.sdp c) /\ 0 <= Config.origin_id (Config.sdp c);
  us_name : (10 ∉ Config.session_name (Config.sdp c)) /\ (10 ∉ Config.timing (Config.sdp c));
  us_conn : (10 ∉ connection_data_net_type (Config.sdp c)) /\ (10 ∉ connection_data_addr_type (Config.sdp c)) /\
    (10 ∉ connection_data_address (Config.sdp c))
}.

(** Addresses are single words and the port is a port. *)
Definition host_addresses (interfaces : option (list (bool * option str))) : Prop :=
  forall l b ip, interfaces = Some l -> (b, Some ip) ∈ l -> is_word ip.
Definition public_address (public : result str str) : Prop :=
  forall addr ip p, public = Ok addr -> split_once (c! ":") addr = Some (ip, p) -> is_word ip.

Lemma get_local_ip_word interfaces ip : host_addresses interfaces -> get_local_ip interfaces = Ok ip -> is_word ip.
Proof.
  intros H. unfold get_local_ip. destruct interfaces as [l|]; [|done]. cbn [ok_or rbind].
  assert (Hl : forall b ip, (b, Some ip) ∈ l -> is_word ip) by (intros b i; by apply H). clear H.
  induction l as [|[b o] l IH]; [done|]. cbn [first_address].
  assert (Hl' : forall b ip, (b, Some ip) ∈ l -> is_word ip) by (intros b' i Hin; eapply Hl; right; exact Hin).
  destruct b, o as [i|]; cbn [negb]; try by apply IH. intros [= <-]. eapply Hl. left.
Qed.

Lemma gather_wf {F64 F32} (c : Config F64 F32) interfaces port public :
  usable c -> host_addresses interfaces -> public_address public -> (forall p, port = Some p -> fits 16 p) ->
  let '(r, a) := gather_candidates interfaces port public (Config.ice c) Ice.new in
  r = Ok tt /\ Forall wf_candidate (local_candidates a) /\ remote_candidates a = [] /\ candidate_pairs a = [].
Proof.
  intros Hu Hi Hp Hport. unfold gather_candidates.
  assert (Hh : forall ip, get_local_ip interfaces = Ok ip ->
    wf_candidate (with_port (match port with Some p => p | None => 0 end) (new_host ip (Config.component_id (Config.ice c)) (Config.ice c)))).
  { intros ip Hip. apply get_local_ip_word in Hip; [|done]. unfold wf_candidate, new_host, with_port.
    cbn [Ice.foundation Ice.transport address Ice.component_id priority Ice.port]. pose proof (us_pref c Hu). pose proof (us_lpref c Hu).
    rewrite (host_priority Host) by (done || lia). split_and!; try apply Hu; [done|unfold fits in *; lia|].
    destruct port as [p|]; [by apply Hport|by split]. }
  set (a1 := match get_local_ip interfaces with Ok _ => _ | Err _ => _ end).
  assert (H1 : Forall wf_candidate (local_candidates a1) /\ remote_candidates a1 = [] /\ candidate_pairs a1 = []).
  { unfold a1. destruct (get_local_ip interfaces) as [ip|]; [|by split_and!].
    split_and!; [|done|done]. constructor; [by apply Hh|constructor]. }
  destruct H1 as (H1 & H2 & H3). destruct public as [addr|]; [|by split_and!].
  destruct (split_once (c! ":") addr) as [[ip ps]|] eqn:Es; [|by split_and!].
  destruct (parse_uint 16 ps) as [sp|] eqn:Ep; [|by split_and!]. split_and!; [done| |done|done].
  unfold push_local. cbn [local_candidates]. apply Forall_app. split; [done|]. constructor; [|constructor].
  unfold wf_candidate. cbn [Ice.foundation Ice.transport address Ice.component_id priority Ice.port].
  split_and!; try apply Hu; [by eapply Hp|apply wrap_fits; lia|by eapply parse_show_eq].
Qed.

(** A fresh section with its common attributes. *)
Definition fresh_md (mtype : str) (port : Z) (proto : str) (f : Z) (rtpmap : Attribute) (fp : Fingerprint)
    (cs : list Candidate) : MediaDescription :=
  mk_md mtype port proto {[f]} ([rtpmap; FingerprintAttr fp; Setup ActPass] ++ map CandidateAttr cs).

Lemma common_attributes_ok mtype port proto f rtpmap fp cs :
  apply_common_attributes (mk_md mtype port proto {[f]} [rtpmap]) fp ActPass cs = Ok (fresh_md mtype port proto f rtpmap fp cs).
Proof.
  unfold apply_common_attributes, sdp_err. cbn [add_attribute map_err rbind md_attributes with_attributes app].
  rewrite add_attributes_ok; [done|]. intros g n r p Hin. by apply list_elem_of_fmap in Hin as (c & ? & _).
Qed.

Lemma fresh_announces mtype port proto f name rate params fp cs :
  is_word mtype -> fits 16 port -> is_word proto -> wf_attribute (RTPMap f name rate params) ->
  wf_attribute (FingerprintAttr fp) -> Forall wf_candidate cs ->
  announces ActPass fp cs (fresh_md mtype port proto f (RTPMap f name rate params) fp cs) /\
  fmts (fresh_md mtype port proto f (RTPMap f name rate params) fp cs) <> ∅.
Proof.
  intros Hm Hp Hpr Hr Hf Hc. split; [|exact (non_empty_singleton_L (C:=gset Z) f)]. unfold announces, wf_section, fresh_md.
  cbn [media_type protocol md_port fmts md_attributes]. split_and!; try done.
  - intros g ->%elem_of_singleton. apply Hr.
  - cbn [app]. repeat apply Forall_cons_2; try done. apply Forall_map. eapply Forall_impl; [exact Hc|]. done.
  - intros g n r p. rewrite elem_of_app, !elem_of_cons, elem_of_nil.
    intros [[[= -> -> -> ->]|[?|[?|?]]]|(c & ? & _)%list_elem_of_fmap]; try done. by apply elem_of_singleton.
  - cbn [app List.filter is_setup]. f_equal. induction cs as [|c cs IH]; [done|]. apply Forall_cons in Hc as [_ Hc]. by apply IH.
  - unfold get_candidates. cbn. clear Hc. induction cs as [|c cs IH]; [done|]. cbn. by f_equal.
Qed.

Lemma hash_wf alg hash fp : is_word alg -> from_hash_string alg hash = Ok fp -> wf_attribute (FingerprintAttr fp).
Proof.
  intros Ha. unfold from_hash_string. destruct (trim hash) as [|x t]; [done|].
  destruct (parse_hash_parts _) as [bs|] eqn:E; [|done]. cbn [rbind]. destruct bs as [|b bs]; [done|]. intros [= <-].
  split_and!; [done|done|]. by eapply parse_hash_parts_bytes.
Qed.

Lemma no_newline_app3 (x y z : str) : 10 ∉ x -> 10 ∉ y -> 10 ∉ z -> 10 ∉ (x ++ lit " " ++ y ++ lit " " ++ z).
Proof.
  intros Hx Hy Hz. change (lit " ") with [32]. rewrite !elem_of_app, !list_elem_of_singleton. by intros [?|[?|[?|[?|?]]]].
Qed.

(** The session that [new] puts together. *)
Lemma created_ready {F64 F32} (c : Config F64 F32) port fp a cert :
  usable c -> fits 16 port -> wf_attribute (FingerprintAttr fp) -> Forall wf_candidate (local_candidates a) ->
  remote_candidates a = [] -> candidate_pairs a = [] -> local_candidates a <> [] ->
  let m := media c in
  let video := fresh_md (video_media_type m) port (media_protocol m) (video_payload_type m)
    (RTPMap (video_payload_type m) (video_codec_name m) (clock_rate m) None) fp (get_local_candidates a) in
  let audio := fresh_md (audio_media_type m) port (media_protocol m) (audio_payload_type m)
    (RTPMap (audio_payload_type m) (audio_codec_name m) (audio_sample_rate m) (Some (show (audio_channels m)))) fp
    (get_local_candidates a) in
  let s := Sdp.new [video; audio] (Config.sdp c) in
  let s := match get_local_candidate a with
           | Some x => set_connection_data (lit "IN") (lit "IP4") (address x) s
           | None => s
           end in
  ready ActPass fp (mk_session s a cert None None ActPass).
Proof.
  intros Hu Hport Hfp Hcs Hrem Hpairs Hne m video audio s0 s.
  assert (Hv : announces ActPass fp (local_candidates a) video /\ fmts video <> ∅).
  { apply fresh_announces; try done; try apply Hu. unfold wf_attribute. split_and!; try done; apply Hu. }
  assert (Ha : announces ActPass fp (local_candidates a) audio /\ fmts audio <> ∅).
  { apply fresh_announces; try done; try apply Hu. unfold wf_attribute. split_and!; try apply Hu.
    destruct (us_channels c Hu) as [H0 _]. split; [apply (show_word _ H0)|by apply show_no_char]. }
  assert (Hs : media_descriptions s = [video; audio] /\ Sdp.version s = Config.version (Config.sdp c) /\
    Sdp.origin_id s = Config.origin_id (Config.sdp c) /\ Sdp.session_name s = Config.session_name (Config.sdp c) /\
    Sdp.timing s = Config.timing (Config.sdp c) /\ 10 ∉ connection_data s).
  { unfold s, s0, get_local_candidate. destruct (local_candidates a) as [|x l] eqn:E; [done|]. cbn [head]. split_and!; try done.
    unfold set_connection_data. cbn [connection_data]. apply no_newline_app3; try by apply (bool_decide_unpack _).
    apply Forall_cons in Hcs as [Hx _]. destruct Hx as (_ & _ & [_ Hw] & _). by apply (word_no_char _ 10) in Hw. }
  destruct Hs as (E1 & E2 & E3 & E4 & E5 & E6). unfold ready. cbn [local_setup_role sdp ice_agent]. rewrite E1.
  split_and!; try done.
  - unfold wf_sdp. rewrite E1, E2, E3, E4, E5. split_and!; try apply Hu; [done|].
    repeat apply Forall_cons_2; try apply Forall_nil_2; (split; [apply Hv || apply Ha|apply Hv || apply Ha]).
  - by repeat apply Forall_cons_2; try apply Forall_nil_2; [apply Hv|apply Ha].
  - unfold paired. rewrite Hrem, Hpairs. split_and!; [done| |]; [intros p|intros l r _]; by intros ?%elem_of_nil.
Qed.

Lemma new_ready {F64 F32} (c : Config F64 F32) interfaces addr public cert s :
  usable c -> host_addresses interfaces -> public_address public -> (forall p, addr = Ok p -> fits 16 p) ->
  new c interfaces addr public cert = Ok s -> local_candidates (ice_agent s) <> [] ->
  exists fp, from_hash_string (lit "sha-256") (local_cert s) = Ok fp /\ ready ActPass fp s.
Proof.
  intros Hu Hi Hp Hport. unfold new. pose proof (gather_wf c interfaces (result_ok addr) public Hu Hi Hp) as Hg.
  destruct (gather_candidates interfaces (result_ok addr) public (Config.ice c) Ice.new) as [r a].
  destruct Hg as (-> & Hcs & Hrem & Hpairs); [intros p; destruct addr as [q|]; [|done]; intros [= <-]; by apply Hport|].
  cbn [map_err rbind]. destruct addr as [port|]; [|done]. cbn [map_err rbind].
  unfold generate_video_md, generate_audio_md, new_md, add_attribute. cbn [fmts].
  rewrite !bool_decide_true by (by apply elem_of_singleton). cbn [negb map_err rbind].
  destruct cert as [hash|]; [|done]. cbn [map_err rbind].
  destruct (from_hash_string (lit "sha-256") hash) as [fp|] eqn:Ef; [|done]. cbn [map_err rbind].
  unfold with_attributes. cbn [media_type md_port protocol fmts md_attributes app].
  rewrite !common_attributes_ok. cbn [rbind]. intros [= <-] Hne. cbn [local_cert ice_agent] in *.
  exists fp. split; [done|]. apply created_ready; try done; [by apply Hport|].
  eapply hash_wf; [|exact Ef]. split; [done|by repeat constructor].
Qed.

(** * Properties *)

(** What two sessions know of each other once offer and answer are processed. *)
Definition negotiated (fpa fpb : Fingerprint) (a b a' b' : CallSession) : Prop :=
  local_setup_role b' = Active /\ local_setup_role a' = Passive /\
  remote_setup_role a' = Some Active /\ remote_setup_role b' = Some ActPass /\
  remote_fingerprint a' = Some fpb /\ remote_fingerprint b' = Some fpa /\
  forall ca cb, ca ∈ local_candidates (ice_agent a) -> cb ∈ local_candidates (ice_agent b) ->
    (exists p, p ∈ candidate_pairs (ice_agent a') /\ local p = ca /\ remote p = cb) /\
    (exists p, p ∈ candidate_pairs (ice_agent b') /\ local p = cb /\ remote p = ca).

(** An offer and its answer, both sent as text, settle the call.  When two
    sessions that still offer both roles share a codec in their common media
    sections: the callee reads the offer and answers, the caller reads the
    answer, and then the callee is the DTLS client and the caller the server,
    each knows the other's fingerprint and role, and on both sides every pair of
    a local and a remote candidate is queued for the connectivity checks. *)
Lemma negotiation `{SetOrder} a b fpa fpb :
  ready ActPass fpa a -> ready ActPass fpb b ->
  compatible (media_descriptions (sdp b)) (media_descriptions (sdp a)) ->
  let offer := Sdp.new (media_descriptions (sdp a)) SdpConfig_default in
  sdp_from_str (show_sdp (get_offer a)) = Ok offer /\
  exists ans a' b', process_offer offer b = (Ok ans, b') /\
    let ans' := Sdp.new (media_descriptions ans) SdpConfig_default in
    sdp_from_str (show_sdp ans) = Ok ans' /\ process_answer ans' a = (Ok tt, a') /\ negotiated fpa fpb a b a' b'.
Proof.
  intros Ha Hb Hc offer. pose proof Ha as (_ & Hwa & Hna & Hall & Hpa). pose proof Hb as (Hrb & _ & _ & _ & Hpb).
  assert (Eo : sdp_from_str (show_sdp (get_offer a)) = Ok offer) by (by apply sdp_print_parse).
  destruct (ready_set_role ActPass Active fpb b Hb ltac:(done)) as (b1 & E1 & Hb1 & Hmds & Hag).
  assert (Hdet : determine_local_role b offer Offer = Active).
  { unfold determine_local_role, offer. cbn [media_descriptions Sdp.new].
    destruct (media_descriptions (sdp a)) as [|m mds]; [done|]. cbn [head mbind option_bind].
    apply Forall_cons in Hall as [Hm _]. by rewrite (announces_role _ _ _ _ Hm). }
  destruct (ready_answer Active fpb b1 offer Hb1) as (ans & E2 & Hwans & Hnans & Hans).
  { rewrite Hmds. by apply compatible_resetup. }
  destruct (process_sections_ok Offer ActPass fpa _ _ b1 Hall Hna) as (b' & E3 & B1 & B2 & B3 & B4 & B5 & B6).
  { by rewrite Hag. }
  set (ans' := Sdp.new (media_descriptions ans) SdpConfig_default).
  destruct (process_sections_ok Answer Active fpb _ _ a Hans Hnans Hpa) as (a' & E4 & A1 & A2 & A3 & A4 & A5 & A6).
  split; [done|]. exists ans, a', b'. unfold negotiated. split_and!; try done.
  - unfold process_offer. rewrite Hdet, E1, E2. unfold process_remote_sdp, offer. cbn [media_descriptions Sdp.new].
    by rewrite E3.
  - by apply sdp_print_parse.
  - intros ca cb Hca Hcb. destruct A4 as (_ & _ & A4), B4 as (_ & _ & B4). split.
    + apply A4; [by rewrite A5|]. apply A6. by rewrite Hag.
    + apply B4; [by rewrite B5, Hag|]. by apply B6.
Qed.

(** C23: creating a session establishes the invariant.  Whatever interfaces,
    STUN answer and certificate it finds, a session created from usable settings
    with at least one local candidate can always write its offer down: its
    description is well formed, and every section announces both roles, the
    certificate's fingerprint and exactly the gathered candidates. *)
Theorem session_created {F64 F32} (c : Config F64 F32) interfaces addr public cert s :
  usable c -> host_addresses interfaces -> public_address public -> (forall p, addr = Ok p -> fits 16 p) ->
  new c interfaces addr public cert = Ok s -> local_candidates (ice_agent s) <> [] ->
  exists fp, from_hash_string (lit "sha-256") (local_cert s) = Ok fp /\ ready ActPass fp s.
Proof. apply new_ready. Qed.

(** * Witnesses *)

#[local] Existing Instance by_elements.

Lemma sample_usable : usable Config.sample.
Proof.
  constructor; try (apply word_ok; reflexivity); try (split; vm_compute; congruence);
    try (by split_and!; apply (bool_decide_unpack _)); (split; [done|apply piece_ok; reflexivity]).
Qed.

(** A host with a loopback and one other interface, and no STUN answer. *)
Definition host (ip : string) : option (list (bool * option str)) := Some [(true, Some (lit "127.0.0.1")); (false, Some (lit ip))].
Definition toy_session (ip cert : string) : result CallSession CallSessionError :=
  new Config.sample (host ip) (Ok 5004) (Err []) (Ok (lit cert)).
Definition toy (ip cert : string) : CallSession :=
  match toy_session ip cert with
  | Ok s => s
  | Err _ => mk_session (Sdp.new [] SdpConfig_default) Ice.new [] None None ActPass
  end.

Lemma host_words ip : is_word (lit ip) -> host_addresses (host ip).
Proof.
  intros H l b i [= <-]. rewrite !elem_of_cons, elem_of_nil. intros [[= -> ->]|[[= -> ->]|?]]; [|done|done].
  apply word_ok. reflexivity.
Qed.

Lemma toy_ready ip cert :
  is_word (lit ip) -> is_ok (toy_session ip cert) = true -> local_candidates (ice_agent (toy ip cert)) <> [] ->
  exists fp, ready ActPass fp (toy ip cert).
Proof.
  unfold toy. destruct (toy_session ip cert) as [s|] eqn:E; [|done]. intros Hip _ Hne.
  destruct (new_ready Config.sample (host ip) (Ok 5004) (Err []) (Ok (lit cert)) s) as (fp & _ & H); try done.
  - exact sample_usable.
  - by apply host_words.
  - intros p [= <-]. split; vm_compute; congruence.
  - by exists fp.
Qed.

(** Compatibility of concrete sections, by computation. *)
Definition compatibleb (local offer : list MediaDescription) : bool :=
  negb (bool_decide (matched offer local = [])) &&
  forallb (fun p => existsb (fun a => match a with
    | RTPMap _ n _ _ => negb (offered n (md_attributes p.2) =? 0)%nat | _ => false end) (md_attributes p.1))
    (matched offer local).

Lemma compatibleb_ok local offer : compatibleb local offer = true -> compatible local offer.
Proof.
  unfold compatibleb. intros [Hne%negb_true_iff%bool_decide_eq_false H]%andb_true_iff. split; [done|].
  intros m o Hin%list_elem_of_In. rewrite forallb_forall in H. apply H in Hin.
  apply existsb_exists in Hin as (a & Ha & Hn). destruct a as [|f n r p| |]; try done. exists f, n, r, p.
  split; [by apply list_elem_of_In|]. by apply negb_true_iff, Nat.eqb_neq in Hn.
Qed.

Lemma session_created_witness : exists fp, ready ActPass fp (toy "10.0.0.1" "AB:05").
Proof.
  destruct (session_created Config.sample (host "10.0.0.1") (Ok 5004) (Err []) (Ok (lit "AB:05")) (toy "10.0.0.1" "AB:05"))
    as (fp & _ & H).
  - exact sample_usable.
  - apply host_words, word_ok. reflexivity.
  - intros addr ip p E. discriminate E.
  - intros p [= <-]. split; vm_compute; congruence.
  - vm_compute. reflexivity.
  - done.
  - exists fp. exact H.
Defined.
