(* ===== verification/Dtls.v ===== *)
(** The secure channel under media and files (src/dtls/key_manager.rs,
    dtls_socket.rs, error.rs): the self-signed identity and its fingerprint, the
    set-up of a DTLS socket, and the check of the peer's certificate.

    OpenSSL and udp_dtls are parameters ([Library]): key generation, signing,
    SHA-256, PKCS#12 archives and the handshake itself.  A certificate is the
    record of the fields the code sets on the builder.  What the theorems need
    of the library is stated where they use it: reading an archive gives back
    what was packed, and a digest has bytes. *)

From S2P Require Import Prelude.
From S2P Require Import Text.
From S2P Require Import Wire.
From S2P Require Import Config.
From S2P Require Import Ice.
From S2P Require Import SdpAttribute.
From S2P Require Import Sdp.
From S2P Require Import CallSession.

(** * Definitions *)

Inductive DtlsError :=
| InitializationSocketError
| DtlsMapError (e : str).                  (* [MapError] *)

Definition show_dtls_error (e : DtlsError) : str :=
  match e with
  | InitializationSocketError => lit "Error: failed to initialize DTLS socket"
  | DtlsMapError e => lit "Error: " ++ e
  end.

(** ** Keys and certificates *)

(** OpenSSL's [ErrorStack] is its text. *)
Inductive CertError :=
| Openssl (e : str)
| IdentityError (e : str).                 (* [Identity] *)

Definition show_cert_error (e : CertError) : str :=
  match e with Openssl e => e | IdentityError e => e end.

Definition PKCS12_PASSWORD : str := lit "roomrtc_pass".
Definition FRIENDLY_NAME : str := lit "room-rtc-identity".
Definition SUBJECT_CN : str := lit "RoomRTC-Peer".
Definition VALIDITY_DAYS : Z := 365.
Definition SERIAL_NUMBER : Z := 1.

(** A certificate: what the builder was given, and the signature. *)
Record X509 (PKey : Type) := mk_x509 {
  x_version : Z;
  x_serial : Z;
  x_subject : list (str * str);
  x_issuer : list (str * str);
  x_not_before : Z;                        (* days from now *)
  x_not_after : Z;
  x_pubkey : PKey;
  x_signature : bytes
}.
Arguments mk_x509 {PKey}.
Arguments x_version {PKey}.
Arguments x_serial {PKey}.
Arguments x_subject {PKey}.
Arguments x_issuer {PKey}.
Arguments x_not_before {PKey}.
Arguments x_not_after {PKey}.
Arguments x_pubkey {PKey}.
Arguments x_signature {PKey}.

Record LocalCert (Identity : Type) := mk_local_cert {
  identity : Identity;
  fingerprint : str;
  pkcs12_der : bytes
}.
Arguments mk_local_cert {Identity}.
Arguments identity {Identity}.
Arguments fingerprint {Identity}.
Arguments pkcs12_der {Identity}.

(** The library, as one side of a call sees it. *)
Record Library (PKey Identity Pkcs12 Stream : Type) := mk_library {
  curve : result unit str;                              (* [EcGroup::from_curve_name] *)
  ec_key : result PKey str;                             (* [EcKey::generate] *)
  from_ec_key : PKey -> result PKey str;
  builder_call : nat -> result unit str;                (* the fallible calls of the builder, in order *)
  sign : X509 PKey -> PKey -> result bytes str;         (* the signature of what is built so far *)
  digest : X509 PKey -> result bytes str;               (* SHA-256 *)
  build2 : str -> PKey -> X509 PKey -> str -> result Pkcs12 str;
  to_der : Pkcs12 -> result bytes str;
  from_pkcs12 : bytes -> str -> result Identity str;
  from_der : bytes -> result Pkcs12 str;
  parse : Pkcs12 -> str -> result (PKey * X509 PKey) str;
  connector : Identity -> result unit str;              (* [DtlsConnector::builder()..build] *)
  connect : Identity -> str -> result Stream str;
  acceptor_call : nat -> result unit str;               (* the set-up of the acceptor, in order *)
  accept : PKey * X509 PKey -> result Stream str;
  peer_certificate : Stream -> result (option (X509 PKey)) str;
  cert_fingerprint : X509 PKey -> result bytes str      (* udp_dtls, SHA-256 *)
}.
Arguments mk_library {PKey Identity Pkcs12 Stream}.
Arguments curve {PKey Identity Pkcs12 Stream}.
Arguments ec_key {PKey Identity Pkcs12 Stream}.
Arguments from_ec_key {PKey Identity Pkcs12 Stream}.
Arguments builder_call {PKey Identity Pkcs12 Stream}.
Arguments sign {PKey Identity Pkcs12 Stream}.
Arguments digest {PKey Identity Pkcs12 Stream}.
Arguments build2 {PKey Identity Pkcs12 Stream}.
Arguments to_der {PKey Identity Pkcs12 Stream}.
Arguments from_pkcs12 {PKey Identity Pkcs12 Stream}.
Arguments from_der {PKey Identity Pkcs12 Stream}.
Arguments parse {PKey Identity Pkcs12 Stream}.
Arguments connector {PKey Identity Pkcs12 Stream}.
Arguments connect {PKey Identity Pkcs12 Stream}.
Arguments acceptor_call {PKey Identity Pkcs12 Stream}.
Arguments accept {PKey Identity Pkcs12 Stream}.
Arguments peer_certificate {PKey Identity Pkcs12 Stream}.
Arguments cert_fingerprint {PKey Identity Pkcs12 Stream}.

Section Dtls.
Context {PKey Identity Pkcs12 Stream : Type} (lib : Library PKey Identity Pkcs12 Stream).

(** [?] on an OpenSSL call. *)
Definition ssl {A} (m : result A str) : result A CertError := map_err Openssl m.

Definition generate_ec_key : result PKey CertError :=
  let? _ := ssl (curve lib) in
  let? k := ssl (ec_key lib) in
  ssl (from_ec_key lib k).

Definition build_x509_cert (pkey : PKey) : result (X509 PKey) CertError :=
  let? _ := ssl (builder_call lib 0) in                   (* X509::builder *)
  let? _ := ssl (builder_call lib 1) in                   (* set_version(2) *)
  let? _ := ssl (builder_call lib 2) in                   (* BigNum::from_u32 *)
  let? _ := ssl (builder_call lib 3) in                   (* to_asn1_integer *)
  let? _ := ssl (builder_call lib 4) in                   (* set_serial_number *)
  let? _ := ssl (builder_call lib 5) in                   (* X509NameBuilder::new *)
  let? _ := ssl (builder_call lib 6) in                   (* append_entry_by_text *)
  let name := [(lit "CN", SUBJECT_CN)] in
  let? _ := ssl (builder_call lib 7) in                   (* set_subject_name *)
  let? _ := ssl (builder_call lib 8) in                   (* set_issuer_name *)
  let? _ := ssl (builder_call lib 9) in                   (* days_from_now(0) *)
  let? _ := ssl (builder_call lib 10) in                  (* set_not_before *)
  let? _ := ssl (builder_call lib 11) in                  (* days_from_now(VALIDITY_DAYS) *)
  let? _ := ssl (builder_call lib 12) in                  (* set_not_after *)
  let? _ := ssl (builder_call lib 13) in                  (* set_pubkey *)
  let unsigned := mk_x509 2 SERIAL_NUMBER name name 0 VALIDITY_DAYS pkey [] in
  let? signature := ssl (sign lib unsigned pkey) in
  Ok (mk_x509 2 SERIAL_NUMBER name name 0 VALIDITY_DAYS pkey signature).

Definition fingerprint_from_digest (d : bytes) : str := join (lit ":") (map hex_byte d).

Definition generate_self_signed_cert : result (LocalCert Identity) CertError :=
  let? pkey := generate_ec_key in
  let? cert := build_x509_cert pkey in
  let? d := ssl (digest lib cert) in
  let fp := fingerprint_from_digest d in
  let? archive := ssl (build2 lib FRIENDLY_NAME pkey cert PKCS12_PASSWORD) in
  let? der := ssl (to_der lib archive) in
  let? id := map_err (fun e => IdentityError (lit "DTLS identity creation failed: " ++ e))
    (from_pkcs12 lib der PKCS12_PASSWORD) in
  Ok (mk_local_cert id fp der).

Definition duplicate_identity (c : LocalCert Identity) : result Identity CertError :=
  map_err (fun e => IdentityError (lit "Failed to clone identity: " ++ e)) (from_pkcs12 lib (pkcs12_der c) PKCS12_PASSWORD).

(** ** Opening a socket *)

Definition normalize_role (role : DtlsSetupRole) : DtlsSetupRole :=
  match role with ActPass => Active | HoldConn => Passive | _ => role end.

Definition establish_active_dtls (c : LocalCert Identity) : result Stream DtlsError :=
  let? id := map_err (fun e => DtlsMapError (show_cert_error e)) (duplicate_identity c) in
  let? _ := map_err (fun _ => InitializationSocketError) (connector lib id) in
  map_err (fun _ => InitializationSocketError) (connect lib id (lit "roomrtc.local")).

Definition establish_passive_dtls (c : LocalCert Identity) : result Stream DtlsError :=
  let? archive := map_err DtlsMapError (from_der lib (pkcs12_der c)) in
  let? pkcs12 := map_err DtlsMapError (parse lib archive PKCS12_PASSWORD) in
  let? _ := map_err DtlsMapError (acceptor_call lib 0) in                 (* mozilla_intermediate *)
  let? _ := map_err DtlsMapError (acceptor_call lib 1) in                 (* set_private_key *)
  let? _ := map_err DtlsMapError (acceptor_call lib 2) in                 (* set_certificate *)
  let? _ := map_err DtlsMapError (acceptor_call lib 3) in                 (* check_private_key *)
  map_err (fun _ => InitializationSocketError) (accept lib pkcs12).

(** [eq_ignore_ascii_case] *)
Definition eq_ignore_ascii_case (a b : str) : bool := str_eqb (to_ascii_lowercase a) (to_ascii_lowercase b).

Definition verify_peer_fingerprint (stream : Stream) (expected : Fingerprint) : result unit DtlsError :=
  if negb (eq_ignore_ascii_case (algorithm expected) (lit "sha-256")) then
    Err (DtlsMapError (lit "Unsupported fingerprint algorithm: " ++ algorithm expected))
  else
    let? peer := map_err DtlsMapError (peer_certificate lib stream) in
    let? certificate := ok_or peer (DtlsMapError (lit "Peer certificate missing")) in
    let? fp := map_err DtlsMapError (cert_fingerprint lib certificate) in
    if negb (str_eqb fp (fp_bytes expected)) then
      Err (DtlsMapError (lit "Peer certificate fingerprint mismatch"))
    else Ok tt.

(** The mutex around the stream may be poisoned by a thread that panicked. *)
Record DtlsSocket := mk_dtls_socket {
  stream : Stream;
  stream_poisoned : bool;
  remote_addr : str
}.

(** [DtlsSocket::new]; the third arm of the match is [unreachable!]. *)
Definition new_socket (addr : str) (local_setup_role : DtlsSetupRole) (expected_fingerprint : Fingerprint)
    (local_cert : LocalCert Identity) : comp (result DtlsSocket DtlsError) :=
  let! stream :=
    match normalize_role local_setup_role with
    | Active => Ret (establish_active_dtls local_cert)
    | Passive => Ret (establish_passive_dtls local_cert)
    | _ => Panic
    end in
  Ret (let? s := stream in
       let? _ := verify_peer_fingerprint s expected_fingerprint in
       Ok (mk_dtls_socket s false addr)).

(** ** Using it *)

Definition with_stream {A} (f : Stream -> result A str) (s : DtlsSocket) : result A str :=
  if stream_poisoned s then Err (lit "DTLS stream poisoned") else f (stream s).

Definition send (write : Stream -> bytes -> result Z str) (buf : bytes) (s : DtlsSocket) : result Z str :=
  with_stream (fun st => write st buf) s.

Definition recv_from (read : Stream -> result Z str) (s : DtlsSocket) : result (Z * str) str :=
  let? size := with_stream read s in Ok (size, remote_addr s).

Definition set_read_timeout (set : Stream -> result unit str) (s : DtlsSocket) : result unit str := with_stream set s.

Definition try_clone (s : DtlsSocket) : result DtlsSocket str := Ok s.

(** [export_keying_material]: the library fills the buffer of [len] zeroes. *)
Definition export_keying_material (export : Stream -> bytes -> str -> result bytes str) (label : str) (len : nat)
    (s : DtlsSocket) : result bytes str :=
  with_stream (fun st => export st (replicate len 0) label) s.

End Dtls.
Arguments DtlsSocket : clear implicits.

(** * Lemmas *)

Lemma normalize_role_total role : normalize_role role = Active \/ normalize_role role = Passive.
Proof. destruct role; auto. Qed.

(** The printed digest is read back from a description as the digest. *)
Lemma fingerprint_reads_back d :
  Forall is_byte d -> d <> [] ->
  from_hash_string (lit "sha-256") (fingerprint_from_digest d) = Ok (mk_fingerprint (lit "sha-256") d).
Proof. intros Hb Hne. exact (fingerprint_roundtrip (mk_fingerprint (lit "sha-256") d) Hb Hne). Qed.

Section Check.
Context {PKey Identity Pkcs12 Stream : Type}.
Abbreviation Lib := (Library PKey Identity Pkcs12 Stream).

(** What the library's archives, digests and its second implementation of
    SHA-256 are relied on for. *)
Record lawful (lib : Lib) : Prop := mk_lawful {
  archive_kept : forall name k c pw p der,
    build2 lib name k c pw = Ok p -> to_der lib p = Ok der ->
    exists p', from_der lib der = Ok p' /\ parse lib p' pw = Ok (k, c);
  digest_bytes : forall c d, digest lib c = Ok d -> Forall is_byte d /\ d <> [];
  same_digest : forall c, cert_fingerprint lib c = digest lib c
}.

(** The certificate inside a local identity. *)
Definition holds (lib : Lib) (lc : LocalCert Identity) (k : PKey) (c : X509 PKey) : Prop :=
  exists p, from_der lib (pkcs12_der lc) = Ok p /\ parse lib p PKCS12_PASSWORD = Ok (k, c).

Lemma build_self_signed (lib : Lib) k c :
  build_x509_cert lib k = Ok c -> x_pubkey c = k /\ x_subject c = x_issuer c /\ x_not_after c = 365.
Proof.
  unfold build_x509_cert.
  repeat match goal with |- (rbind (ssl (builder_call lib ?n)) _ = _) -> _ =>
    destruct (builder_call lib n); [cbn [ssl map_err rbind]|done] end.
  destruct (sign lib _ k); [|done]. by intros [= <-].
Qed.

(** What is generated: an identity with its certificate, self-signed, whose
    digest is the fingerprint. *)
Lemma generated (lib : Lib) lc :
  lawful lib -> generate_self_signed_cert lib = Ok lc ->
  exists k c d, holds lib lc k c /\ x_pubkey c = k /\ x_subject c = x_issuer c /\
    digest lib c = Ok d /\ Forall is_byte d /\ d <> [] /\ fingerprint lc = fingerprint_from_digest d.
Proof.
  intros HL. unfold generate_self_signed_cert. destruct (generate_ec_key lib) as [k|]; [|done]. cbn [rbind].
  destruct (build_x509_cert lib k) as [c|] eqn:Ec; [|done]. cbn [rbind].
  destruct (digest lib c) as [d|] eqn:Ed; [|done]. cbn [ssl map_err rbind].
  destruct (build2 lib _ k c _) as [p|] eqn:Ep; [|done]. cbn [ssl map_err rbind].
  destruct (to_der lib p) as [der|] eqn:Eder; [|done]. cbn [ssl map_err rbind].
  destruct (from_pkcs12 lib der _) as [id|]; [|done]. intros [= <-].
  destruct (archive_kept lib HL _ _ _ _ _ _ Ep Eder) as (p' & H1 & H2). destruct (digest_bytes lib HL _ _ Ed).
  destruct (build_self_signed lib k c Ec) as (? & ? & _). exists k, c, d. split_and!; try done. by exists p'.
Qed.

(** The handshake a side makes. *)
Definition handshake (lib : Lib) (role : DtlsSetupRole) (lc : LocalCert Identity) : result Stream DtlsError :=
  match normalize_role role with
  | Passive => establish_passive_dtls lib lc
  | _ => establish_active_dtls lib lc
  end.

(** Opening a socket never panics: it is the handshake and then the check. *)
Lemma new_socket_steps (lib : Lib) addr role fp lc :
  new_socket lib addr role fp lc =
  Ret (let? s := handshake lib role lc in
       let? _ := verify_peer_fingerprint lib s fp in
       Ok (mk_dtls_socket s false addr)).
Proof. unfold new_socket, handshake. by destruct (normalize_role_total role) as [->| ->]. Qed.

Lemma eq_ignore_case_refl s : eq_ignore_ascii_case s s = true.
Proof. unfold eq_ignore_ascii_case. apply str_eqb_refl. Qed.

(** The check passes exactly on a peer whose certificate has the digest. *)
Lemma verify_spec (lib : Lib) st d :
  verify_peer_fingerprint lib st (mk_fingerprint (lit "sha-256") d) = Ok tt <->
  exists c, peer_certificate lib st = Ok (Some c) /\ cert_fingerprint lib c = Ok d.
Proof.
  unfold verify_peer_fingerprint. cbn [algorithm fp_bytes]. rewrite eq_ignore_case_refl. cbn [negb].
  destruct (peer_certificate lib st) as [[c|]|]; cbn [map_err rbind ok_or];
    [|by split; [|intros (? & ? & _)]..].
  destruct (cert_fingerprint lib c) as [d'|] eqn:E; cbn [map_err rbind];
    [|split; [done|intros (c' & [= <-] & Hc'); by rewrite E in Hc']].
  destruct (str_eqb d' d) eqn:Ed; cbn [negb].
  - apply str_eqb_spec in Ed as ->. split; [eauto|done].
  - split; [done|]. intros (c' & [= <-] & Hc'). rewrite E in Hc'. injection Hc' as ->.
    by rewrite str_eqb_refl in Ed.
Qed.

(** A side that only ever talks to the holder of [peer]: a socket it opens leads
    to a certificate with that digest, and the holder itself is let in. *)
Definition authenticates (lib : Lib) (role : DtlsSetupRole) (lc : LocalCert Identity) (fp : option Fingerprint)
    (peer : X509 PKey) : Prop :=
  exists f, fp = Some f /\ forall addr,
    (forall sock, new_socket lib addr role f lc = Ret (Ok sock) ->
       exists c, peer_certificate lib (stream sock) = Ok (Some c) /\ cert_fingerprint lib c = cert_fingerprint lib peer) /\
    (forall st, handshake lib role lc = Ok st -> peer_certificate lib st = Ok (Some peer) ->
       new_socket lib addr role f lc = Ret (Ok (mk_dtls_socket st false addr))).

Lemma authenticates_digest (lib : Lib) role lc peer d :
  cert_fingerprint lib peer = Ok d -> authenticates lib role lc (Some (mk_fingerprint (lit "sha-256") d)) peer.
Proof.
  intros Hd. eexists. split; [done|]. intros addr. rewrite new_socket_steps. split.
  - intros sock. destruct (handshake lib role lc) as [st|]; [|done]. cbn [rbind].
    destruct (verify_peer_fingerprint lib st _) as [[]|] eqn:Ev; [|done]. intros [= <-].
    apply verify_spec in Ev as (c & H1 & H2). exists c. cbn [stream]. split; [done|]. by rewrite Hd.
  - intros st -> Hp. cbn [rbind]. by rewrite (proj2 (verify_spec lib st d)) by eauto.
Qed.

End Check.

(** The certificate of a new session is the one it was given. *)
Lemma new_keeps_cert {F64 F32} (c : Config F64 F32) interfaces addr public hash s :
  CallSession.new c interfaces addr public (Ok hash) = Ok s -> local_cert s = hash.
Proof.
  unfold CallSession.new. destruct (gather_candidates _ _ _ _ _) as [r a]. destruct (map_err _ r); [|done]. cbn [rbind].
  destruct addr; [|done]. cbn [map_err rbind]. destruct (map_err _ (generate_video_md c _)); [|done]. cbn [rbind].
  destruct (map_err _ (generate_audio_md c _)); [|done]. cbn [map_err rbind].
  destruct (from_hash_string _ hash); [|done]. cbn [map_err rbind].
  destruct (apply_common_attributes _ _ _ _); [|done]. cbn [rbind].
  destruct (apply_common_attributes _ _ _ _); [|done]. cbn [rbind]. by intros [= <-].
Qed.

(** * Properties *)

Section Peers.
Context {PKey Identity Pkcs12 Stream : Type} {F64 F32 : Type}.
Abbreviation Lib := (Library PKey Identity Pkcs12 Stream).

(** A party to a call: its library, its identity, and the session created with it. *)
Record party (lib : Lib) (lc : LocalCert Identity) (s : CallSession) : Prop := mk_party {
  party_library : lawful lib;
  party_identity : generate_self_signed_cert lib = Ok lc;
  party_session : exists (c : Config F64 F32) interfaces addr public,
    usable c /\ host_addresses interfaces /\ public_address public /\ (forall p, addr = Ok p -> fits 16 p) /\
    CallSession.new c interfaces addr public (Ok (fingerprint lc)) = Ok s;
  party_candidates : local_candidates (ice_agent s) <> []
}.

Lemma party_ready lib lc s :
  party lib lc s -> exists k c d, holds lib lc k c /\ cert_fingerprint lib c = Ok d /\ digest lib c = Ok d /\
    ready ActPass (mk_fingerprint (lit "sha-256") d) s.
Proof.
  intros [HL Hi (c & ifs & addr & public & Hu & H1 & H2 & H3 & Hn) Hc].
  destruct (generated lib lc HL Hi) as (k & x & d & Hh & _ & _ & Hd & Hb & Hne & Hf).
  destruct (new_ready c ifs addr public _ s Hu H1 H2 H3 Hn Hc) as (fp & Efp & Hr).
  rewrite (new_keeps_cert _ _ _ _ _ _ Hn), Hf, fingerprint_reads_back in Efp by done. injection Efp as <-.
  exists k, x, d. split_and!; try done. by rewrite (same_digest lib HL).
Qed.

(** C5: a negotiated call authenticates both ends.  When two parties have
    exchanged an offer and its answer as text, the callee opens its DTLS socket
    as the client and the caller as the server, and neither accepts a peer whose
    certificate does not have the SHA-256 digest of the other's certificate,
    while the other's own certificate is accepted. *)
Theorem peer_authenticated `{SetOrder} (libA libB : Lib) lca lcb a b :
  party libA lca a -> party libB lcb b -> (forall c, digest libA c = digest libB c) ->
  compatible (media_descriptions (sdp b)) (media_descriptions (sdp a)) ->
  exists offer ans ans' a' b' ka ca kb cb,
    sdp_from_str (show_sdp (get_offer a)) = Ok offer /\ process_offer offer b = (Ok ans, b') /\
    sdp_from_str (show_sdp ans) = Ok ans' /\ process_answer ans' a = (Ok tt, a') /\
    holds libA lca ka ca /\ holds libB lcb kb cb /\
    normalize_role (local_setup_role b') = Active /\ normalize_role (local_setup_role a') = Passive /\
    authenticates libA (local_setup_role a') lca (remote_fingerprint a') cb /\
    authenticates libB (local_setup_role b') lcb (remote_fingerprint b') ca.
Proof.
  intros Ha Hb Hdig Hc.
  destruct (party_ready _ _ _ Ha) as (ka & ca & da & Hha & Hfa & Hda & Hra).
  destruct (party_ready _ _ _ Hb) as (kb & cb & db & Hhb & Hfb & Hdb & Hrb).
  destruct (negotiation a b _ _ Hra Hrb Hc) as (Eo & ans & a' & b' & Ep & Ea & Eans & N1 & N2 & _ & _ & N5 & N6 & _).
  do 5 eexists. exists ka, ca, kb, cb. split_and!; [exact Eo|exact Ep|exact Ea|exact Eans|done|done| | | |].
  - by rewrite N1.
  - by rewrite N2.
  - rewrite N2, N5. apply authenticates_digest. by rewrite (same_digest libA (party_library _ _ _ Ha)), Hdig.
  - rewrite N1, N6. apply authenticates_digest. by rewrite (same_digest libB (party_library _ _ _ Hb)), <-Hdig.
Qed.

End Peers.

(** * Witnesses *)

#[local] Existing Instance by_elements.

#[local] Instance X509_eq_dec : EqDecision (X509 Z).
Proof. solve_decision. Defined.

(** A library whose keys are numbers: the only certificate of a key is the one
    it builds, an archive is the key, and the digest is made of it. *)
Definition toy_cert (k : Z) : X509 Z :=
  mk_x509 2 1 [(lit "CN", SUBJECT_CN)] [(lit "CN", SUBJECT_CN)] 0 365 k [k].

Definition toy_library (k : Z) (peer : option (X509 Z)) : Library Z bytes (Z * X509 Z) (option (X509 Z)) :=
  mk_library (Ok tt) (Ok k) Ok (fun _ => Ok tt) (fun c _ => Ok [x_pubkey c])
    (fun c => Ok [x_pubkey c mod 256; 7])
    (fun _ k c _ => if decide (c = toy_cert k) then Ok (k, c) else Err []) (fun p => Ok [p.1])
    (fun der _ => Ok der) (fun der => match der with k :: _ => Ok (k, toy_cert k) | [] => Err [] end) (fun p _ => Ok p)
    (fun _ => Ok tt) (fun _ _ => Ok peer) (fun _ => Ok tt) (fun _ => Ok peer) (fun s => Ok s)
    (fun c => Ok [x_pubkey c mod 256; 7]).

Lemma toy_lawful k peer : lawful (toy_library k peer).
Proof.
  split.
  - intros name k' c pw p der. cbn. destruct (decide (c = toy_cert k')) as [->|]; [|done]. intros [= <-] [= <-].
    by eexists.
  - intros c d [= <-]. split; [|done]. repeat constructor; try done; apply (Z.mod_pos_bound _ 256); lia.
  - done.
Qed.

Lemma toy_party ip k peer lc cert :
  is_word (lit ip) -> generate_self_signed_cert (toy_library k peer) = Ok lc -> fingerprint lc = lit cert ->
  is_ok (toy_session ip cert) = true -> local_candidates (ice_agent (toy ip cert)) <> [] ->
  party (F64 := Z) (F32 := Z) (toy_library k peer) lc (toy ip cert).
Proof.
  intros Hip Hg Hf Hok Hc. unfold toy in *. destruct (toy_session ip cert) as [s|] eqn:E; [|done].
  split; [apply toy_lawful|done| |done]. exists Config.sample, (host ip), (Ok 5004), (Err []). rewrite Hf.
  split_and!; [exact sample_usable|by apply host_words|done|intros p [= <-]; split; vm_compute; congruence|exact E].
Qed.

Definition toy_identity (k : Z) : LocalCert bytes :=
  match generate_self_signed_cert (toy_library k None) with
  | Ok lc => lc
  | Err _ => mk_local_cert [] [] []
  end.

(** The caller talks to an impostor with key 99, the callee to the caller. *)
Lemma peer_authenticated_witness :
  exists offer ans ans' a' b' ka ca kb cb,
    sdp_from_str (show_sdp (get_offer (toy "10.0.0.1" "AB:07"))) = Ok offer /\
    process_offer offer (toy "10.0.0.2" "CD:07") = (Ok ans, b') /\
    sdp_from_str (show_sdp ans) = Ok ans' /\ process_answer ans' (toy "10.0.0.1" "AB:07") = (Ok tt, a') /\
    holds (toy_library 171 (Some (toy_cert 99))) (toy_identity 171) ka ca /\
    holds (toy_library 205 (Some (toy_cert 171))) (toy_identity 205) kb cb /\
    normalize_role (local_setup_role b') = Active /\ normalize_role (local_setup_role a') = Passive /\
    authenticates (toy_library 171 (Some (toy_cert 99))) (local_setup_role a') (toy_identity 171) (remote_fingerprint a') cb /\
    authenticates (toy_library 205 (Some (toy_cert 171))) (local_setup_role b') (toy_identity 205) (remote_fingerprint b') ca.
Proof.
  apply (peer_authenticated (F64 := Z) (F32 := Z) (toy_library 171 (Some (toy_cert 99))) (toy_library 205 (Some (toy_cert 171)))).
  - apply toy_party; try done. apply word_ok. reflexivity.
  - apply toy_party; try done. apply word_ok. reflexivity.
  - done.
  - apply compatibleb_ok. vm_compute. reflexivity.
Defined.

Example impostor_refused :
  new_socket (toy_library 171 (Some (toy_cert 99))) [] Passive (mk_fingerprint (lit "sha-256") [205; 7]) (toy_identity 171) =
  Ret (Err (DtlsMapError (lit "Peer certificate fingerprint mismatch"))).
Proof. vm_compute. reflexivity. Qed.

Example friend_accepted :
  is_ok (match new_socket (toy_library 205 (Some (toy_cert 171))) [] Active (mk_fingerprint (lit "SHA-256") [171; 7])
    (toy_identity 205) with Ret r => r | Panic => Err InitializationSocketError end) = true.
Proof. vm_compute. reflexivity. Qed.
