(* ===== verification/Media.v ===== *)
(** The video path (src/media/): splitting an encoded frame into RTP packets
    (frame_handler/encoder.rs, media_pipeline.rs send_encoded_frame), the
    demultiplexer and the receive loop of media_pipeline.rs, put together with
    the protection layers and the jitter buffer.  The H.264 encoder and decoder
    (openh264) are parameters: the encoder's output is an argument, the decoder
    a state machine on byte strings.  Threads are functions on the sequence of
    their inputs with the outcomes of their channel operations.  Audio is in
    Audio, the camera and the threads in front of the encoder in Capture, the
    set-up of the encoder in Codec. *)

From S2P Require Import Prelude.
From S2P Require Import RtpPacket.
From S2P Require Import JitterBuffer.
From S2P Require Import Srtp.
From S2P Require Import Text.
From S2P Require Import Wire.
From S2P Require Import Config.

(** * Definitions *)

(** ** Sending *)

(** [slice.chunks(n)] for a positive n; every turn takes at least one byte, so
    the length is enough fuel. *)
Fixpoint chunk_loop (fuel : nat) (n : nat) (l : bytes) : list bytes :=
  match fuel, l with
  | S fuel, _ :: _ => take n l :: chunk_loop fuel n (drop n l)
  | _, _ => []
  end.

(** [chunks] panics when the size is zero. *)
Definition generate_chunks_from_bitstream (nalus : bytes) (max_chunk_size : Z) : comp (list bytes) :=
  if max_chunk_size =? 0 then Panic
  else Ret (chunk_loop (List.length nalus) (Z.to_nat max_chunk_size) nalus).

Record EncodedFrame := mk_encoded {
  chunks : list bytes;
  frame_time : Z;
  is_i : bool
}.

Section Sender.
Context {F64 F32 : Type} (config : MediaConfig F64 F32).

(** [Encoder::encode] after the H.264 encoder: its bitstream, and whether the
    frame is intra-coded. *)
Definition encode (bitstream : bytes) (intra : bool) (time : Z) : comp EncodedFrame :=
  let! cs := generate_chunks_from_bitstream bitstream (rtp_max_chunk_size config) in
  Ret (mk_encoded cs time intra).

Definition video_packet (f : EncodedFrame) (i : nat) (seq : Z) (payload : bytes) : RtpPacket :=
  let total_chunks := List.length (chunks f) in
  mk_packet (rtp_version config) (Z.b2z (i =? total_chunks - 1)%nat) (wrap 8 (Z.of_nat total_chunks)) (is_i f)
    (video_payload_type config) seq (frame_time f) (frame_ssrc config) payload.

(** The loop over the chunks from index i; [sends]: which channel sends succeed. *)
Fixpoint send_chunks (f : EncodedFrame) (cs : list bytes) (i : nat) (sends : nat -> bool) (seq : Z) :
    bool * Z * list RtpPacket :=
  match cs with
  | [] => (true, seq, [])
  | payload :: cs =>
      let packet := video_packet f i seq payload in
      let seq := saturating_add 64 seq 1 in
      if sends i then
        let '(ok, seq, rest) := send_chunks f cs (S i) sends seq in (ok, seq, packet :: rest)
      else (false, seq, [])
  end.

Definition send_encoded_frame (f : EncodedFrame) (connected : bool) (sends : nat -> bool) (seq : Z) :
    bool * Z * list RtpPacket :=
  if negb connected then (false, seq, []) else send_chunks f (chunks f) 0 sends seq.

(** The encoding thread: for every frame the encoder's outcome, its time, the
    flag and the channel; the packets sent, frame by frame. *)
Fixpoint encoded_sender (l : list (option (bytes * bool) * Z * bool * (nat -> bool))) (seq : Z) : comp (list (list RtpPacket)) :=
  match l with
  | [] => Ret []
  | (None, _, _, _) :: _ => Ret []
  | (Some (bitstream, intra), time, connected, sends) :: l =>
      let! f := encode bitstream intra time in
      let '(ok, seq, packets) := send_encoded_frame f connected sends seq in
      if ok then let! rest := encoded_sender l seq in Ret (packets :: rest) else Ret [packets]
  end.

(** ** Receiving *)

(** The demultiplexer: packets with the flag read before each and the outcome of
    the send it leads to; the packets put on the video and the audio channel. *)
Fixpoint demux (l : list (RtpPacket * bool * bool)) : list RtpPacket * list RtpPacket :=
  match l with
  | [] => ([], [])
  | (packet, connected, sent) :: l =>
      if negb connected then ([], []) else
      if payload_type packet =? video_payload_type config then
        if sent then let '(v, a) := demux l in (packet :: v, a) else ([], [])
      else if payload_type packet =? audio_payload_type config then
        if sent then let '(v, a) := demux l in (v, packet :: a) else ([], [])
      else demux l
  end.

End Sender.

Record Frame := mk_frame {
  data : bytes;
  width : Z;
  height : Z;
  time : Z
}.

Section Receiver.
Context {D : Type} (decode_frame : D -> bytes -> option (bytes * Z * Z) * D).

Definition generate_frame_from_chunks (d : D) (b : bytes) : option Frame * D :=
  match decode_frame d b with
  | (Some (decoded_data, w, h), d) => (Some (mk_frame decoded_data w h 0), d)
  | (None, d) => (None, d)
  end.

(** One turn of the loop: the flag it reads, what the channel gives ([None]:
    closed), and whether the frame it may produce can be sent. *)
Record turn := mk_turn {
  t_connected : bool;
  t_packet : option event;
  t_send : bool
}.

(** The frames sent to the display, in a build with overflow checks or without.
    [None]: a [pop] that does not return; [Some Panic]: the thread died in the
    jitter buffer. *)
Fixpoint frame_loop (checks : bool) (N : nat) (turns : list turn) (s : JitterBuffer) (d : D) : option (comp (list Frame)) :=
  match turns with
  | [] => Some (Ret [])
  | t :: turns =>
      if negb (t_connected t) then Some (Ret []) else
      match t_packet t with
      | None => Some (Ret [])
      | Some e =>
          let!! (popped, s) := receive_one checks N e s in
          match popped with
          | None => frame_loop checks N turns s d
          | Some b =>
              match generate_frame_from_chunks d b with
              | (None, d) => frame_loop checks N turns s d
              | (Some f, d) =>
                  if t_send t then let!! fs := frame_loop checks N turns s d in Some (Ret (f :: fs)) else Some (Ret [])
              end
          end
      end
  end.

(** The thread: the loop on a new buffer, and whether [CallEnded] is announced
    (exactly when the flag still says connected once the loop has ended). *)
Definition run_frame_pipeline_loop (checks : bool) (turns : list turn) (d : D) (connected_after : bool)
    : option (comp (list Frame * bool)) :=
  let!! fs := frame_loop checks 2048 turns (JitterBuffer.new 2048) d in Some (Ret (fs, connected_after)).

(** The decoder run over whole frames, in order. *)
Fixpoint decode_all (d : D) (l : list bytes) : list Frame :=
  match l with
  | [] => []
  | b :: l =>
      match generate_frame_from_chunks d b with
      | (None, d) => decode_all d l
      | (Some f, d) => f :: decode_all d l
      end
  end.

End Receiver.

(** * Lemmas *)

Lemma chunk_loop_concat fuel n l : (0 < n)%nat -> (List.length l <= fuel)%nat -> List.concat (chunk_loop fuel n l) = l.
Proof.
  intros Hn. revert l. induction fuel as [|fuel IH]; intros l Hl; destruct l as [|x l]; try done; [simpl in Hl; lia|].
  cbn [chunk_loop List.concat]. rewrite IH; [by rewrite take_drop|]. rewrite length_drop. cbn [List.length] in *. lia.
Qed.

Section Stream.
Context {F64 F32 : Type} (config : MediaConfig F64 F32).

(** The packets of a frame whose first sequence number is [seq]. *)
Definition frame_packets (f : EncodedFrame) (seq : Z) : list RtpPacket :=
  imap (fun i c => video_packet config f i (seq + Z.of_nat i) c) (chunks f).

Lemma send_chunks_all f cs i seq :
  0 <= seq -> seq + Z.of_nat (List.length cs) < 2 ^ 64 ->
  send_chunks config f cs i (fun _ => true) seq =
  (true, seq + Z.of_nat (List.length cs), imap (fun j c => video_packet config f (i + j) (seq + Z.of_nat j) c) cs).
Proof.
  revert i seq. induction cs as [|c cs IH]; intros i seq H0 Hs; cbn [send_chunks imap].
  - by rewrite Z.add_0_r.
  - cbn [List.length] in Hs. unfold saturating_add. rewrite Z.min_r by lia. rewrite IH by lia.
    rewrite Nat.add_0_r, Z.add_0_r. f_equal; [f_equal; cbn [List.length]; lia|].
    f_equal. apply imap_ext. intros j x _. cbn [compose]. f_equal; lia.
Qed.

Lemma send_frame_all f seq :
  0 <= seq -> seq + Z.of_nat (List.length (chunks f)) < 2 ^ 64 ->
  send_encoded_frame config f true (fun _ => true) seq =
  (true, seq + Z.of_nat (List.length (chunks f)), frame_packets f seq).
Proof. intros H0 Hs. unfold send_encoded_frame. cbn [negb]. by rewrite send_chunks_all. Qed.

(** What the sender produces is a frame for the jitter buffer. *)
Lemma frame_packets_frame f seq :
  chunks f <> [] -> (List.length (chunks f) < 256)%nat -> is_frame (is_i f) (frame_time f) seq (frame_packets f seq).
Proof.
  intros Hne Hl. assert (Hlen : List.length (frame_packets f seq) = List.length (chunks f)) by apply length_imap.
  split; [intros E; rewrite E in Hlen; by destruct (chunks f)|]. intros j p Hp.
  unfold frame_packets in Hp. rewrite list_lookup_imap in Hp. destruct (chunks f !! j) as [c|] eqn:Ej; [|done].
  injection Hp as <-. cbn. rewrite Hlen. split_and!; try done.
  - apply wrap_id. unfold fits. lia.
  - apply lookup_lt_Some in Ej. destruct (Nat.eqb_spec j (List.length (chunks f) - 1)); cbn; lia.
Qed.

Lemma frame_packets_payload f seq : payload <$> frame_packets f seq = chunks f.
Proof.
  unfold frame_packets. rewrite fmap_imap. cbn. generalize (chunks f) as l. induction l as [|c l IH]; [done|].
  cbn [imap]. f_equal. exact IH.
Qed.

(** The frames of a stream and the sequence number each starts at. *)
Fixpoint starts (fs : list EncodedFrame) (seq : Z) : list (EncodedFrame * Z) :=
  match fs with
  | [] => []
  | f :: fs => (f, seq) :: starts fs (seq + Z.of_nat (List.length (chunks f)))
  end.

Definition count_chunks (fs : list EncodedFrame) : Z :=
  foldr (fun f n => Z.of_nat (List.length (chunks f)) + n) 0 fs.

(** The encoder's outputs as the thread sees them when nothing fails. *)
Definition inputs (l : list (bytes * bool * Z)) : list (option (bytes * bool) * Z * bool * (nat -> bool)) :=
  map (fun e => (Some e.1, e.2, true, fun _ => true)) l.
Definition encoded (n : nat) (l : list (bytes * bool * Z)) : list EncodedFrame :=
  map (fun e => mk_encoded (chunk_loop (List.length e.1.1) n e.1.1) e.2 e.1.2) l.

Lemma count_nonneg fs : 0 <= count_chunks fs.
Proof. unfold count_chunks. induction fs; cbn [foldr]; lia. Qed.

Lemma encoded_sender_all l seq :
  0 < rtp_max_chunk_size config -> 0 <= seq ->
  seq + count_chunks (encoded (Z.to_nat (rtp_max_chunk_size config)) l) < 2 ^ 64 ->
  encoded_sender config (inputs l) seq =
  Ret (map (fun p => frame_packets p.1 p.2) (starts (encoded (Z.to_nat (rtp_max_chunk_size config)) l) seq)).
Proof.
  intros Hm. set (n := Z.to_nat (rtp_max_chunk_size config)).
  revert seq. induction l as [|[[b i] t] l IH]; intros seq H0 Hs; [done|].
  set (f := mk_encoded (chunk_loop (List.length b) n b) t i).
  change (encoded n ((b, i, t) :: l)) with (f :: encoded n l) in *.
  change (count_chunks (f :: encoded n l)) with (Z.of_nat (List.length (chunks f)) + count_chunks (encoded n l)) in Hs.
  pose proof (count_nonneg (encoded n l)).
  cbn [inputs map encoded_sender starts fst snd]. unfold encode, generate_chunks_from_bitstream.
  rewrite (proj2 (Z.eqb_neq _ _)) by lia. cbn [cbind]. fold n f.
  rewrite send_frame_all by lia. fold (inputs l). by rewrite IH by lia.
Qed.

(** ** Receiving a stream *)

(** Every frame's arrivals are its packets in some order, and on time: [c] and
    [d] are the time of the last completed frame and of its delivery. *)
Inductive arrivals : Z -> Z -> list (EncodedFrame * Z) -> list (list event) -> Prop :=
| arrivals_nil c d : arrivals c d [] []
| arrivals_cons c d f seq fs es e ess :
    (ev_packet <$> es) ≡ₚ frame_packets f seq -> last es = Some e -> c <= frame_time f ->
    on_time c d (frame_time f) es -> d + frame_time f + TOLERANCE_MILLIS < 2 ^ 128 -> 0 <= ev_now e ->
    arrivals (frame_time f) (delivered_after c d (frame_time f) (ev_now e)) fs ess ->
    arrivals c d ((f, seq) :: fs) (es :: ess).

Lemma receive_app checks N a b s :
  receive checks N (a ++ b) s =
  let!! (o, s) := receive checks N a s in let!! (o', s) := receive checks N b s in Some (Ret (o ++ o', s)).
Proof.
  revert s. induction a as [|e a IH]; intros s; cbn [app receive].
  - cbn [ocbind app]. by destruct (receive checks N b s) as [[[? ?]|]|].
  - destruct (receive_one checks N e s) as [[[o s1]|]|]; cbn [ocbind]; [|done..]. rewrite IH.
    destruct (receive checks N a s1) as [[[os s2]|]|]; cbn [ocbind]; [|done..].
    by destruct (receive checks N b s2) as [[[? ?]|]|].
Qed.

Lemma fits_in_app checks k a b : fits_in checks k (a ++ b) -> fits_in checks k a /\ fits_in checks (k + Z.of_nat (List.length a)) b.
Proof.
  intros H. split; intros Hc; destruct (H Hc) as (Hk & Hl & Hf); rewrite length_app in Hl; apply Forall_app in Hf as [Hf1 Hf2];
    split_and!; try done; lia.
Qed.

Lemma delivered_nonneg c d ts now : 0 <= d -> 0 <= now -> 0 <= delivered_after c d ts now.
Proof.
  intros Hd Hn. unfold delivered_after. case_bool; [done|]. apply (Z.mod_pos_bound _ (2 ^ 128)). lia.
Qed.

(** The whole stream is received frame by frame. *)
Lemma stream_received checks N fs seq ess c d need k s :
  (0 < N)%nat -> idle N c d need s -> 0 <= c -> 0 <= d -> 2 * Z.of_nat N <= seq ->
  seq + count_chunks fs < 2 ^ 64 ->
  Forall (fun f => chunks f <> [] /\ (List.length (chunks f) < 256)%nat /\ (List.length (chunks f) < N)%nat) fs ->
  (need = false \/ forall f, head fs = Some f -> is_i f = true) ->
  arrivals c d (starts fs seq) ess -> roomy checks k s -> fits_in checks k (List.concat ess) ->
  exists os s', receive checks N (List.concat ess) s = Some (Ret (os, s')) /\ omap id os = (fun f => List.concat (chunks f)) <$> fs.
Proof.
  intros HN. revert seq ess c d need k s.
  induction fs as [|f fs IH]; intros seq ess c d need k s Hs Hc Hd Hseq H64 Hfs Hneed Ha Hroom Hfit.
  { inversion Ha; subst. by exists [], s. }
  cbn [starts] in Ha. inversion Ha as [|? ? ? ? ? es e ess' Hperm Hlast Hcf Hot Hb Hnow Hrest]; subst.
  apply Forall_cons in Hfs as [(Hne & Hl & HlN) Hfs]. cbn [count_chunks foldr] in H64. fold (count_chunks fs) in H64.
  pose proof (count_nonneg fs).
  assert (Hlen : List.length (frame_packets f seq) = List.length (chunks f)) by apply length_imap.
  cbn [List.concat] in Hfit. apply fits_in_app in Hfit as [Hfit1 Hfit2].
  destruct (receive_frame checks N ltac:(lia) (is_i f) (frame_time f) seq c d (frame_packets f seq)
    (frame_packets_frame f seq Hne Hl) ltac:(lia) Hseq ltac:(lia) ltac:(lia) Hd Hb es need k s Hperm Hot)
    as (e' & s1 & He' & Hr & Hs1 & Hroom1); [|done..|].
  { destruct Hneed as [->|Hi]; [by left|right; by apply Hi]. }
  rewrite Hlast in He'. injection He' as <-.
  destruct (IH (seq + Z.of_nat (List.length (chunks f))) ess' _ _ false (k + Z.of_nat (List.length es)) s1 Hs1) as (os & s2 & Hr2 & Ho); try done; try lia.
  { by apply delivered_nonneg. }
  cbn [List.concat]. rewrite receive_app, Hr. cbn [ocbind]. rewrite Hr2. cbn [ocbind]. eexists _, s2. split; [reflexivity|].
  rewrite omap_app, Ho. rewrite frame_packets_payload. cbn [fmap list_fmap].
  assert (Hrep : forall n (x : bytes), omap id (replicate n None ++ [Some x]) = [x]).
  { intros n x. induction n as [|n IHn]; [done|]. exact IHn. }
  by rewrite Hrep.
Qed.

End Stream.

(** The loop that feeds the decoder is the receive loop of the jitter buffer
    followed by the decoder, when nothing is closed. *)
Lemma frame_loop_receive {D} (decode_frame : D -> bytes -> option (bytes * Z * Z) * D) checks N es s d os s' :
  receive checks N es s = Some (Ret (os, s')) ->
  frame_loop decode_frame checks N (map (fun e => mk_turn true (Some e) true) es) s d =
  Some (Ret (decode_all decode_frame d (omap id os))).
Proof.
  revert s d os. induction es as [|e es IH]; intros s d os; cbn [receive map frame_loop]; [by intros [= <- <-]|].
  cbn [negb t_connected t_packet t_send]. destruct (receive_one checks N e s) as [[[o s1]|]|]; cbn [ocbind]; [|done..].
  destruct (receive checks N es s1) as [[[os1 s2]|]|] eqn:Er; cbn [ocbind]; [|done..]. intros [= <- <-]. destruct o as [b|]; [|exact (IH _ _ _ Er)].
  cbn [omap list_omap id decode_all]. destruct (generate_frame_from_chunks decode_frame d b) as [[f|] d1]; [|exact (IH _ _ _ Er)].
  by rewrite (IH _ d1 _ Er).
Qed.

Section Demux.
Context {F64 F32 : Type} (config : MediaConfig F64 F32).

Definition is_video (p : RtpPacket) : bool := payload_type p =? video_payload_type config.

Lemma demux_video ps : (demux config (map (fun p => (p, true, true)) ps)).1 = List.filter is_video ps.
Proof.
  induction ps as [|p ps IH]; [done|]. cbn [map demux List.filter negb]. unfold is_video at 1.
  destruct (payload_type p =? video_payload_type config).
  - destruct (demux config _) as [v a]. cbn in *. by f_equal.
  - destruct (payload_type p =? audio_payload_type config); [destruct (demux config _) as [v a]; exact IH|exact IH].
Qed.

Definition video (es : list event) : list event := List.filter (fun e => is_video (ev_packet e)) es.

Lemma video_concat ess : video (List.concat ess) = List.concat (map video ess).
Proof. induction ess as [|es ess IH]; [done|]. cbn [List.concat map]. unfold video at 1. rewrite List.filter_app. f_equal. exact IH. Qed.

Lemma video_packets es : List.filter is_video (ev_packet <$> es) = ev_packet <$> video es.
Proof.
  induction es as [|e es IH]; [done|]. cbn [fmap list_fmap List.filter]. unfold video in *. cbn [List.filter].
  destruct (is_video (ev_packet e)); [cbn [fmap list_fmap]; by f_equal|exact IH].
Qed.

End Demux.

(** * Properties *)

(** C3: what the camera side encodes, the display side decodes.  Take any
    sequence of encoded frames, the first of them intra-coded if the receiver
    still waits for one, each of less than 256 chunks and less than the buffer's
    capacity, numbered from two buffer lengths on.  The sending thread emits
    every frame; if the datagrams of each frame, protected by the sender, arrive
    in any order, mixed with the audio's, and before their playout deadlines,
    then the receiver authenticates and decrypts them all, the demultiplexer
    passes on exactly the video packets, and the decoder is given the
    encoder's bitstreams, whole, in order and once each.  In a build with
    overflow checks this asks besides that the statistics have room: [k] packets
    received before, at most 2^22 with these, and clocks and time stamps below
    2^62 ([roomy], [fits_in]; both hold for nothing in a build without). *)
Theorem video_delivery {E D F64 F32} cipher hmac srtp is_client (config : MediaConfig F64 F32)
    (decode_frame : D -> bytes -> option (bytes * Z * Z) * D) d0 checks N l seq c d need k s ess dgs :
  @crypto_laws E cipher hmac -> (0 < N)%nat -> 0 < rtp_max_chunk_size config ->
  let fs := encoded (Z.to_nat (rtp_max_chunk_size config)) l in
  Forall (fun f => chunks f <> [] /\ (List.length (chunks f) < 256)%nat /\ (List.length (chunks f) < N)%nat) fs ->
  idle N c d need s -> 0 <= c -> 0 <= d -> (need = false \/ forall f, head fs = Some f -> is_i f = true) ->
  2 * Z.of_nat N <= seq -> seq + count_chunks fs < 2 ^ 64 ->
  arrivals config c d (starts fs seq) (map (video config) ess) ->
  roomy checks k s -> fits_in checks k (List.concat (map (video config) ess)) ->
  Forall2 (fun e dg => RtpPacket.wf (ev_packet e) /\ RtpPacket.version (ev_packet e) = 2 /\
    protect cipher hmac srtp (ev_packet e) is_client = Ok dg) (List.concat ess) dgs ->
  encoded_sender config (inputs l) seq = Ret (map (fun p => frame_packets config p.1 p.2) (starts fs seq)) /\
  (let got := unprotection_layer cipher hmac srtp (negb is_client) true ((fun dg => (dg, true)) <$> dgs) in
   let shown := (demux config (map (fun p => (p, true, true)) got)).1 in
   shown = ev_packet <$> video config (List.concat ess) /\
   frame_loop decode_frame checks N (map (fun e => mk_turn true (Some e) true) (video config (List.concat ess))) s d0 =
   Some (Ret (decode_all decode_frame d0 (map (fun e => e.1.1) l)))).
Proof.
  intros Hlaws HN Hm fs Hfs Hs Hc Hd Hneed Hseq H64 Harr Hroom Hfit Hnet. split; [apply encoded_sender_all; [done|lia|done]|].
  intros got shown.
  assert (Hgot : got = ev_packet <$> List.concat ess).
  { apply (layer_delivers cipher hmac Hlaws). by apply Forall2_fmap_l. }
  split; [unfold shown; by rewrite demux_video, Hgot, video_packets|].
  destruct (stream_received config checks N fs seq (map (video config) ess) c d need k s) as (os & s' & Hr & Hos); try done.
  rewrite video_concat, (frame_loop_receive decode_frame checks N _ s d0 os s' Hr). do 3 f_equal. rewrite Hos.
  unfold fs, encoded. clear -Hm. induction l as [|[[b i] t] l IH]; [done|].
  cbn [map fmap list_fmap chunks fst snd]. f_equal; [|exact IH]. apply chunk_loop_concat; lia.
Qed.

(** * Witnesses *)

Definition toy_media : MediaConfig Z Z := mk_media 0 640 480 30 30 2 1 2 96 [] 90000 2 [] [] [] 4 1 48000 960 111 [].
Definition toy_encoded : list (bytes * bool * Z) := [([1; 2; 3], true, 1000)].
Definition toy_video (j : Z) (m : Z) (b : bytes) : RtpPacket := mk_packet 2 m 2 true 96 (8 + j) 1000 1 b.
Definition toy_audio : RtpPacket := mk_packet 2 1 1 false 111 0 1000 2 [9].
Definition at_zero (p : RtpPacket) : event := mk_event 0 (fun _ => 0) 0 p.
Definition toy_arrivals : list (list event) := [map at_zero [toy_video 1 1 [3]; toy_audio; toy_video 0 0 [1; 2]]].
Definition toy_datagrams : list bytes :=
  omap (fun e => result_ok (protect toy_cipher toy_hmac toy_ctx (ev_packet e) true)) (List.concat toy_arrivals).

(** The chunks arrive in the wrong order, with an audio packet between them. *)
Lemma video_delivery_witness :
  (demux toy_media (map (fun p => (p, true, true))
    (unprotection_layer toy_cipher toy_hmac toy_ctx false true ((fun dg => (dg, true)) <$> toy_datagrams)))).1 =
  [toy_video 1 1 [3]; toy_video 0 0 [1; 2]].
Proof.
  refine (proj1 (proj2 (video_delivery toy_cipher toy_hmac toy_ctx true toy_media (fun (x : unit) b => (None, x)) tt true 4
    toy_encoded 8 0 0 true 0 (JitterBuffer.new 4) toy_arrivals toy_datagrams toy_laws _ _ _ _ _ _ _ _ _ _ _ _ _))); try lia; try done.
  - apply Forall_cons_2; [|apply Forall_nil_2]. split; [done|]. simpl. lia.
  - split; try done; [apply wf_new; lia|]. intros [|[|[|[|i]]]]; reflexivity.
  - right. by intros f [= <-].
  - eapply arrivals_cons; [|reflexivity|simpl; lia|by left|vm_compute; reflexivity|simpl; lia|constructor].
    vm_compute. apply Permutation_swap.
  - intros _. split_and!; [lia|simpl; lia|]. repeat constructor; simpl; lia.
  - repeat constructor; simpl; try lia; try done.
Defined.
