(* ===== verification/Audio.v ===== *)
(** The audio path (src/media/audio/ring_buffer.rs, the capture callback of
    audio/microphone.rs, audio_pipeline.rs, audio_handler/audio_frame.rs,
    audio/error.rs): the circular sample buffer, the frames cut from it, the
    packets made of them, and playback.

    Samples are only moved here, so their type is a parameter: a callback starts
    from the resampled samples (down-mixing and resampling are in Sound).  The
    cpal devices are not modelled, and the Opus encoder and decoder are the
    outcomes of their calls (their wrappers are in Codec).  The threads are functions on the
    sequence of their inputs with the outcomes of their channel operations. *)

From S2P Require Import Prelude.
From S2P Require Import RtpPacket.
From S2P Require Import Text.
From S2P Require Import Wire.
From S2P Require Import Config.
From S2P Require Import Media.

(** * Definitions *)

Inductive AudioError :=
| InputDeviceError
| AudioMapError (e : str)                  (* [MapError] *)
| EncoderInitializationError
| EncodingError (e : str)
| DecoderInitializationError
| DecodingError (e : str)
| MissingOutputDeviceError.

Definition show_audio_error (e : AudioError) : str :=
  match e with
  | InputDeviceError => lit "Error: no input device available"
  | AudioMapError e => lit "Error: " ++ e
  | EncoderInitializationError => lit "Error: failed to initialize microphone encoder"
  | EncodingError e => lit "Error: failed to encode microphone file (" ++ e ++ lit ")"
  | DecoderInitializationError => lit "Error: failed to initialize microphone decoder"
  | DecodingError e => lit "Error: failed to decode microphone file (" ++ e ++ lit ")"
  | MissingOutputDeviceError => lit "Error: no output device available"
  end.

(** ** The circular buffer *)

Section Ring.
Context {A : Type}.

Record AudioRingBuffer := mk_ring {
  buffer : list A;
  size : nat;
  write_pos : nat;
  read_pos : nat;
  count : nat
}.

(** [zero]: the sample 0.0. *)
Definition new (zero : A) (capacity : nat) : AudioRingBuffer :=
  mk_ring (replicate capacity zero) capacity 0 0 0.

(** [buffer[i] = a] and the remainders by [size] panic as in the code. *)
Definition store (i : nat) (a : A) (l : list A) : comp (list A) :=
  if (i <? List.length l)%nat then Ret (<[i := a]> l) else Panic.
Definition modulo (a b : nat) : comp nat := if (b =? 0)%nat then Panic else Ret (a mod b)%nat.

Definition push_one (sample : A) (r : AudioRingBuffer) : comp AudioRingBuffer :=
  let! b := store (write_pos r) sample (buffer r) in
  let! w := modulo (write_pos r + 1) (size r) in
  if (count r <? size r)%nat then Ret (mk_ring b (size r) w (read_pos r) (count r + 1))
  else let! p := modulo (read_pos r + 1) (size r) in Ret (mk_ring b (size r) w p (count r)).

Fixpoint push (data : list A) (r : AudioRingBuffer) : comp AudioRingBuffer :=
  match data with
  | [] => Ret r
  | sample :: data => let! r := push_one sample r in push data r
  end.

(** The loop that fills the chunk: the samples and the new read position. *)
Fixpoint take_samples (n : nat) (p : nat) (r : AudioRingBuffer) : comp (list A * nat) :=
  match n with
  | O => Ret ([], p)
  | S n =>
      let! a := Prelude.index (buffer r) p in
      let! p := modulo (p + 1) (size r) in
      let! q := take_samples n p r in
      Ret (a :: q.1, q.2)
  end.

Definition pop_chunk (chunk_size : nat) (r : AudioRingBuffer) : comp (option (list A) * AudioRingBuffer) :=
  if (count r <? chunk_size)%nat then Ret (None, r) else
  let! q := take_samples chunk_size (read_pos r) r in
  Ret (Some q.1, mk_ring (buffer r) (size r) (write_pos r) q.2 (count r - chunk_size)).

End Ring.
Arguments AudioRingBuffer A : clear implicits.

(** ** Capture *)

Record AudioFrame (A : Type) := mk_audio {
  data : list A;
  timestamp : Z
}.
Arguments mk_audio {A}.
Arguments data {A}.
Arguments timestamp {A}.

Section Capture.
Context {A : Type} (opus_frame_size : nat).

(** The loop that drains the buffer: [now] and [sends] are the clock and the
    channel at each turn.  [None]: out of fuel. *)
Fixpoint drain (fuel : nat) (i : nat) (now : nat -> Z) (sends : nat -> bool) (r : AudioRingBuffer A) :
    option (comp (list (AudioFrame A) * AudioRingBuffer A)) :=
  match fuel with
  | O => None
  | S fuel =>
      match pop_chunk opus_frame_size r with
      | Panic => Some Panic
      | Ret (None, r) => Some (Ret ([], r))
      | Ret (Some chunk, r) =>
          if sends i then
            match drain fuel (S i) now sends r with
            | Some (Ret (fs, r)) => Some (Ret (mk_audio chunk (now i) :: fs, r))
            | other => other
            end
          else Some (Ret ([], r))
      end
  end.

(** One callback of the input stream, after down-mixing and resampling. *)
Definition on_samples (muted : bool) (resampled : list A) (now : nat -> Z) (sends : nat -> bool)
    (r : AudioRingBuffer A) : option (comp (list (AudioFrame A) * AudioRingBuffer A)) :=
  if muted then Some (Ret ([], r)) else
  match push resampled r with
  | Panic => Some Panic
  | Ret r => drain (S (count r)) 0 now sends r
  end.

End Capture.

(** [toggle_mute] on the flag. *)
Definition toggle_mute (muted : bool) : bool := negb muted.

(** ** Packets *)

Section Pipeline.
Context {F64 F32 : Type} (config : MediaConfig F64 F32).

Definition audio_packet (seq_num time : Z) (encoded : bytes) : RtpPacket :=
  mk_packet (rtp_version config) 1 1 false (audio_payload_type config) seq_num time (audio_ssrc config) encoded.

(** The sending thread: for every frame of the microphone its time, the flag,
    the encoder's outcome and the channel's. *)
Fixpoint audio_sender (l : list (Z * bool * option bytes * bool)) (seq_num : Z) : list RtpPacket :=
  match l with
  | [] => []
  | (time, connected, encoded, sent) :: l =>
      if negb connected then [] else
      match encoded with
      | None => audio_sender l seq_num
      | Some b =>
          if sent then audio_packet seq_num time b :: audio_sender l (saturating_add 64 seq_num 1) else []
      end
  end.

(** The receiving thread: at every turn the flag and the packet ([None]: the
    channel is closed); the samples given to the speaker. *)
Context {D A : Type} (decode : D -> bytes -> option (list A) * D).

Fixpoint audio_receiver (l : list (bool * option RtpPacket)) (d : D) : list (list A) :=
  match l with
  | [] => []
  | (connected, packet) :: l =>
      if negb connected then [] else
      match packet with
      | None => []
      | Some p =>
          match decode d (payload p) with
          | (Some samples, d) => samples :: audio_receiver l d
          | (None, d) => audio_receiver l d
          end
      end
  end.

(** [Speaker::fetch_new_samples] on the queued packets. *)
Definition fetch_new_samples (locked : bool) (queue : list (list A)) (b : list A) : list A :=
  if locked then b ++ List.concat queue else b.

End Pipeline.

(** * Lemmas *)

(** ** The buffer as a queue *)

Section Queue.
Context {A : Type}.
Implicit Types r : AudioRingBuffer A.

(** The index invariant, and the samples held, oldest first. *)
Record ring_ok r : Prop := mk_ring_ok {
  ok_size : (0 < size r)%nat;
  ok_buffer : List.length (buffer r) = size r;
  ok_count : (count r <= size r)%nat;
  ok_read : (read_pos r < size r)%nat;
  ok_write : write_pos r = ((read_pos r + count r) mod size r)%nat
}.

Definition contents r : list A := omap (fun k => buffer r !! ((read_pos r + k) mod size r)%nat) (seq 0 (count r)).

(** What a bounded queue keeps: the last n elements. *)
Definition last_n (n : nat) (l : list A) : list A := drop (List.length l - n) l.

Lemma omap_total {B C} (f : B -> option C) (l : list B) :
  (forall x, x ∈ l -> is_Some (f x)) -> forall k, omap f l !! k = l !! k ≫= f.
Proof.
  induction l as [|x l IH]; intros Hf k; [done|].
  destruct (Hf x ltac:(left)) as [y Hy]. cbn. rewrite Hy. destruct k as [|k]; [done|]. cbn.
  apply IH. intros z Hz. apply Hf. by right.
Qed.

Lemma contents_lookup r k :
  ring_ok r -> contents r !! k = if (k <? count r)%nat then buffer r !! ((read_pos r + k) mod size r)%nat else None.
Proof.
  intros [Hs Hb Hc Hr Hw]. unfold contents. rewrite omap_total.
  - case_bool; [by rewrite lookup_seq_lt by lia|by rewrite lookup_seq_ge by lia].
  - intros x _. apply lookup_lt_is_Some_2. rewrite Hb. apply Nat.mod_upper_bound. lia.
Qed.

Lemma contents_length r : ring_ok r -> List.length (contents r) = count r.
Proof.
  intros Hok. pose proof Hok as [Hs Hb Hc Hr Hw]. apply Nat.le_antisymm.
  - apply Nat.nlt_ge. intros Hlt. apply lookup_lt_is_Some_2 in Hlt as [x Hx]. rewrite contents_lookup in Hx by done.
    case_bool; [lia|done].
  - destruct (count r) as [|n] eqn:E; [lia|]. apply Nat.le_succ_l. apply lookup_lt_is_Some.
    rewrite contents_lookup by done. case_bool; [|lia]. apply lookup_lt_is_Some_2. rewrite Hb. apply Nat.mod_upper_bound. lia.
Qed.

Lemma last_n_lookup n (l : list A) k : last_n n l !! k = l !! (List.length l - n + k)%nat.
Proof. apply lookup_drop. Qed.

Lemma push_one_spec a r :
  ring_ok r -> exists r', push_one a r = Ret r' /\ ring_ok r' /\ size r' = size r /\
    contents r' = last_n (size r) (contents r ++ [a]).
Proof.
  intros Hok. pose proof Hok as [Hs Hb Hc Hr Hw]. pose proof (contents_length r Hok) as Hlen.
  assert (Hwlt : (write_pos r < size r)%nat) by (rewrite Hw; apply Nat.mod_upper_bound; lia).
  unfold push_one, store, modulo. rewrite Hb.
  rewrite (proj2 (Nat.ltb_lt _ _) Hwlt), (proj2 (Nat.eqb_neq _ _)) by lia. cbn [cbind].
  destruct (count r <? size r)%nat eqn:Hcs; [apply Nat.ltb_lt in Hcs|apply Nat.ltb_ge in Hcs].
  - eexists. split; [done|].
    assert (Hok' : ring_ok (mk_ring (<[write_pos r := a]> (buffer r)) (size r) ((write_pos r + 1) mod size r) (read_pos r) (count r + 1))).
    { constructor; cbn [size buffer count read_pos write_pos]; [lia|by rewrite length_insert|lia|lia|].
      rewrite Hw, Nat.Div0.add_mod_idemp_l. f_equal. lia. }
    split_and!; [done|done|]. apply list_eq. intros k. rewrite contents_lookup by done.
    cbn [size buffer count read_pos]. rewrite last_n_lookup, length_app, Hlen. cbn [List.length].
    replace (count r + 1 - size r + k)%nat with k by lia. case_bool.
    + destruct (decide (k = count r)) as [->|Hk].
      * rewrite <-Hw, list_lookup_insert_eq by lia. rewrite lookup_app_r, Hlen, Nat.sub_diag by lia. done.
      * rewrite lookup_app_l by lia. rewrite contents_lookup by done. case_bool; [|lia].
        rewrite list_lookup_insert_ne; [done|]. rewrite Hw, !mod_small_or_wrap by lia. repeat case_bool; lia.
    + rewrite lookup_app_r by lia. rewrite Hlen. by destruct (k - count r)%nat as [|m] eqn:?; [lia|].
  - assert (Hcnt : count r = size r) by lia. eexists. split; [done|].
    assert (Hwr : write_pos r = read_pos r).
    { rewrite Hw, Hcnt. rewrite mod_small_or_wrap by lia. case_bool; lia. }
    assert (Hok' : ring_ok (mk_ring (<[write_pos r := a]> (buffer r)) (size r) ((write_pos r + 1) mod size r)
      ((read_pos r + 1) mod size r) (count r))).
    { constructor; cbn [size buffer count read_pos write_pos]; [lia|by rewrite length_insert|lia|apply Nat.mod_upper_bound; lia|].
      rewrite Hwr, Hcnt. set (p := ((read_pos r + 1) mod size r)%nat).
      assert (p < size r)%nat by (apply Nat.mod_upper_bound; lia). rewrite (mod_small_or_wrap _ p) by lia. case_bool; lia. }
    split_and!; [done|done|]. apply list_eq. intros k. rewrite contents_lookup by done.
    cbn [size buffer count read_pos]. rewrite last_n_lookup, length_app, Hlen, mod_step. cbn [List.length].
    replace (count r + 1 - size r + k)%nat with (S k) by lia. case_bool.
    + destruct (decide (S k = size r)) as [Hk|Hk].
      * rewrite Hk, mod_small_or_wrap by lia. case_bool; [lia|].
        replace (read_pos r + size r - size r)%nat with (write_pos r) by lia.
        rewrite list_lookup_insert_eq by lia. rewrite lookup_app_r, Hlen by lia. by replace (size r - count r)%nat with 0%nat by lia.
      * rewrite lookup_app_l by lia. rewrite contents_lookup by done. case_bool; [|lia].
        rewrite list_lookup_insert_ne; [done|]. rewrite Hwr, mod_small_or_wrap by lia. case_bool; lia.
    + rewrite lookup_app_r, Hlen by lia. by destruct (S k - count r)%nat as [|m] eqn:?; [lia|].
Qed.

Lemma last_n_app n (l1 l2 : list A) : last_n n (last_n n l1 ++ l2) = last_n n (l1 ++ l2).
Proof.
  unfold last_n. rewrite length_app, length_drop. set (k := (List.length l1 - n)%nat).
  rewrite <-(take_drop k l1) at 3 4. rewrite <-app_assoc, length_app, length_app, length_take, length_drop.
  replace (k `min` List.length l1 + (List.length l1 - k + List.length l2) - n)%nat with
    (List.length (take k l1) + (List.length l1 - k + List.length l2 - n))%nat by (rewrite length_take; lia).
  by rewrite drop_app_add.
Qed.

Lemma last_n_short n (l : list A) : (List.length l <= n)%nat -> last_n n l = l.
Proof. intros Hl. unfold last_n. by replace (List.length l - n)%nat with 0%nat by lia. Qed.

Lemma push_spec l r :
  ring_ok r -> exists r', push l r = Ret r' /\ ring_ok r' /\ size r' = size r /\
    contents r' = last_n (size r) (contents r ++ l).
Proof.
  revert r. induction l as [|a l IH]; intros r Hok; cbn [push].
  - exists r. split_and!; try done. rewrite app_nil_r, last_n_short; [done|]. rewrite contents_length by done. by apply ok_count.
  - destruct (push_one_spec a r Hok) as (r1 & -> & Hok1 & Hs1 & Hc1). cbn [cbind].
    destruct (IH r1 Hok1) as (r' & -> & Hok' & Hs' & Hc'). exists r'. split_and!; try done; [congruence|].
    rewrite Hc', Hc1, Hs1, last_n_app, <-app_assoc. done.
Qed.

(** Reading n samples from the front. *)
Lemma take_samples_spec r n p j :
  ring_ok r -> p = ((read_pos r + j) mod size r)%nat -> (j + n <= count r)%nat ->
  take_samples n p r = Ret (take n (drop j (contents r)), ((read_pos r + (j + n)) mod size r)%nat).
Proof.
  intros Hok. pose proof Hok as [Hs Hb Hc Hr Hw]. revert p j. induction n as [|n IH]; intros p j -> Hn; cbn [take_samples].
  - by rewrite Nat.add_0_r.
  - assert (Hlk : contents r !! j = buffer r !! ((read_pos r + j) mod size r)%nat)
      by (rewrite contents_lookup by done; case_bool; [done|lia]).
    destruct (contents r !! j) as [a|] eqn:Ea.
    2:{ apply lookup_ge_None in Ea. rewrite contents_length in Ea by done. lia. }
    unfold Prelude.index. rewrite <-Hlk. cbn [cbind]. unfold modulo. rewrite (proj2 (Nat.eqb_neq _ _)) by lia. cbn [cbind].
    rewrite (IH _ (S j)); [|by rewrite Nat.Div0.add_mod_idemp_l, <-Nat.add_assoc, Nat.add_1_r|lia]. cbn [cbind fst snd].
    rewrite (drop_S _ _ _ Ea). cbn [take]. do 2 f_equal. f_equal. lia.
Qed.

Lemma pop_chunk_spec n r :
  ring_ok r ->
  if (count r <? n)%nat then pop_chunk n r = Ret (None, r)
  else exists r', pop_chunk n r = Ret (Some (take n (contents r)), r') /\ ring_ok r' /\ size r' = size r /\
    contents r' = drop n (contents r).
Proof.
  intros Hok. pose proof Hok as [Hs Hb Hc Hr Hw]. unfold pop_chunk. destruct (count r <? n)%nat eqn:E; [done|].
  apply Nat.ltb_ge in E. rewrite (take_samples_spec r n _ 0) by (try done; try lia; by rewrite Nat.add_0_r, Nat.mod_small).
  cbn [cbind fst snd]. rewrite drop_0, Nat.add_0_l. eexists. split; [done|].
  assert (Hok' : ring_ok (mk_ring (buffer r) (size r) (write_pos r) ((read_pos r + n) mod size r) (count r - n))).
  { constructor; cbn [size buffer count read_pos write_pos]; [lia|lia|lia|apply Nat.mod_upper_bound; lia|].
    rewrite Nat.Div0.add_mod_idemp_l, Hw. f_equal. lia. }
  split_and!; [done|done|]. apply list_eq. intros k. rewrite lookup_drop, !contents_lookup by done. cbn [size buffer count read_pos].
  rewrite Nat.Div0.add_mod_idemp_l, <-Nat.add_assoc. repeat case_bool; try lia; done.
Qed.

Lemma new_ring zero n : (0 < n)%nat -> ring_ok (new zero n) /\ size (new zero n) = n /\ contents (new zero n) = [].
Proof.
  intros Hn. split; [|done]. constructor; cbn; try lia; [by rewrite length_replicate|]. by rewrite Nat.mod_small.
Qed.

End Queue.

(** ** Capture *)

Section Frames.
Context {A : Type} (N : nat).

(** Draining cuts whole frames from the front and leaves less than one. *)
Lemma drain_spec fuel i now (r : AudioRingBuffer A) :
  (0 < N)%nat -> ring_ok r -> (count r < fuel)%nat ->
  exists fs r', drain N fuel i now (fun _ => true) r = Some (Ret (fs, r')) /\ ring_ok r' /\ size r' = size r /\
    contents r = List.concat (data <$> fs) ++ contents r' /\
    Forall (fun f => List.length (data f) = N) fs /\ (List.length (contents r') < N)%nat /\
    (forall k f, fs !! k = Some f -> timestamp f = now (i + k)%nat).
Proof.
  intros HN. revert i r. induction fuel as [|fuel IH]; intros i r Hok Hf; [lia|]. cbn [drain].
  pose proof (pop_chunk_spec N r Hok) as Hp. pose proof (contents_length r Hok) as Hl.
  destruct (count r <? N)%nat eqn:E.
  - rewrite Hp. apply Nat.ltb_lt in E. exists [], r. split_and!; try done. by rewrite Hl.
  - apply Nat.ltb_ge in E. destruct Hp as (r1 & -> & Hok1 & Hs1 & Hc1).
    assert (Hc : count r1 = (count r - N)%nat) by (rewrite <-(contents_length r1), Hc1, length_drop, Hl by done; done).
    destruct (IH (S i) r1 Hok1) as (fs & r' & -> & Hok' & Hs' & Hcon & Hall & Hlt & Ht); [lia|].
    exists (mk_audio (take N (contents r)) (now i) :: fs), r'. split_and!; try done.
    + congruence.
    + cbn. rewrite <-app_assoc, <-Hcon, Hc1. by rewrite take_drop.
    + constructor; [|done]. cbn. rewrite length_take. lia.
    + intros [|k] f; cbn; [intros [= <-]; cbn; by rewrite Nat.add_0_r|]. intros Hk. rewrite (Ht _ _ Hk). f_equal. lia.
Qed.

(** The callbacks of a stream, each with the mute flag, its samples and the
    clock, the channel open. *)
Fixpoint capture (calls : list (bool * list A * (nat -> Z))) (r : AudioRingBuffer A) :
    option (comp (list (AudioFrame A) * AudioRingBuffer A)) :=
  match calls with
  | [] => Some (Ret ([], r))
  | (muted, resampled, now) :: calls =>
      match on_samples N muted resampled now (fun _ => true) r with
      | Some (Ret (fs, r)) =>
          match capture calls r with
          | Some (Ret (fs', r)) => Some (Ret (fs ++ fs', r))
          | other => other
          end
      | other => other
      end
  end.

(** The samples of the callbacks that are not muted. *)
Definition heard (calls : list (bool * list A * (nat -> Z))) : list A :=
  List.concat ((fun c => if c.1.1 : bool then [] else c.1.2) <$> calls).

Lemma capture_spec calls r :
  (0 < N)%nat -> ring_ok r -> size r = (N * 10)%nat -> (List.length (contents r) < N)%nat ->
  Forall (fun c => (List.length c.1.2 <= 9 * N)%nat) calls ->
  exists fs r', capture calls r = Some (Ret (fs, r')) /\
    contents r ++ heard calls = List.concat (data <$> fs) ++ contents r' /\
    Forall (fun f => List.length (data f) = N) fs /\ (List.length (contents r') < N)%nat.
Proof.
  intros HN. revert r. induction calls as [|[[muted l] now] calls IH]; intros r Hok Hs Hl Hall; cbn [capture].
  - exists [], r. split_and!; try done. unfold heard. cbn. by rewrite app_nil_r.
  - apply Forall_cons in Hall as [Hlen Hall]. cbn [fst snd] in Hlen. unfold on_samples. destruct muted.
    + destruct (IH r Hok Hs Hl Hall) as (fs & r' & -> & H1 & H2 & H3). by exists fs, r'.
    + destruct (push_spec l r Hok) as (r1 & -> & Hok1 & Hs1 & Hc1).
      rewrite last_n_short in Hc1 by (rewrite length_app; lia).
      destruct (drain_spec (S (count r1)) 0 now r1 HN Hok1 ltac:(lia)) as (fs & r2 & -> & Hok2 & Hs2 & Hcon & Hfs & Hl2 & _).
      destruct (IH r2 Hok2 ltac:(congruence) Hl2 Hall) as (fs' & r' & -> & H1 & H2 & H3). exists (fs ++ fs'), r'.
      split_and!; [done| |by apply Forall_app|done].
      change (heard ((false, l, now) :: calls)) with (l ++ heard calls).
      rewrite app_assoc, <-Hc1, Hcon, fmap_app, concat_app, <-!app_assoc. by rewrite H1.
Qed.

End Frames.

(** With any outcomes of the channel the loop ends. *)
Lemma drain_returns {A} N fuel i now sends (r : AudioRingBuffer A) :
  (0 < N)%nat -> ring_ok r -> (count r < fuel)%nat ->
  exists fs r', drain N fuel i now sends r = Some (Ret (fs, r')) /\ ring_ok r' /\ size r' = size r /\ (count r' <= count r)%nat.
Proof.
  intros HN. revert i r. induction fuel as [|fuel IH]; intros i r Hok Hf; [lia|]. cbn [drain].
  pose proof (pop_chunk_spec N r Hok) as Hp. destruct (count r <? N)%nat eqn:E.
  - rewrite Hp. by exists [], r.
  - apply Nat.ltb_ge in E. destruct Hp as (r1 & -> & Hok1 & Hs1 & Hc1).
    assert (Hc : count r1 = (count r - N)%nat)
      by (rewrite <-(contents_length r1), Hc1, length_drop, contents_length by done; done).
    destruct (sends i); [|exists [], r1; split_and!; try done; lia].
    destruct (IH (S i) r1 Hok1) as (fs & r' & -> & Hok' & Hs' & Hle); [lia|].
    eexists _, r'. split_and!; [reflexivity|done|congruence|lia].
Qed.

(** ** Packets *)

Section Stream.
Context {F64 F32 : Type} (config : MediaConfig F64 F32).

(** The frames that could be encoded, numbered from [seq]. *)
Definition numbered (l : list (Z * option bytes)) (seq : Z) : list RtpPacket :=
  imap (fun i f => audio_packet config (seq + Z.of_nat i) f.1 f.2)
    (omap (fun f => (fun b => (f.1, b)) <$> f.2) l).

Lemma audio_sender_all l seq :
  0 <= seq -> seq + Z.of_nat (List.length l) < 2 ^ 64 ->
  audio_sender config ((fun f => (f.1, true, f.2, true)) <$> l) seq = numbered l seq.
Proof.
  unfold numbered. revert seq. induction l as [|[t [b|]] l IH]; intros seq H0 Hs; cbn [List.length] in Hs; cbn; [done| |].
  - rewrite Z.add_0_r. f_equal. unfold saturating_add. rewrite Z.min_r by lia. rewrite IH by lia.
    apply imap_ext. intros j x _. cbn. f_equal. lia.
  - apply IH; lia.
Qed.

Definition is_audio (p : RtpPacket) : bool := payload_type p =? audio_payload_type config.

Lemma demux_audio ps :
  video_payload_type config <> audio_payload_type config ->
  (demux config (map (fun p => (p, true, true)) ps)).2 = List.filter is_audio ps.
Proof.
  intros Hne. induction ps as [|p ps IH]; [done|]. cbn [map demux List.filter negb]. unfold is_audio at 1.
  destruct (demux config (map _ ps)) as [v a]. cbn [snd] in IH. subst a.
  destruct (Z.eqb_spec (payload_type p) (video_payload_type config)) as [E|E];
    destruct (Z.eqb_spec (payload_type p) (audio_payload_type config)) as [E'|E']; try done. congruence.
Qed.

(** The decoder run over payloads, in order. *)
Fixpoint played {D A} (decode : D -> bytes -> option (list A) * D) (l : list bytes) (d : D) : list (list A) :=
  match l with
  | [] => []
  | b :: l => let '(o, d) := decode d b in match o with Some s => s :: played decode l d | None => played decode l d end
  end.

Lemma audio_receiver_all {D A} (decode : D -> bytes -> option (list A) * D) ps d :
  audio_receiver decode ((fun p => (true, Some p)) <$> ps) d = played decode (payload <$> ps) d.
Proof.
  revert d. induction ps as [|p ps IH]; intros d; [done|]. cbn. destruct (decode d (payload p)) as [[s|] d']; by rewrite IH.
Qed.

Lemma numbered_payloads l seq : payload <$> numbered l seq = omap snd l.
Proof.
  unfold numbered. rewrite fmap_imap.
  assert (E : imap (fun n => payload ∘ (fun f => audio_packet config (seq + Z.of_nat n) f.1 f.2))
    (omap (fun f => (fun b => (f.1, b)) <$> f.2) l) = snd <$> omap (fun f => (fun b => (f.1, b)) <$> f.2) l).
  { generalize (omap (fun f : Z * option bytes => (fun b => (f.1, b)) <$> f.2) l). clear l. intros l. revert seq.
    induction l as [|x l IH]; intros seq; [done|]. cbn. f_equal.
    rewrite <-(IH (seq + 1)). apply imap_ext. intros j y _. done. }
  rewrite E. clear E. induction l as [|[t [b|]] l IH]; [done| |exact IH]. cbn. f_equal. exact IH.
Qed.

End Stream.

(** * Properties *)

(** The operations on the buffer, and on a queue that keeps the last [n]
    samples. *)
Inductive ring_op (A : Type) := Push (l : list A) | Pop (n : nat).
Arguments Push {A}.
Arguments Pop {A}.

Fixpoint run_ring {A} (ops : list (ring_op A)) (r : AudioRingBuffer A) : comp (list (option (list A)) * AudioRingBuffer A) :=
  match ops with
  | [] => Ret ([], r)
  | Push l :: ops => let! r := push l r in run_ring ops r
  | Pop n :: ops => let! p := pop_chunk n r in let! q := run_ring ops p.2 in Ret (p.1 :: q.1, q.2)
  end.

Fixpoint run_queue {A} (cap : nat) (ops : list (ring_op A)) (q : list A) : list (option (list A)) * list A :=
  match ops with
  | [] => ([], q)
  | Push l :: ops => run_queue cap ops (last_n cap (q ++ l))
  | Pop n :: ops =>
      if (List.length q <? n)%nat then let '(outs, q) := run_queue cap ops q in (None :: outs, q)
      else let '(outs, q') := run_queue cap ops (drop n q) in (Some (take n q) :: outs, q')
  end.

(** C28: the circular buffer is a bounded queue.  Any sequence of pushes and
    pops on a new buffer of positive capacity runs without a panic, answers
    exactly what a queue answers that keeps the most recent samples up to that
    capacity, and ends with the same samples in the same order. *)
Theorem ring_is_queue {A} (zero : A) cap ops :
  (0 < cap)%nat ->
  exists r, run_ring ops (new zero cap) = Ret ((run_queue cap ops []).1, r) /\ ring_ok r /\
    contents r = (run_queue cap ops []).2.
Proof.
  intros Hcap. destruct (new_ring zero cap Hcap) as (Hok & Hs & Hc). rewrite <-Hc.
  generalize dependent (new zero cap). intros r Hok Hs _. revert r Hok Hs.
  induction ops as [|[l|n] ops IH]; intros r Hok Hs; cbn [run_ring run_queue].
  - by exists r.
  - destruct (push_spec l r Hok) as (r1 & -> & Hok1 & Hs1 & Hc1). cbn [cbind]. rewrite <-Hs, <-Hc1, Hs. apply IH; congruence.
  - pose proof (pop_chunk_spec n r Hok) as Hp. rewrite contents_length by done. destruct (count r <? n)%nat.
    + rewrite Hp. cbn [cbind fst snd]. destruct (IH r Hok Hs) as (r' & -> & Hok' & Hc'). cbn [cbind fst snd].
      destruct (run_queue cap ops (contents r)). by exists r'.
    + destruct Hp as (r1 & -> & Hok1 & Hs1 & Hc1). cbn [cbind fst snd]. rewrite <-Hc1.
      destruct (IH r1 Hok1 ltac:(congruence)) as (r' & -> & Hok' & Hc'). cbn [cbind fst snd].
      destruct (run_queue cap ops (contents r1)). by exists r'.
Qed.

(** No captured sample is lost or reordered.  Over any number of callbacks
    of at most nine frames each, the frames sent hold the samples of the
    callbacks that were not muted, in order and without a gap, each frame has
    exactly the frame size, and less than one frame stays in the buffer. *)
Lemma capture_stream {A} (zero : A) N calls :
  (0 < N)%nat -> Forall (fun c => (List.length c.1.2 <= 9 * N)%nat) calls ->
  exists fs r, capture N calls (new zero (N * 10)) = Some (Ret (fs, r)) /\
    heard calls = List.concat (data <$> fs) ++ contents r /\
    Forall (fun f => List.length (data f) = N) fs /\ (List.length (contents r) < N)%nat.
Proof.
  intros HN Hall. destruct (new_ring zero (N * 10) ltac:(lia)) as (Hok & Hs & Hc).
  destruct (capture_spec N calls (new zero (N * 10)) HN Hok Hs) as (fs & r & E & H1 & H2 & H3); [rewrite Hc; cbn; lia|done|].
  exists fs, r. rewrite Hc in H1. done.
Qed.

(** A callback always returns, without a panic.  For a positive frame size,
    whatever the samples and the outcomes of the channel, the draining loop ends
    within the fuel given and leaves a buffer that satisfies its invariant, so
    the next callback returns as well. *)
Lemma callback_returns {A} N muted resampled now sends (r : AudioRingBuffer A) :
  (0 < N)%nat -> ring_ok r ->
  exists fs r', on_samples N muted resampled now sends r = Some (Ret (fs, r')) /\ ring_ok r' /\ size r' = size r.
Proof.
  intros HN Hok. unfold on_samples. destruct muted; [by exists [], r|].
  destruct (push_spec resampled r Hok) as (r1 & -> & Hok1 & Hs1 & _).
  destruct (drain_returns N (S (count r1)) 0 now sends r1 HN Hok1 ltac:(lia)) as (fs & r' & -> & Hok' & Hs' & _).
  exists fs, r'. split_and!; [done|done|congruence].
Qed.

(** Sound goes through.  The frames the encoder accepts become packets
    numbered one after the other; when the packets that arrive, mixed in any way
    with video packets, hold these in order, the demultiplexer and the receiving
    thread give the decoder exactly the encoded frames in order, and the speaker
    what it makes of them. *)
Lemma audio_delivery {F64 F32 D A} (config : MediaConfig F64 F32) (decode : D -> bytes -> option (list A) * D)
    frames seq arrived d :
  video_payload_type config <> audio_payload_type config ->
  0 <= seq -> seq + Z.of_nat (List.length frames) < 2 ^ 64 ->
  let sent := audio_sender config ((fun f => (f.1, true, f.2, true)) <$> frames) seq in
  List.filter (is_audio config) arrived = sent ->
  sequence_number <$> sent = seqZ seq (Z.of_nat (List.length sent)) /\
  audio_receiver decode ((fun p => (true, Some p)) <$> (demux config (map (fun p => (p, true, true)) arrived)).2) d =
  played decode (omap snd frames) d.
Proof.
  intros Hne H0 Hs sent Harr. unfold sent in *. rewrite audio_sender_all in * by done. split.
  - unfold numbered. generalize (omap (fun f : Z * option bytes => (fun b => (f.1, b)) <$> f.2) frames). intros l.
    rewrite length_imap. apply list_eq. intros k. rewrite list_lookup_fmap, list_lookup_imap.
    destruct (decide (k < List.length l)%nat) as [Hk|Hk].
    + rewrite lookup_seqZ_lt by lia. destruct (lookup_lt_is_Some_2 l k Hk) as [x ->]. done.
    + rewrite lookup_ge_None_2 by lia. rewrite lookup_seqZ_ge by lia. done.
  - rewrite demux_audio by done. rewrite Harr, audio_receiver_all, numbered_payloads. done.
Qed.

(** * Witnesses *)

Lemma ring_is_queue_witness :
  exists r, run_ring [Push [1; 2; 3]; Pop 2; Push [4; 5]; Pop 3; Pop 1] (new 0 4) =
    Ret ([Some [1; 2]; Some [3; 4; 5]; None], r) /\ contents r = [].
Proof.
  destruct (ring_is_queue 0 4 [Push [1; 2; 3]; Pop 2; Push [4; 5]; Pop 3; Pop 1]) as (r & E & _ & Hc); [lia|].
  exists r. split; [exact E|exact Hc].
Defined.

(** A decoder whose samples are the bytes, refusing empty payloads. *)
Definition toy_audio (d : nat) (b : bytes) : option (list Z) * nat :=
  match b with [] => (None, d) | _ => (Some b, S d) end.
