(* ===== verification/F32.v ===== *)
(** Rust's [f32]: IEEE binary32 as the Standard Library specifies it
    ([SpecFloat] with a precision of 24 bits and a maximal exponent of 128), the
    conversions [as f32] and [as usize], and the facts the audio path needs:
    small integers are exact, and a finite float below an integer truncates
    below it. *)

From S2P Require Import Prelude.
From Stdlib Require Import SpecFloat.

(** * Definitions *)

Abbreviation f32 := spec_float.

Definition fadd : f32 -> f32 -> f32 := SFadd 24 128.
Definition fsub : f32 -> f32 -> f32 := SFsub 24 128.
Definition fmul : f32 -> f32 -> f32 := SFmul 24 128.
Definition fdiv : f32 -> f32 -> f32 := SFdiv 24 128.
Definition flt (x y : f32) : bool := SFltb x y.
Definition fge (x y : f32) : bool := SFleb y x.

(** [z as f32], rounded to the nearest. *)
Definition of_int (z : Z) : f32 := binary_normalize 24 128 z 0 false.

(** [x as usize]: truncated, saturating, zero for a NaN. *)
Definition to_usize (x : f32) : Z :=
  match x with
  | S754_finite false m e => Z.min (2 ^ 64 - 1) (if 0 <=? e then Zpos m * 2 ^ e else Zpos m / 2 ^ (- e))
  | S754_infinity false => 2 ^ 64 - 1
  | _ => 0
  end.

Definition zero : f32 := S754_zero false.
Definition one : f32 := of_int 1.
Definition half : f32 := fdiv one (of_int 2).

(** * Lemmas *)

Lemma digits2_log p : Zpos (digits2_pos p) = Z.log2 (Zpos p) + 1.
Proof.
  induction p as [p IH|p IH|]; cbn [digits2_pos]; [| |done]; rewrite Pos2Z.inj_succ, IH.
  - change (Zpos p~1) with (2 * Zpos p + 1). rewrite Z.log2_succ_double by lia. lia.
  - change (Zpos p~0) with (2 * Zpos p). rewrite Z.log2_double by lia. lia.
Qed.

Lemma digits_bound m : 0 < m -> 2 ^ (Zdigits2 m - 1) <= m < 2 ^ Zdigits2 m.
Proof.
  intros Hm. destruct m as [|p|p]; try lia. cbn [Zdigits2]. rewrite digits2_log.
  pose proof (Z.log2_spec (Zpos p) ltac:(lia)) as H. replace (Z.log2 (Zpos p) + 1 - 1) with (Z.log2 (Zpos p)) by lia.
  by rewrite <-Z.add_1_r in H.
Qed.

(** ** Shifting *)

Lemma iter_pos_nat {A} (f : A -> A) p x : iter_pos f p x = Nat.iter (Pos.to_nat p) f x.
Proof.
  revert x. induction p as [p IH|p IH|]; intros x; cbn [iter_pos]; [| |done]; rewrite !IH.
  - change (f x) with (Nat.iter 1 f x). rewrite <-!Nat.iter_add. f_equal. lia.
  - rewrite <-Nat.iter_add. f_equal. lia.
Qed.

Lemma shr_1_half r : 0 <= shr_m r -> shr_m (shr_1 r) = shr_m r / 2.
Proof.
  destruct r as [[|p|p] b s]; cbn [shr_m shr_1]; [done| |lia]. intros _. destruct p as [p|p|]; cbn [shr_m]; [| |done].
  - apply (Z.div_unique _ 2 _ 1); lia.
  - apply (Z.div_unique _ 2 _ 0); lia.
Qed.

Lemma shr_m_iter n r : 0 <= shr_m r -> shr_m (Nat.iter n shr_1 r) = shr_m r / 2 ^ Z.of_nat n.
Proof.
  intros Hr. induction n as [|n IH]; [by rewrite Z.div_1_r|].
  change (Nat.iter (S n) shr_1 r) with (shr_1 (Nat.iter n shr_1 r)).
  rewrite shr_1_half by (rewrite IH; apply Z.div_pos; lia). rewrite IH, Z.div_div by lia.
  f_equal. rewrite Nat2Z.inj_succ, Z.pow_succ_r by lia. lia.
Qed.

Lemma shr_m_div r e n : 0 <= shr_m r -> shr_m (shr r e n).1 = shr_m r / 2 ^ (Z.max 0 n).
Proof.
  intros Hr. destruct n as [|p|p]; cbn [shr fst]; [by rewrite Z.div_1_r| |by rewrite Z.div_1_r].
  rewrite iter_pos_nat, shr_m_iter by done. by rewrite positive_nat_Z.
Qed.

(** Shifting out zeroes loses nothing. *)
Lemma shr_exact q n e : 0 <= q -> 0 <= n ->
  shr (Build_shr_record (q * 2 ^ n) false false) e n = (Build_shr_record q false false, e + n).
Proof.
  intros Hq Hn. destruct n as [|p|p]; [cbn; by rewrite Z.mul_1_r, Z.add_0_r| |lia]. cbn [shr].
  rewrite iter_pos_nat. f_equal. rewrite <-(positive_nat_Z p). generalize (Pos.to_nat p) as k. clear p Hn e.
  induction k as [|k IH]; [by rewrite Z.mul_1_r|]. rewrite Nat.iter_succ_r.
  replace (q * 2 ^ Z.of_nat (S k)) with (2 * (q * 2 ^ Z.of_nat k)) by (rewrite Nat2Z.inj_succ, Z.pow_succ_r by lia; lia).
  assert (H : shr_1 (Build_shr_record (2 * (q * 2 ^ Z.of_nat k)) false false) = Build_shr_record (q * 2 ^ Z.of_nat k) false false).
  { assert (0 <= q * 2 ^ Z.of_nat k) by (apply Z.mul_nonneg_nonneg; [done|apply Z.pow_nonneg; lia]).
    destruct (q * 2 ^ Z.of_nat k) as [|m|m]; [done|done|lia]. }
  by rewrite H.
Qed.

(** ** Rounding *)

(** A finite float has at most 24 bits of mantissa. *)
Definition tight (x : f32) : Prop := match x with S754_finite _ m _ => Zpos m < 2 ^ 24 | _ => True end.

Lemma shr_fexp_tight m e l : 0 <= m -> shr_m (shr_fexp 24 128 m e l).1 < 2 ^ 24.
Proof.
  intros Hm. unfold shr_fexp. assert (Er : shr_m (shr_record_of_loc m l) = m) by (by destruct l as [|[]]).
  rewrite shr_m_div, Er by lia. destruct (Z.eq_dec m 0) as [->|Hne]; [by rewrite Z.div_0_l by (apply Z.pow_nonzero; lia)|].
  destruct (digits_bound m ltac:(lia)) as [_ Hd]. set (D := Zdigits2 m) in *. unfold fexp, emin.
  set (n := Z.max 0 _). assert (Hn : D - 24 <= n) by (unfold n; lia).
  apply Z.div_lt_upper_bound; [apply Z.pow_pos_nonneg; lia|]. rewrite <-Z.pow_add_r by lia.
  eapply Z.lt_le_trans; [exact Hd|]. apply Z.pow_le_mono_r; lia.
Qed.

Lemma shr_m_nonneg r e n : 0 <= shr_m r -> 0 <= shr_m (shr r e n).1.
Proof. intros H. rewrite shr_m_div by done. apply Z.div_pos; [done|apply Z.pow_pos_nonneg; lia]. Qed.

Lemma round_aux_tight sx m e l : 0 <= m -> tight (binary_round_aux 24 128 sx m e l).
Proof.
  intros Hm. unfold binary_round_aux.
  assert (H1 : 0 <= shr_m (shr_fexp 24 128 m e l).1) by (apply shr_m_nonneg; by destruct l as [|[]]).
  destruct (shr_fexp 24 128 m e l) as [r1 e1]. cbn [fst] in H1.
  set (m1 := round_nearest_even (shr_m r1) (loc_of_shr_record r1)).
  assert (H2 : 0 <= m1) by (unfold m1, round_nearest_even; destruct (loc_of_shr_record r1) as [|[]]; try lia; destruct (Z.even _); lia).
  pose proof (shr_fexp_tight m1 e1 loc_Exact H2) as H3. destruct (shr_fexp 24 128 m1 e1 loc_Exact) as [r2 e2]. cbn [fst] in H3.
  destruct (shr_m r2) as [|p|p]; [done| |done]. by destruct (Z.leb _ _).
Qed.

Lemma normalize_tight m e s : tight (binary_normalize 24 128 m e s).
Proof.
  unfold binary_normalize. destruct m as [|p|p]; [done| |]; unfold binary_round;
    destruct (shl_align _ _ _) as [mz ez]; by apply round_aux_tight.
Qed.

Lemma fadd_tight x y : tight x -> tight y -> tight (fadd x y).
Proof.
  unfold fadd, SFadd. destruct x as [s|s| |s m e], y as [s'|s'| |s' m' e']; intros Hx Hy; try done;
    try (by destruct s, s'); try (by destruct s). apply normalize_tight.
Qed.

Lemma fsub_tight x y : tight x -> tight y -> tight (fsub x y).
Proof.
  unfold fsub, SFsub. destruct x as [s|s| |s m e], y as [s'|s'| |s' m' e']; intros Hx Hy; try done;
    try (by destruct s, s'); try (by destruct s). apply normalize_tight.
Qed.

(** ** Small integers *)

(** The float of a positive integer below 2^24: a full mantissa. *)
Definition canon (v : Z) : f32 := S754_finite false (Z.to_pos (v * 2 ^ (24 - Zdigits2 v))) (Zdigits2 v - 24).

Lemma digits_small v : 0 < v < 2 ^ 24 -> 1 <= Zdigits2 v <= 24.
Proof.
  intros [Hv Hs]. destruct v as [|p|p]; try lia. cbn [Zdigits2]. rewrite digits2_log.
  pose proof (Z.log2_nonneg (Zpos p)). pose proof (proj1 (Z.log2_lt_pow2 (Zpos p) 24 ltac:(lia)) Hs). lia.
Qed.

Lemma digits_shift v j : 0 < v -> 0 <= j -> Zdigits2 (v * 2 ^ j) = Zdigits2 v + j.
Proof.
  intros Hv Hj. assert (0 < v * 2 ^ j) by (apply Z.mul_pos_pos; [done|apply Z.pow_pos_nonneg; lia]).
  assert (E : forall z, 0 < z -> Zdigits2 z = Z.log2 z + 1) by (intros [|p|p]; try lia; intros _; apply digits2_log).
  rewrite !E by done. rewrite Z.log2_mul_pow2 by lia. lia.
Qed.

Lemma full_mantissa v : 0 < v < 2 ^ 24 ->
  2 ^ 23 <= v * 2 ^ (24 - Zdigits2 v) < 2 ^ 24 /\ Zdigits2 (v * 2 ^ (24 - Zdigits2 v)) = 24.
Proof.
  intros Hv. pose proof (digits_small v Hv). rewrite digits_shift by lia. split; [|lia].
  destruct (digits_bound v ltac:(lia)) as [H1 H2].
  replace (2 ^ 23) with (2 ^ (Zdigits2 v - 1) * 2 ^ (24 - Zdigits2 v)) by (rewrite <-Z.pow_add_r by lia; f_equal; lia).
  replace (2 ^ 24) with (2 ^ Zdigits2 v * 2 ^ (24 - Zdigits2 v)) by (rewrite <-Z.pow_add_r by lia; f_equal; lia).
  pose proof (Z.pow_pos_nonneg 2 (24 - Zdigits2 v) ltac:(lia) ltac:(lia)). split; nia.
Qed.

Lemma fexp_small d : 1 <= d -> fexp 24 128 d = d - 24.
Proof. intros. unfold fexp, emin. lia. Qed.

(** Rounding a full mantissa changes nothing. *)
Lemma round_full q e : 2 ^ 23 <= q < 2 ^ 24 -> Zdigits2 q = 24 -> -23 <= e <= 0 ->
  forall m k, 0 <= k -> m = q * 2 ^ k ->
  binary_round_aux 24 128 false m (e - k) loc_Exact = S754_finite false (Z.to_pos q) e.
Proof.
  intros Hq Hd He m k Hk ->. unfold binary_round_aux, shr_fexp. rewrite digits_shift, Hd by lia.
  rewrite fexp_small by lia. replace (24 + k + (e - k) - 24 - (e - k)) with k by lia. cbn [shr_record_of_loc].
  rewrite shr_exact by lia. replace (e - k + k) with e by lia. cbn [shr_m loc_of_shr_record round_nearest_even shr_record_of_loc].
  rewrite Hd, fexp_small by lia. replace (24 + e - 24 - e) with 0 by lia. cbn [shr shr_m].
  destruct q as [|p|p]; try lia. rewrite (proj2 (Z.leb_le _ _)) by lia. done.
Qed.

(** An integer below 2^24, however it is written with a negative exponent, is
    normalised to its float. *)
Lemma normalize_int v j s : 0 < v < 2 ^ 24 -> 0 <= j -> binary_normalize 24 128 (v * 2 ^ j) (- j) s = canon v.
Proof.
  intros Hv Hj. pose proof (digits_small v Hv) as HD. destruct (full_mantissa v Hv) as [Hq Hqd].
  pose proof (Z.pow_pos_nonneg 2 j ltac:(lia) Hj).
  assert (Hpos : 0 < v * 2 ^ j) by (apply Z.mul_pos_pos; lia). unfold binary_normalize, canon.
  destruct (v * 2 ^ j) as [|p|p] eqn:Ep; try lia. unfold binary_round.
  assert (Hdp : Zpos (digits2_pos p) = Zdigits2 v + j) by (rewrite <-digits_shift, Ep by lia; done).
  rewrite Hdp. replace (Zdigits2 v + j + - j) with (Zdigits2 v) by lia. rewrite fexp_small by lia.
  set (D := Zdigits2 v) in *. unfold shl_align. destruct (D - 24 - - j) as [|d|d] eqn:Ed.
  - replace (- j) with (D - 24 - 0) by lia. apply (round_full (v * 2 ^ (24 - D))); try lia.
    rewrite <-Ep, Z.pow_0_r, Z.mul_1_r. do 2 f_equal. lia.
  - replace (- j) with (D - 24 - Zpos d) by lia. apply (round_full (v * 2 ^ (24 - D))); try lia.
    rewrite <-Ep, <-Z.mul_assoc, <-Z.pow_add_r by lia. do 2 f_equal. lia.
  - replace (D - 24) with (D - 24 - 0) at 1 by lia. apply (round_full (v * 2 ^ (24 - D))); try lia.
    assert (Es : Zpos (Pos.iter xO p d) = Zpos p * 2 ^ Zpos d).
    { rewrite Pos2Nat.inj_iter. rewrite <-(positive_nat_Z d). generalize (Pos.to_nat d) as k.
      induction k as [|k IH]; [cbn; lia|]. rewrite Nat2Z.inj_succ, Z.pow_succ_r by lia.
      cbn [nat_rect]. rewrite Pos2Z.inj_xO, IH. ring. }
    rewrite Es, <-Ep, Z.pow_0_r, Z.mul_1_r, <-Z.mul_assoc, <-Z.pow_add_r by lia. do 2 f_equal. lia.
Qed.

Lemma of_int_0 : of_int 0 = zero.
Proof. done. Qed.

Lemma of_int_canon v : 0 < v < 2 ^ 24 -> of_int v = canon v.
Proof. intros Hv. rewrite <-(Z.mul_1_r v) at 1. by apply (normalize_int v 0). Qed.

Lemma of_int_tight v : tight (of_int v).
Proof. apply normalize_tight. Qed.

(** Aligning a float to a smaller exponent. *)
Lemma shl_align_down m e e' : e' <= e -> Zpos (fst (shl_align m e e')) = Zpos m * 2 ^ (e - e').
Proof.
  intros H. unfold shl_align. destruct (e' - e) as [|d|d] eqn:E; cbn [fst]; [|lia|].
  - replace (e - e') with 0 by lia. by rewrite Z.mul_1_r.
  - replace (e - e') with (Zpos d) by lia. rewrite Pos2Nat.inj_iter, <-(positive_nat_Z d). generalize (Pos.to_nat d) as k.
    induction k as [|k IH]; [cbn; lia|]. rewrite Nat2Z.inj_succ, Z.pow_succ_r by lia.
    cbn [nat_rect]. rewrite Pos2Z.inj_xO, IH. ring.
Qed.

Lemma canon_align v e' : 0 < v < 2 ^ 24 -> e' <= Zdigits2 v - 24 ->
  Zpos (fst (shl_align (Z.to_pos (v * 2 ^ (24 - Zdigits2 v))) (Zdigits2 v - 24) e')) = v * 2 ^ (- e').
Proof.
  intros Hv He. destruct (full_mantissa v Hv) as [Hq _]. pose proof (digits_small v Hv).
  rewrite shl_align_down, Z2Pos.id by lia. rewrite <-Z.mul_assoc, <-Z.pow_add_r by lia. do 2 f_equal. lia.
Qed.

(** Sums and differences of small integers are exact. *)
Lemma fadd_int a b : 0 <= a -> 0 <= b -> a + b < 2 ^ 24 -> fadd (of_int a) (of_int b) = of_int (a + b).
Proof.
  intros Ha Hb Hs. destruct (Z.eq_dec a 0) as [->|Ha0].
  { rewrite of_int_0, Z.add_0_l. destruct (Z.eq_dec b 0) as [->|Hb0]; [done|]. by rewrite of_int_canon by lia. }
  destruct (Z.eq_dec b 0) as [->|Hb0]; [rewrite Z.add_0_r, of_int_canon by lia; done|].
  rewrite !of_int_canon by lia. unfold fadd, canon at 1 2, SFadd. cbn [cond_Zopp].
  set (ez := Z.min _ _). rewrite !canon_align by (unfold ez; lia).
  pose proof (digits_small a ltac:(lia)). rewrite <-Z.mul_add_distr_r.
  pose proof (normalize_int (a + b) (- ez) false ltac:(lia) ltac:(unfold ez; lia)) as E. by rewrite Z.opp_involutive in E.
Qed.

Lemma fsub_int a b : 0 <= b -> b < a -> a < 2 ^ 24 -> fsub (of_int a) (of_int b) = of_int (a - b).
Proof.
  intros Hb Hba Ha. destruct (Z.eq_dec b 0) as [->|Hb0]; [rewrite Z.sub_0_r, of_int_canon by lia; done|].
  rewrite !of_int_canon by lia. unfold fsub, canon at 1 2, SFsub. cbn [cond_Zopp].
  set (ez := Z.min _ _). rewrite !canon_align by (unfold ez; lia).
  pose proof (digits_small a ltac:(lia)). rewrite <-Z.mul_sub_distr_r.
  pose proof (normalize_int (a - b) (- ez) false ltac:(lia) ltac:(unfold ez; lia)) as E. by rewrite Z.opp_involutive in E.
Qed.

(** One less than a length is exact. *)
Lemma minus_one n : 1 <= n < 2 ^ 24 -> fsub (of_int n) one = of_int (n - 1).
Proof.
  intros Hn. destruct (Z.eq_dec n 1) as [->|]; [done|]. apply (fsub_int n 1); lia.
Qed.

(** ** Comparing with an integer *)

Lemma Zpos_mono a b : 0 < a -> 0 < b -> Pos.compare_cont Eq (Z.to_pos a) (Z.to_pos b) = (a ?= b).
Proof. intros Ha Hb. destruct a, b; try lia. done. Qed.

Lemma compare_int a b : 0 <= a < 2 ^ 24 -> 0 <= b < 2 ^ 24 -> SFcompare (of_int a) (of_int b) = Some (a ?= b).
Proof.
  intros Ha Hb. destruct (Z.eq_dec a 0) as [->|Ha0].
  { rewrite of_int_0. destruct (Z.eq_dec b 0) as [->|]; [done|]. rewrite of_int_canon by lia. by destruct b; try lia. }
  destruct (Z.eq_dec b 0) as [->|Hb0].
  { rewrite of_int_0, of_int_canon by lia. by destruct a; try lia. }
  rewrite !of_int_canon by lia. unfold canon, SFcompare. f_equal.
  destruct (full_mantissa a ltac:(lia)) as [Hqa _], (full_mantissa b ltac:(lia)) as [Hqb _].
  destruct (digits_bound a ltac:(lia)) as [La Ua], (digits_bound b ltac:(lia)) as [Lb Ub].
  destruct (Z.compare_spec (Zdigits2 a - 24) (Zdigits2 b - 24)) as [E|E|E].
  - rewrite Zpos_mono by lia. assert (Ed : Zdigits2 a = Zdigits2 b) by lia. rewrite Ed.
    pose proof (digits_small b ltac:(lia)). pose proof (Z.pow_pos_nonneg 2 (24 - Zdigits2 b) ltac:(lia) ltac:(lia)).
    destruct (Z.compare_spec a b) as [->|H'|H']; [apply Z.compare_refl|apply Z.compare_lt_iff; nia|apply Z.compare_gt_iff; nia].
  - symmetry. apply Z.compare_lt_iff. eapply Z.lt_le_trans; [exact Ua|]. etransitivity; [|exact Lb]. apply Z.pow_le_mono_r; lia.
  - symmetry. apply Z.compare_gt_iff. eapply Z.lt_le_trans; [exact Ub|]. etransitivity; [|exact La]. apply Z.pow_le_mono_r; lia.
Qed.

Lemma flt_int a b : 0 <= a < 2 ^ 24 -> 0 <= b < 2 ^ 24 -> flt (of_int a) (of_int b) = (a <? b).
Proof. intros Ha Hb. unfold flt, SFltb. rewrite compare_int by done. unfold Z.ltb. by destruct (a ?= b). Qed.

Lemma to_usize_int v : 0 <= v < 2 ^ 24 -> to_usize (of_int v) = v.
Proof.
  intros Hv. destruct (Z.eq_dec v 0) as [->|]; [done|]. rewrite of_int_canon by lia. unfold canon, to_usize.
  destruct (full_mantissa v ltac:(lia)) as [Hq _]. pose proof (digits_small v ltac:(lia)).
  rewrite Z2Pos.id by lia. destruct (Z.leb_spec 0 (Zdigits2 v - 24)).
  - replace (Zdigits2 v) with 24 by lia. change (v * 2 ^ (24 - 24) * 2 ^ (24 - 24)) with (v * 1 * 1). lia.
  - replace (- (Zdigits2 v - 24)) with (24 - Zdigits2 v) by lia. rewrite Z.div_mul by (apply Z.pow_nonzero; lia). lia.
Qed.

(** A float that is not at least an integer truncates below it, be it negative
    or not a number. *)
Lemma below_int x n : tight x -> 0 < n < 2 ^ 24 -> fge x (of_int n) = false -> 0 <= to_usize x < n.
Proof.
  intros Hx Hn. rewrite of_int_canon by done. unfold fge, SFleb, canon.
  destruct x as [s|s| |s m e]; [cbn; lia|by destruct s; [cbn; lia|]|cbn; lia|]. destruct s; [cbn; lia|].
  destruct (full_mantissa n Hn) as [Hq _]. pose proof (digits_small n Hn). cbn [tight] in Hx.
  set (q := n * 2 ^ (24 - Zdigits2 n)) in *. set (eq := Zdigits2 n - 24). cbn [SFcompare to_usize].
  assert (Hv : n = q / 2 ^ (- eq)).
  { unfold q, eq. replace (- (Zdigits2 n - 24)) with (24 - Zdigits2 n) by lia. by rewrite Z.div_mul by (apply Z.pow_nonzero; lia). }
  assert (Hm : n * 2 ^ (- eq) = q) by (unfold q, eq; do 2 f_equal; lia).
  assert (Hcore : e <= eq -> (e = eq -> Zpos m < q) -> 0 <= Z.min (2 ^ 64 - 1) (if 0 <=? e then Zpos m * 2 ^ e else Zpos m / 2 ^ (- e)) < n).
  { intros He Hlt. destruct (Z.leb_spec 0 e).
    - assert (eq = 0) as Eq by (unfold eq in *; lia). assert (e = 0) as -> by lia. specialize (Hlt (eq_sym Eq)).
      rewrite Eq in Hm. change (2 ^ (- 0)) with 1 in Hm. change (2 ^ 0) with 1. lia.
    - assert (Zpos m / 2 ^ (- e) < n).
      { apply Z.div_lt_upper_bound; [apply Z.pow_pos_nonneg; lia|]. rewrite Z.mul_comm.
        destruct (Z.eq_dec e eq) as [->|Hne]; [rewrite Hm; by apply Hlt|].
        replace (- e) with (- eq + (eq - e)) by lia. rewrite Z.pow_add_r, Z.mul_assoc, Hm by (unfold eq in *; lia).
        assert (2 <= 2 ^ (eq - e)) by (change 2 with (2 ^ 1) at 1; apply Z.pow_le_mono_r; lia). nia. }
      pose proof (Z.div_pos (Zpos m) (2 ^ (- e)) ltac:(lia) ltac:(apply Z.pow_pos_nonneg; lia)). lia. }
  destruct (Z.compare_spec eq e) as [E|E|E]; [|done|intros _; apply Hcore; lia].
  change (Pos.compare_cont Eq (Z.to_pos q) m) with (Pos.compare (Z.to_pos q) m).
  destruct (Pos.compare_spec (Z.to_pos q) m) as [Ep|Ep|Ep]; [done|done|]. intros _. apply Hcore; [lia|].
  intros _. apply Pos2Z.pos_lt_pos in Ep. rewrite Z2Pos.id in Ep by lia. exact Ep.
Qed.

Lemma flt_below x n : tight x -> 0 < n < 2 ^ 24 -> flt x (of_int n) = true -> 0 <= to_usize x < n.
Proof.
  intros Hx Hn Hlt. apply below_int; [done|done|]. revert Hlt. unfold flt, fge, SFltb, SFleb.
  rewrite of_int_canon by done. unfold canon, SFcompare. destruct x as [s|s| |s m e]; try done; destruct s; try done.
  set (q := Z.to_pos _). set (d := Zdigits2 n - 24).
  change (Pos.compare_cont Eq q m) with (Pos.compare q m). change (Pos.compare_cont Eq m q) with (Pos.compare m q).
  rewrite (Z.compare_antisym e d), (Pos.compare_antisym m q). destruct (e ?= d); cbn [CompOpp]; try done.
  by destruct (Pos.compare m q).
Qed.

(** The sign plays no part in rounding. *)
Lemma round_sign m e :
  binary_round 24 128 true m e =
  match binary_round 24 128 false m e with
  | S754_zero _ => S754_zero true
  | S754_infinity _ => S754_infinity true
  | S754_nan => S754_nan
  | S754_finite _ m e => S754_finite true m e
  end.
Proof.
  unfold binary_round. destruct (shl_align _ _ _) as [mz ez]. unfold binary_round_aux.
  destruct (shr_fexp 24 128 (Zpos mz) ez loc_Exact) as [r1 e1]. destruct (shr_fexp 24 128 _ e1 _) as [r2 e2].
  destruct (shr_m r2); [done| |done]. by destruct (Z.leb _ _).
Qed.

(** A length taken from one less than it is below zero. *)
Lemma minus_more n : 1 <= n < 2 ^ 24 -> flt (fsub (of_int (n - 1)) (of_int n)) zero = true.
Proof.
  intros Hn. destruct (Z.eq_dec n 1) as [->|Hne]; [done|]. rewrite !of_int_canon by lia.
  unfold fsub, canon, SFsub. cbn [cond_Zopp]. set (ez := Z.min _ _). rewrite !canon_align by (unfold ez; lia).
  pose proof (digits_small (n - 1) ltac:(lia)) as Hd. pose proof (digits_small n ltac:(lia)).
  assert (He : 0 <= - ez) by (unfold ez; lia). clearbody ez.
  pose proof (normalize_int 1 (- ez) false ltac:(lia) He) as E. rewrite Z.opp_involutive, Z.mul_1_l in E.
  pose proof (Z.pow_pos_nonneg 2 (- ez) ltac:(lia) He) as Hp.
  replace ((n - 1) * 2 ^ (- ez) - n * 2 ^ (- ez)) with (- 2 ^ (- ez)) by ring.
  destruct (2 ^ (- ez)) as [|p|p]; try lia.
  change (binary_normalize 24 128 (- Zpos p) ez false) with (binary_round 24 128 true p ez).
  change (binary_normalize 24 128 (Zpos p) ez false) with (binary_round 24 128 false p ez) in E. by rewrite round_sign, E.
Qed.
