(* ===== verification/Sound.v ===== *)
(** The samples themselves (src/media/audio/microphone.rs: convert_to_mono,
    resample_linear and the input callback; speaker.rs: process_audio_frame,
    prune_buffer and the output callback), on the [f32] of F32.

    The two resampling loops run on fuel.  The playback loop advances in the
    device's buffer, so the length of the buffer and one more turn are enough
    ([playback_fills]); the capture loop advances by the step, and is shown to
    end when the device already has the target rate ([resample_equal_rate]). *)

From S2P Require Import Prelude.
From S2P Require Import Text.
From S2P Require Import F32.
From S2P Require Import Audio.
From Stdlib Require Import SpecFloat.

(** * Definitions *)

(** ** Capture *)

(** [slice.chunks(n)] for a positive n: the last chunk may be shorter. *)
Fixpoint chunked {A} (fuel n : nat) (l : list A) : list (list A) :=
  match fuel, l with
  | S fuel, _ :: _ => take n l :: chunked fuel n (drop n l)
  | _, _ => []
  end.
Definition chunks {A} (n : nat) (l : list A) : comp (list (list A)) :=
  if (n =? 0)%nat then Panic else Ret (chunked (List.length l) n l).

(** [iter().map(f).collect()] for an f that may panic. *)
Fixpoint map_comp {A B} (f : A -> comp B) (l : list A) : comp (list B) :=
  match l with
  | [] => Ret []
  | a :: l => let! b := f a in let! bs := map_comp f l in Ret (b :: bs)
  end.

Definition convert_to_mono (data : list f32) (channels : nat) : comp (list f32) :=
  match channels with
  | 1%nat => Ret data
  | 2%nat =>
      let! cs := chunks 2 data in
      map_comp (fun chunk =>
        let! a := Prelude.index chunk 0 in
        let! b := Prelude.index chunk 1 in
        Ret (fmul (fadd a b) half)) cs
  | _ => let! cs := chunks channels data in map_comp (fun c => Prelude.index c 0) cs
  end.

(** The sample between two neighbours at the phase. *)
Definition interpolate (source : list f32) (phase : f32) : comp f32 :=
  let idx := to_usize phase in
  let frac := fsub phase (of_int idx) in
  let! sample_a := Prelude.index source (Z.to_nat idx) in
  let! sample_b := Prelude.index source (Z.to_nat (idx + 1)) in
  Ret (fadd (fmul sample_a (fsub one frac)) (fmul sample_b frac)).

(** The loop of [resample_linear]; [None]: out of fuel. *)
Fixpoint resample_loop (fuel : nat) (source : list f32) (phase step : f32) : option (comp (list f32 * f32)) :=
  let source_len := of_int (Z.of_nat (List.length source)) in
  match fuel with
  | O => None
  | S fuel =>
      if flt phase (fsub source_len one) then
        match interpolate source phase with
        | Panic => Some Panic
        | Ret new_sample =>
            match resample_loop fuel source (fadd phase step) step with
            | Some (Ret (rest, phase)) => Some (Ret (new_sample :: rest, phase))
            | other => other
            end
        end
      else Some (Ret ([], phase))
  end.

Definition resample_linear (fuel : nat) (source : list f32) (phase step : f32) : option (comp (list f32 * f32)) :=
  match resample_loop fuel source phase step with
  | Some (Ret (resampled, phase)) =>
      let phase := fsub phase (of_int (Z.of_nat (List.length source))) in
      Some (Ret (resampled, if flt phase zero then zero else phase))
  | other => other
  end.

(** The resampling ratio of [generate_input_stream] and [generate_output_stream]. *)
Definition ratio (from to : Z) : f32 := fdiv (of_int from) (of_int to).

(** The input callback: down-mixing, resampling, then the buffer. *)
Definition input_callback (fuel frame_size channels : nat) (step : f32) (muted : bool) (data : list f32) (now : nat -> Z)
    (sends : nat -> bool) (phase : f32) (r : AudioRingBuffer f32) :
    option (comp (list (AudioFrame f32) * f32 * AudioRingBuffer f32)) :=
  if muted then Some (Ret ([], phase, r)) else
  match convert_to_mono data channels with
  | Panic => Some Panic
  | Ret mono_data =>
      match resample_linear fuel mono_data phase step with
      | None => None
      | Some Panic => Some Panic
      | Some (Ret (resampled_data, phase)) =>
          match on_samples frame_size false resampled_data now sends r with
          | None => None
          | Some Panic => Some Panic
          | Some (Ret (fs, r)) => Some (Ret (fs, phase, r))
          end
      end
  end.

(** ** Playback *)

(** The loop over the channels of one frame; stores out of range are skipped. *)
Definition write_frame (channels write_idx : nat) (v : f32) (output : list f32) : list f32 :=
  foldl (fun o c => if (write_idx + c <? List.length o)%nat then <[(write_idx + c)%nat := v]> o else o) output (seq 0 channels).

Fixpoint play_loop (fuel : nat) (output input : list f32) (phase step : f32) (channels write_idx : nat) :
    option (comp (list f32 * f32)) :=
  match fuel with
  | O => None
  | S fuel =>
      if (write_idx <? List.length output)%nat then
        if fge phase (fsub (of_int (Z.of_nat (List.length input))) one) then Some (Ret (output, phase)) else
        match interpolate input phase with
        | Panic => Some Panic
        | Ret v =>
            play_loop fuel (write_frame channels write_idx v output) input (fadd phase step) step channels
              (write_idx + channels)
        end
      else Some (Ret (output, phase))
  end.

Definition process_audio_frame (output input : list f32) (phase step : f32) (channels : nat) : option (comp (list f32 * f32)) :=
  let output := replicate (List.length output) zero in
  if (List.length input <? 2)%nat then Some (Ret (output, phase)) else
  play_loop (S (List.length output)) output input phase step channels 0.

Definition prune_buffer (buffer : list f32) (phase : f32) : list f32 * f32 :=
  let samples_consumed := to_usize phase in
  if 0 <? samples_consumed then
    if samples_consumed <? Z.of_nat (List.length buffer) then
      (drop (Z.to_nat samples_consumed) buffer, fsub phase (of_int samples_consumed))
    else ([], zero)
  else (buffer, phase).

(** The output callback: what arrived, the device's buffer, the own buffer and
    the phase. *)
Definition output_callback (step : f32) (channels : nat) (locked : bool) (queue : list (list f32)) (output : list f32)
    (s : list f32 * f32) : option (comp (list f32 * (list f32 * f32))) :=
  let b := fetch_new_samples locked queue s.1 in
  match process_audio_frame output b s.2 step channels with
  | None => None
  | Some Panic => Some Panic
  | Some (Ret (out, phase)) => Some (Ret (out, prune_buffer b phase))
  end.

(** * Lemmas *)

Lemma interpolate_below source phase n :
  0 <= to_usize phase < n -> (Z.to_nat n < List.length source)%nat -> exists v, interpolate source phase = Ret v.
Proof.
  intros Hp Hn. unfold interpolate.
  destruct (index_ok source (Z.to_nat (to_usize phase)) ltac:(lia)) as (a & -> & _).
  destruct (index_ok source (Z.to_nat (to_usize phase + 1)) ltac:(lia)) as (b & -> & _). cbn. eauto.
Qed.

(** The bound of both loops, and what it leaves of the phase. *)
Lemma last_index (l : list f32) : (2 <= List.length l)%nat -> Z.of_nat (List.length l) < 2 ^ 24 ->
  fsub (of_int (Z.of_nat (List.length l))) one = of_int (Z.of_nat (List.length l) - 1).
Proof. intros. apply minus_one. lia. Qed.

(** ** Capture *)

Lemma chunked_spec {A} fuel n (l : list A) :
  (0 < n)%nat -> (List.length l <= fuel)%nat ->
  Forall (fun c => 0 < List.length c <= n)%nat (chunked fuel n l) /\ List.concat (chunked fuel n l) = l.
Proof.
  intros Hn. revert l. induction fuel as [|fuel IH]; intros [|x l] Hf; try done; [cbn in Hf; lia|]. cbn [chunked List.concat].
  destruct (IH (drop n (x :: l))) as [H1 H2]; [rewrite length_drop; cbn [List.length] in *; lia|]. split.
  - constructor; [|done]. rewrite length_take. cbn [List.length]. lia.
  - by rewrite H2, take_drop.
Qed.

(** Down-mixing panics exactly on no channels and on half a stereo frame. *)
Lemma mono_total data channels :
  (exists out, convert_to_mono data channels = Ret out) <->
  channels <> 0%nat /\ (channels = 2%nat -> (List.length data mod 2 = 0)%nat).
Proof.
  assert (Hmap : forall cs : list (list f32), Forall (fun c => 0 < List.length c)%nat cs ->
    exists out, map_comp (fun c => Prelude.index c 0) cs = Ret out).
  { induction 1 as [|c cs Hc _ [out IH]]; [by eexists|]. cbn [map_comp].
    destruct (index_ok c 0 Hc) as (a & -> & _). cbn. rewrite IH. cbn. eauto. }
  assert (Hst : forall fuel l, (List.length l <= fuel)%nat ->
    (exists out, map_comp (fun chunk => let! a := Prelude.index chunk 0 in let! b := Prelude.index chunk 1 in
       Ret (fmul (fadd a b) half)) (chunked fuel 2 l) = Ret out) <-> (List.length l mod 2 = 0)%nat).
  { intros fuel. induction fuel as [fuel IH] using lt_wf_ind. intros [|x [|y l]] Hf.
    - destruct fuel; split; eauto; by eexists.
    - destruct fuel; [cbn in Hf; lia|]. cbn. split; [by intros [out ?]|done].
    - destruct fuel as [|fuel]; [cbn in Hf; lia|]. cbn [chunked take drop map_comp Prelude.index lookup list_lookup cbind].
      rewrite drop_0. replace (List.length (x :: y :: l) mod 2)%nat with (List.length l mod 2)%nat.
      2:{ cbn [List.length]. replace (S (S (List.length l))) with (List.length l + 1 * 2)%nat by lia. by rewrite Nat.Div0.mod_add. }
      rewrite <-(IH fuel) by (cbn [List.length] in *; lia).
      destruct (map_comp _ (chunked fuel 2 l)); cbn; split; intros [out ?]; eauto; done. }
  unfold convert_to_mono, chunks. destruct channels as [|[|[|n]]].
  - cbn. split; [by intros [out ?]|by intros [? _]].
  - split; [by intros _|by eexists].
  - cbn [Nat.eqb cbind]. rewrite Hst by done. split; [by intros|intros [_ H]; by apply H].
  - cbn [Nat.eqb cbind]. split; [by intros _|]. intros _. apply Hmap.
    destruct (chunked_spec (List.length data) (S (S (S n))) data ltac:(lia) ltac:(lia)) as [H _].
    eapply Forall_impl; [exact H|]. intros c Hc. apply Hc.
Qed.

(** A phase: not below zero (it may be a NaN), with a mantissa of its size. *)
Definition nonneg (x : f32) : Prop := match x with S754_finite s _ _ | S754_infinity s => s = false | _ => True end.
Definition phase_ok (x : f32) : Prop := tight x /\ nonneg x.

Lemma round_aux_sign m e l : nonneg (binary_round_aux 24 128 false m e l).
Proof.
  unfold binary_round_aux. destruct (shr_fexp 24 128 m e l) as [r1 e1]. destruct (shr_fexp 24 128 _ e1 _) as [r2 e2].
  destruct (shr_m r2); [done| |done]. by destruct (Z.leb _ _).
Qed.

Lemma round_nonneg p e : nonneg (binary_round 24 128 false p e).
Proof. unfold binary_round. destruct (shl_align _ _ _). apply round_aux_sign. Qed.

Lemma fadd_phase x y : phase_ok x -> phase_ok y -> phase_ok (fadd x y).
Proof.
  intros [Hx Hx'] [Hy Hy']. split; [by apply fadd_tight|]. unfold fadd, SFadd.
  destruct x as [s|s| |s m e], y as [s'|s'| |s' m' e']; try done; try (by destruct s, s'); try (by destruct s).
  cbn [nonneg] in *. subst s s'. cbn [cond_Zopp]. unfold binary_normalize.
  destruct (Z.add _ _) as [|p|p] eqn:E; [done|apply round_nonneg|lia].
Qed.

Lemma nonneg_spec x : nonneg x <-> flt x zero = false.
Proof. destruct x as [s|s| |s m e]; try done; by destruct s. Qed.

(** Resampling never reads out of range, whatever the step, and the next
    callback finds a phase again. *)
Lemma resample_safe fuel source phase step :
  Z.of_nat (List.length source) < 2 ^ 24 -> phase_ok phase -> phase_ok step ->
  match resample_linear fuel source phase step with
  | None => True
  | Some Panic => False
  | Some (Ret (_, phase')) => phase_ok phase'
  end.
Proof.
  intros Hl Hp Hs.
  assert (Hloop : match resample_loop fuel source phase step with
    | None => True | Some Panic => False | Some (Ret (_, phase')) => phase_ok phase' end).
  { revert phase Hp. induction fuel as [|fuel IH]; intros phase Hp; [done|]. cbn [resample_loop].
    destruct (flt phase _) eqn:Ef; [|done].
    assert (Hv : exists v, interpolate source phase = Ret v).
    { destruct (decide (2 <= List.length source)%nat) as [H2|H2].
      - rewrite last_index in Ef by done. apply flt_below in Ef; [|apply Hp|lia]. eapply interpolate_below; [exact Ef|lia].
      - exfalso. destruct Hp as [_ Hp].
        assert (Hlen : List.length source = 0%nat \/ List.length source = 1%nat) by lia. revert Ef.
        destruct Hlen as [-> | ->]; [change (fsub _ _) with (S754_finite true 8388608 (-23))|change (fsub _ _) with zero];
          destruct phase as [s|s| |s m e]; cbn [nonneg] in Hp; subst; try done; by destruct s. }
    destruct Hv as [v ->]. specialize (IH (fadd phase step) (fadd_phase _ _ Hp Hs)).
    destruct (resample_loop fuel source (fadd phase step) step) as [[[rest phase']|]|]; done. }
  unfold resample_linear. destruct (resample_loop fuel source phase step) as [[[rest phase']|]|]; try done.
  destruct (flt _ zero) eqn:Ef; [by split|]. split; [|by apply nonneg_spec].
  apply fsub_tight; [apply Hloop|apply of_int_tight].
Qed.

(** With a step of one sample the loop walks over all samples but the last. *)
Lemma resample_unit source k fuel :
  Z.of_nat (List.length source) < 2 ^ 24 -> (k <= List.length source - 1)%nat -> (1 <= List.length source)%nat ->
  (List.length source - 1 - k < fuel)%nat ->
  exists out, resample_loop fuel source (of_int (Z.of_nat k)) one =
      Some (Ret (out, of_int (Z.of_nat (List.length source) - 1))) /\
    List.length out = (List.length source - 1 - k)%nat.
Proof.
  intros Hl. remember (List.length source - 1 - k)%nat as d eqn:Ed. revert k fuel Ed.
  induction d as [|d IH]; intros k fuel Ed Hk H1 Hf; (destruct fuel as [|fuel]; [lia|]); cbn [resample_loop];
    rewrite minus_one, flt_int by lia.
  - rewrite (proj2 (Z.ltb_ge _ _)) by lia. exists []. replace (Z.of_nat (List.length source) - 1) with (Z.of_nat k) by lia. done.
  - rewrite (proj2 (Z.ltb_lt _ _)) by lia.
    destruct (interpolate_below source (of_int (Z.of_nat k)) (Z.of_nat (List.length source) - 1)) as [v ->];
      [rewrite to_usize_int by lia; lia|lia|].
    destruct (IH (S k) fuel) as (out & E & Ho); [lia..|]. exists (v :: out).
    replace (fadd (of_int (Z.of_nat k)) one) with (of_int (Z.of_nat (S k))).
    2:{ change one with (of_int 1). rewrite fadd_int by lia. f_equal. lia. }
    rewrite E. cbn [List.length]. by rewrite Ho.
Qed.

(** ** Playback *)

Lemma write_frame_spec channels i v out :
  List.length (write_frame channels i v out) = List.length out /\
  forall j, write_frame channels i v out !! j =
    (if decide (i <= j < i + channels)%nat then (if decide (j < List.length out)%nat then Some v else None) else out !! j).
Proof.
  unfold write_frame. induction channels as [|c [IHl IH]].
  { split; [done|]. intros j. by rewrite decide_False by lia. }
  rewrite seq_S, foldl_app. cbn [foldl Nat.add]. set (o := foldl _ out (seq 0 c)) in *. rewrite IHl.
  destruct (Nat.ltb_spec (i + c) (List.length out)).
  - rewrite length_insert. split; [done|]. intros j. destruct (decide (j = i + c)%nat) as [->|Hne].
    + rewrite list_lookup_insert_eq by lia. rewrite !decide_True by lia. done.
    + rewrite list_lookup_insert_ne by lia. rewrite IH. destruct (decide (i <= j < i + c)%nat); destruct (decide (i <= j < i + S c)%nat); try lia; done.
  - split; [done|]. intros j. rewrite IH. destruct (decide (i <= j < i + c)%nat); destruct (decide (i <= j < i + S c)%nat); try lia; try done.
    rewrite (decide_False (P := (j < List.length out)%nat)) by lia. apply lookup_ge_None_2. lia.
Qed.

(** What a device's buffer holds: the same sample on every channel of a frame,
    and silence once the samples run out. *)
Definition spread (channels : nat) (vals : list f32) (out : list f32) : Prop :=
  forall j, (j < List.length out)%nat -> out !! j = Some (default zero (vals !! (j / channels)%nat)).

Lemma spread_step channels vals v out :
  (0 < channels)%nat -> spread channels vals out -> spread channels (vals ++ [v]) (write_frame channels (List.length vals * channels) v out).
Proof.
  intros Hc Hs j Hj. destruct (write_frame_spec channels (List.length vals * channels) v out) as [Hl Hw].
  rewrite Hl in Hj. rewrite Hw. specialize (Hs j Hj).
  destruct (decide (List.length vals * channels <= j < List.length vals * channels + channels)%nat) as [Hin|Hout].
  - rewrite decide_True by done.
    replace (j / channels)%nat with (List.length vals); [by rewrite lookup_app_r, Nat.sub_diag by lia|].
    apply (Nat.div_unique j channels (List.length vals) (j - List.length vals * channels)); lia.
  - rewrite Hs. do 2 f_equal. destruct (decide (j < List.length vals * channels)%nat) as [Hb|Hb].
    + rewrite lookup_app_l; [done|]. apply Nat.Div0.div_lt_upper_bound. lia.
    + assert (List.length vals + 1 <= j / channels)%nat by (apply Nat.div_le_lower_bound; lia).
      rewrite !lookup_ge_None_2; [done|rewrite length_app; cbn; lia|lia].
Qed.

Lemma play_loop_spec fuel out input phase step channels vals :
  (2 <= List.length input)%nat -> Z.of_nat (List.length input) < 2 ^ 24 -> (0 < channels)%nat -> tight phase -> tight step ->
  (List.length out < fuel + List.length vals * channels)%nat -> (0 < fuel)%nat -> spread channels vals out ->
  exists out' phase' vals', play_loop fuel out input phase step channels (List.length vals * channels) = Some (Ret (out', phase')) /\
    List.length out' = List.length out /\ tight phase' /\ spread channels vals' out'.
Proof.
  intros H2 Hl Hc. revert out phase vals. induction fuel as [|fuel IH]; intros out phase vals Hp Hs Hf H0 Hsp; [lia|].
  cbn [play_loop]. destruct (Nat.ltb_spec (List.length vals * channels) (List.length out)) as [Hlt|Hge]; [|by exists out, phase, vals].
  rewrite last_index by done. destruct (fge phase _) eqn:Ef; [by exists out, phase, vals|].
  apply below_int in Ef; [|done|lia]. destruct (interpolate_below input phase _ Ef) as [v ->]; [lia|].
  destruct (write_frame_spec channels (List.length vals * channels) v out) as [Hwl _].
  destruct (IH (write_frame channels (List.length vals * channels) v out) (fadd phase step) (vals ++ [v])) as (o & q & w & E & E1 & E2 & E3).
  - by apply fadd_tight.
  - done.
  - rewrite Hwl, length_app. cbn. lia.
  - lia.
  - by apply spread_step.
  - exists o, q, w. rewrite length_app in E. cbn [List.length] in E.
    replace (List.length vals * channels + channels)%nat with ((List.length vals + 1) * channels)%nat by lia.
    split; [done|]. by rewrite E1, Hwl.
Qed.

Lemma prune_tight b p : tight p -> tight (prune_buffer b p).2.
Proof.
  intros Hp. unfold prune_buffer. destruct (0 <? to_usize p); [|done]. destruct (to_usize p <? _); [|done].
  apply fsub_tight; [done|apply of_int_tight].
Qed.

(** The rates devices commonly offer; on each the step of a device that is at
    the target rate is exactly one. *)
Definition common_rates : list Z := [8000; 16000; 22050; 32000; 44100; 48000; 96000; 192000].

Lemma common_ratio : Forall (fun rate => ratio rate rate = one) common_rates.
Proof. by repeat constructor. Qed.

(** * Properties *)

(** C31: playback always fills the device's buffer.  Whatever arrives, and
    whatever the phase has become, an output callback with at least one channel
    and fewer than 2^24 queued samples returns without a panic: the buffer keeps
    its length and holds, frame by frame, one sample on every channel, then
    silence; and the phase it keeps is one from which the next callback does the
    same. *)
Theorem playback_fills step channels locked queue output b phase :
  (0 < channels)%nat -> tight step -> tight phase ->
  Z.of_nat (List.length (fetch_new_samples locked queue b)) < 2 ^ 24 ->
  exists out b' phase' vals, output_callback step channels locked queue output (b, phase) = Some (Ret (out, (b', phase'))) /\
    List.length out = List.length output /\ spread channels vals out /\ tight phase'.
Proof.
  intros Hc Hs Hp Hl. unfold output_callback, process_audio_frame. cbn [fst snd].
  set (input := fetch_new_samples locked queue b) in *.
  assert (Hz : spread channels [] (replicate (List.length output) zero)).
  { intros j Hj. rewrite length_replicate in Hj. by rewrite lookup_replicate_2. }
  assert (Hgo : exists out q vals, (if (List.length input <? 2)%nat then Some (Ret (replicate (List.length output) zero, phase))
      else play_loop (S (List.length (replicate (List.length output) zero))) (replicate (List.length output) zero) input phase step channels 0)
      = Some (Ret (out, q)) /\ List.length out = List.length output /\ tight q /\ spread channels vals out).
  { destruct (Nat.ltb_spec (List.length input) 2).
    - exists (replicate (List.length output) zero), phase, []. by rewrite length_replicate.
    - destruct (play_loop_spec (S (List.length (replicate (List.length output) zero))) (replicate (List.length output) zero) input phase step channels [])
        as (o & q & w & E & E1 & E2 & E3); try done; [cbn; lia|lia|]. rewrite length_replicate in E1. by exists o, q, w. }
  destruct Hgo as (out & q & vals & -> & E1 & E2 & E3).
  pose proof (prune_tight input q E2) as Ht. destruct (prune_buffer input q) as [b' q']. by exists out, b', q', vals.
Qed.

(** At the device's own rate every callback loses a sample.  When the
    microphone already delivers the target rate, resampling a callback of n
    samples gives n - 1, and the phase starts again at zero: the last sample of
    every callback is dropped, so the stream runs short by one sample per
    callback. *)
Lemma resample_equal_rate rate source fuel :
  rate ∈ common_rates -> (1 <= List.length source)%nat -> Z.of_nat (List.length source) < 2 ^ 24 ->
  (List.length source <= fuel)%nat ->
  exists out, resample_linear fuel source zero (ratio rate rate) = Some (Ret (out, zero)) /\
    List.length out = (List.length source - 1)%nat.
Proof.
  intros Hr H1 Hl Hf. assert (Es : ratio rate rate = one) by (by eapply (proj1 (Forall_forall _ _) common_ratio)). rewrite Es.
  destruct (resample_unit source 0 fuel Hl ltac:(lia) H1 ltac:(lia)) as (out & E & Ho). exists out.
  unfold resample_linear. change (of_int (Z.of_nat 0)) with zero in E. rewrite E. split; [|by rewrite Ho, Nat.sub_0_r].
  by rewrite minus_more by lia.
Qed.

(** * Witnesses *)

(** Three samples at 48 kHz on a stereo device at 44.1 kHz. *)
Lemma playback_fills_witness :
  exists out b' phase' vals,
    output_callback (ratio 48000 44100) 2 true [[one; half]; [one]] (replicate 6 one) ([], zero) = Some (Ret (out, (b', phase'))) /\
    List.length out = 6%nat /\ spread 2 vals out /\ tight phase'.
Proof.
  apply (playback_fills (ratio 48000 44100) 2 true [[one; half]; [one]] (replicate 6 one) [] zero).
  - lia.
  - vm_compute. reflexivity.
  - exact I.
  - reflexivity.
Defined.

(** Halving the rate keeps every second sample. *)
Example resample_half :
  resample_linear 5 [one; half; one; zero; one] zero (ratio 96000 48000) = Some (Ret ([one; one], zero)).
Proof. vm_compute. reflexivity. Qed.
