(* ===== verification/Events.v ===== *)
(** The events the worker threads send to the application
    (src/controller/app_event.rs) and the data they carry: call statistics
    (src/transport/rtcp/metrics.rs) and file metadata
    (src/file/file_metadata/metadata.rs). *)

From S2P Require Import Prelude.
From S2P Require Import JitterBuffer.
From S2P Require Import Text.
From S2P Require Import Sdp.

Record CallStats := mk_call_stats {
  local_sender : SenderStats;
  local_receiver : ReceiverStats;
  remote_sender : SenderStats;
  remote_receiver : ReceiverStats
}.

(** [#[derive(Default)]] *)
Definition default_sender : SenderStats := mk_sender_stats 0 0.
Definition default_receiver : ReceiverStats := mk_receiver_stats 0 0 0.

Record FileMetadata := mk_metadata {
  file_size : Z;       (* u64, [size] in the source *)
  file_name : str      (* [name] in the source *)
}.

Inductive AppEvent :=
| FullServerError
| CallIncoming (from : str) (offer : SessionDescriptionProtocol)
| CallAccepted (answer : SessionDescriptionProtocol) (accepter caller : str)
| CallRejected
| CallEnded
| ErrorEvent (e : str)                       (* [Error] in the source *)
| FatalError
| LocalStatsUpdate (s : CallStats)
| RemoteStatsUpdate (s : CallStats)
| RemoteFileOffer (offer_id : Z) (m : FileMetadata)
| FileDownloadCompleted (offer_id : Z).
