(* ===== verification/Capture.v ===== *)
(** The capture side of the video path (src/media/camera/cam.rs, error.rs,
    media_pipeline.rs, frame_handler/frame.rs, decoder.rs, error.rs,
    src/media/error.rs, src/clock/clock_timer.rs): the clock, raw frames and
    their byte layout, the camera thread, the threads that fan its frames out to
    the preview and the encoder, and the start and stop of the whole pipeline.

    OpenCV, the colour conversion (crate yuv) and openh264 are the outcomes of
    their calls; f64 settings are a parameter.  Threads are functions on the
    sequence of their inputs with the outcomes of their channel operations. *)

From S2P Require Import Prelude.
From S2P Require Import RtpPacket.
From S2P Require Import JitterBuffer.
From S2P Require Import Text.
From S2P Require Import Config.
From S2P Require Import Sdp.
From S2P Require Import Events.
From S2P Require Import Audio.
From S2P Require Import Media.

(** * Definitions *)

(** ** The clock *)

(** Instants are nanoseconds of the monotonic clock; [elapsed] saturates at zero
    and [as_millis] truncates. *)
Record Clock := mk_clock {
  instant : Z;
  start_time : Z                           (* u128, milliseconds *)
}.

Definition elapsed_millis (at_ read : Z) : Z := Z.max 0 (read - at_) / 1000000.

(** [at_], [read]: when the instant is taken and when its elapsed time is read. *)
Definition new_clock (at_ read : Z) : Clock := mk_clock at_ (elapsed_millis at_ read).

(** [now]: the subtraction of u128 values panics below zero. *)
Definition clock_now (c : Clock) (read : Z) : comp Z :=
  let now := elapsed_millis (instant c) read in
  if now <? start_time c then Panic else Ret (now - start_time c).

(** ** Errors *)

Inductive CameraError :=
| CameraPoisonedLock                       (* [PoisonedLock] *)
| IndexError
| OpenError (e : str)
| ClosedCamera
| CameraConfigFailed
| CameraMapError (e : str)                 (* [MapError] *)
| CameraIndexError
| PropSettingError (e : str)
| ReadFrameError.

Definition quoted_with (s e : str) : str := lit "Error: " ++ [34] ++ s ++ e ++ [34].

Definition show_camera_error (e : CameraError) : str :=
  match e with
  | CameraPoisonedLock => quoted "Poisoned lock"
  | IndexError => quoted "Device index is too large"
  | OpenError e => quoted "Failed to open camera" ++ lit ": " ++ e
  | ClosedCamera => quoted "Camera is closed"
  | CameraConfigFailed => quoted "Failed to set camera configuration"
  | CameraMapError e => quoted_with [] e
  | CameraIndexError => quoted "camera index is too large"
  | PropSettingError e => quoted_with (lit "failed to set prop: ") e
  | ReadFrameError => quoted "Failed to read camera frame"
  end.

Inductive FrameError :=
| EncoderInitializationError
| EncodingError (e : str)
| DecoderInitializationError
| DecodingError (e : str)
| EmptyFrameError
| UnableToCreateFrameFromYUVError
| ReshapingFrameError
| TypeConversionError
| BytesConversionError
| DimensionConversionError.

Definition show_frame_error (e : FrameError) : str :=
  match e with
  | EncoderInitializationError => lit "Error: failed to intialize encoder"
  | EncodingError e => lit "Error: failed to encode frame: " ++ e
  | DecoderInitializationError => lit "Error: failed to initialize decoder"
  | DecodingError e => lit "Error: failed to decode frame: " ++ e
  | EmptyFrameError => lit "Error: no frame was provided"
  | UnableToCreateFrameFromYUVError => lit "Error: failed to create a frame from yuv vec."
  | ReshapingFrameError => lit "Error: failed to reshape frame"
  | TypeConversionError => lit "Error: failed to convert frame from yuv to rgb"
  | BytesConversionError => lit "Error: failed to convert frame to bytes"
  | DimensionConversionError => lit "Error: frame dimensions too large for conversion"
  end.

Inductive MediaPipelineError :=
| PipelineMapError (e : str)               (* [MapError] *)
| PipelineParsingError (e : str)           (* [ParsingError] *)
| SendError (e : str)
| PipelineProtectionError (e : str)        (* [ProtectionError] *)
| PipelinePoisonedLock.                    (* [PoisonedLock] *)

(** The quote of the fourth message is not closed in the source. *)
Definition show_pipeline_error (e : MediaPipelineError) : str :=
  match e with
  | PipelineMapError e => e
  | PipelineParsingError e => quoted "Parsing failed" ++ lit ": " ++ e
  | SendError e => quoted "Send failed" ++ lit ": " ++ e
  | PipelineProtectionError e => lit "Error: " ++ [34] ++ lit "Failed to protect RTP packet (" ++ e ++ lit ")"
  | PipelinePoisonedLock => quoted "Poisoned lock"
  end.

(** ** Frames as bytes *)

(** [to_le_bytes] / [from_le_bytes] *)
Definition to_le (n : nat) (z : Z) : bytes := rev (to_be n z).
Definition from_le (l : bytes) : Z := from_be (rev l).

Definition frame_to_bytes (f : Frame) : result bytes FrameError :=
  let? w := ok_or (if fitsb 32 (width f) then Some (width f) else None) DimensionConversionError in
  let? h := ok_or (if fitsb 32 (height f) then Some (height f) else None) DimensionConversionError in
  Ok (to_le 16 (time f) ++ to_le 4 w ++ to_le 4 h ++ data f).

Definition frame_from_bytes (b : bytes) : comp (option Frame) :=
  if (List.length b <? 24)%nat then Ret None else
  let!? t := array_at 16 0 16 b in
  let!? w := array_at 4 16 20 b in
  let!? h := array_at 4 20 24 b in
  let! d := slice_from 24 b in
  Ret (Some (mk_frame d (from_le w) (from_le h) (from_le t))).

(** [Decoder::decode_frame]: what openh264 gave for the data (an image, none yet,
    an error), and the conversion of the image into RGB. *)
Definition decode_frame {Yuv} (dimensions : Yuv -> Z * Z) (to_rgb : Yuv -> result bytes str)
    (decoded : result (option Yuv) str) : result (bytes * Z * Z) FrameError :=
  match decoded with
  | Ok (Some yuv) =>
      let '(w, h) := dimensions yuv in
      let? rgb := map_err DecodingError (to_rgb yuv) in
      Ok (rgb, w, h)
  | Ok None => Err EmptyFrameError
  | Err e => Err (DecodingError e)
  end.

(** ** The camera *)

Section Camera.
Context {F64 F32 : Type} (config : MediaConfig F64 F32).
Context (from_i32 : Z -> F64) (from_f32 : F32 -> F64).

(** What opening the device meets; properties are OpenCV's numbers. *)
Record camera_io := mk_camera_io {
  open : Z -> result unit str;
  is_opened : result bool str;
  fourcc : result Z str;
  prop_fourcc : Z; prop_fps : Z; prop_width : Z; prop_height : Z;
  set_prop : Z -> F64 -> bool
}.

(** The loop over the settings: those made, up to the first that fails. *)
Fixpoint set_props (io : camera_io) (l : list (Z * F64)) : result unit CameraError * list (Z * F64) :=
  match l with
  | [] => (Ok tt, [])
  | (p, v) :: l =>
      if set_prop io p v then let '(r, made) := set_props io l in (r, (p, v) :: made)
      else (Err (PropSettingError (show p)), [])
  end.

Definition setup_camera (io : camera_io) : result unit CameraError * list (Z * F64) :=
  match
    (let? index := ok_or (if camera_index config <? 2 ^ 31 then Some (camera_index config) else None) CameraIndexError in
     let? _ := map_err OpenError (open io index) in
     let? _ := match is_opened io with
               | Ok true => Ok tt
               | Ok false => Err (OpenError (lit "Camera not opened"))
               | Err e => Err (OpenError e)
               end in
     map_err OpenError (fourcc io))
  with
  | Err e => (Err e, [])
  | Ok code =>
      set_props io [(prop_fourcc io, from_i32 code); (prop_fps io, from_f32 (frame_rate config));
                    (prop_width io, frame_width config); (prop_height io, frame_height config)]
  end.

End Camera.

(** One turn of the capture loop: the flag; the read ([Some true]: an image) and
    whether it is empty; the colour conversion; the bytes with the dimensions of
    the converted image; the clock; the channel. *)
Record shot := mk_shot {
  running : bool;
  read : option bool;
  empty : bool;
  converted : bool;
  image : option (bytes * Z * Z);
  taken : Z;
  delivered : bool
}.

(** [run_camera_loop]: the frames sent and whether the loop has ended. *)
Fixpoint run_camera_loop (shots : list shot) : list Frame * bool :=
  match shots with
  | [] => ([], false)
  | s :: shots =>
      if negb (running s) then ([], true) else
      match read s with
      | Some true =>
          if empty s then run_camera_loop shots else
          if negb (converted s) then run_camera_loop shots else
          match image s with
          | Some (d, w, h) =>
              if delivered s then
                let '(l, ended) := run_camera_loop shots in (mk_frame d w h (taken s) :: l, ended)
              else ([], true)
          | None => run_camera_loop shots
          end
      | _ => run_camera_loop shots
      end
  end.

Record Camera := mk_camera { cam_running : bool }.

(** [start_internal]: the flag goes up whatever happens; without a device there
    is no thread, and the channel handed out is closed. *)
Definition start_internal (device : result unit CameraError) (shots : list shot) (c : Camera) : list Frame * bool * Camera :=
  let c := mk_camera true in
  match device with
  | Err _ => ([], true, c)
  | Ok _ => (run_camera_loop shots, c)
  end.
Definition stop_internal (c : Camera) : Camera := mk_camera false.

(** ** The local pipeline *)

(** The thread that hands every frame to the preview and to the encoder: the
    flag read for it and the two sends. *)
Fixpoint fan_out (l : list (Frame * bool * bool * bool)) : list Frame * list Frame :=
  match l with
  | [] => ([], [])
  | (f, connected, previewed, encoded) :: l =>
      if negb connected then ([], []) else
      if negb previewed then ([], []) else
      if negb encoded then ([f], []) else
      let '(p, e) := fan_out l in (f :: p, f :: e)
  end.

(** The colour conversion thread: images with their times, as long as the
    conversion and the send succeed. *)
Fixpoint rgb_to_yuv_thread {Yuv} (rgb_to_yuv420 : Frame -> option Yuv) (l : list (Frame * bool)) : list (Yuv * Z) :=
  match l with
  | [] => []
  | (f, sent) :: l =>
      match rgb_to_yuv420 f with
      | None => []
      | Some yuv => if sent then (yuv, time f) :: rgb_to_yuv_thread rgb_to_yuv420 l else []
      end
  end.

(** ** The microphone and the pipeline *)

Record Microphone := mk_microphone {
  muted : bool;
  capturing : bool;                        (* a stream is kept *)
  mic_poisoned : bool
}.

Definition new_microphone : Microphone := mk_microphone false false false.

(** What starting the audio meets, in order. *)
Record audio_io := mk_audio_io {
  input_device : option (result unit str);       (* the default device and its configuration *)
  input_stream : result unit str;
  input_play : result unit str;
  lock_text : str;
  opus_encoder : bool;
  opus_decoder : bool;
  output_device : option (result unit str);
  output_stream : result unit str;
  output_play : result unit str
}.

Definition setup_audio_device (io : audio_io) : result unit AudioError :=
  let? d := ok_or (input_device io) InputDeviceError in
  map_err AudioMapError d.

(** [Microphone::start]; a stream that cannot be kept is dropped. *)
Definition mic_start (io : audio_io) (m : Microphone) : result unit AudioError * Microphone :=
  match
    (let? _ := setup_audio_device io in
     let? _ := map_err AudioMapError (input_stream io) in
     let? _ := map_err AudioMapError (input_play io) in
     if mic_poisoned m then Err (AudioMapError (lock_text io)) else Ok tt)
  with
  | Err e => (Err e, m)
  | Ok _ => (Ok tt, mk_microphone (muted m) true false)
  end.

Definition mic_stop (lock_text : str) (m : Microphone) : result unit AudioError * Microphone :=
  if mic_poisoned m then (Err (AudioMapError lock_text), m) else (Ok tt, mk_microphone false false false).

Definition setup_output_device (io : audio_io) : result unit AudioError :=
  let? d := ok_or (output_device io) MissingOutputDeviceError in
  map_err AudioMapError d.

(** [Speaker::new] *)
Definition new_speaker (io : audio_io) : result unit AudioError :=
  let? _ := setup_output_device io in
  let? _ := map_err AudioMapError (output_stream io) in
  map_err AudioMapError (output_play io).

Definition shown {A} (m : result A AudioError) : result A AudioError := map_err (fun e => AudioMapError (show_audio_error e)) m.

(** What the two halves of the audio pipeline do before they start their threads. *)
Definition start_audio_sender_pipeline (io : audio_io) (m : Microphone) : result unit AudioError * Microphone :=
  let '(r, m) := mic_start io m in
  ((let? _ := shown r in
    shown (if opus_encoder io then Ok tt else Err Audio.EncoderInitializationError)), m).
Definition start_audio_receiver_pipeline (io : audio_io) : result unit AudioError :=
  let? _ := shown (if opus_decoder io then Ok tt else Err Audio.DecoderInitializationError) in
  shown (new_speaker io).

(** [AudioPipeline::start] *)
Definition audio_start (io : audio_io) (m : Microphone) : result unit AudioError * Microphone :=
  let '(r, m) := start_audio_sender_pipeline io m in
  ((let? _ := r in start_audio_receiver_pipeline io), m).

Record MediaPipeline := mk_pipeline {
  camera : Camera;
  audio : option Microphone
}.

(** Creating the audio pipeline does not fail. *)
Definition new_pipeline : MediaPipeline := mk_pipeline (mk_camera false) (Some new_microphone).

Record pipeline_io := mk_pipeline_io {
  h264_encoder : bool;
  device : result unit CameraError;
  h264_decoder : bool;
  audio_devices : audio_io
}.

(** [start_encoded_sender_thread] before its thread, with the event it sends. *)
Definition start_encoded_sender_thread (io : pipeline_io) : result unit MediaPipelineError * list AppEvent :=
  if h264_encoder io then (Ok tt, [])
  else (Err (PipelineMapError (show_frame_error EncoderInitializationError)),
        [ErrorEvent (show_frame_error EncoderInitializationError)]).

(** The camera is started once the encoder's threads are. *)
Definition start_local_frame_pipeline (io : pipeline_io) (c : Camera) : result unit MediaPipelineError * list AppEvent * Camera :=
  let '(r, events) := start_encoded_sender_thread io in
  match r with
  | Err e => (Err e, events, c)
  | Ok _ => let '(_, _, c) := start_internal (device io) [] c in (Ok tt, events, c)
  end.

Definition start_remote_frame_pipeline (io : pipeline_io) : result unit MediaPipelineError * list AppEvent :=
  if h264_decoder io then (Ok tt, [])
  else (Err (PipelineMapError (show_frame_error DecoderInitializationError)), [ErrorEvent (lit "Failed to create decoder")]).

(** [MediaPipeline::start]: the result, the events for the application, the
    state.  The encoder comes before the camera, the decoder and the audio after. *)
Definition pipeline_start (io : pipeline_io) (p : MediaPipeline) : result unit MediaPipelineError * list AppEvent * MediaPipeline :=
  let '(r, events, c) := start_local_frame_pipeline io (camera p) in
  let p := mk_pipeline c (audio p) in
  match r with
  | Err e => (Err e, events, p)
  | Ok _ =>
      let '(r, more) := start_remote_frame_pipeline io in
      match r with
      | Err e => (Err e, events ++ more, p)
      | Ok _ =>
          match audio p with
          | None => (Ok tt, events ++ more, p)
          | Some m =>
              let '(r, m) := audio_start (audio_devices io) m in
              (map_err (fun e => PipelineMapError (show_audio_error e)) r, events ++ more, mk_pipeline c (Some m))
          end
      end
  end.

Definition pipeline_stop (lock_text : str) (p : MediaPipeline) : MediaPipeline :=
  mk_pipeline (stop_internal (camera p)) (option_map (fun m => (mic_stop lock_text m).2) (audio p)).

Definition toggle_audio (p : MediaPipeline) : MediaPipeline :=
  mk_pipeline (camera p) (option_map (fun m => mk_microphone (toggle_mute (muted m)) (capturing m) (mic_poisoned m)) (audio p)).

(** * Lemmas *)

(** Readings of a monotonic clock never go below the start, and keep their order. *)
Lemma clock_monotone at_ r0 r1 r2 :
  at_ <= r0 -> r0 <= r1 -> r1 <= r2 ->
  exists a b, clock_now (new_clock at_ r0) r1 = Ret a /\ clock_now (new_clock at_ r0) r2 = Ret b /\ 0 <= a <= b.
Proof.
  intros H0 H1 H2. unfold clock_now, new_clock, elapsed_millis. cbn [instant start_time].
  assert (Hm : forall x y, x <= y -> Z.max 0 (x - at_) / 1000000 <= Z.max 0 (y - at_) / 1000000)
    by (intros; apply Z.div_le_mono; lia).
  pose proof (Hm _ _ H1). pose proof (Hm _ _ H2). do 2 (case_bool; [lia|]).
  do 2 eexists. split; [done|]. split; [done|lia].
Qed.

Lemma from_to_le n z : fits (8 * Z.of_nat n) z -> from_le (to_le n z) = z.
Proof. intros H. unfold from_le, to_le. rewrite rev_involutive. by apply from_to_be_id. Qed.

Lemma length_to_le n z : List.length (to_le n z) = n.
Proof. unfold to_le. by rewrite length_rev, length_to_be. Qed.

Lemma frame_layout t w h d :
  List.length t = 16%nat -> List.length w = 4%nat -> List.length h = 4%nat ->
  frame_from_bytes (t ++ w ++ h ++ d) = Ret (Some (mk_frame d (from_le w) (from_le h) (from_le t))).
Proof.
  intros Ht Hw Hh. unfold frame_from_bytes. rewrite (proj2 (Nat.ltb_ge _ _)) by (rewrite !length_app; lia).
  rewrite array_at_prefix by lia. cbn [cbind].
  rewrite array_at_skip, array_at_prefix by lia. cbn [cbind].
  rewrite array_at_skip, array_at_skip, array_at_prefix by lia. cbn [cbind].
  rewrite !slice_from_skip, slice_from_0 by lia. done.
Qed.

(** ** The threads *)

Lemma fan_out_prefix l p e :
  fan_out l = (p, e) ->
  p `prefix_of` map (fun x => x.1.1.1) l /\ e `prefix_of` p /\ (List.length p <= S (List.length e))%nat.
Proof.
  revert p e. induction l as [|[[[f c] v] n] l IH]; intros p e; cbn [fan_out map fst].
  { intros [= <- <-]. split_and!; [done..|cbn; lia]. }
  destruct c; cbn [negb]; [|intros [= <- <-]; split_and!; [apply prefix_nil|done|cbn; lia]].
  destruct v; cbn [negb]; [|intros [= <- <-]; split_and!; [apply prefix_nil|done|cbn; lia]].
  destruct n; cbn [negb].
  - destruct (fan_out l) as [p' e']. intros [= <- <-]. destruct (IH p' e' eq_refl) as (H1 & H2 & H3).
    split_and!; [by apply prefix_cons|by apply prefix_cons|cbn [List.length]; lia].
  - intros [= <- <-]. split_and!; [apply prefix_cons, prefix_nil|apply prefix_nil|cbn; lia].
Qed.

(** The images come from the first frames, each with its time. *)
Lemma yuv_thread_prefix {Yuv} (conv : Frame -> option Yuv) l :
  exists done_, done_ `prefix_of` map fst l /\
    Forall2 (fun f o => conv f = Some o.1 /\ o.2 = time f) done_ (rgb_to_yuv_thread conv l).
Proof.
  induction l as [|[f s] l (d & Hd & H)]; cbn [rgb_to_yuv_thread map fst]; [exists []; split; [done|constructor]|].
  destruct (conv f) as [y|] eqn:E; [|exists []; split; [apply prefix_nil|constructor]].
  destruct s; [|exists []; split; [apply prefix_nil|constructor]].
  exists (f :: d). split; [by apply prefix_cons|]. by constructor.
Qed.

Section Times.
Context {F64 F32 : Type} (config : MediaConfig F64 F32).

Lemma send_chunks_fields f cs i sends seq :
  Forall (fun p => RtpPacket.timestamp p = frame_time f /\ payload_type p = video_payload_type config)
    (send_chunks config f cs i sends seq).2.
Proof.
  revert i seq. induction cs as [|c cs IH]; intros i seq; cbn [send_chunks]; [constructor|].
  destruct (sends i); [|constructor]. specialize (IH (S i) (saturating_add 64 seq 1)).
  destruct (send_chunks config f cs (S i) sends _) as [[ok s] rest]. by constructor.
Qed.

(** The k-th group of packets carries the k-th time. *)
Lemma encoded_sender_times turns seq groups k ps :
  encoded_sender config turns seq = Ret groups -> groups !! k = Some ps ->
  exists t, map (fun x => x.1.1.2) turns !! k = Some t /\
    Forall (fun p => RtpPacket.timestamp p = t /\ payload_type p = video_payload_type config) ps.
Proof.
  revert seq groups k. induction turns as [|[[[o t] c] sends] turns IH]; intros seq groups k; cbn [encoded_sender];
    [by intros [= <-]|]. destruct o as [[b intra]|]; [|by intros [= <-]].
  unfold encode. destruct (generate_chunks_from_bitstream b _) as [cs|]; cbn [cbind]; [|done].
  assert (Hp : Forall (fun p => RtpPacket.timestamp p = t /\ payload_type p = video_payload_type config)
    (send_encoded_frame config (mk_encoded cs t intra) c sends seq).2).
  { unfold send_encoded_frame. destruct c; cbn [negb]; [apply (send_chunks_fields (mk_encoded cs t intra))|constructor]. }
  destruct (send_encoded_frame config (mk_encoded cs t intra) c sends seq) as [[ok seq'] packets]. cbn [snd] in Hp.
  destruct ok.
  - destruct (encoded_sender config turns seq') as [rest|] eqn:Er; cbn [cbind]; [|done]. intros [= <-].
    destruct k as [|k]; cbn [lookup list_lookup map]; [intros [= <-]; by exists t|]. by apply (IH _ _ _ Er).
  - intros [= <-]. destruct k as [|k]; cbn [lookup list_lookup map]; [intros [= <-]; by exists t|done].
Qed.

End Times.

(** ** Starting *)

(** A start that fails after the encoder leaves the camera's flag up. *)
Lemma failed_start_keeps_camera io p :
  h264_encoder io = true -> is_ok (pipeline_start io p).1.1 = false -> cam_running (camera (pipeline_start io p).2) = true.
Proof.
  intros He. unfold pipeline_start, start_local_frame_pipeline, start_encoded_sender_thread. rewrite He.
  destruct (start_internal (device io) [] (camera p)) as [[l b] c] eqn:Es.
  assert (cam_running c = true) by (unfold start_internal in Es; by destruct (device io); injection Es as <- <- <-).
  unfold start_remote_frame_pipeline. destruct (h264_decoder io); [|done]. cbn [audio]. destruct (audio p) as [m|]; [|done].
  by destruct (audio_start (audio_devices io) m) as [r m'].
Qed.

(** A camera that cannot be opened does not stop the start: the call goes on
    with no picture to send. *)
Lemma start_without_camera io p :
  h264_encoder io = true -> h264_decoder io = true -> audio p = None ->
  pipeline_start io p = (Ok tt, [], mk_pipeline (mk_camera true) None) /\
  forall e shots, start_internal (Err e) shots (camera p) = ([], true, mk_camera true).
Proof. intros He Hd Ha. split; [|done].
  unfold pipeline_start, start_local_frame_pipeline, start_encoded_sender_thread, start_remote_frame_pipeline.
  rewrite He, Hd. cbn. rewrite Ha. by destruct (device io). Qed.

(** * Properties *)

(** Frames survive being written as bytes, and nothing makes reading panic.
    Writing fails exactly when a dimension does not fit 32 bits, reading exactly
    below the 24 bytes of the header. *)
Lemma frame_roundtrip f : fits 128 (time f) -> 0 <= width f -> 0 <= height f ->
  match frame_to_bytes f with
  | Ok b => frame_from_bytes b = Ret (Some f) /\ List.length b = (24 + List.length (data f))%nat
  | Err e => e = DimensionConversionError /\ (2 ^ 32 <= width f \/ 2 ^ 32 <= height f)
  end /\
  forall b, exists o, frame_from_bytes b = Ret o /\ (o = None <-> (List.length b < 24)%nat).
Proof.
  intros Ht Hw Hh. split.
  - unfold frame_to_bytes. destruct (fitsb 32 (width f)) eqn:Ew; cbn [ok_or rbind].
    2:{ split; [done|]. left. apply not_true_iff_false in Ew. rewrite fitsb_spec in Ew. unfold fits in Ew. lia. }
    destruct (fitsb 32 (height f)) eqn:Eh; cbn [ok_or rbind].
    2:{ split; [done|]. right. apply not_true_iff_false in Eh. rewrite fitsb_spec in Eh. unfold fits in Eh. lia. }
    apply fitsb_spec in Ew, Eh. split; [|rewrite !length_app, !length_to_le; lia].
    rewrite frame_layout by apply length_to_le. rewrite !from_to_le by done. by destruct f.
  - intros b. unfold frame_from_bytes. destruct (Nat.ltb_spec (List.length b) 24); [by exists None|].
    rewrite !array_at_total by lia. cbn [cbind]. unfold slice_from. rewrite slice_ok by lia. cbn [cbind].
    eexists. split; [done|]. split; [done|lia].
Qed.

(** C33: what leaves the camera reaches the preview and the network in step.
    Whatever fails on the way, the preview shows the first frames the camera
    delivered, the encoder gets the first of these (at most one fewer), and the
    k-th group of packets sent carries the capture time of the k-th frame. *)
Theorem capture_path {F64 F32 Yuv} (config : MediaConfig F64 F32) (conv : Frame -> option Yuv) shots fan p e yuv turns seq groups :
  map (fun x => x.1.1.1) fan `prefix_of` (run_camera_loop shots).1 -> fan_out fan = (p, e) ->
  map fst yuv `prefix_of` e -> map (fun x => x.1.1.2) turns `prefix_of` map snd (rgb_to_yuv_thread conv yuv) ->
  encoded_sender config turns seq = Ret groups ->
  p `prefix_of` (run_camera_loop shots).1 /\ e `prefix_of` p /\ (List.length p <= S (List.length e))%nat /\
  forall k ps, groups !! k = Some ps -> exists f y, e !! k = Some f /\ conv f = Some y /\
    Forall (fun q => RtpPacket.timestamp q = time f /\ payload_type q = video_payload_type config) ps.
Proof.
  intros Hfan Hout Hyuv Hturns Henc. destruct (fan_out_prefix _ _ _ Hout) as (H1 & H2 & H3).
  split_and!; [by etransitivity|done|done|]. intros k ps Hk.
  destruct (encoded_sender_times config _ _ _ _ _ Henc Hk) as (t & Ht & Hps).
  destruct (yuv_thread_prefix conv yuv) as (d & Hd & HF).
  apply (prefix_lookup_Some _ _ _ _ Ht) in Hturns. apply list_lookup_fmap_Some in Hturns as ([y t'] & -> & Hy).
  destruct (Forall2_lookup_r _ _ _ _ _ HF Hy) as (f & Hf & Hc & E). cbn [fst snd] in *. subst t'.
  exists f, y. split_and!; [|done|done]. eapply prefix_lookup_Some; [|exact Hyuv]. by eapply prefix_lookup_Some.
Qed.

(** * Witnesses *)

(** Devices that all work. *)
Definition working_devices : pipeline_io :=
  mk_pipeline_io true (Ok tt) true (mk_audio_io (Some (Ok tt)) (Ok tt) (Ok tt) [] true true (Some (Ok tt)) (Ok tt) (Ok tt)).

Definition demo_shot (b : Z) (t : Z) : shot := mk_shot true (Some true) false true (Some ([b], 1, 1)) t true.
Definition demo_frame (b t : Z) : Frame := mk_frame [b] 1 1 t.

(** Three pictures with a failed read between them; the encoder's channel closes
    on the third. *)
Lemma capture_path_witness :
  [demo_frame 1 10; demo_frame 2 43; demo_frame 3 76] `prefix_of`
    (run_camera_loop [demo_shot 1 10; mk_shot true None false true None 0 true; demo_shot 2 43; demo_shot 3 76]).1 /\
  forall k ps,
    [[video_packet (media Config.sample) (mk_encoded [[1; 1]] 10 true) 0 0 [1; 1]];
     [video_packet (media Config.sample) (mk_encoded [[2]] 43 false) 0 1 [2]]] !! k = Some ps ->
    exists f y, [demo_frame 1 10; demo_frame 2 43] !! k = Some f /\ Some (data f) = Some y /\
      Forall (fun q => RtpPacket.timestamp q = time f /\ payload_type q = video_payload_type (media Config.sample)) ps.
Proof.
  destruct (capture_path (media Config.sample) (fun f => Some (data f))
    [demo_shot 1 10; mk_shot true None false true None 0 true; demo_shot 2 43; demo_shot 3 76]
    [(demo_frame 1 10, true, true, true); (demo_frame 2 43, true, true, true); (demo_frame 3 76, true, true, false)]
    [demo_frame 1 10; demo_frame 2 43; demo_frame 3 76] [demo_frame 1 10; demo_frame 2 43]
    [(demo_frame 1 10, true); (demo_frame 2 43, true)]
    [(Some ([1; 1], true), 10, true, fun _ => true); (Some ([2], false), 43, true, fun _ => true)] 0
    [[video_packet (media Config.sample) (mk_encoded [[1; 1]] 10 true) 0 0 [1; 1]];
     [video_packet (media Config.sample) (mk_encoded [[2]] 43 false) 0 1 [2]]]) as (H1 & _ & _ & H4).
  - exists []. reflexivity.
  - reflexivity.
  - reflexivity.
  - reflexivity.
  - vm_compute. reflexivity.
  - split; [exact H1|exact H4].
Defined.
