(* ===== verification/Codec.v ===== *)
(** The wrappers of the codecs: media/audio/encoder.rs and decoder.rs around Opus,
    media/frame_handler/encoder.rs and color_space.rs around openh264 and yuv.

    The libraries are parameters: an encoder or decoder is a state, a call gives
    its outcome, what it left in the buffer it was given, and the next state.
    What the wrappers rely on - that Opus says how much of the buffer it used -
    is the class [Opus]. *)

From S2P Require Import Prelude.
From S2P Require Import Text.
From S2P Require Import Wire.
From S2P Require Import Config.
From S2P Require Import RtpPacket.
From S2P Require Import Media.
From S2P Require Import Audio.
From S2P Require Import Capture.

(** * Definitions *)

(** ** Opus *)

Class Opus (E D F : Type) := {
  encode_float : E -> list F -> bytes -> result nat str * bytes * E;
  decode_float : D -> option bytes -> list F -> bool -> result nat str * list F * D;
  encode_float_len e s b : let '(r, b', _) := encode_float e s b in
    List.length b' = List.length b /\ forall n, r = Ok n -> (n <= List.length b)%nat;
  decode_float_len d i b fec : let '(r, b', _) := decode_float d i b fec in
    List.length b' = List.length b /\ forall n, r = Ok n -> (n <= List.length b)%nat
}.

Section Audio.
Context {E D F : Type} `{Opus E D F} (silence : F).

Record AudioEncoder := mk_audio_encoder { opus_encoder : E }.
Record AudioDecoder := mk_audio_decoder { opus_decoder : D }.

(** The library's constructors, at 48 kHz and in mono. *)
Definition new_audio_encoder (created : result E str) : result AudioEncoder AudioError :=
  let? e := map_err (fun _ => Audio.EncoderInitializationError) created in Ok (mk_audio_encoder e).
Definition new_audio_decoder (created : result D str) : result AudioDecoder AudioError :=
  let? d := map_err (fun _ => Audio.DecoderInitializationError) created in Ok (mk_audio_decoder d).

(** [AudioEncoder::encode]: the part of the buffer that was used. *)
Definition encode_audio (frame : AudioFrame F) (a : AudioEncoder) : comp (result bytes AudioError) * AudioEncoder :=
  let '(r, buff, e) := encode_float (opus_encoder a) (Audio.data frame) (repeat 0 1500) in
  (match r with
   | Err t => Ret (Err (Audio.EncodingError t))
   | Ok len => let! used := slice 0 len buff in Ret (Ok used)
   end, mk_audio_encoder e).

(** [AudioDecoder::decode]: the buffer cut ([truncate]) to the decoded samples. *)
Definition decode_audio (input : bytes) (a : AudioDecoder) : result (list F) AudioError * AudioDecoder :=
  let '(r, buff, d) := decode_float (opus_decoder a) (Some input) (repeat silence (Z.to_nat 5760)) false in
  (match r with
   | Err t => Err (Audio.DecodingError t)
   | Ok len => Ok (take len buff)
   end, mk_audio_decoder d).
End Audio.

(** ** H.264 *)

Section Video.
Context {F64 F32 : Type} {E Source : Type}.

Inductive FrameType := Invalid | IDR | I | P | Skip | IPMixed.

(** The settings asked of openh264. *)
Record EncoderConfig := mk_encoder_config {
  bitrate : Z;
  max_frame_rate : F32;
  camera_video_real_time : bool;
  intra_frame_period : Z;
  low_complexity : bool;
  rate_control_off : bool;
  skip_frames : bool
}.

Record Encoder := mk_encoder { h264 : E; max_chunk_size : Z }.

Definition new_encoder (media_config : MediaConfig F64 F32) (with_api_config : EncoderConfig -> result E str) :
    result Encoder FrameError :=
  let config := mk_encoder_config 2500000 (frame_rate media_config) true (h264_idr_interval media_config) true true true in
  let? e := map_err (fun _ => Capture.EncoderInitializationError) (with_api_config config) in
  Ok (mk_encoder e (rtp_max_chunk_size media_config)).

(** [Decoder::new] *)
Definition new_decoder {D} (created : result D str) : result D FrameError :=
  map_err (fun _ => Capture.DecoderInitializationError) created.

(** A planar image: the three planes with their strides, the size. *)
Record YuvPlanarImage := mk_yuv {
  y_plane : bytes; u_plane : bytes; v_plane : bytes;
  y_stride : Z; u_stride : Z; v_stride : Z;
  yuv_width : Z; yuv_height : Z
}.

(** [Encoder::encode]; building the library's view of the planes may panic. *)
Definition encode_frame (yuv_slices : bytes * bytes * bytes -> Z * Z -> Z * Z * Z -> comp Source)
    (encode : E -> Source -> result (bytes * FrameType) str * E)
    (yuv : YuvPlanarImage) (frame_time : Z) (enc : Encoder) : comp (result EncodedFrame FrameError) * Encoder :=
  match yuv_slices (y_plane yuv, u_plane yuv, v_plane yuv) (yuv_width yuv, yuv_height yuv)
                   (y_stride yuv, u_stride yuv, v_stride yuv) with
  | Panic => (Panic, enc)
  | Ret source =>
      let '(r, e) := encode (h264 enc) source in
      (match r with
       | Err t => Ret (Err (Capture.EncodingError t))
       | Ok (bitstream, frame_type) =>
           let! chunks := generate_chunks_from_bitstream bitstream (max_chunk_size enc) in
           let is_i_frame := match frame_type with I | IDR => true | _ => false end in
           Ret (Ok (mk_encoded chunks frame_time is_i_frame))
       end, mk_encoder e (max_chunk_size enc))
  end.

(** [rgb_to_yuv420]: the width and the height are cut to 32 bits, and three times
    the width must fit them (a debug build checks the product). *)
Definition rgb_to_yuv420 (convert : Z -> Z -> bytes -> Z -> result YuvPlanarImage str) (rgb_frame : Frame) :
    comp (result YuvPlanarImage FrameError) :=
  let w := wrap 32 (Media.width rgb_frame) in
  let h := wrap 32 (Media.height rgb_frame) in
  if fitsb 32 (w * 3) then
    Ret (map_err Capture.EncodingError (convert w h (Media.data rgb_frame) (w * 3)))
  else Panic.
End Video.

(** * Lemmas *)

Section AudioFacts.
Context {E D F : Type} `{Opus E D F} (silence : F).

(** The slice of the used part never panics, and no payload is longer than the
    buffer. *)
Lemma encode_audio_total (frame : AudioFrame F) (a : AudioEncoder (E := E)) :
  match (encode_audio frame a).1 with
  | Ret (Ok payload) => (List.length payload <= 1500)%nat
  | Ret (Err _) => True
  | Panic => False
  end.
Proof.
  unfold encode_audio. pose proof (encode_float_len (opus_encoder a) (Audio.data frame) (repeat 0 1500)) as Hl.
  destruct (encode_float _ _ _) as [[[len|t] buff] e]; cbn; [|done]. destruct Hl as [Hb Hn]. specialize (Hn len eq_refl).
  rewrite repeat_length in Hb, Hn. unfold slice. cbn [Nat.leb]. rewrite Hb.
  destruct (Nat.leb_spec len 1500) as [_|Hlt]; [|exfalso; revert Hn; apply Nat.lt_nge, Hlt]. cbn.
  rewrite length_take. etrans; [apply Nat.le_min_l|]. by rewrite Nat.sub_0_r.
Qed.

Lemma decode_audio_bounded (input : bytes) (a : AudioDecoder (D := D)) samples :
  (decode_audio silence input a).1 = Ok samples -> Z.of_nat (List.length samples) <= 5760.
Proof.
  unfold decode_audio. pose proof (decode_float_len (opus_decoder a) (Some input) (repeat silence (Z.to_nat 5760)) false) as Hl.
  destruct (decode_float _ _ _ _) as [[[len|t] buff] d]; cbn; [|done]. destruct Hl as [Hb Hn]. specialize (Hn len eq_refl).
  rewrite repeat_length in Hn. intros [= <-]. rewrite length_take. lia.
Qed.

(** The decoder as the receiving thread uses it: a frame that cannot be decoded
    is skipped. *)
Definition decoder (d : AudioDecoder (D := D)) (b : bytes) : option (list F) * AudioDecoder (D := D) :=
  let '(r, d) := decode_audio silence b d in (result_ok r, d).

(** Whatever arrives, no frame handed to the speaker exceeds Opus' longest. *)
Lemma played_bounded l d : Forall (fun s => Z.of_nat (List.length s) <= 5760) (played decoder l d).
Proof.
  revert d. induction l as [|b l IH]; intros d; cbn [played]; [constructor|]. unfold decoder at 1.
  pose proof (decode_audio_bounded b d) as Hb. destruct (decode_audio silence b d) as [[s|t] d']; cbn; [|apply IH].
  constructor; [by apply Hb|apply IH].
Qed.
End AudioFacts.

Lemma chunk_loop_sizes fuel n l : Forall (fun c => 0 < List.length c <= n)%nat (chunk_loop fuel n l) \/ n = 0%nat.
Proof.
  destruct n as [|n]; [by right|left]. revert l. induction fuel as [|fuel IH]; intros [|b l]; cbn [chunk_loop]; try constructor; [|apply IH].
  rewrite length_take. cbn. lia.
Qed.

(** An encoded frame carries the whole bitstream in pieces of at most the
    configured size, the time it was captured at, and whether it is a key frame. *)
Lemma encode_frame_pieces {E Source} slices (encode : E -> Source -> result (bytes * FrameType) str * E) yuv time enc f enc' :
  0 < max_chunk_size enc -> encode_frame slices encode yuv time enc = (Ret (Ok f), enc') ->
  exists source bitstream frame_type e,
    encode (h264 enc) source = (Ok (bitstream, frame_type), e) /\ List.concat (chunks f) = bitstream /\
    Forall (fun c => 0 < List.length c <= Z.to_nat (max_chunk_size enc))%nat (chunks f) /\
    frame_time f = time /\ (is_i f = true <-> frame_type = I \/ frame_type = IDR).
Proof.
  intros Hpos. unfold encode_frame. destruct (slices _ _ _) as [source|]; [|done].
  destruct (encode (h264 enc) source) as [[[bitstream frame_type]|t] e] eqn:Ee; [|done].
  unfold generate_chunks_from_bitstream. destruct (Z.eqb_spec (max_chunk_size enc) 0); [lia|]. intros [= <- _].
  exists source, bitstream, frame_type, e. split; [done|]. cbn [chunks frame_time is_i]. split; [apply chunk_loop_concat; lia|].
  split; [|split; [done|destruct frame_type; naive_solver]].
  destruct (chunk_loop_sizes (List.length bitstream) (Z.to_nat (max_chunk_size enc)) bitstream); [done|lia].
Qed.
