(* ===== verification/Rtcp.v ===== *)
(** RTCP reports (src/transport/rtcp/rtcp_packet.rs, report_handler.rs,
    error.rs, metrics.rs): the packet format, the connection handshake, the
    report receiver loop and the two report threads with their shared flag.

    Socket outcomes and clock readings are arguments of the definitions: a
    handshake turn takes the datagram received and the outcome of its send, a
    turn of the receiver loop takes the flag it reads, the datagram (or [None]
    for a timeout) and the clock.  [chrono::Duration::from_std] is a parameter. *)

From S2P Require Import Prelude.
From S2P Require Import JitterBuffer.
From S2P Require Import Text.
From S2P Require Import Events.

(** * Packets *)

Inductive RtcpPacket :=
| SenderReport (s : SenderStats)
| ReceiverReport (r : ReceiverStats)
| Goodbye
| Hello
| Ready.

Definition to_bytes (p : RtcpPacket) : bytes :=
  match p with
  | SenderReport stats => lit "SR" ++ to_be 4 (packets_sent stats) ++ to_be 8 (bytes_sent stats)
  | ReceiverReport stats =>
      lit "RR" ++ to_be 4 (packets_received stats) ++ to_be 4 (packets_lost stats) ++ to_be 4 (jitter stats)
  | Goodbye => lit "BYE"
  | Hello => lit "HELLO"
  | Ready => lit "READY"
  end.

Definition from_bytes (data : bytes) : comp (option RtcpPacket) :=
  if starts_with (lit "SR") data && (14 <=? List.length data)%nat then
    let!? packets_sent := array_at 4 2 6 data in
    let!? bytes_sent := array_at 8 6 14 data in
    Ret (Some (SenderReport (mk_sender_stats (from_be packets_sent) (from_be bytes_sent))))
  else if starts_with (lit "RR") data && (14 <=? List.length data)%nat then
    let!? packets_received := array_at 4 2 6 data in
    let!? packets_lost := array_at 4 6 10 data in
    let!? jitter := array_at 4 10 14 data in
    Ret (Some (ReceiverReport
      (mk_receiver_stats (from_be packets_received) (from_be packets_lost) (from_be jitter))))
  else if decide (data = lit "BYE") then Ret (Some Goodbye)
  else if decide (data = lit "HELLO") then Ret (Some Hello)
  else if decide (data = lit "READY") then Ret (Some Ready)
  else Ret None.

(** The values a packet of the program can hold. *)
Definition packet_fits (p : RtcpPacket) : Prop :=
  match p with
  | SenderReport s => fits 32 (packets_sent s) /\ fits 64 (bytes_sent s)
  | ReceiverReport r => fits 32 (packets_received r) /\ fits 32 (packets_lost r) /\ fits 32 (jitter r)
  | _ => True
  end.

Definition is_report (p : RtcpPacket) : Prop :=
  match p with SenderReport _ | ReceiverReport _ => True | _ => False end.

(** * Errors *)

Inductive RtcpError :=
| PoisonedLock
| SocketCloneFailed
| InvalidRTCPPacket
| SocketConfigFailed
| GoodbyeReceived
| TimedOut
| ConnectionStatusLockFailed
| InvalidConfigDuration
| SendFailed (e : str)
| ReceiveFailed (e : str)
| UnexpectedMessage.

Definition show_rtcp_error (e : RtcpError) : str :=
  match e with
  | PoisonedLock => lit "Error: Poisoned lock"
  | InvalidRTCPPacket => quoted "Invalid or corrupted RTCP packet"
  | SocketCloneFailed => quoted "Failed to clone socket"
  | SocketConfigFailed => quoted "Failed to configure socket"
  | GoodbyeReceived => quoted "Goodbye"
  | TimedOut => quoted "Report receiver timed out"
  | ConnectionStatusLockFailed => quoted "Failed to acquire connection status lock"
  | InvalidConfigDuration => quoted "Invalid configuration duration"
  | SendFailed e =>
      lit "Error: " ++ [34] ++ lit "Failed to send RTCP packet. Details: " ++ e ++ [34]
  | ReceiveFailed e =>
      lit "Error: " ++ [34] ++ lit "Failed to receive RTCP packet. Details: " ++ e ++ [34]
  | UnexpectedMessage => lit "Error: Unexpected message"
  end.

#[global] Instance SenderStats_eq_dec : EqDecision SenderStats.
Proof. solve_decision. Defined.
#[global] Instance ReceiverStats_eq_dec : EqDecision ReceiverStats.
Proof. solve_decision. Defined.
#[global] Instance RtcpPacket_eq_dec : EqDecision RtcpPacket.
Proof. solve_decision. Defined.
#[global] Instance RtcpError_eq_dec : EqDecision RtcpError.
Proof. solve_decision. Defined.

(** * The handshake *)

(** Where [connection_handshake] is: in its loop with the local [ready], returned
    with [Ok(())] or an error, or panicked. *)
Inductive phase :=
| Waiting (ready : bool)
| Established
| Failed (e : RtcpError)
| Panicked.

(** The phase and the shared flag [connected]. *)
Record handshake := mk_handshake {
  hs_phase : phase;
  connected : bool
}.

(** [&buff[..size]] after [recv_from] into the 1024-byte buffer: a longer
    datagram is cut. *)
Definition received (d : bytes) : bytes := take 1024 d.

(** One turn of the loop, with the outcome of [recv_from] and of the send (when
    the turn makes one): the new state and the datagrams sent. *)
Definition handshake_turn (recv : result bytes str) (send : result unit str) (h : handshake) :
    handshake * list bytes :=
  match hs_phase h with
  | Waiting ready =>
      match recv with
      | Ok d =>
          match from_bytes (received d) with
          | Ret (Some Hello) =>
              match send with
              | Ok _ => (h, [to_bytes Ready])
              | Err e => (mk_handshake (Failed (SendFailed e)) (connected h), [])
              end
          | Ret (Some Ready) =>
              if ready then (mk_handshake Established (connected h), []) else
              match send with
              | Ok _ => (mk_handshake (Waiting true) true, [to_bytes Ready])
              | Err e => (mk_handshake (Failed (SendFailed e)) (connected h), [])
              end
          | Ret (Some _) => (mk_handshake (Failed UnexpectedMessage) (connected h), [])
          | Ret None => (h, [])
          | Panic => (mk_handshake Panicked (connected h), [])
          end
      | Err e => (mk_handshake (Failed (ReceiveFailed e)) (connected h), [])
      end
  | _ => (h, [])
  end.

(** The send before the loop. *)
Definition handshake_start (send : result unit str) (connected : bool) : handshake * list bytes :=
  match send with
  | Ok _ => (mk_handshake (Waiting false) connected, [to_bytes Hello])
  | Err e => (mk_handshake (Failed (SendFailed e)) connected, [])
  end.

(** [connection_handshake] on the outcomes of its calls, one pair per turn; it is
    still waiting when they run out. *)
Fixpoint handshake_loop (turns : list (result bytes str * result unit str)) (h : handshake) :
    handshake * list bytes :=
  match turns with
  | [] => (h, [])
  | (recv, send) :: turns =>
      let '(h, out) := handshake_turn recv send h in
      let '(h, rest) := handshake_loop turns h in
      (h, out ++ rest)
  end.

Definition connection_handshake (first : result unit str)
    (turns : list (result bytes str * result unit str)) (connected : bool) : handshake * list bytes :=
  let '(h, out) := handshake_start first connected in
  let '(h, rest) := handshake_loop turns h in
  (h, out ++ rest).

Definition report_goodbye (send : result unit str) : result unit RtcpError :=
  map_err SendFailed send.

(** * Sending and receiving reports *)

(** [send_rtcp_reports] with the outcomes of its two sends: the result and the
    datagrams sent. *)
Definition send_rtcp_reports (s_stats : SenderStats) (r_stats : ReceiverStats)
    (send1 send2 : result unit str) : result unit RtcpError * list bytes :=
  match send1 with
  | Err e => (Err (SendFailed e), [])
  | Ok _ =>
      match send2 with
      | Err e => (Err (SendFailed e), [to_bytes (SenderReport s_stats)])
      | Ok _ => (Ok tt, [to_bytes (SenderReport s_stats); to_bytes (ReceiverReport r_stats)])
      end
  end.

(** [gather_local_stats]: a poisoned mutex is [None]. *)
Definition gather_local_stats (local_sender_stats : option SenderStats)
    (local_receiver_stats : option ReceiverStats) : option (SenderStats * ReceiverStats) :=
  match local_sender_stats, local_receiver_stats with
  | Some s, Some r => Some (s, r)
  | _, _ => None
  end.

Section Reception.
(** [chrono::Duration::from_std], on milliseconds. *)
Context (from_std : Z -> option Z).

(** The result, the new [last_report_time] and the events sent. *)
Definition handle_rtcp_report_reception (buf : bytes) (now last_report_time receive_limit : Z) :
    comp (result unit RtcpError * Z * list AppEvent) :=
  let! p := from_bytes buf in
  match p with
  | Some (SenderReport s_stats) =>
      Ret (Ok tt, now, [RemoteStatsUpdate
        (mk_call_stats default_sender default_receiver s_stats default_receiver)])
  | Some (ReceiverReport r_stats) =>
      Ret (Ok tt, now, [RemoteStatsUpdate
        (mk_call_stats default_sender default_receiver default_sender r_stats)])
  | Some Goodbye => Ret (Err GoodbyeReceived, last_report_time, [])
  | Some _ => Ret (Err UnexpectedMessage, last_report_time, [])
  | None =>
      let duration := match from_std receive_limit with Some d => d | None => 30000 end in
      Ret (if duration <? now - last_report_time then Err TimedOut else Ok tt, last_report_time, [])
  end.

Definition try_receive_report (recv : option bytes) (now last_report_time receive_limit : Z) :
    comp (result unit RtcpError * Z * list AppEvent) :=
  match recv with
  | Some d => handle_rtcp_report_reception (received d) now last_report_time receive_limit
  | None =>
      match from_std receive_limit with
      | None => Ret (Err InvalidConfigDuration, last_report_time, [])
      | Some d =>
          Ret (if d <? now - last_report_time then Err TimedOut else Ok tt, last_report_time, [])
      end
  end.

(** What one turn of the receiver loop finds: the flag, the datagram, the clock. *)
Record reading := mk_reading {
  flag : bool;
  datagram : option bytes;
  clock : Z
}.

(** How the loop ended: left, still running when the readings given run out, or
    stopped by a panic. *)
Inductive ending := Left | Running | Crashed.

Fixpoint receiver_turns (retry_limit : nat) (max_silence : Z) (rs : list reading) (last : Z)
    (timeouts_triggered : nat) : ending * list AppEvent :=
  if (retry_limit <=? timeouts_triggered)%nat then (Left, []) else
  match rs with
  | [] => (Running, [])
  | r :: rs =>
      if flag r then
        match try_receive_report (datagram r) (clock r) last max_silence with
        | Ret (Ok _, last, evs) =>
            let '(e, rest) := receiver_turns retry_limit max_silence rs last 0 in (e, evs ++ rest)
        | Ret (Err GoodbyeReceived, _, evs) => (Left, evs)
        | Ret (Err _, last, evs) =>
            let '(e, rest) := receiver_turns retry_limit max_silence rs last (S timeouts_triggered) in
            (e, evs ++ rest)
        | Panic => (Crashed, [])
        end
      else (Left, [])
  end.

(** [run_report_receiver_loop]: the loop from the time [start] it begins at, then
    the final test of the flag, which finds [final]: the events sent and the flag
    afterwards ([None] while the loop runs, or after a panic). *)
Definition run_report_receiver_loop (retry_limit : nat) (max_silence start : Z) (rs : list reading)
    (final : bool) : list AppEvent * option bool :=
  match receiver_turns retry_limit max_silence rs start 0 with
  | (Left, evs) => if final then (evs ++ [CallEnded], Some false) else (evs, Some final)
  | (_, evs) => (evs, None)
  end.

End Reception.

(** * The two report threads

    The threads share the flag [connected] and the event channel.  Each
    constructor of a program counter is a point between two accesses to shared
    state, so that the steps interleave as the source's atomic operations do. *)

Inductive sender_pc :=
| SHead                                        (* [while connected.load()] *)
| SGather
| SSend (s : SenderStats) (r : ReceiverStats)
| SPublish (s : SenderStats) (r : ReceiverStats)
| SFail                                        (* [connected.store(false); break] *)
| SExit                                        (* [if connected.load()] *)
| SStore
| SNotify
| SDone.

Inductive receiver_pc :=
| RHead (timeouts_triggered : nat)
| RReceive (timeouts_triggered : nat)
| RPublish (timeouts_triggered : nat) (r : result unit RtcpError) (evs : list AppEvent)
| RExit
| RStore
| RNotify
| RDone.

Record threads := mk_threads {
  sender : sender_pc;
  receiver : receiver_pc;
  last_report : Z;
  open : bool;
  events : list AppEvent
}.

Section Threads.
Context (from_std : Z -> option Z) (retry_limit : nat) (max_silence : Z).

(** [run true] steps include a poisoned statistics mutex. *)
Inductive thread_step (poison : bool) : threads -> threads -> Prop :=
| sender_head rp t o ev :
    thread_step poison (mk_threads SHead rp t o ev) (mk_threads (if o then SGather else SExit) rp t o ev)
| sender_gather ls lr rp t o ev :
    (poison = false -> is_Some ls /\ is_Some lr) ->
    thread_step poison (mk_threads SGather rp t o ev)
      (mk_threads (match gather_local_stats ls lr with Some (s, r) => SSend s r | None => SExit end) rp t o ev)
| sender_send s r send1 send2 rp t o ev :
    thread_step poison (mk_threads (SSend s r) rp t o ev)
      (mk_threads (if is_ok (send_rtcp_reports s r send1 send2).1 then SPublish s r else SFail) rp t o ev)
| sender_publish s r rp t o ev :
    thread_step poison (mk_threads (SPublish s r) rp t o ev)
      (mk_threads SHead rp t o
        (ev ++ [LocalStatsUpdate (mk_call_stats s r default_sender default_receiver)]))
| sender_fail rp t o ev :
    thread_step poison (mk_threads SFail rp t o ev) (mk_threads SExit rp t false ev)
| sender_exit rp t o ev :
    thread_step poison (mk_threads SExit rp t o ev) (mk_threads (if o then SStore else SDone) rp t o ev)
| sender_store rp t o ev :
    thread_step poison (mk_threads SStore rp t o ev) (mk_threads SNotify rp t false ev)
| sender_notify rp t o ev :
    thread_step poison (mk_threads SNotify rp t o ev) (mk_threads SDone rp t o (ev ++ [CallEnded]))
| receiver_head n sp t o ev :
    thread_step poison (mk_threads sp (RHead n) t o ev)
      (mk_threads sp (if (n <? retry_limit)%nat && o then RReceive n else RExit) t o ev)
| receiver_receive n recv now res t' evs sp t o ev :
    try_receive_report from_std recv now t max_silence = Ret (res, t', evs) ->
    thread_step poison (mk_threads sp (RReceive n) t o ev) (mk_threads sp (RPublish n res evs) t' o ev)
| receiver_publish n res evs sp t o ev :
    thread_step poison (mk_threads sp (RPublish n res evs) t o ev)
      (mk_threads sp
        (match res with Ok _ => RHead 0 | Err GoodbyeReceived => RExit | Err _ => RHead (S n) end)
        t o (ev ++ evs))
| receiver_exit sp t o ev :
    thread_step poison (mk_threads sp RExit t o ev) (mk_threads sp (if o then RStore else RDone) t o ev)
| receiver_store sp t o ev :
    thread_step poison (mk_threads sp RStore t o ev) (mk_threads sp RNotify t false ev)
| receiver_notify sp t o ev :
    thread_step poison (mk_threads sp RNotify t o ev) (mk_threads sp RDone t o (ev ++ [CallEnded]))
(** Another thread of the application closes the call. *)
| hang_up sp rp t o ev :
    thread_step poison (mk_threads sp rp t o ev) (mk_threads sp rp t false ev).

(** The threads as [start_report_handler] spawns them after the handshake. *)
Definition spawned (start : Z) : threads := mk_threads SHead (RHead 0) start true [].

End Threads.

(** [start_report_receiver] needs the read timeout of its socket; without it
    [start_report_handler] starts no thread at all. *)
Definition start_report_receiver (timeout_set : result unit str) : result unit RtcpError :=
  map_err (fun _ => SocketConfigFailed) timeout_set.

Definition start_report_handler (timeout_set : result unit str) (now : Z) : result threads RtcpError :=
  let? _ := start_report_receiver timeout_set in Ok (spawned now).

(** [RtcpReportHandler::start]: what it returns ([None]: it still waits for the
    peer), and the shared flag. *)
Definition start (first : result unit str) (turns : list (result bytes str * result unit str))
    (timeout_set : result unit str) (now : Z) (up : bool) : option (comp (result threads RtcpError)) * bool :=
  let '(h, _) := connection_handshake first turns up in
  (match hs_phase h with
   | Waiting _ => None
   | Panicked => Some Panic
   | Failed e => Some (Ret (Err e))
   | Established => Some (Ret (start_report_handler timeout_set now))
   end, connected h).

Definition ended (e : AppEvent) : bool := match e with CallEnded => true | _ => false end.
Definition calls_ended (s : threads) : nat := List.length (List.filter ended (events s)).

(** * Two peers and the network between them

    Each direction is a queue without loss or reordering, as between two ready
    sockets of one path.  [None] is a peer that has not called
    [connection_handshake] yet; datagrams sent to it wait in its socket. *)

Record net := mk_net {
  left : option handshake;
  right : option handshake;
  to_right : list bytes;
  to_left : list bytes
}.

Definition net0 : net := mk_net None None [] [].
Definition swap (s : net) : net := mk_net (right s) (left s) (to_left s) (to_right s).

(** A handshake step of the left peer: it starts, or receives the next datagram. *)
Inductive left_handshake : net -> net -> Prop :=
| left_start r qr ql h out :
    handshake_start (Ok tt) false = (h, out) ->
    left_handshake (mk_net None r qr ql) (mk_net (Some h) r (qr ++ out) ql)
| left_turn h r qr d ql h' out ready :
    hs_phase h = Waiting ready ->
    handshake_turn (Ok d) (Ok tt) h = (h', out) ->
    left_handshake (mk_net (Some h) r qr (d :: ql)) (mk_net (Some h') r (qr ++ out) ql).

(** A step of the left peer once its handshake has returned: its sender thread
    reports, or its receiver thread takes a datagram. *)
Inductive left_report : net -> net -> Prop :=
| left_send h s_stats r_stats r qr ql :
    hs_phase h = Established ->
    packet_fits (SenderReport s_stats) -> packet_fits (ReceiverReport r_stats) ->
    left_report (mk_net (Some h) r qr ql)
      (mk_net (Some h) r (qr ++ (send_rtcp_reports s_stats r_stats (Ok tt) (Ok tt)).2) ql)
| left_receive h r qr d ql :
    hs_phase h = Established ->
    left_report (mk_net (Some h) r qr (d :: ql)) (mk_net (Some h) r qr ql).

Definition handshake_step (s s' : net) : Prop :=
  left_handshake s s' \/ left_handshake (swap s) (swap s').
Definition report_step (s s' : net) : Prop :=
  left_report s s' \/ left_report (swap s) (swap s').

(** [run n s]: [s] is reached from [net0], with [n] handshake steps among the
    steps taken. *)
Inductive run : nat -> net -> Prop :=
| run_nil : run 0 net0
| run_handshake n s s' : run n s -> handshake_step s s' -> run (S n) s'
| run_report n s s' : run n s -> report_step s s' -> run n s'.

Definition established (o : option handshake) : Prop := o = Some (mk_handshake Established true).

(** A peer that has failed or panicked. *)
Definition broken (o : option handshake) : Prop :=
  match o with
  | Some h => match hs_phase h with Failed _ | Panicked => True | _ => False end
  | None => False
  end.

(** * Lemmas on packets *)

(** A report of the right layout is decoded field by field. *)
Lemma from_bytes_sr a b :
  List.length a = 4%nat -> List.length b = 8%nat ->
  from_bytes (lit "SR" ++ a ++ b) =
  Ret (Some (SenderReport (mk_sender_stats (from_be a) (from_be b)))).
Proof.
  intros Ha Hb. unfold from_bytes. rewrite !length_app, Ha, Hb.
  change (starts_with (lit "SR") (lit "SR" ++ a ++ b) && _) with true. cbv iota.
  rewrite !(array_at_skip _ _ _ (lit "SR")) by (simpl; lia). cbn -[array_at].
  rewrite array_at_prefix by (simpl; lia). cbn -[array_at].
  rewrite (array_at_skip _ _ _ a), Ha by lia. cbn -[array_at].
  rewrite <-(app_nil_r b) at 1. by rewrite array_at_prefix by (simpl; lia).
Qed.

Lemma from_bytes_rr a b c :
  List.length a = 4%nat -> List.length b = 4%nat -> List.length c = 4%nat ->
  from_bytes (lit "RR" ++ a ++ b ++ c) =
  Ret (Some (ReceiverReport (mk_receiver_stats (from_be a) (from_be b) (from_be c)))).
Proof.
  intros Ha Hb Hc. unfold from_bytes. rewrite !length_app, Ha, Hb, Hc.
  change (starts_with (lit "SR") (lit "RR" ++ a ++ b ++ c) && _) with false.
  change (starts_with (lit "RR") (lit "RR" ++ a ++ b ++ c) && _) with true. cbv iota.
  rewrite !(array_at_skip _ _ _ (lit "RR")) by (simpl; lia). cbn -[array_at].
  rewrite array_at_prefix by (simpl; lia). cbn -[array_at].
  rewrite !(array_at_skip _ _ _ a), Ha by lia. cbn -[array_at].
  rewrite array_at_prefix by (simpl; lia). cbn -[array_at].
  rewrite (array_at_skip _ _ _ b), Hb by lia. cbn -[array_at].
  rewrite <-(app_nil_r c) at 1. by rewrite array_at_prefix by (simpl; lia).
Qed.

Lemma rtcp_to_from p : packet_fits p -> from_bytes (to_bytes p) = Ret (Some p).
Proof.
  destruct p as [[a b]|[a b c]| | |]; try done; simpl packet_fits; intros H; unfold to_bytes; simpl.
  - change (from_bytes (lit "SR" ++ to_be 4 a ++ to_be 8 b) = Ret (Some (SenderReport (mk_sender_stats a b)))).
    rewrite from_bytes_sr, !from_to_be_id by (rewrite ?length_to_be; tauto). done.
  - change (from_bytes (lit "RR" ++ to_be 4 a ++ to_be 4 b ++ to_be 4 c) =
      Ret (Some (ReceiverReport (mk_receiver_stats a b c)))).
    rewrite from_bytes_rr, !from_to_be_id by (rewrite ?length_to_be; tauto). done.
Qed.

(** The decoder never panics. *)
Lemma rtcp_bytes_total data : exists o, from_bytes data = Ret o.
Proof.
  unfold from_bytes. destruct (_ && _) eqn:E1; [|destruct (starts_with (lit "RR") data && _) eqn:E2].
  - apply andb_true_iff in E1 as [_ E]. apply Nat.leb_le in E.
    rewrite !array_at_total by lia. eauto.
  - apply andb_true_iff in E2 as [_ E]. apply Nat.leb_le in E.
    rewrite !array_at_total by lia. eauto.
  - repeat case_decide; eauto.
Qed.

Lemma received_packet p : received (to_bytes p) = to_bytes p.
Proof. unfold received. apply take_ge. destruct p; unfold to_bytes; rewrite ?length_app, ?length_to_be; simpl; lia. Qed.

(** * Lemmas on the handshake *)

(** The flag is up from the first Ready on. *)
Definition flag_ok (h : handshake) : Prop :=
  match hs_phase h with Waiting true | Established => connected h = true | _ => True end.

Lemma turn_flag recv send h : flag_ok h -> flag_ok (handshake_turn recv send h).1.
Proof.
  unfold handshake_turn, flag_ok. destruct h as [[r| | |] f]; cbn; try done. intros Hr.
  destruct recv as [d|]; [|done]. destruct (from_bytes _) as [[[]|]|]; cbn; try done; destruct r; cbn in *; try done;
    destruct send; done.
Qed.

Lemma loop_flag turns h : flag_ok h -> flag_ok (handshake_loop turns h).1.
Proof.
  revert h. induction turns as [|[recv send] turns IH]; intros h Hh; [done|]. cbn.
  pose proof (turn_flag recv send h Hh) as H1. destruct (handshake_turn recv send h) as [h1 out].
  specialize (IH h1 H1). by destruct (handshake_loop turns h1).
Qed.

(** A report handler that has started has its two threads and the flag up; one
    that fails after the handshake leaves the flag up as well. *)
Lemma start_up first turns timeout_set now r up :
  start first turns timeout_set now false = (Some (Ret r), up) ->
  match r with
  | Ok s => s = spawned now /\ up = true
  | Err _ => is_ok timeout_set = false -> hs_phase (connection_handshake first turns false).1 = Established -> up = true
  end.
Proof.
  unfold start, connection_handshake. destruct (handshake_start first false) as [h0 out] eqn:E0.
  assert (H0 : flag_ok h0) by (unfold handshake_start in E0; destruct first; by injection E0 as <- _).
  pose proof (loop_flag turns h0 H0) as Hh. destruct (handshake_loop turns h0) as [h rest]. cbn [fst] in Hh.
  unfold flag_ok in Hh. destruct (hs_phase h) as [b| |e|] eqn:Ep; intros [= <- <-].
  - unfold start_report_handler, start_report_receiver. destruct timeout_set; cbn; by eauto.
  - cbn. congruence.
Qed.

(** What a peer sends during its handshake, and its state after [n] steps. *)
Definition script : list RtcpPacket := [Hello; Ready; Ready].

Definition peer_at (n : nat) : option handshake :=
  match n with
  | 0%nat => None
  | 1%nat | 2%nat => Some (mk_handshake (Waiting false) false)
  | 3%nat => Some (mk_handshake (Waiting true) true)
  | _ => Some (mk_handshake Established true)
  end.

(** The queue to a peer at step [b] from a peer at step [a]: what is left of the
    script, then reports [rs], sent only once the script is complete. *)
Record queue (a b : nat) (q : list bytes) : Prop := mk_queue {
  queue_ahead : (b <= a + 1)%nat;
  queue_done : (a <= 4)%nat;
  queue_rest : exists rs, q = map to_bytes (drop (b - 1) (take a script) ++ rs) /\
    (rs <> [] -> a = 4%nat) /\ Forall (fun p => is_report p /\ packet_fits p) rs
}.

Record in_step (n : nat) (s : net) : Prop := mk_in_step {
  step_ex : exists a b, n = (a + b)%nat /\ left s = peer_at a /\ right s = peer_at b /\
    queue a b (to_right s) /\ queue b a (to_left s)
}.

Lemma in_step_swap n s : in_step n s -> in_step n (swap s).
Proof. intros [(a & b & -> & Hl & Hr & Q1 & Q2)]. constructor. exists b, a. split; [lia|done]. Qed.

Lemma swap_swap s : swap (swap s) = s.
Proof. by destruct s. Qed.

(** A further packet of the script. *)
Lemma queue_send a b q p :
  queue a b q -> (a < 3)%nat -> script !! a = Some p -> queue (S a) b (q ++ [to_bytes p]).
Proof.
  intros [H1 H2 (rs & -> & H3 & H4)] Ha Hp. constructor; [lia..|].
  exists []. rewrite (take_S_r _ _ _ Hp). split; [|done].
  assert (rs = []) as -> by (destruct rs; [done|]; exfalso; assert (a = 4%nat) by (by apply H3); lia).
  rewrite !app_nil_r, drop_app_le, map_app; [done|].
  rewrite length_take. simpl. lia.
Qed.

(** The next packet of a queue of a peer still in its handshake. *)
Lemma queue_next a b d q :
  queue a b (d :: q) -> (1 <= b <= 3)%nat ->
  exists p, script !! (b - 1)%nat = Some p /\ d = to_bytes p /\ queue a (S b) q.
Proof.
  intros [H1 H2 (rs & Hq & H3 & H4)] Hb.
  assert (Ha : (b <= a)%nat).
  { destruct (decide (b <= a)%nat) as [|Hn]; [done|exfalso].
    assert (rs = []) as -> by (destruct rs; [done|]; assert (a = 4%nat) by (by apply H3); lia).
    rewrite drop_ge in Hq; [done|]. rewrite length_take. simpl. lia. }
  destruct (script !! (b - 1)%nat) as [p|] eqn:E; [|apply lookup_ge_None in E; simpl in E; lia].
  exists p. split; [done|].
  rewrite (drop_S _ p) in Hq by (rewrite lookup_take_lt by lia; done).
  injection Hq as -> ->. split; [done|]. constructor; [lia..|]. exists rs. split; [|done].
  by replace (S (b - 1)) with (S b - 1)%nat by lia.
Qed.

Lemma peer_waiting n h ready :
  peer_at n = Some h -> hs_phase h = Waiting ready ->
  (1 <= n <= 3)%nat /\ ready = (n =? 3)%nat /\ h = mk_handshake (Waiting ready) ready.
Proof. destruct n as [|[|[|[|?]]]]; intros [=<-]; simpl; intros [=<-]; split_and!; done || lia. Qed.

(** A turn on the packet due at a peer's step takes it to the next one. *)
Lemma handshake_turn_due n h p :
  peer_at n = Some h -> (1 <= n <= 3)%nat -> script !! (n - 1)%nat = Some p ->
  exists h', handshake_turn (Ok (to_bytes p)) (Ok tt) h =
    (h', match script !! n with Some p' => [to_bytes p'] | None => [] end) /\
    peer_at (S n) = Some h'.
Proof.
  destruct n as [|[|[|[|?]]]]; intros [=<-] ?; try lia; intros [=<-];
    unfold handshake_turn; rewrite received_packet, rtcp_to_from by done; eauto.
Qed.

Lemma left_handshake_in_step n s s' : in_step n s -> left_handshake s s' -> in_step (S n) s'.
Proof.
  intros [(a & b & -> & Hl & Hr & Q1 & Q2)] Hs. destruct Hs as [r qr ql h out E|h r qr d ql h' out ready Hw E];
    simpl in *.
  - injection E as <- <-. assert (a = 0%nat) as -> by (by destruct a as [|[|[|[|?]]]]).
    constructor. exists 1%nat, b. split_and!; simpl; try done.
    + apply (queue_send 0 b qr Hello); [done|lia|done].
    + destruct Q2 as [? ? H]. constructor; [lia..|exact H].
  - symmetry in Hl. destruct (peer_waiting _ _ _ Hl Hw) as (Hn & Hr' & Hh).
    apply queue_next in Q2 as (p & Hp & -> & Q2); [|done].
    destruct (handshake_turn_due _ _ _ Hl Hn Hp) as (h2 & E2 & Hl2). rewrite E2 in E. injection E as <- <-.
    constructor. exists (S a), b. split_and!; simpl; try done.
    destruct (script !! a) as [p'|] eqn:Ep.
    + apply queue_send; try done. apply lookup_lt_Some in Ep. done.
    + apply lookup_ge_None in Ep. simpl in Ep. assert (a = 3%nat) as -> by lia.
      rewrite app_nil_r. destruct Q1 as [H1 H2 (rs & -> & H3 & H4)]. constructor; [lia..|].
      exists rs. split; [by rewrite !take_ge by (simpl; lia)|]. split; [|done].
      intros Hrs. by specialize (H3 Hrs).
Qed.

Lemma established_last n h : peer_at n = Some h -> hs_phase h = Established -> (4 <= n)%nat.
Proof. destruct n as [|[|[|[|?]]]]; intros [=<-]; simpl; try done. lia. Qed.

Lemma left_report_in_step n s s' : in_step n s -> left_report s s' -> in_step n s'.
Proof.
  intros [(a & b & -> & Hl & Hr & Q1 & Q2)] Hs.
  destruct Hs as [h st rt r qr ql He F1 F2|h r qr d ql He]; simpl in *; symmetry in Hl;
    pose proof (established_last _ _ Hl He) as Ha; constructor; exists a, b; split_and!; simpl; try done.
  - destruct Q1 as [H1 H2 (rs & -> & H3 & H4)]. constructor; [done..|].
    exists (rs ++ [SenderReport st; ReceiverReport rt]). split; [by rewrite (app_assoc _ rs), (map_app _ (_ ++ rs))|].
    split; [lia|]. apply Forall_app. split; [done|]. repeat apply Forall_cons_2; try apply Forall_nil_2; done.
  - destruct Q2 as [H1 H2 (rs & Hq & H3 & H4)]. destruct Q1 as [H5 H6 H7].
    rewrite drop_ge in Hq by (rewrite length_take; simpl; lia).
    destruct rs as [|p rs]; [done|]. injection Hq as -> ->. inversion H4; subst.
    constructor; [done..|]. exists rs. rewrite drop_ge by (rewrite length_take; simpl; lia).
    split_and!; [done| |done]. intros _. by apply H3.
Qed.

Lemma run_in_step n s : run n s -> in_step n s.
Proof.
  induction 1 as [|n s s' _ IH [H|H]|n s s' _ IH [H|H]].
  - constructor. exists 0%nat, 0%nat. split_and!; simpl; try done;
      (constructor; [lia..|exists []; done]).
  - by eapply left_handshake_in_step.
  - rewrite <-(swap_swap s'). apply in_step_swap. by eapply left_handshake_in_step; [apply in_step_swap|].
  - by eapply left_report_in_step.
  - rewrite <-(swap_swap s'). apply in_step_swap. by eapply left_report_in_step; [apply in_step_swap|].
Qed.

(** A peer at step [a], not the last, can take its next step unless it is ahead
    of the other. *)
Lemma left_can_step a b s :
  left s = peer_at a -> queue b a (to_left s) -> (a <= b)%nat -> (a < 4)%nat ->
  exists s', left_handshake s s'.
Proof.
  destruct s as [l r qr ql]. simpl. intros -> [H1 H2 (rs & Hq & _)] Hab Ha.
  destruct (decide (a = 0)%nat) as [->|Hz]; [eexists; by apply left_start|].
  destruct (script !! (a - 1)%nat) as [p|] eqn:E; [|apply lookup_ge_None in E; simpl in E; lia].
  rewrite (drop_S _ p) in Hq by (rewrite lookup_take_lt by lia; done). simpl in Hq. subst ql.
  destruct (peer_at a) as [h|] eqn:Eh; [|by destruct a as [|[|[|[|?]]]]].
  destruct (handshake_turn_due _ _ _ Eh ltac:(lia) E) as (h2 & E2 & _).
  eexists. eapply (left_turn _ _ _ _ _ _ _ (a =? 3)%nat); [|exact E2].
  by destruct a as [|[|[|[|?]]]]; try lia; injection Eh as <-.
Qed.

Lemma in_step_progress n s : in_step n s -> (n < 8)%nat -> exists s', handshake_step s s'.
Proof.
  intros [(a & b & -> & Hl & Hr & Q1 & Q2)] Hn.
  destruct (decide (a <= b)%nat) as [H|H].
  - destruct (left_can_step a b s Hl Q2 H) as [s' Hs]; [lia|]. exists s'. by left.
  - destruct (left_can_step b a (swap s) Hr Q1) as [s' Hs]; [lia|destruct Q1; lia|].
    exists (swap s'). right. by rewrite swap_swap.
Qed.

Lemma peer_at_established n : (n <= 4)%nat -> established (peer_at n) <-> n = 4%nat.
Proof. intros. unfold established. destruct n as [|[|[|[|[|?]]]]]; try lia; split; (intros [=]; lia) || (intros ?; lia || done). Qed.

Lemma peer_at_sound n : ~ broken (peer_at n).
Proof. destruct n as [|[|[|[|?]]]]; intros []. Qed.

(** The next datagram of an established peer is accepted by its receiver thread. *)
Lemma left_accepts n s h d ql :
  in_step n s -> left s = Some h -> hs_phase h = Established -> to_left s = d :: ql ->
  forall from_std now last limit, exists st,
    try_receive_report from_std (Some d) now last limit = Ret (Ok tt, now, [RemoteStatsUpdate st]).
Proof.
  intros [(a & b & -> & Hl & Hr & Q1 & Q2)] Hh He Hd fs now last limit. rewrite Hh in Hl. symmetry in Hl.
  pose proof (established_last _ _ Hl He) as Ha. destruct Q1 as [? ? _].
  destruct Q2 as [? ? (rs & Hq & _ & H4)]. rewrite Hd, drop_ge in Hq by (rewrite length_take; simpl; lia).
  destruct rs as [|p rs]; [done|]. injection Hq as -> ->. inversion H4 as [|? ? [Hp Hf] _]; subst.
  unfold try_receive_report, handle_rtcp_report_reception.
  rewrite received_packet, rtcp_to_from by done. simpl. destruct p; try done; eauto.
Qed.

(** * Properties *)

(** C7: between two peers joined by lossless queues, whatever the order of
    their steps: no more than eight handshake steps are ever taken; until the
    eighth some peer can take one; after it both handshakes have returned [Ok]
    with the connected flag set, and not before; neither ever fails or panics;
    and from then on every datagram either peer receives is a report its
    receiver thread accepts. *)
Theorem handshake_completes n s :
  run n s ->
  (n <= 8)%nat /\
  ((n < 8)%nat -> exists s', handshake_step s s') /\
  (n = 8%nat <-> established (left s) /\ established (right s)) /\
  (~ broken (left s) /\ ~ broken (right s)) /\
  (forall t, t = s \/ t = swap s -> forall h d ql,
     left t = Some h -> hs_phase h = Established -> to_left t = d :: ql ->
     forall from_std now last limit, exists st,
       try_receive_report from_std (Some d) now last limit = Ret (Ok tt, now, [RemoteStatsUpdate st])).
Proof.
  intros H%run_in_step. split_and!.
  - destruct H as [(a & b & -> & _ & _ & [_ ? _] & [_ ? _])]. lia.
  - by apply in_step_progress.
  - destruct H as [(a & b & -> & -> & -> & [_ ? _] & [_ ? _])].
    rewrite !peer_at_established by done. lia.
  - destruct H as [(a & b & _ & -> & _)]. apply peer_at_sound.
  - destruct H as [(a & b & _ & _ & -> & _)]. apply peer_at_sound.
  - intros t Ht h d ql. apply (left_accepts n). destruct Ht as [->| ->]; [done|by apply in_step_swap].
Qed.

(** Both peers, in turn; then the left one reports. *)
Definition finished : net :=
  mk_net (peer_at 4) (peer_at 4)
    [to_bytes (SenderReport (mk_sender_stats 7 900)); to_bytes (ReceiverReport (mk_receiver_stats 5 0 3))] [].

(** [left_turn] with its result computed, for either peer. *)
Lemma turn_left h r qr d ql h' out ready q :
  hs_phase h = Waiting ready -> handshake_turn (Ok d) (Ok tt) h = (h', out) -> q = qr ++ out ->
  handshake_step (mk_net (Some h) r qr (d :: ql)) (mk_net (Some h') r q ql).
Proof. intros ? ? ->. left. by eapply left_turn. Qed.

Lemma turn_right h l qr d ql h' out ready q :
  hs_phase h = Waiting ready -> handshake_turn (Ok d) (Ok tt) h = (h', out) -> q = qr ++ out ->
  handshake_step (mk_net l (Some h) (d :: ql) qr) (mk_net l (Some h') ql q).
Proof. intros ? ? ->. right. by eapply left_turn. Qed.

Lemma run_finished : run 8 finished.
Proof.
  set (h := to_bytes Hello). set (r := to_bytes Ready).
  eapply (run_report _ (mk_net (peer_at 4) (peer_at 4) [] [])); [|left; by eapply
    (left_send _ (mk_sender_stats 7 900) (mk_receiver_stats 5 0 3) _ [])].
  eapply (run_handshake _ (mk_net (peer_at 4) (peer_at 3) [r] [])); [|by eapply turn_right].
  eapply (run_handshake _ (mk_net (peer_at 3) (peer_at 3) [r] [r])); [|by eapply turn_left].
  eapply (run_handshake _ (mk_net (peer_at 3) (peer_at 2) [r; r] [])); [|by eapply turn_right].
  eapply (run_handshake _ (mk_net (peer_at 2) (peer_at 2) [r] [r])); [|by eapply turn_left].
  eapply (run_handshake _ (mk_net (peer_at 2) (peer_at 1) [h; r] [])); [|by eapply turn_right].
  eapply (run_handshake _ (mk_net (peer_at 1) (peer_at 1) [h] [h])); [|by eapply turn_left].
  eapply (run_handshake _ (mk_net (peer_at 1) (peer_at 0) [h] [])); [|right; by apply (left_start (peer_at 1) [] [h] _ [h])].
  eapply (run_handshake _ net0); [apply run_nil|left; by apply (left_start None [] [] _ [h])].
Qed.

Lemma handshake_completes_witness :
  run 8 finished /\ established (left finished) /\ established (right finished) /\
  (exists st, try_receive_report Some (Some (to_bytes (SenderReport (mk_sender_stats 7 900)))) 50 0 30 =
     Ret (Ok tt, 50, [RemoteStatsUpdate st])).
Proof.
  destruct (handshake_completes 8 finished run_finished) as (_ & _ & H & _ & Hacc).
  split; [exact run_finished|]. destruct (proj1 H eq_refl) as [H1 H2].
  split; [exact H1|]. split; [exact H2|].
  eapply (Hacc (swap finished) (or_intror eq_refl)); reflexivity.
Defined.

(** One lost datagram is enough to break it: when the left peer's [Hello] is
    lost, the right one still completes, on two [Ready]s, and the left one ends
    on [UnexpectedMessage] at the first report, with the flag set. *)
Lemma hello_lost_breaks s r :
  packet_fits (SenderReport s) -> packet_fits (ReceiverReport r) ->
  let ready := to_bytes Ready in
  let left := connection_handshake (Ok tt)
    (map (fun d => (Ok d, Ok tt)) [to_bytes Hello; ready; to_bytes (SenderReport s)]) false in
  let right := connection_handshake (Ok tt) (map (fun d => (Ok d, Ok tt)) [ready; ready]) false in
  left = (mk_handshake (Failed UnexpectedMessage) true, [to_bytes Hello; ready; ready]) /\
  right = (mk_handshake Established true, [to_bytes Hello; ready]).
Proof.
  intros Hs Hr. split; [|reflexivity]. unfold connection_handshake. cbn [map handshake_start].
  cbn [handshake_loop]. unfold handshake_turn at 1. rewrite received_packet, rtcp_to_from by done. cbn [hs_phase].
  unfold handshake_turn at 1. rewrite received_packet, rtcp_to_from by done. cbn [hs_phase].
  unfold handshake_turn at 1. rewrite received_packet, rtcp_to_from by done. reflexivity.
Qed.

(** * Lemmas on the receiver loop *)

Section ReceptionLemmas.
Context (from_std : Z -> option Z).

Lemma try_receive_report_total recv now last limit :
  exists res last' evs, try_receive_report from_std recv now last limit = Ret (res, last', evs) /\
    Forall (fun e => ended e = false) evs.
Proof.
  unfold try_receive_report, handle_rtcp_report_reception. destruct recv as [d|].
  - destruct (rtcp_bytes_total (received d)) as [o ->]. simpl.
    destruct o as [[]|]; do 3 eexists; (split; [done|]); repeat apply Forall_cons_2; try apply Forall_nil_2; done.
  - destruct (from_std limit); do 3 eexists; (split; [done|]); apply Forall_nil_2.
Qed.

(** What the loop makes of a turn's result. *)
Inductive verdict := Fine | Bye | Miss.

Definition verdict_of (r : result unit RtcpError) : verdict :=
  match r with Ok _ => Fine | Err GoodbyeReceived => Bye | Err _ => Miss end.

(** The turns on all readings, as if the loop never stopped. *)
Fixpoint history (max_silence : Z) (rs : list reading) (last : Z) : list (verdict * list AppEvent) :=
  match rs with
  | [] => []
  | r :: rs =>
      match try_receive_report from_std (datagram r) (clock r) last max_silence with
      | Ret (res, last, evs) => (verdict_of res, evs) :: history max_silence rs last
      | Panic => []
      end
  end.

(** After the verdicts [vs] the loop does not take the reading [next]. *)
Definition stops (retry_limit : nat) (vs : list verdict) (next : option reading) : Prop :=
  replicate retry_limit Miss `suffix_of` vs \/ last vs = Some Bye \/ flag <$> next = Some false.

Fixpoint trailing_from (n : nat) (vs : list verdict) : nat :=
  match vs with
  | [] => n
  | Miss :: vs => trailing_from (S n) vs
  | _ :: vs => trailing_from 0 vs
  end.

Lemma trailing_from_app n vs v :
  trailing_from n (vs ++ [v]) = match v with Miss => S (trailing_from n vs) | _ => 0%nat end.
Proof. revert n. induction vs as [|[] vs IH]; intros n; simpl; auto; by destruct v. Qed.

Lemma trailing_suffix m vs : replicate m Miss `suffix_of` vs <-> (m <= trailing_from 0 vs)%nat.
Proof.
  revert m. induction vs as [|v vs IH] using rev_ind; intros m; simpl.
  - split; [|intros ?; assert (m = 0%nat) as -> by lia; apply suffix_nil].
    intros H%suffix_length. rewrite length_replicate in H. simpl in H. lia.
  - rewrite trailing_from_app. destruct m as [|m]; [split; [lia|intros _; apply suffix_nil]|].
    rewrite replicate_S_end. split.
    + intros H. apply suffix_snoc_inv_1 in H as Hv. apply suffix_snoc_inv_2 in H.
      subst v. apply IH in H. lia.
    + intros H. destruct v; try lia.
      destruct (proj2 (IH m)) as [k ->]; [lia|]. exists k. by rewrite app_assoc.
Qed.

Lemma receiver_turns_history limit silence rs last pre :
  list.last pre <> Some Bye ->
  let h := history silence rs last in
  exists k,
    (k <= List.length rs)%nat /\
    (forall j, (j < k)%nat -> ~ stops limit (pre ++ map fst (take j h)) (rs !! j)) /\
    (receiver_turns from_std limit silence rs last (trailing_from 0 pre) =
       (Left, List.concat (map snd (take k h))) /\ stops limit (pre ++ map fst (take k h)) (rs !! k) \/
     receiver_turns from_std limit silence rs last (trailing_from 0 pre) =
       (Running, List.concat (map snd h)) /\ k = List.length rs /\
       ~ stops limit (pre ++ map fst h) None).
Proof.
  revert last pre. induction rs as [|r rs IH]; intros last pre Hpre; cbn zeta; simpl receiver_turns.
  - exists 0%nat. split; [lia|]. split; [lia|]. simpl. rewrite app_nil_r. case_bool; [left|right].
    + split; [done|]. left. by apply trailing_suffix.
    + split_and!; [done..|]. intros [Hs|[Hs|Hs]]; try done. apply trailing_suffix in Hs. lia.
  - destruct (try_receive_report_total (datagram r) (clock r) last silence) as (res & last' & evs & E & _).
    simpl history. rewrite E. case_bool.
    { exists 0%nat. split; [lia|]. split; [lia|]. left. split; [done|]. left. simpl.
      rewrite app_nil_r. by apply trailing_suffix. }
    assert (H0 : flag r = true -> ~ stops limit (pre ++ []) (Some r)).
    { intros Hf [Hs|[Hs|Hs]]; rewrite ?app_nil_r in Hs; try done.
      - apply trailing_suffix in Hs. lia.
      - simpl in Hs. rewrite Hf in Hs. done. }
    destruct (flag r) eqn:Hf.
    2: { exists 0%nat. split; [simpl; lia|]. split; [lia|]. left. split; [done|]. right. right. simpl. by rewrite Hf. }
    destruct (decide (res = Err GoodbyeReceived)) as [->|Hb].
    { exists 1%nat. split; [simpl; lia|]. split.
      { intros j Hj. assert (j = 0%nat) as -> by lia. by apply H0. }
      left. simpl. rewrite app_nil_r. split; [done|]. right. left. simpl. by rewrite last_snoc. }
    set (v := verdict_of res).
    assert (Hv : v <> Bye) by (subst v; destruct res as [|[]]; done).
    assert (Ht : trailing_from 0 (pre ++ [v]) = match res with Ok _ => 0%nat | _ => S (trailing_from 0 pre) end).
    { rewrite trailing_from_app. subst v. by destruct res as [|[]]. }
    destruct (IH last' (pre ++ [v])) as (k & Hk & Hj & Hend); [by rewrite last_snoc; intros [=]|].
    exists (S k). split; [simpl; lia|]. split.
    { intros [|j] Hlt; [by apply H0|]. simpl. rewrite (cons_middle v), app_assoc. apply Hj. lia. }
    rewrite Ht in Hend. rewrite <-!app_assoc in Hend. simpl.
    destruct res as [[]|e].
    + destruct Hend as [[-> ?]|[-> (-> & ?)]]; [by left|right]. by split_and!.
    + destruct Hend as [[-> ?]|[-> (-> & ?)]]; [left|right]; split_and!; try done; by destruct e.
Qed.

End ReceptionLemmas.

(** The packet a turn reads, if any. *)
Definition parsed (recv : option bytes) : option RtcpPacket :=
  match recv with
  | Some d => match from_bytes (received d) with Ret o => o | Panic => None end
  | None => None
  end.

(** The receiver thread leaves its loop at the first point where it has
    just missed [retry_limit] times in a row, has received a goodbye, or reads
    the flag as false, and at no other; up to there it has forwarded the remote
    statistics of every report received, in order, and nothing else; on leaving
    it closes the call, with one [CallEnded] if the flag was still set.  A turn
    misses when a packet that is neither a report nor a goodbye is read, or on
    silence or garbage more than the limit after the last report. *)
Lemma receiver_loop from_std limit silence start rs final :
  let h := history from_std silence rs start in
  let verdicts k := map fst (take k h) in
  exists k,
    (k <= List.length rs)%nat /\
    (forall j, (j < k)%nat -> ~ stops limit (verdicts j) (rs !! j)) /\
    (stops limit (verdicts k) (rs !! k) /\
       run_report_receiver_loop from_std limit silence start rs final =
         (List.concat (map snd (take k h)) ++ (if final then [CallEnded] else []), Some false) \/
     k = List.length rs /\ ~ stops limit (map fst h) None /\
       run_report_receiver_loop from_std limit silence start rs final =
         (List.concat (map snd h), None)) /\
  (forall recv now last res last' evs,
     try_receive_report from_std recv now last silence = Ret (res, last', evs) ->
     let silent d := bool_decide (d < now - last) in
     match parsed recv with
     | Some (SenderReport s) => verdict_of res = Fine /\ last' = now /\
         evs = [RemoteStatsUpdate (mk_call_stats default_sender default_receiver s default_receiver)]
     | Some (ReceiverReport r) => verdict_of res = Fine /\ last' = now /\
         evs = [RemoteStatsUpdate (mk_call_stats default_sender default_receiver default_sender r)]
     | Some Goodbye => verdict_of res = Bye /\ last' = last /\ evs = []
     | Some _ => verdict_of res = Miss /\ last' = last /\ evs = []
     | None => last' = last /\ evs = [] /\
         (forall d, from_std silence = Some d -> verdict_of res = if silent d then Miss else Fine)
     end).
Proof.
  cbn zeta. destruct (receiver_turns_history from_std limit silence rs start []) as (k & Hk & Hj & He); [done|].
  exists k. split; [done|]. split; [done|]. split.
  - simpl in He. unfold run_report_receiver_loop.
    destruct He as [[-> Hs]|[-> (Hl & Hs)]]; [left|right; by split_and!].
    split; [done|]. destruct final; [done|]. by rewrite app_nil_r.
  - intros recv now last res last' evs. unfold try_receive_report, handle_rtcp_report_reception, parsed.
    destruct recv as [d|]; simpl.
    + destruct (rtcp_bytes_total (received d)) as [o ->]. simpl.
      destruct o as [[]|]; intros [=<- <- <-]; split_and!; try done.
      intros m ->. case_bool; case_bool_decide; done || lia.
    + destruct (from_std silence) as [m|]; intros [=<- <- <-]; split_and!; try done.
      intros ? [=<-]. case_bool; case_bool_decide; done || lia.
Qed.

(** * Lemmas on the threads *)

Lemma calls_ended_app sp rp t o ev ev' :
  calls_ended (mk_threads sp rp t o (ev ++ ev')) = (calls_ended (mk_threads sp rp t o ev) + List.length (List.filter ended ev'))%nat.
Proof. unfold calls_ended. simpl. by rewrite List.filter_app, length_app. Qed.

Lemma no_call_ended evs : Forall (fun e => ended e = false) evs -> List.filter ended evs = [].
Proof. induction 1 as [|e evs He _ IH]; [done|]. simpl. by rewrite He. Qed.

(** Without a poisoned mutex the sender thread closes nothing, and only the
    receiver thread's last step announces the end of the call. *)
Definition sender_ok (sp : sender_pc) (open : bool) : Prop :=
  match sp with
  | SExit | SDone => open = false
  | SStore | SNotify => False
  | _ => True
  end.

Definition receiver_ok (rp : receiver_pc) (open : bool) (announced : nat) : Prop :=
  match rp with
  | RNotify => open = false /\ announced = 0%nat
  | RDone => open = false /\ (announced <= 1)%nat
  | RPublish _ _ evs => List.filter ended evs = [] /\ announced = 0%nat
  | _ => announced = 0%nat
  end.

Definition threads_ok (s : threads) : Prop :=
  sender_ok (sender s) (open s) /\ receiver_ok (receiver s) (open s) (calls_ended s).

(** The flag is down and no thread is about to announce it. *)
Definition quiet (s : threads) : Prop :=
  open s = false /\ receiver s <> RStore /\ receiver s <> RNotify.

Section ThreadLemmas.
Context (from_std : Z -> option Z) (retry_limit : nat) (max_silence : Z).
Abbreviation step := (thread_step from_std retry_limit max_silence false).

Lemma lower_sender sp o : sender_ok sp o -> sender_ok sp false.
Proof. by destruct sp. Qed.

Lemma lower_receiver rp o c : receiver_ok rp o c -> receiver_ok rp false c.
Proof. destruct rp; simpl; tauto. Qed.

Lemma thread_step_ok s s' : threads_ok s -> step s s' -> threads_ok s'.
Proof.
  intros [Hs Hr] Hstep. unfold threads_ok. destruct Hstep as
    [rp t [] ev|ls lr rp t o ev Hp|st rt a b rp t o ev|st rt rp t o ev|rp t o ev|rp t o ev|rp t o ev|rp t o ev
    |n sp t o ev|n recv now res t' evs sp t o ev E|n res evs sp t o ev|sp t [] ev|sp t o ev|sp t o ev|sp rp t o ev];
    cbn [sender receiver open] in *; rewrite ?calls_ended_app; unfold calls_ended in *; cbn [events] in *.
  - done.
  - done.
  - by destruct (Hp eq_refl) as [[s ->] [r ->]].
  - split; [by destruct (is_ok _)|done].
  - simpl. by rewrite Nat.add_0_r.
  - split; [done|by eapply lower_receiver].
  - simpl in Hs. by subst o.
  - done.
  - done.
  - split; [done|]. by destruct (_ && _).
  - destruct (try_receive_report_total from_std recv now t max_silence) as (? & ? & ? & E' & ?).
    rewrite E in E'. injection E' as -> -> ->. split; [done|]. split; [by apply no_call_ended|done].
  - destruct Hr as [-> Hc]. split; [done|]. simpl. rewrite Nat.add_0_r. by destruct res as [|[]].
  - done.
  - split; [done|]. simpl in *. lia.
  - split; [by eapply lower_sender|]. done.
  - split; [done|]. destruct Hr as [-> ->]. split; [done|]. simpl. lia.
  - split; [by eapply lower_sender|by eapply lower_receiver].
Qed.

Lemma threads_reach_ok s s' : threads_ok s -> rtc step s s' -> threads_ok s'.
Proof. intros H. induction 1 as [|x y z Hs _ IH]; [done|]. eauto using thread_step_ok. Qed.

Lemma quiet_step s s' : threads_ok s -> quiet s -> step s s' -> quiet s' /\ calls_ended s' = calls_ended s.
Proof.
  intros [Hs Hr] (Hq & Hq1 & Hq2) Hstep. unfold quiet. destruct Hstep;
    cbn [sender receiver open] in *; subst; rewrite ?calls_ended_app, ?andb_false_r; try done.
  destruct Hr as [-> _]. rewrite Nat.add_0_r. split_and!; try done; by destruct res as [|[]].
Qed.

Lemma quiet_reach s s' : threads_ok s -> quiet s -> rtc step s s' -> calls_ended s' = calls_ended s.
Proof.
  intros Hok Hq H. revert Hok Hq. induction H as [|x y z Hs _ IH]; [done|]. intros Hok Hq.
  destruct (quiet_step _ _ Hok Hq Hs) as [Hq' <-]. eauto using thread_step_ok.
Qed.

End ThreadLemmas.

(** C36: as long as no statistics mutex is poisoned, in every interleaving of
    the two report threads and of hang-ups from elsewhere: [CallEnded] is sent at
    most once, and only by the receiver thread as its last act; when either
    thread has finished the connected flag is down; and once the flag is down,
    unless the receiver thread is already past its own final test, the end of
    the call is never announced any more (so a call closed because the sender
    thread failed to send is never announced). *)
Theorem report_threads from_std limit silence start s :
  rtc (thread_step from_std limit silence false) (spawned start) s ->
  (calls_ended s <= 1)%nat /\
  ((0 < calls_ended s)%nat -> receiver s = RDone) /\
  (sender s = SDone \/ receiver s = RDone -> open s = false) /\
  (open s = false -> receiver s <> RStore -> receiver s <> RNotify ->
   forall s', rtc (thread_step from_std limit silence false) s s' -> calls_ended s' = calls_ended s).
Proof.
  intros H. assert (Hok : threads_ok s) by (by apply (threads_reach_ok from_std limit silence (spawned start))).
  pose proof Hok as [Hs Hr]. split_and!.
  - destruct (receiver s); simpl in Hr; lia.
  - destruct (receiver s); simpl in Hr; lia || done.
  - intros [E|E]; rewrite E in *; simpl in *; tauto.
  - intros Ho H1 H2 s' H'. by eapply quiet_reach.
Qed.

(** The sender thread cannot send: the flag goes down and nothing is announced,
    although both threads end. *)
Definition send_failed (start : Z) : threads := mk_threads SExit (RHead 0) start false [].

Lemma reach_send_failed from_std limit silence start :
  rtc (thread_step from_std limit silence false) (spawned start) (send_failed start).
Proof.
  eapply rtc_l; [apply sender_head|]. simpl.
  eapply rtc_l; [apply (sender_gather _ _ _ _ (Some default_sender) (Some default_receiver)); eauto|]. simpl.
  eapply rtc_l; [apply (sender_send _ _ _ _ _ _ (Err []) (Ok tt))|]. simpl.
  eapply rtc_l; [apply sender_fail|]. apply rtc_refl.
Qed.

Lemma report_threads_witness :
  rtc (thread_step Some 2 30 false) (spawned 0) (send_failed 0) /\
  (forall s', rtc (thread_step Some 2 30 false) (send_failed 0) s' -> calls_ended s' = 0%nat).
Proof.
  split; [exact (reach_send_failed Some 2 30 0)|]. intros s' H.
  apply (report_threads Some 2 30 0 (send_failed 0) (reach_send_failed Some 2 30 0)); try discriminate; [reflexivity|exact H].
Defined.
