(* ===== verification/RtpIo.v ===== *)
(** The RTP threads and the transport around them (src/transport/rtp/sender.rs,
    receiver.rs, error.rs; src/transport/media_transport.rs, error.rs).

    The sockets are the outcomes of their calls, one [send_turn] or
    [receive_turn] per iteration of a thread's loop; the DTLS handshake, the
    thread creations and the report handler's own start are outcomes of
    [MediaTransport.start].  The end of the receiver thread, where it reads the
    shared flag, lowers it and announces the end of the call, is a step relation
    ([exit_step]) over all the threads that end in the same way (the report
    threads of Rtcp and the frame loop of Media) and the writers that lower the
    flag without announcing; their steps interleave. *)

From S2P Require Import Prelude.
From S2P Require Import JitterBuffer.
From S2P Require Import Srtp.
From S2P Require Import Text.
From S2P Require Import SdpAttribute.
From S2P Require Import Rtcp.

(** * Definitions *)

Inductive RtpError :=
| AddrNotAvailable
| RtpSocketConfigFailed                    (* [SocketConfigFailed] *)
| RtpSocketCloneFailed                     (* [SocketCloneFailed] *)
| RtpSendFailed                            (* [SendFailed] *)
| RtpReceiveFailed (e : str)               (* [ReceiveFailed] *)
| InvalidRtpPacket
| TerminateFailed
| RtpConnectionClosed                      (* [ConnectionClosed] *)
| RtpStatusLockFailed                      (* [ConnectionStatusLockFailed] *)
| RTCPError (e : str)
| RtpPoisonedLock                          (* [PoisonedLock] *)
| SrtpFailure (e : str).                   (* [SrtpError] *)

Definition show_rtp_error (e : RtpError) : str :=
  match e with
  | AddrNotAvailable => quoted "Address not available"
  | RtpSocketConfigFailed => quoted "Failed to configure socket"
  | RtpSendFailed => quoted "Failed to send RTP packet"
  | RtpReceiveFailed e => lit "Error: " ++ [34] ++ lit "Failed to receive RTP packet. Details: " ++ e ++ [34]
  | InvalidRtpPacket => quoted "Invalid or corrupted RTP packet"
  | RtpSocketCloneFailed => quoted "Failed to clone socket"
  | TerminateFailed => quoted "Failed to terminate"
  | RtpConnectionClosed => quoted "Connection closed"
  | RTCPError e => e
  | RtpStatusLockFailed => quoted "Failed to acquire connection status lock"
  | RtpPoisonedLock => quoted "The mutex was poisoned"
  | SrtpFailure e => lit "SRTP Error: " ++ [34] ++ e ++ [34]
  end.

(** The report handler's mutex ([None]: poisoned) and the send of its goodbye. *)
Abbreviation goodbye := (option (result unit str)).

(** [report_handler.lock()?.report_goodbye()?] before an error is returned. *)
Definition say_goodbye (h : goodbye) (e : RtpError) : RtpError :=
  match h with
  | None => RtpPoisonedLock
  | Some sent =>
      match report_goodbye sent with
      | Ok _ => e
      | Err g => RTCPError (show_rtcp_error g)
      end
  end.

(** ** Sending *)

(** [RtpSender::start] only needs a clone of its socket for the thread. *)
Definition start_sender (cloned : result unit str) : result unit RtpError := map_err (fun _ => RtpSocketCloneFailed) cloned.

(** One iteration: the flag at its head, the packet from the channel ([None]:
    closed), the flag in [send_packet], the socket, the statistics' mutex. *)
Record send_turn := mk_send_turn {
  s_open : bool;
  s_packet : option bytes;
  s_still_open : bool;
  s_sent : bool;
  s_goodbye : goodbye;
  s_stats : bool
}.

Definition count_sent (p : bytes) (m : SenderStats) : SenderStats :=
  mk_sender_stats (wrap 32 (packets_sent m + 1)) (wrap 64 (bytes_sent m + Z.of_nat (List.length p))).

Definition send_packet (t : send_turn) (protected_packet : bytes) (m : SenderStats) : result unit RtpError * SenderStats :=
  if negb (s_still_open t) then (Err RtpConnectionClosed, m) else
  if negb (s_sent t) then (Err (say_goodbye (s_goodbye t) RtpSendFailed), m) else
  (Ok tt, if s_stats t then count_sent protected_packet m else m).

(** The thread of [RtpSender::start]: the datagrams sent, the statistics, and
    whether the loop has ended. *)
Fixpoint sender_loop (turns : list send_turn) (m : SenderStats) : list bytes * SenderStats * bool :=
  match turns with
  | [] => ([], m, false)
  | t :: turns =>
      if negb (s_open t) then ([], m, true) else
      match s_packet t with
      | None => ([], m, true)
      | Some p =>
          let '(r, m) := send_packet t p m in
          match r with
          | Err _ => ([], m, true)
          | Ok _ => let '(l, m, d) := sender_loop turns m in (p :: l, m, d)
          end
      end
  end.

(** ** Receiving *)

(** [RtpReceiver::new] sets the read timeout, [RtpReceiver::start] clones the socket. *)
Definition new_receiver (timeout_set : result unit str) : result unit RtpError := map_err (fun _ => RtpSocketConfigFailed) timeout_set.
Definition start_receiver (cloned : result unit str) : result unit RtpError := map_err (fun _ => RtpSocketCloneFailed) cloned.

(** What [recv_from] returns; after a timeout, the flag that is read. *)
Inductive recv :=
| Datagram (b : bytes)
| WouldBlock (connected : bool)
| Broken (e : str) (h : goodbye).

(** [receive] on what the socket returns, [None] while it is still waiting. *)
Fixpoint receive (l : list recv) : option (result bytes RtpError) :=
  match l with
  | [] => None
  | Datagram b :: _ => Some (Ok b)
  | WouldBlock connected :: l => if connected then receive l else Some (Err RtpConnectionClosed)
  | Broken e h :: _ => Some (Err (say_goodbye h (RtpReceiveFailed e)))
  end.

Record receive_turn := mk_receive_turn {
  r_open : bool;
  r_socket : list recv;
  r_forwarded : bool
}.

(** The loop of the receiver thread: the datagrams forwarded, and whether it
    has ended. *)
Fixpoint receiver_loop_rtp (turns : list receive_turn) : list bytes * bool :=
  match turns with
  | [] => ([], false)
  | t :: turns =>
      if negb (r_open t) then ([], true) else
      match receive (r_socket t) with
      | None => ([], false)
      | Some (Err _) => ([], true)
      | Some (Ok b) =>
          if r_forwarded t then let '(l, d) := receiver_loop_rtp turns in (b :: l, d) else ([], true)
      end
  end.

(** The end of a thread that announces the end of the call: it leaves its loop,
    reads the flag, lowers it, sends [CallEnded].  [Done b]: it has ended, and has
    sent it or not; [Died]: a panic stopped it in its loop. *)
Inductive phase := Check_ | Lower | Announce | Done (announced : bool) | Died.

(** The announcing threads, the shared flag, the announcements so far, and whether
    the flag was lowered by somebody who does not announce. *)
Record exits := mk_exits { phases : list phase; flag : bool; announced_count : nat; silenced : bool }.

Inductive exit_step : exits -> exits -> Prop :=
| exit_check i l f n b :
    l !! i = Some Check_ -> exit_step (mk_exits l f n b) (mk_exits (<[i := if f then Lower else Done false]> l) f n b)
| exit_lower i l f n b :
    l !! i = Some Lower -> exit_step (mk_exits l f n b) (mk_exits (<[i := Announce]> l) false n b)
| exit_announce i l f n b :
    l !! i = Some Announce -> exit_step (mk_exits l f n b) (mk_exits (<[i := Done true]> l) f (S n) b)
| exit_die i l f n b :
    l !! i = Some Check_ -> exit_step (mk_exits l f n b) (mk_exits (<[i := Died]> l) f n b)
(** The hang-up ([MediaTransport::stop]), or the report sender after a failed send. *)
| exit_silent l f n b : exit_step (mk_exits l f n b) (mk_exits l false n (b || f)).

(** Where the report threads of Rtcp are in this protocol. *)
Definition sender_phase (p : sender_pc) (told : bool) : phase :=
  match p with SStore => Lower | SNotify => Announce | SDone => Done told | _ => Check_ end.
Definition receiver_phase (p : receiver_pc) (told : bool) : phase :=
  match p with RStore => Lower | RNotify => Announce | RDone => Done told | _ => Check_ end.

(** ** The transport *)

Inductive MediaTransportError :=
| BindingError (e : str)
| SocketConnectionError (e : str)
| TransportMapError (e : str)              (* [MapError] *)
| CloningSocketError (e : str)
| ConnectionNotStarted
| TransportConfigFailed                    (* [SocketConfigFailed] *)
| ProtectionError (e : str)
| ChannelSendError (e : str).

Definition show_transport_error (e : MediaTransportError) : str :=
  let q s e := lit "Error: " ++ [34] ++ lit s ++ e ++ [34] in
  match e with
  | BindingError e => q "Socket binding failed: "%string e
  | SocketConnectionError e => quoted "Socket connection failed" ++ lit ": " ++ e
  | TransportMapError e => e
  | CloningSocketError e => q "Socket clone failed: "%string e
  | ConnectionNotStarted => quoted "Connection not started yet"
  | TransportConfigFailed => quoted "Failed to configure socket"
  | ProtectionError e => q "Protection failed: "%string e
  | ChannelSendError e => q "Failed to send through channel: "%string e
  end.

(** Addresses are an ip and a port. *)
Record MediaTransport := mk_transport {
  rtp_address : str * Z;
  rtcp_address : str * Z;
  rtcp_handler : bool;                     (* there is one *)
  connected : bool;
  peers : option (str * Z) * option (str * Z)    (* where the two sockets are connected to *)
}.

(** [bind_rtp]: the address got on port 0; [bind_rtcp]: binding the next port. *)
Definition new (bind_rtp : result (str * Z) str) (bind_rtcp : str * Z -> result unit str) :
    result MediaTransport MediaTransportError :=
  let? rtp := map_err BindingError bind_rtp in
  let rtcp := (rtp.1, wrap 16 (rtp.2 + 1)) in
  let? _ := map_err BindingError (bind_rtcp rtcp) in
  Ok (mk_transport rtp rtcp false false (None, None)).

(** What starting meets. *)
Record start_io (E : Type) := mk_start {
  clone_for_dtls : result unit str;
  dtls_handshake : result unit str;
  connect_rtp : result unit str;
  connect_rtcp : result unit str;
  exported_key : result bytes str;
  show_srtp : SrtpError E -> str;
  clone_rtcp : result unit str;
  start_reports : result unit str * bool;        (* and the flag it leaves *)
  sender_clone : result unit str;
  sender_start : result unit str;
  receiver_clone : result unit str;
  receiver_new : result unit str;
  receiver_start : result unit str
}.
Arguments mk_start {E}.
Arguments clone_for_dtls {E}.
Arguments dtls_handshake {E}.
Arguments connect_rtp {E}.
Arguments connect_rtcp {E}.
Arguments exported_key {E}.
Arguments show_srtp {E}.
Arguments clone_rtcp {E}.
Arguments start_reports {E}.
Arguments sender_clone {E}.
Arguments sender_start {E}.
Arguments receiver_clone {E}.
Arguments receiver_new {E}.
Arguments receiver_start {E}.

Section Transport.
Context {E : Type} (io : start_io E).

Definition connect_sockets (rtp rtcp : str * Z) (t : MediaTransport) : result unit MediaTransportError * MediaTransport :=
  match connect_rtp io with
  | Err e => (Err (SocketConnectionError e), t)
  | Ok _ =>
      let t := mk_transport (rtp_address t) (rtcp_address t) (rtcp_handler t) (connected t) (Some rtp, (peers t).2) in
      match connect_rtcp io with
      | Err e => (Err (SocketConnectionError e), t)
      | Ok _ =>
          (Ok tt, mk_transport (rtp_address t) (rtcp_address t) (rtcp_handler t) (connected t) (Some rtp, Some rtcp))
      end
  end.

Definition generate_srtp_ctx : result SrtpContext MediaTransportError :=
  let? key_material := map_err (fun e => TransportMapError (lit "Key export failed: " ++ e)) (exported_key io) in
  map_err (fun e => TransportMapError (lit "SRTP context creation failed: " ++ show_srtp io e)) (Srtp.new key_material).

Definition initialize_report_handler (t : MediaTransport) : result unit MediaTransportError * MediaTransport :=
  match clone_rtcp io with
  | Err e => (Err (CloningSocketError e), t)
  | Ok _ =>
      let '(r, up) := start_reports io in
      let t := mk_transport (rtp_address t) (rtcp_address t) (rtcp_handler t) up (peers t) in
      match r with
      | Err e => (Err (TransportMapError e), t)
      | Ok _ => (Ok tt, mk_transport (rtp_address t) (rtcp_address t) true (connected t) (peers t))
      end
  end.

Definition start_srtp_sender : result unit MediaTransportError :=
  let? _ := map_err CloningSocketError (sender_clone io) in map_err TransportMapError (sender_start io).
Definition start_srtp_receiver : result unit MediaTransportError :=
  let? _ := map_err CloningSocketError (receiver_clone io) in
  let? _ := map_err TransportMapError (receiver_new io) in map_err TransportMapError (receiver_start io).

(** [spawn_rtp_threads]: whether this side is the DTLS client is what the two
    protection layers are started with. *)
Definition spawn_rtp_threads (role : DtlsSetupRole) (t : MediaTransport) : result bool MediaTransportError :=
  if negb (rtcp_handler t) then Err ConnectionNotStarted else
  let? _ := start_srtp_sender in
  let? _ := start_srtp_receiver in
  Ok (match role with Active => true | _ => false end).

(** [start]: the context the layers share and their direction. *)
Definition start (rtp rtcp : str * Z) (role : DtlsSetupRole) (t : MediaTransport) :
    result (SrtpContext * bool) MediaTransportError * MediaTransport :=
  match (let? _ := map_err CloningSocketError (clone_for_dtls io) in map_err TransportMapError (dtls_handshake io)) with
  | Err e => (Err e, t)
  | Ok _ =>
      let '(r, t) := connect_sockets rtp rtcp t in
      match r with
      | Err e => (Err e, t)
      | Ok _ =>
          match generate_srtp_ctx with
          | Err e => (Err e, t)
          | Ok ctx =>
              let '(r, t) := initialize_report_handler t in
              match r with
              | Err e => (Err e, t)
              | Ok _ => (let? is_client := spawn_rtp_threads role t in Ok (ctx, is_client), t)
              end
          end
      end
  end.
End Transport.

(** [stop]: the two timeouts, and the goodbye of the handler if its mutex is sound. *)
Definition stop (rtp_timeout rtcp_timeout : bool) (h : goodbye) (t : MediaTransport) :
    result unit MediaTransportError * MediaTransport :=
  let t' := mk_transport (rtp_address t) (rtcp_address t) (rtcp_handler t) false (peers t) in
  (if negb rtp_timeout then Err TransportConfigFailed
   else if negb rtcp_timeout then Err TransportConfigFailed
   else match (if rtcp_handler t then h else None) with
        | Some sent => map_err (fun e => TransportMapError (show_rtcp_error e)) (report_goodbye sent)
        | None => Ok tt
        end, t').

(** * Lemmas *)

(** ** The end of the call *)

Definition done_ (p : phase) : bool := match p with Done _ | Died => true | _ => false end.
Definition announcing (p : phase) : nat := match p with Done true => 1 | _ => 0 end.
(** Past the reading of a raised flag: it will announce, or has. *)
Definition committing (p : phase) : nat := match p with Lower | Announce | Done true => 1 | _ => 0 end.

Definition sum_of (w : phase -> nat) (l : list phase) : nat := foldr (fun p n => w p + n)%nat 0%nat l.
Definition announced_in : list phase -> nat := sum_of announcing.
Definition committed : list phase -> nat := sum_of committing.

(** While the flag is up nobody is past lowering it; once it is down somebody
    has announced the end, or is about to, or it was lowered silently; the count
    is that of the announcers. *)
Record exits_ok (s : exits) : Prop := mk_exits_ok {
  ok_up : flag s = true -> forall p, p ∈ phases s -> p = Check_ \/ p = Lower \/ p = Died;
  ok_down : flag s = false -> Announce ∈ phases s \/ Done true ∈ phases s \/ silenced s = true;
  ok_announced : announced_count s = announced_in (phases s)
}.

Lemma sum_insert w l i p q : l !! i = Some p -> (sum_of w (<[i := q]> l) + w p = sum_of w l + w q)%nat.
Proof.
  revert i. induction l as [|x l IH]; intros [|i] Hi; try done.
  - injection Hi as ->. change (<[0%nat := q]> (p :: l)) with (q :: l). cbn [sum_of foldr]. unfold sum_of. lia.
  - specialize (IH i Hi). change (<[S i := q]> (x :: l)) with (x :: <[i := q]> l). cbn [sum_of foldr]. unfold sum_of in *. lia.
Qed.

Lemma insert_elem (l : list phase) i p q x : l !! i = Some p -> x ∈ l -> x <> p -> x ∈ <[i := q]> l.
Proof.
  intros Hi Hx Hne. apply list_elem_of_lookup in Hx as [j Hj]. apply list_elem_of_lookup. exists j.
  rewrite list_lookup_insert_ne; [done|]. intros ->. congruence.
Qed.

Lemma insert_self (l : list phase) i p q : l !! i = Some p -> q ∈ <[i := q]> l.
Proof.
  intros Hi. apply list_elem_of_lookup. exists i. apply list_lookup_insert_eq. by eapply lookup_lt_Some.
Qed.

Lemma insert_elem_inv (l : list phase) i q x : x ∈ <[i := q]> l -> x = q \/ x ∈ l.
Proof.
  intros Hx. apply list_elem_of_lookup in Hx as [j Hj]. apply list_lookup_insert_Some in Hj as [(_ & -> & _)|[_ Hj]]; [by left|].
  right. apply list_elem_of_lookup. by exists j.
Qed.

Lemma exit_step_ok s s' : exit_step s s' -> exits_ok s -> exits_ok s'.
Proof.
  intros Hs [Hu Hd Ha]. destruct Hs as [i l f n b Hi|i l f n b Hi|i l f n b Hi|i l f n b Hi|l f n b];
    cbn [phases flag announced_count silenced] in *; unfold announced_in in *.
  - pose proof (sum_insert announcing l i Check_ (if f then Lower else Done false) Hi) as Hsum. split; cbn [phases flag announced_count silenced].
    + intros -> p Hp. apply insert_elem_inv in Hp as [->|Hp]; [by right; left|by apply Hu].
    + intros ->. destruct (Hd eq_refl) as [H|[H|H]]; [left|right; left|by right; right]; by apply (insert_elem _ _ Check_).
    + unfold announced_in. destruct f; cbn [announcing] in Hsum; lia.
  - pose proof (sum_insert announcing l i Lower Announce Hi) as Hsum. split; cbn [phases flag announced_count silenced].
    + done.
    + intros _. left. by eapply insert_self.
    + unfold announced_in. cbn [announcing] in Hsum. lia.
  - pose proof (sum_insert announcing l i Announce (Done true) Hi) as Hsum. split; cbn [phases flag announced_count silenced].
    + intros -> p Hp. exfalso. destruct (Hu eq_refl Announce) as [?|[?|?]]; [|done..]. by eapply list_elem_of_lookup_2.
    + intros _. right. left. by eapply insert_self.
    + unfold announced_in. cbn [announcing] in Hsum. lia.
  - pose proof (sum_insert announcing l i Check_ Died Hi) as Hsum. split; cbn [phases flag announced_count silenced].
    + intros -> p Hp. apply insert_elem_inv in Hp as [->|Hp]; [by right; right|by apply Hu].
    + intros ->. destruct (Hd eq_refl) as [H|[H|H]]; [left|right; left|by right; right]; by apply (insert_elem _ _ Check_).
    + unfold announced_in. cbn [announcing] in Hsum. lia.
  - split; cbn [phases flag announced_count silenced]; [done| |done]. intros _. destruct f; [by rewrite orb_true_r; right; right|].
    destruct (Hd eq_refl) as [H|[H|H]]; [by left|by right; left|right; right; by rewrite H].
Qed.

Lemma exit_steps_ok s s' : rtc exit_step s s' -> exits_ok s -> exits_ok s' /\ List.length (phases s') = List.length (phases s).
Proof.
  induction 1 as [s|s s1 s' Hs _ IH]; intros Hok; [done|]. destruct (IH (exit_step_ok _ _ Hs Hok)) as [Hok' Hl].
  split; [done|]. rewrite Hl. destruct Hs; cbn; by rewrite ?length_insert.
Qed.

(** Once the flag is down, who is committed stays so, and nobody else joins. *)
Lemma exit_step_committed s s' : exit_step s s' -> flag s = false -> flag s' = false /\ committed (phases s') = committed (phases s).
Proof.
  unfold committed. intros Hs Hf. destruct Hs as [i l f n b Hi|i l f n b Hi|i l f n b Hi|i l f n b Hi|l f n b]; cbn [phases flag] in *;
    [|..|done]; subst; (split; [done|]);
    match goal with |- sum_of _ (<[?i := ?q]> ?l) = _ => pose proof (sum_insert committing l i _ q Hi) as Hsum; cbn [committing] in Hsum; lia end.
Qed.

Lemma exit_steps_committed s s' : rtc exit_step s s' -> flag s = false -> flag s' = false /\ committed (phases s') = committed (phases s).
Proof.
  induction 1 as [s|s s1 s' Hs _ IH]; intros Hf; [done|]. destruct (exit_step_committed _ _ Hs Hf) as [Hf1 <-]. by apply IH.
Qed.

(** When all have ended, the committed ones have announced. *)
Lemma finished_committed l : Forall (fun p => done_ p = true) l -> announced_in l = committed l.
Proof.
  unfold announced_in, committed. induction 1 as [|p l Hp _ IH]; [done|]. cbn [sum_of foldr]. unfold sum_of in IH. rewrite IH.
  f_equal. by destruct p as [| | |[]|].
Qed.

(** How many threads were not stopped by a panic. *)
Definition surviving (p : phase) : nat := match p with Died => 0 | _ => 1 end.
Definition survivors : list phase -> nat := sum_of surviving.

Lemma announced_survivors l : (announced_in l <= survivors l)%nat.
Proof.
  unfold announced_in, survivors, sum_of. induction l as [|p l IH]; [done|]. cbn [foldr].
  assert (announcing p <= surviving p)%nat by (destruct p as [| | |[|]|]; cbn; lia). lia.
Qed.

Lemma survivors_length l : (survivors l <= List.length l)%nat.
Proof.
  unfold survivors, sum_of. induction l as [|p l IH]; [done|]. cbn [foldr List.length]. destruct p; cbn [surviving]; lia.
Qed.

Lemma survivors_died l : (forall p, p ∈ l -> p = Died) -> survivors l = 0%nat.
Proof.
  unfold survivors, sum_of. induction l as [|p l IH]; intros H; [done|]. cbn [foldr]. rewrite (H p) by elems. cbn [surviving].
  apply IH. intros q Hq. apply H. elems.
Qed.

Lemma exits_start k : exits_ok (mk_exits (replicate k Check_) true 0 false).
Proof.
  split; cbn [phases flag announced_count silenced].
  - intros _ p Hp. left. by apply elem_of_replicate in Hp as [-> _].
  - done.
  - unfold announced_in, sum_of. induction k as [|k IH]; [done|]. cbn. exact IH.
Qed.

Lemma sum_announcing_pos l : Done true ∈ l -> (1 <= announced_in l)%nat.
Proof.
  unfold announced_in, sum_of. induction l as [|p l IH]; [by intros ?%elem_of_nil|].
  intros [<-|Hin]%elem_of_cons; cbn [foldr]; [cbn [announcing]|specialize (IH Hin)]; lia.
Qed.

(** Every thread takes its step, one after the other. *)
Lemma all_step p q k f f' n n' :
  (forall j l, l !! j = Some p -> forall f0 n0, (f0 = f \/ f0 = f') ->
     exists f1 n1, (f1 = f') /\ n1 = (n0 + n')%nat /\ exit_step (mk_exits l f0 n0 false) (mk_exits (<[j := q]> l) f1 n1 false)) ->
  forall i, (i <= k)%nat ->
  exists f1, (i = 0%nat -> f1 = f) /\ (i <> 0%nat -> f1 = f') /\
  rtc exit_step (mk_exits (replicate k p) f n false) (mk_exits (replicate i q ++ replicate (k - i) p) f1 (n + i * n') false).
Proof.
  intros Hstep i. induction i as [|i IH]; intros Hi.
  - exists f. split_and!; try done. rewrite Nat.sub_0_r, Nat.add_0_r. apply rtc_refl.
  - destruct IH as (f1 & H0 & H1 & Hr); [lia|].
    assert (Hl : (replicate i q ++ replicate (k - i) p) !! i = Some p).
    { rewrite lookup_app_r by (rewrite length_replicate; lia). rewrite length_replicate, Nat.sub_diag.
      apply lookup_replicate_2. lia. }
    destruct (Hstep i _ Hl f1 (n + i * n')%nat) as (f2 & n2 & -> & -> & Hs).
    { destruct i; [left; by apply H0|right; by apply H1]. }
    exists f'. split_and!; [done|done|]. eapply rtc_r; [exact Hr|].
    assert (Hins : <[i := q]> (replicate i q ++ replicate (k - i) p) = replicate (S i) q ++ replicate (k - S i) p).
    { replace (k - i)%nat with (S (k - S i)) by lia. cbn [replicate]. rewrite insert_app_r_alt by (rewrite length_replicate; lia).
      rewrite length_replicate, Nat.sub_diag. change (<[0%nat := q]> (p :: replicate (k - S i) p)) with (q :: replicate (k - S i) p).
      transitivity ((replicate i q ++ [q]) ++ replicate (k - S i) p); [by rewrite <-app_assoc|]. by rewrite <-replicate_cons_app. }
    rewrite Hins in Hs. replace (n + S i * n')%nat with (n + i * n' + n')%nat by lia. exact Hs.
Qed.

(** All the threads check before any lowers the flag, then all announce. *)
Lemma all_announce k : exists s, rtc exit_step (mk_exits (replicate k Check_) true 0 false) s /\
  phases s = replicate k (Done true) /\ announced_count s = k.
Proof.
  destruct (all_step Check_ Lower k true true 0 0) with (i := k) as (f1 & H0 & H1 & R1); [|lia|].
  { intros j l Hj f0 n0 Hf. assert (f0 = true) as -> by (by destruct Hf). exists true, (n0 + 0)%nat. split_and!; try done.
    rewrite Nat.add_0_r. exact (exit_check j l true n0 false Hj). }
  assert (f1 = true) as -> by (destruct k; [by apply H0|by apply H1]).
  destruct (all_step Lower Announce k true false 0 0) with (i := k) as (f2 & H2 & H3 & R2); [|lia|].
  { intros j l Hj f0 n0 _. exists false, (n0 + 0)%nat. split_and!; try done. rewrite Nat.add_0_r. exact (exit_lower j l f0 n0 false Hj). }
  destruct (all_step Announce (Done true) k f2 f2 0 1) with (i := k) as (f3 & H4 & H5 & R3); [|lia|].
  { intros j l Hj f0 n0 Hf. exists f2, (n0 + 1)%nat. split_and!; try done.
    assert (f0 = f2) as -> by (by destruct Hf). rewrite Nat.add_1_r. exact (exit_announce j l f2 n0 false Hj). }
  rewrite Nat.sub_diag, app_nil_r, Nat.mul_0_r in *. rewrite Nat.mul_1_r in R3.
  eexists. split; [etransitivity; [exact R1|]; etransitivity; [exact R2|exact R3]|]. done.
Qed.

(** The flag is lowered silently before anybody reads it: nobody announces. *)
Lemma none_announce k : exists s, rtc exit_step (mk_exits (replicate k Check_) true 0 false) s /\
  phases s = replicate k (Done false) /\ announced_count s = 0%nat.
Proof.
  assert (Hrun : forall i, (i <= k)%nat -> rtc exit_step (mk_exits (replicate k Check_) false 0 true)
    (mk_exits (replicate i (Done false) ++ replicate (k - i) Check_) false 0 true)).
  { induction i as [|i IH]; intros Hi; [rewrite Nat.sub_0_r; apply rtc_refl|]. eapply rtc_r; [apply IH; lia|].
    replace (k - i)%nat with (S (k - S i)) by lia. cbn [replicate].
    assert (Hl : (replicate i (Done false) ++ Check_ :: replicate (k - S i) Check_) !! i = Some Check_).
    { rewrite lookup_app_r by (rewrite length_replicate; lia). by rewrite length_replicate, Nat.sub_diag. }
    pose proof (exit_check i _ false 0 true Hl) as Hs. cbv iota in Hs. rewrite insert_app_r_alt in Hs by (rewrite length_replicate; lia).
    rewrite length_replicate, Nat.sub_diag in Hs. cbn [insert list_insert] in Hs. rewrite (replicate_cons_app i), <-app_assoc. exact Hs. }
  eexists. split; [eapply rtc_l; [apply exit_silent|]; apply (Hrun k); lia|].
  rewrite Nat.sub_diag, app_nil_r. done.
Qed.

(** *** The report threads in it *)

Definition publishing (rp : receiver_pc) : Prop :=
  match rp with RPublish _ _ evs => List.filter ended evs = [] | _ => True end.

(** A step of the report threads is at most one step of the protocol, whatever
    the other announcing threads [l] do; [a], [b]: whether a thread that is done
    has announced. *)
Lemma report_thread_exits from_std limit silence poison t t' l n sil a b :
  thread_step from_std limit silence poison t t' -> publishing (receiver t) ->
  publishing (receiver t') /\
  exists m sil' a' b', rtc exit_step
    (mk_exits (sender_phase (sender t) a :: receiver_phase (receiver t) b :: l) (open t) n sil)
    (mk_exits (sender_phase (sender t') a' :: receiver_phase (receiver t') b' :: l) (open t') (n + m) sil') /\
    calls_ended t' = (calls_ended t + m)%nat.
Proof.
  intros Hs Hp. set (rest x y := sender_phase x a :: receiver_phase y b :: l).
  assert (Hstay : forall sp rp sp' rp' o, sender_phase sp a = sender_phase sp' a -> receiver_phase rp b = receiver_phase rp' b ->
    rtc exit_step (mk_exits (rest sp rp) o n sil) (mk_exits (rest sp' rp') o (n + 0) sil)).
  { intros sp rp sp' rp' o E1 E2. unfold rest. rewrite E1, E2, Nat.add_0_r. apply rtc_refl. }
  destruct Hs; cbn [receiver publishing sender open] in *; (split; [try done|]);
    rewrite ?calls_ended_app; unfold calls_ended; cbn [events ended List.filter List.length].
  - exists 0%nat, sil, a, b. split; [by apply Hstay; destruct o|done].
  - exists 0%nat, sil, a, b. split; [apply Hstay; [by destruct (gather_local_stats _ _) as [[]|]|done]|done].
  - exists 0%nat, sil, a, b. split; [apply Hstay; [by destruct (is_ok _)|done]|done].
  - exists 0%nat, sil, a, b. split; [by apply Hstay|lia].
  - exists 0%nat, (sil || o), a, b. split; [rewrite Nat.add_0_r; apply rtc_once, exit_silent|done].
  - exists 0%nat, sil, false, b. split; [|done]. rewrite Nat.add_0_r. eapply rtc_l; [by apply (exit_check 0)|]. destruct o; apply rtc_refl.
  - exists 0%nat, sil, a, b. split; [|done]. rewrite Nat.add_0_r. eapply rtc_once. by apply (exit_lower 0).
  - exists 1%nat, sil, true, b. split; [|lia]. rewrite Nat.add_1_r. eapply rtc_once. by apply (exit_announce 0).
  - by destruct (_ && _).
  - exists 0%nat, sil, a, b. split; [apply Hstay; [done|by destruct (_ && _)]|done].
  - destruct (try_receive_report_total from_std recv0 now t silence) as (res' & t'' & evs' & E & Hev).
    rewrite E in H. injection H as -> -> ->. by apply no_call_ended.
  - exists 0%nat, sil, a, b. split; [by apply Hstay|done].
  - by destruct res as [|[]].
  - exists 0%nat, sil, a, b. split; [apply Hstay; [done|by destruct res as [|[]]]|]. rewrite Hp. done.
  - by destruct o.
  - exists 0%nat, sil, a, false. split; [|done]. rewrite Nat.add_0_r. eapply rtc_l; [by apply (exit_check 1)|]. destruct o; apply rtc_refl.
  - exists 0%nat, sil, a, b. split; [|done]. rewrite Nat.add_0_r. eapply rtc_once. by apply (exit_lower 1).
  - exists 1%nat, sil, a, true. split; [|lia]. rewrite Nat.add_1_r. eapply rtc_once. by apply (exit_announce 1).
  - exists 0%nat, (sil || o), a, b. split; [rewrite Nat.add_0_r; apply rtc_once, exit_silent|done].
Qed.

Lemma report_threads_exits from_std limit silence poison t t' l n sil a b :
  rtc (thread_step from_std limit silence poison) t t' -> publishing (receiver t) ->
  exists m sil' a' b', rtc exit_step
    (mk_exits (sender_phase (sender t) a :: receiver_phase (receiver t) b :: l) (open t) n sil)
    (mk_exits (sender_phase (sender t') a' :: receiver_phase (receiver t') b' :: l) (open t') (n + m) sil') /\
    calls_ended t' = (calls_ended t + m)%nat.
Proof.
  intros Hs. revert n sil a b. induction Hs as [t|t t1 t' Hs _ IH]; intros n sil a b Hp.
  - exists 0%nat, sil, a, b. rewrite !Nat.add_0_r. split; [apply rtc_refl|done].
  - destruct (report_thread_exits _ _ _ _ _ _ l n sil a b Hs Hp) as (Hp1 & m & sil1 & a1 & b1 & R1 & E1).
    destruct (IH (n + m)%nat sil1 a1 b1 Hp1) as (m2 & sil2 & a2 & b2 & R2 & E2).
    exists (m + m2)%nat, sil2, a2, b2. rewrite Nat.add_assoc. split; [by etransitivity|lia].
Qed.

(** ** The sender's statistics *)

Definition sum_bytes (l : list bytes) : Z := foldr (fun p n => Z.of_nat (List.length p) + n) 0 l.

(** ** Starting *)

Definition io_ok {E} (io : start_io E) : bool :=
  is_ok (clone_for_dtls io) && is_ok (dtls_handshake io) && is_ok (connect_rtp io) && is_ok (connect_rtcp io) &&
  match exported_key io with Ok k => (60 <=? List.length k)%nat | Err _ => false end &&
  is_ok (clone_rtcp io) && is_ok (start_reports io).1 && is_ok (sender_clone io) && is_ok (sender_start io) &&
  is_ok (receiver_clone io) && is_ok (receiver_new io) && is_ok (receiver_start io).

(** Starting succeeds exactly when every step does. *)
Lemma start_succeeds {E} (io : start_io E) rtp rtcp role t :
  if io_ok io then
    exists key ctx, exported_key io = Ok key /\ @Srtp.new E key = Ok ctx /\
      start io rtp rtcp role t =
        (Ok (ctx, match role with Active => true | _ => false end),
         mk_transport (rtp_address t) (rtcp_address t) true (start_reports io).2 (Some rtp, Some rtcp))
  else is_ok (start io rtp rtcp role t).1 = false.
Proof.
  unfold io_ok, start, connect_sockets, generate_srtp_ctx, initialize_report_handler, spawn_rtp_threads, start_srtp_sender, start_srtp_receiver.
  destruct (clone_for_dtls io); [|done]. destruct (dtls_handshake io); [|done].
  destruct (connect_rtp io); [|done]. destruct (connect_rtcp io); [|done]. cbn [is_ok andb map_err rbind].
  destruct (exported_key io) as [k|]; [|done]. cbn [map_err rbind]. unfold Srtp.new.
  destruct (Nat.leb_spec 60 (List.length k)); destruct (Nat.ltb_spec (List.length k) 60); try lia; [|done]. cbn [andb map_err].
  destruct (clone_rtcp io); [|done]. destruct (start_reports io) as [[[]|] up]; [|done]. cbn [fst snd is_ok andb].
  cbn. destruct (sender_clone io); [|done]. destruct (sender_start io); [|done]. destruct (receiver_clone io); [|done].
  destruct (receiver_new io); [|done]. destruct (receiver_start io); [|done]. cbn.
  eexists k, _. split; [reflexivity|]. split; [|reflexivity]. by rewrite (proj2 (Nat.leb_gt _ _)) by lia.
Qed.

(** * Properties *)

(** C35: who announces the end of a call, in every interleaving.  Four threads
    end a call by reading the flag, lowering it and sending [CallEnded]: the RTP
    receiver, the report sender, the report receiver and the frame loop; the flag
    is also lowered without an announcement, by the hang-up and by the report
    sender after a failed send, and a panic may stop a thread in its loop.
    Take k such threads from a raised flag.  Once the flag is down, the number of
    announcements to come is settled: exactly the threads that had read it
    raised ([committed]) announce, whatever happens afterwards.  When all have
    ended, the end has been announced at most once per surviving thread; and if
    any survived, the flag is down, and it has been announced at least once
    unless somebody lowered the flag silently.  Both extremes are possible, for
    every k: all announce, because the reading and the lowering are two steps, and
    none does after a silent lowering.  The report threads of Rtcp, step by step
    and even with poisoned statistics, take part in it as two of the k. *)
Theorem call_end_announced k :
  let start := mk_exits (replicate k Check_) true 0 false in
  let finished s := Forall (fun p => done_ p = true) (phases s) in
  (forall s s', rtc exit_step start s -> flag s = false -> rtc exit_step s s' -> finished s' ->
     announced_count s' = committed (phases s)) /\
  (forall s, rtc exit_step start s -> finished s ->
     (announced_count s <= survivors (phases s) <= k)%nat /\
     ((0 < survivors (phases s))%nat -> flag s = false /\ (announced_count s = 0%nat -> silenced s = true))) /\
  (exists s, rtc exit_step start s /\ finished s /\ announced_count s = k) /\
  (exists s, rtc exit_step start s /\ finished s /\ announced_count s = 0%nat /\ survivors (phases s) = k) /\
  (forall from_std limit silence poison at_ t l,
     rtc (thread_step from_std limit silence poison) (spawned at_) t ->
     exists sil a b, rtc exit_step (mk_exits (Check_ :: Check_ :: l) true 0 false)
       (mk_exits (sender_phase (sender t) a :: receiver_phase (receiver t) b :: l) (open t) (calls_ended t) sil)).
Proof.
  intros start finished. split_and!.
  - intros s s' Hs Hf Hs' Hdone. destruct (exit_steps_ok _ _ Hs (exits_start k)) as [Hok _].
    destruct (exit_steps_ok _ _ Hs' Hok) as [[_ _ ->] _]. rewrite finished_committed by done. by apply exit_steps_committed.
  - intros s Hs Hdone. destruct (exit_steps_ok _ _ Hs (exits_start k)) as [[Hu Hd Ha] Hl]. cbn in Hl. rewrite length_replicate in Hl.
    pose proof (announced_survivors (phases s)). pose proof (survivors_length (phases s)).
    unfold finished in Hdone. rewrite Forall_forall in Hdone. split; [lia|]. intros Hsome.
    assert (Hf : flag s = false).
    { destruct (flag s); [|done]. rewrite survivors_died in Hsome; [lia|].
      intros p Hp. destruct (Hu eq_refl p Hp) as [->|[->|]]; [by specialize (Hdone _ Hp)..|done]. }
    split; [done|]. rewrite Ha. intros Hz. destruct (Hd Hf) as [H1|[H1|H1]]; [by specialize (Hdone _ H1)| |done].
    apply sum_announcing_pos in H1. lia.
  - destruct (all_announce k) as (s & Hr & Hp & Hc). exists s. split_and!; [done| |done].
    unfold finished. rewrite Hp. apply Forall_replicate. done.
  - destruct (none_announce k) as (s & Hr & Hp & Hc). exists s. split_and!; [done| |done|].
    + unfold finished. rewrite Hp. by apply Forall_replicate.
    + rewrite Hp. clear. unfold survivors, sum_of. induction k as [|k IH]; [done|]. cbn [replicate foldr]. by rewrite IH.
  - intros from_std limit silence poison at_ t l Ht.
    destruct (report_threads_exits _ _ _ _ _ _ l 0 false false false Ht I) as (m & sil & a & b & R & E).
    exists sil, a, b. rewrite E. exact R.
Qed.

(** What the sender thread reports.  With sound statistics, the datagrams
    it sends are the first ones of the channel, in order, all of them as long as
    the loop runs, and the statistics grow by exactly their number and their
    total length, at the widths of the counters. *)
Lemma sender_accounts turns m :
  Forall (fun t => s_stats t = true) turns -> fits 32 (packets_sent m) -> fits 64 (bytes_sent m) ->
  let '(l, m', ended) := sender_loop turns m in
  m' = mk_sender_stats (wrap 32 (packets_sent m + Z.of_nat (List.length l))) (wrap 64 (bytes_sent m + sum_bytes l)) /\
  (exists rest, omap s_packet turns = l ++ rest) /\ (ended = false -> omap s_packet turns = l).
Proof.
  intros Hst. revert m. induction Hst as [|t turns Ht Hst IH]; intros m Hp Hb; cbn [sender_loop].
  - cbn. rewrite !Z.add_0_r, !wrap_id by done. destruct m. split_and!; try done. by exists [].
  - assert (Hnone : mk_sender_stats (wrap 32 (packets_sent m + Z.of_nat 0)) (wrap 64 (bytes_sent m + 0)) = m)
      by (rewrite !Z.add_0_r, !wrap_id by done; by destruct m).
    destruct (negb (s_open t)); [split_and!; [done|by eexists|done]|].
    destruct (s_packet t) as [p|] eqn:Ep; [|split_and!; [done|by eexists|done]].
    unfold send_packet. destruct (negb (s_still_open t)); [split_and!; [done|by eexists|done]|].
    destruct (negb (s_sent t)); [split_and!; [done|by eexists|done]|]. rewrite Ht.
    specialize (IH (count_sent p m) ltac:(apply wrap_fits; lia) ltac:(apply wrap_fits; lia)).
    destruct (sender_loop turns (count_sent p m)) as [[l m'] ended]. destruct IH as (-> & (rest & Hr) & He).
    cbn [omap list_omap]. rewrite Ep. split_and!.
    + unfold count_sent, wrap. cbn [packets_sent bytes_sent List.length sum_bytes foldr]. rewrite !Zplus_mod_idemp_l.
      f_equal; f_equal; [lia|]. unfold sum_bytes. lia.
    + exists rest. cbn. by rewrite <-Hr.
    + intros E. by rewrite He.
Qed.

(** The two ends of the transport fit together.  When the steps of both
    starts succeed, the handshake gives both sides the same key material and the
    negotiated roles are complementary, both sides get the same context, write
    in opposite directions, each reads with the keys the other writes with, and
    the sockets are connected to the addresses asked for.  When a step fails,
    starting fails. *)
Lemma transport_pair {E} (ioa iob : start_io E) rtp_a rtcp_a rtp_b rtcp_b a b :
  io_ok ioa = true -> exported_key iob = exported_key ioa ->
  if io_ok iob then
    exists ctx ta tb, start ioa rtp_b rtcp_b Passive a = (Ok (ctx, false), ta) /\
      start iob rtp_a rtcp_a Active b = (Ok (ctx, true), tb) /\
      get_write_keys ctx true = get_read_keys ctx false /\ get_write_keys ctx false = get_read_keys ctx true /\
      peers ta = (Some rtp_b, Some rtcp_b) /\ peers tb = (Some rtp_a, Some rtcp_a)
  else is_ok (start iob rtp_a rtcp_a Active b).1 = false.
Proof.
  intros Ha Hkey. pose proof (start_succeeds ioa rtp_b rtcp_b Passive a) as Sa. rewrite Ha in Sa.
  pose proof (start_succeeds iob rtp_a rtcp_a Active b) as Sb. destruct (io_ok iob); [|done].
  destruct Sa as (ka & ca & Ea & Ca & ->), Sb as (kb & cb & Eb & Cb & ->).
  assert (ka = kb) as <- by congruence. assert (ca = cb) as <- by congruence.
  eexists _, _, _. split_and!; try reflexivity.
Qed.

(** A start that fails after the report handler leaves its threads running and
    the flag up. *)
Lemma failed_start_stays_up {E} (io : start_io E) rtp rtcp role t key ctx e :
  exported_key io = Ok key -> @Srtp.new E key = Ok ctx -> is_ok (clone_for_dtls io) = true -> is_ok (dtls_handshake io) = true ->
  is_ok (connect_rtp io) = true -> is_ok (connect_rtcp io) = true -> is_ok (clone_rtcp io) = true ->
  start_reports io = (Ok tt, true) -> sender_clone io = Err e ->
  let '(r, t') := start io rtp rtcp role t in r = Err (CloningSocketError e) /\ connected t' = true.
Proof.
  intros Hk Hc H1 H2 H3 H4 H5 H6 H7.
  unfold start, connect_sockets, generate_srtp_ctx, initialize_report_handler, spawn_rtp_threads, start_srtp_sender.
  destruct (clone_for_dtls io); [|done]. destruct (dtls_handshake io); [|done].
  destruct (connect_rtp io); [|done]. destruct (connect_rtcp io); [|done]. cbn [map_err rbind].
  rewrite Hk. cbn [map_err rbind]. rewrite Hc. cbn [map_err]. destruct (clone_rtcp io); [|done]. rewrite H6. cbn. by rewrite H7.
Qed.

(** * Witnesses *)

(** Two threads read the raised flag and both announce, though the call is hung up in between. *)
Lemma call_end_announced_witness :
  exists s s', rtc exit_step (mk_exits (replicate 4 Check_) true 0 false) s /\ silenced s = true /\ rtc exit_step s s' /\
    announced_count s' = 2%nat.
Proof.
  set (s := mk_exits [Lower; Check_; Lower; Check_] false 0 true).
  set (s' := mk_exits [Done true; Done false; Done true; Died] false 2 true).
  assert (R : rtc exit_step (mk_exits (replicate 4 Check_) true 0 false) s).
  { eapply rtc_l; [by apply (exit_check 0)|]. eapply rtc_l; [by apply (exit_check 2)|]. apply rtc_once, exit_silent. }
  assert (R' : rtc exit_step s s').
  { eapply rtc_l; [by apply (exit_lower 0)|]. eapply rtc_l; [by apply (exit_check 1)|]. eapply rtc_l; [by apply (exit_lower 2)|].
    eapply rtc_l; [by apply (exit_announce 2)|]. eapply rtc_l; [by apply (exit_die 3)|]. apply rtc_once. by apply (exit_announce 0). }
  exists s, s'. split_and!; [exact R|reflexivity|exact R'|].
  apply (proj1 (call_end_announced 4) s s' R eq_refl R'). repeat constructor.
Defined.
