(* ===== verification/Socket.v ===== *)
(** The trait behind which the media threads meet the network (src/tools/socket.rs)
    and its implementation for tests (src/tools/mock_socket.rs).

    Elsewhere a socket is the list of the outcomes of its calls.  Here it is a
    state with operations: the handshake of the report handler and the reads of
    the RTP receiver are written over [Socket] as the source writes them, and each
    is shown to be the one of Rtcp and RtpIo on the outcomes the socket gives
    ([handshake_outcomes], [receive_outcomes]).  The mock is a queue
    ([mock_receives], [mock_handshake]). *)

From S2P Require Import Prelude.
From S2P Require Import Text.
From S2P Require Import Rtcp.
From S2P Require Import RtpIo.

(** * Definitions *)

(** [std::io::Error], as far as the program looks at it. *)
Inductive IoError := WouldBlockError | OtherError (e : str).
Definition show_io_error (e : IoError) : str :=
  match e with WouldBlockError => lit "operation would block" | OtherError e => e end.

(** [recv_from] is given the length of the buffer and returns the part it fills.
    A clone is another handle on the same state, so [try_clone] only has an outcome. *)
Class Socket (T : Type) := {
  send : bytes -> T -> result nat IoError * T;
  recv_from : nat -> T -> result (bytes * str) IoError * T;
  set_read_timeout : option Z -> T -> result unit IoError * T;
  try_clone : T -> result unit IoError;
  recv_fits n s d a s' : recv_from n s = (Ok (d, a), s') -> (List.length d <= n)%nat
}.

(** ** The mock *)

(** What the clones share, each buffer behind its mutex. *)
Record MockSocket := mk_mock {
  data_to_receive : list bytes;
  sent_data : list bytes;
  receive_poisoned : bool;
  sent_poisoned : bool
}.

Definition new (data : list bytes) : MockSocket := mk_mock data [] false false.

Definition mock_send (buf : bytes) (m : MockSocket) : result nat IoError * MockSocket :=
  if sent_poisoned m then (Err (OtherError (lit "sent_data poisoned")), m) else
  (Ok (List.length buf), mk_mock (data_to_receive m) (sent_data m ++ [buf]) (receive_poisoned m) (sent_poisoned m)).

(** The address always parses. *)
Definition mock_recv_from (buf : nat) (m : MockSocket) : result (bytes * str) IoError * MockSocket :=
  if receive_poisoned m then (Err (OtherError (lit "data_to_receive poisoned")), m) else
  match data_to_receive m with
  | [] => (Err WouldBlockError, m)
  | packet :: data =>
      (Ok (take (Nat.min (List.length packet) buf) packet, lit "127.0.0.1:1234"),
       mk_mock data (sent_data m) (receive_poisoned m) (sent_poisoned m))
  end.

Definition mock_set_read_timeout (_ : option Z) (m : MockSocket) : result unit IoError * MockSocket := (Ok tt, m).
Definition mock_try_clone (_ : MockSocket) : result unit IoError := Ok tt.

Lemma mock_recv_fits n m d a m' : mock_recv_from n m = (Ok (d, a), m') -> (List.length d <= n)%nat.
Proof.
  unfold mock_recv_from. destruct (receive_poisoned m); [done|]. destruct (data_to_receive m); [done|].
  intros [= <- _ _]. rewrite length_take. lia.
Qed.

#[export] Instance mock_socket : Socket MockSocket :=
  { send := mock_send; recv_from := mock_recv_from; set_read_timeout := mock_set_read_timeout; try_clone := mock_try_clone;
    recv_fits := mock_recv_fits }.

(** ** The handshake over a socket *)

Section Drive.
Context {T} `{Socket T}.

(** [n] turns of the loop of [connection_handshake]. *)
Fixpoint handshake_turns (n : nat) (h : handshake) (s : T) : handshake * T :=
  match n, hs_phase h with
  | O, _ => (h, s)
  | S n, Waiting ready =>
      let '(r, s) := recv_from 1024 s in
      match r with
      | Err e => (mk_handshake (Failed (ReceiveFailed (show_io_error e))) (Rtcp.connected h), s)
      | Ok (d, _) =>
          match from_bytes d with
          | Ret (Some Hello) =>
              let '(r, s) := send (to_bytes Ready) s in
              match r with
              | Ok _ => handshake_turns n h s
              | Err e => (mk_handshake (Failed (SendFailed (show_io_error e))) (Rtcp.connected h), s)
              end
          | Ret (Some Ready) =>
              if ready then (mk_handshake Established (Rtcp.connected h), s) else
              let '(r, s) := send (to_bytes Ready) s in
              match r with
              | Ok _ => handshake_turns n (mk_handshake (Waiting true) true) s
              | Err e => (mk_handshake (Failed (SendFailed (show_io_error e))) (Rtcp.connected h), s)
              end
          | Ret (Some _) => (mk_handshake (Failed UnexpectedMessage) (Rtcp.connected h), s)
          | Ret None => handshake_turns n h s
          | Panic => (mk_handshake Panicked (Rtcp.connected h), s)
          end
      end
  | _, _ => (h, s)
  end.

Definition handshake_on (n : nat) (up : bool) (s : T) : handshake * T :=
  let '(r, s) := send (to_bytes Hello) s in
  match r with
  | Ok _ => handshake_turns n (mk_handshake (Waiting false) up) s
  | Err e => (mk_handshake (Failed (SendFailed (show_io_error e))) up, s)
  end.

(** [n] reads of [receive], with a buffer of [size] bytes; [flags]: what is read
    of the flag after each timeout; [h]: the goodbye said before an error. *)
Fixpoint receive_on (n size : nat) (flags : nat -> bool) (h : goodbye) (s : T) : option (result bytes RtpError) * T :=
  match n with
  | O => (None, s)
  | S n =>
      let '(r, s) := recv_from size s in
      match r with
      | Ok (d, _) => (Some (Ok d), s)
      | Err WouldBlockError => if flags n then receive_on n size flags h s else (Some (Err RtpConnectionClosed), s)
      | Err e => (Some (Err (say_goodbye h (RtpReceiveFailed (show_io_error e)))), s)
      end
  end.

End Drive.

(** * Lemmas *)

Section Outcomes.
Context {T} `{Socket T}.

Lemma received_fits n s d a s' : recv_from n s = (Ok (d, a), s') -> (n <= 1024)%nat -> received d = d.
Proof. intros E Hn. apply recv_fits in E. unfold received. apply take_ge. lia. Qed.

Lemma handshake_loop_ended turns h : (forall ready, hs_phase h <> Waiting ready) -> (handshake_loop turns h).1 = h.
Proof.
  intros Hh. induction turns as [|[r q] turns IH]; [done|]. cbn [handshake_loop]. unfold handshake_turn.
  destruct (hs_phase h) eqn:E; [by edestruct Hh| | |]; by destruct (handshake_loop turns h).
Qed.

(** A run on a socket is a run on the outcomes it gave. *)
Lemma turns_outcomes n h s :
  exists turns, (List.length turns <= n)%nat /\ (handshake_loop turns h).1 = (handshake_turns n h s).1.
Proof.
  revert h s. induction n as [|n IH]; intros h s; [by exists []|]. cbn [handshake_turns].
  destruct (hs_phase h) as [ready| | |] eqn:Eh; [|exists []; split; [cbn; lia|done] ..].
  destruct (recv_from 1024 s) as [[[d a]|e] s1] eqn:Er.
  2: { exists [(Err (show_io_error e), Ok tt)]. split; [cbn; lia|]. cbn [handshake_loop]. unfold handshake_turn. by rewrite Eh. }
  pose proof (received_fits _ _ _ _ _ Er (le_n _)) as Hd.
  assert (G : forall q h1 out s2, handshake_turn (Ok d) q h = (h1, out) ->
    exists turns, (List.length turns <= S n)%nat /\ (handshake_loop turns h).1 = (handshake_turns n h1 s2).1).
  { intros q h1 out s2 Et. destruct (IH h1 s2) as (turns & Hl & E). exists ((Ok d, q) :: turns). split; [cbn; lia|].
    cbn [handshake_loop]. rewrite Et. rewrite <-E. by destruct (handshake_loop turns h1). }
  assert (G1 : forall q h1, (handshake_turn (Ok d) q h).1 = h1 ->
    exists turns, (List.length turns <= S n)%nat /\ (handshake_loop turns h).1 = h1).
  { intros q h1 <-. exists [(Ok d, q)]. split; [cbn; lia|]. cbn [handshake_loop]. by destruct (handshake_turn _ _ _). }
  unfold handshake_turn in G, G1. rewrite Eh, Hd in G, G1.
  destruct (from_bytes d) as [[[]|]|]; try (by apply (G1 (Ok tt))); try (by eapply (G (Ok tt))).
  - destruct (send (to_bytes Ready) s1) as [[k|e] s2]; [by eapply (G (Ok tt))|by apply (G1 (Err (show_io_error e)))].
  - destruct ready; [by apply (G1 (Ok tt))|].
    destruct (send (to_bytes Ready) s1) as [[k|e] s2]; [by eapply (G (Ok tt))|by apply (G1 (Err (show_io_error e)))].
Qed.

Lemma handshake_outcomes n up s :
  exists first turns, (List.length turns <= n)%nat /\ (connection_handshake first turns up).1 = (handshake_on n up s).1.
Proof.
  unfold handshake_on. destruct (send (to_bytes Hello) s) as [[k|e] s1].
  - destruct (turns_outcomes n (mk_handshake (Waiting false) up) s1) as (turns & Hl & E). exists (Ok tt), turns. split; [done|].
    unfold connection_handshake. cbn [handshake_start]. rewrite <-E. by destruct (handshake_loop turns _).
  - exists (Err (show_io_error e)), []. split; [cbn; lia|done].
Qed.

(** What [receive] gets from a socket is what it makes of the outcomes. *)
Lemma receive_outcomes n size flags h s :
  exists l, (List.length l <= n)%nat /\ RtpIo.receive l = (receive_on n size flags h s).1.
Proof.
  revert s. induction n as [|n IH]; intros s; [by exists []|]. cbn [receive_on].
  destruct (recv_from size s) as [[[d a]|[|e]] s1].
  - exists [Datagram d]. split; [cbn; lia|done].
  - destruct (flags n) eqn:Ef.
    + destruct (IH s1) as (l & Hl & E). exists (WouldBlock true :: l). split; [cbn; lia|done].
    + exists [WouldBlock false]. split; [cbn; lia|done].
  - exists [Broken e h]. split; [cbn; lia|done].
Qed.

End Outcomes.

(** ** The mock is a queue *)

Fixpoint read_all {T} `{Socket T} (n size : nat) (s : T) : list (result bytes IoError) * T :=
  match n with
  | O => ([], s)
  | S n =>
      let '(r, s) := recv_from size s in
      let '(l, s) := read_all n size s in
      (match r with Ok (d, _) => Ok d | Err e => Err e end :: l, s)
  end.

(** It gives its packets in order, cut to the buffer, and then nothing. *)
Lemma mock_receives data k size sent :
  read_all (List.length data + k) size (mk_mock data sent false false) =
  (map (fun d => Ok (take size d)) data ++ replicate k (Err WouldBlockError), mk_mock [] sent false false).
Proof.
  induction data as [|d data IH].
  - cbn [List.length Nat.add map app]. induction k as [|k IHk]; [done|]. cbn [read_all recv_from mock_socket mock_recv_from data_to_receive receive_poisoned].
    by rewrite IHk.
  - cbn [List.length Nat.add read_all recv_from mock_socket mock_recv_from data_to_receive receive_poisoned sent_data sent_poisoned].
    rewrite IH. cbn [map app]. do 3 f_equal. rewrite <-take_take. by rewrite take_ge by (rewrite length_take; lia).
Qed.

(** ... and keeps what is sent, in order, for every handle on it. *)
Fixpoint send_all {T} `{Socket T} (l : list bytes) (s : T) : T :=
  match l with [] => s | b :: l => send_all l (send b s).2 end.

Lemma mock_sends l data sent : send_all l (mk_mock data sent false false) = mk_mock data (sent ++ l) false false.
Proof.
  revert sent. induction l as [|b l IH]; intros sent; [by rewrite app_nil_r|].
  cbn [send_all send mock_socket mock_send sent_poisoned snd data_to_receive sent_data receive_poisoned]. by rewrite IH, <-app_assoc.
Qed.

(** The handshake on a mock that plays the peer's part, and on one that is silent. *)
Example mock_handshake :
  handshake_on 3 false (new [to_bytes Hello; to_bytes Ready; to_bytes Ready]) =
    (mk_handshake Established true, mk_mock [] [to_bytes Hello; to_bytes Ready; to_bytes Ready] false false) /\
  (handshake_on 1 false (new [])).1 = mk_handshake (Failed (ReceiveFailed (lit "operation would block"))) false.
Proof. vm_compute. split; reflexivity. Qed.
