(* ===== verification/MediaLog.v ===== *)
(** The threads of the protection layers with what they log
    (src/transport/media_transport.rs, src/srtp/error.rs).

    Srtp has what these threads pass on; here each also leaves its lines in the
    log.  The packets are the same ([unprotection_log_packets]); the lines are
    not what they should be: a packet that is passed on is logged as one that
    could not be ([false_alarms]). *)

From S2P Require Import Prelude.
From S2P Require Import Text.
From S2P Require Import RtpPacket.
From S2P Require Import Srtp.
From S2P Require Import Logger.
From S2P Require Import RtpIo.

(** * Definitions *)

(** A call on the logger. *)
Abbreviation entry := (LogLevel * str)%type.

Section Threads.
Context {E : Type} (cipher : bytes -> bytes -> bytes -> bool -> result bytes E) (hmac : bytes -> bytes -> result bytes E).
(** Display of OpenSSL's error stack, and of a poisoned mutex. *)
Context (show_openssl : E -> str) (poison_text : str).

(** [impl Display for SrtpError] *)
Definition show_srtp_error (e : SrtpError E) : str :=
  match e with
  | KeyDerivationFailed => lit "Key derivation failed"
  | EncryptionFailed => lit "Encryption failed"
  | DecryptionFailed => lit "Decryption failed"
  | AuthenticationFailed => lit "Authentication failed"
  | PacketTooShort => lit "Packet too short"
  | OpenSslError e => lit "OpenSSL error: " ++ show_openssl e
  end.

(** [ctx]: the context behind its mutex, [None] when it is poisoned. *)
Definition unprotect_packet (ctx : option SrtpContext) (data : bytes) (is_client : bool) : result RtpPacket str :=
  let? srtp_ctx := ok_or ctx (lit "Lock failed: " ++ poison_text) in
  map_err show_srtp_error (unprotect cipher hmac srtp_ctx data is_client).

(** The argument of [map_err] is a block: it logs, and its value is the closure. *)
Definition send_unprotected_packet (sent : result unit str) : result unit MediaTransportError * list entry :=
  let logged := [(Error_, lit "Failed to send unprotected RTP packet")] in
  (map_err TransportMapError sent, logged).

Definition terminated : entry := (Info, lit "Unprotection layer thread terminated").

(** The unprotection thread: datagrams with the outcome of the send each would
    make, and whether the channel is closed after them; what it passes on and logs. *)
Fixpoint unprotection_thread (ctx : option SrtpContext) (is_client : bool) (l : list (bytes * result unit str)) (closed : bool)
    : list RtpPacket * list entry :=
  match l with
  | [] => ([], if closed then [terminated] else [])
  | (protected_data, sent) :: l =>
      match protected_data with
      | [] => unprotection_thread ctx is_client l closed
      | b :: _ =>
          if negb (is_rtp_packet b) then unprotection_thread ctx is_client l closed else
          match unprotect_packet ctx protected_data is_client with
          | Ok packet =>
              let '(r, logged) := send_unprotected_packet sent in
              match r with
              | Err _ => ([], logged ++ [terminated])
              | Ok _ =>
                  let '(packets, rest) := unprotection_thread ctx is_client l closed in
                  (packet :: packets, logged ++ rest)
              end
          | Err e => ([], [(Error_, lit "SRTP unprotect failed: " ++ e); terminated])
          end
      end
  end.

(** The protection thread; a poisoned mutex ends it without a line. *)
Fixpoint protection_thread (ctx : option SrtpContext) (is_client : bool) (l : list (RtpPacket * result unit str))
    : list bytes * list entry :=
  match l with
  | [] => ([], [])
  | (packet, sent) :: l =>
      match ctx with
      | None => ([], [])
      | Some srtp_ctx =>
          match protect cipher hmac srtp_ctx packet is_client with
          | Err e => ([], [(Error_, show_transport_error (ProtectionError (show_srtp_error e)))])
          | Ok data =>
              match sent with
              | Err e => ([], [(Error_, show_transport_error (ChannelSendError e))])
              | Ok _ => let '(out, logged) := protection_thread ctx is_client l in (data :: out, logged)
              end
          end
      end
  end.

(** * Lemmas *)

(** The threads pass on what those of Srtp do. *)
Lemma unprotection_log_packets ctx c is_client l closed :
  ctx = Some c \/ ctx = None ->
  (unprotection_thread ctx is_client l closed).1 =
  unprotection_layer cipher hmac c is_client (bool_decide (is_Some ctx)) ((fun ds => (ds.1, is_ok ds.2)) <$> l).
Proof.
  intros Hc. induction l as [|[d sent] l IH]; [done|]. cbn [unprotection_thread fmap list_fmap unprotection_layer fst snd].
  destruct d as [|b d]; [exact IH|]. destruct (negb (is_rtp_packet b)); [exact IH|]. unfold unprotect_packet.
  destruct Hc as [->| ->]; cbn [ok_or rbind] in *; [|done]. rewrite bool_decide_true in * by (by eexists). cbn [negb].
  destruct (unprotect cipher hmac c (b :: d) is_client) as [p|e]; [|done]. cbn [map_err].
  destruct sent as [[]|e]; [|done]. cbn [send_unprotected_packet map_err is_ok]. rewrite <-IH.
  by destruct (unprotection_thread _ _ _ _).
Qed.

Lemma protection_log_packets c is_client l :
  (protection_thread (Some c) is_client l).1 = protection_layer cipher hmac c is_client true ((fun ps => (ps.1, is_ok ps.2)) <$> l) /\
  ((protection_thread (Some c) is_client l).2 = [] <-> List.length (protection_thread (Some c) is_client l).1 = List.length l).
Proof.
  induction l as [|[p sent] l [IH1 IH2]]; [done|]. cbn [protection_thread fmap list_fmap protection_layer fst snd negb].
  destruct (protect cipher hmac c p is_client) as [d|e]; [|done]. destruct sent as [[]|e]; [|done]. cbn [is_ok]. rewrite <-IH1.
  destruct (protection_thread (Some c) is_client l) as [out logged]. cbn [fst snd List.length] in *. split; [done|]. rewrite IH2. lia.
Qed.

(** Whatever arrives, the thread logs a failed send for every packet it passes on. *)
Lemma alarms_for_packets ctx is_client l closed :
  exists last, (unprotection_thread ctx is_client l closed).2 =
    replicate (List.length (unprotection_thread ctx is_client l closed).1) (Error_, lit "Failed to send unprotected RTP packet") ++ last.
Proof.
  induction l as [|[d sent] l [last IH]]; [by eexists|]. cbn [unprotection_thread].
  destruct d as [|b d]; [by exists last|]. destruct (negb (is_rtp_packet b)); [by exists last|].
  destruct (unprotect_packet ctx (b :: d) is_client) as [p|e]; [|by eexists]. cbn [send_unprotected_packet].
  destruct sent as [[]|e]; cbn [map_err]; [|by eexists]. destruct (unprotection_thread ctx is_client l closed) as [packets rest].
  cbn [fst snd List.length] in *. exists last. cbn [replicate app]. by rewrite IH.
Qed.

End Threads.

(** * What the log of a call looks like *)

(** On a call without a fault the log fills with errors.  Every packet one
    side protects is passed on by the other side's unprotection thread, in order
    and unchanged; for each of them the thread logs, as an error, that it could
    not be sent, and nothing else, until the channel is closed. *)
Lemma false_alarms {E} cipher hmac (show_openssl : E -> str) poison_text c is_client ps ds closed :
  crypto_laws cipher hmac ->
  Forall2 (fun p d => wf p /\ version p = 2 /\ protect cipher hmac c p is_client = Ok d) ps ds ->
  unprotection_thread cipher hmac show_openssl poison_text (Some c) (negb is_client) ((fun d => (d, Ok tt)) <$> ds) closed =
  (ps, replicate (List.length ps) (Error_, lit "Failed to send unprotected RTP packet") ++ if closed then [terminated] else []).
Proof.
  intros Hl Hps. induction Hps as [|p d ps ds Hp Hps IH]; [by destruct closed|].
  pose proof (layer_delivers cipher hmac Hl c is_client [p] [d] ltac:(by constructor)) as H1.
  cbn [fmap list_fmap unprotection_layer unprotection_thread] in *. destruct d as [|b d]; [done|].
  destruct (negb (is_rtp_packet b)); [done|]. unfold unprotect_packet. cbn [ok_or rbind negb] in *.
  destruct (unprotect cipher hmac c (b :: d) (negb is_client)) as [q|e]; [|done]. injection H1 as ->.
  cbn [map_err send_unprotected_packet]. by rewrite IH.
Qed.

Example false_alarms_run :
  unprotection_thread toy_cipher toy_hmac (fun _ => []) [] (Some toy_ctx) false
    ((fun d => (d, Ok tt)) <$> protection_layer toy_cipher toy_hmac toy_ctx true true
      [(toy_packet 0 [1; 2], true); (toy_packet 1 [3], true)]) true =
  ([toy_packet 0 [1; 2]; toy_packet 1 [3]],
   [(Error_, lit "Failed to send unprotected RTP packet"); (Error_, lit "Failed to send unprotected RTP packet"); terminated]).
Proof.
  apply (false_alarms toy_cipher toy_hmac (fun _ => []) [] toy_ctx true [toy_packet 0 [1; 2]; toy_packet 1 [3]]); [exact toy_laws|].
  repeat constructor; try (vm_compute; congruence); reflexivity.
Qed.
