(* ===== verification/DataChannel.v ===== *)
(** Data channels over SCTP (src/sctp_transport/data_channel/dcep.rs, dc_type.rs,
    channel.rs, error.rs and the stream bookkeeping of src/sctp_transport/transport.rs):
    the DCEP messages, the open/acknowledge handshake, sending and receiving on a
    channel, stream identifiers and the adoption of an association.

    The SCTP library is a parameter: its payload identifiers and reliability
    types are the class [Sctp], an association, a handle and an event are
    section variables, and the outcomes of its calls are arguments.  A message
    handed out by the library is the function that reads it into a buffer of a
    given size.  Times are the readings of [elapsed()] in milliseconds. *)

From S2P Require Import Prelude.
From S2P Require Import Text.

(** * The library's types *)

Class Sctp := {
  Ppi : Type;                       (* PayloadProtocolIdentifier *)
  ppi_eq_dec :: EqDecision Ppi;
  Dcep : Ppi;
  Binary : Ppi;
  ppi_to_string : Ppi -> str;       (* its Display *)
  ReliabilityType : Type;
  sctp_reliable : ReliabilityType
}.

(** * DCEP messages *)

Inductive DataChannelType := Reliable.

Definition try_from (v : Z) : result DataChannelType unit :=
  if v =? 0 then Ok Reliable else Err tt.

Definition to_u8 (t : DataChannelType) : Z := match t with Reliable => 0 end.
Definition ordered (t : DataChannelType) : bool := match t with Reliable => true end.
Definition reliability_type `{Sctp} (t : DataChannelType) : ReliabilityType :=
  match t with Reliable => sctp_reliable end.

Inductive DCEPMessage :=
| DataChannelOpen (channel_type : DataChannelType) (priority reliability_parameter : Z) (label protocol : str)
| DataChannelAck.

(** [s.len() as u16] *)
Definition len_u16 (s : str) : Z := wrap 16 (Z.of_nat (List.length (utf8_encode s))).

Definition to_bytes (m : DCEPMessage) : bytes :=
  match m with
  | DataChannelOpen channel_type priority reliability_parameter label protocol =>
      [3] ++ [to_u8 channel_type] ++ to_be 2 priority ++ to_be 4 reliability_parameter ++
      to_be 2 (len_u16 label) ++ to_be 2 (len_u16 protocol) ++ utf8_encode label ++ utf8_encode protocol
  | DataChannelAck => [2]
  end.

(** The fields of a [DataChannelOpen] whose text ends at [label_end] and
    [protocol_end]. *)
Definition open_fields (data : bytes) (label_end protocol_end : nat) : comp (option DCEPMessage) :=
  let! b1 := Prelude.index data 1 in
  match try_from b1 with
  | Err _ => Ret None
  | Ok channel_type =>
      let!? priority := array_at 2 2 4 data in
      let!? reliability_parameter := array_at 4 4 8 data in
      let! label := slice 12 label_end data in
      match utf8_decode label with
      | None => Ret None
      | Some label =>
          let! protocol := slice label_end protocol_end data in
          match utf8_decode protocol with
          | None => Ret None
          | Some protocol =>
              Ret (Some (DataChannelOpen channel_type (from_be priority) (from_be reliability_parameter)
                label protocol))
          end
      end
  end.

Definition from_bytes (data : bytes) : comp (option DCEPMessage) :=
  match data with
  | [] => Ret None
  | tag :: _ =>
      if tag =? 3 then
        if (List.length data <? 12)%nat then Ret None else
        let!? label_len := array_at 2 8 10 data in
        let!? protocol_len := array_at 2 10 12 data in
        let label_end := (12 + Z.to_nat (from_be label_len))%nat in
        let protocol_end := (label_end + Z.to_nat (from_be protocol_len))%nat in
        if (List.length data <? protocol_end)%nat then Ret None else
        open_fields data label_end protocol_end
      else if tag =? 2 then Ret (Some DataChannelAck)
      else Ret None
  end.

(** * Channels *)

Inductive DataChannelError :=
| OpenError (e : str)
| ReadStreamError (e : str)
| OpenTimeout
| SendError (e : str)
| LockError (e : str)
| GetStreamError (e : str)
| ReadChunksError (e : str).

(** [Error: DETAIL] as [quoted], followed by the details. *)
Definition detailed (s : string) (e : str) : str := quoted s ++ lit ". Details: " ++ e.

Definition show_dc_error (e : DataChannelError) : str :=
  match e with
  | OpenError e => detailed "Failed to open data channel" e
  | OpenTimeout => detailed "Failed to open data channel" (lit "Timed out waiting for acknowledgement")
  | ReadStreamError e => detailed "Failed to read from data channel" e
  | SendError e => detailed "Failed to send to data channel" e
  | LockError e => detailed "Lock error" e
  | GetStreamError e => detailed "Failed to get stream" e
  | ReadChunksError e => detailed "Failed to read from chunks" e
  end.

Section Channel.
Context `{Sctp}.

(** Taking the association's lock, then [assoc.stream(id)]. *)
Record access := mk_access {
  lock : result unit str;
  get_stream : result unit str
}.

Definition with_stream {A} (acc : access) (k : result A DataChannelError) : result A DataChannelError :=
  let? _ := map_err LockError (lock acc) in
  let? _ := map_err GetStreamError (get_stream acc) in
  k.

(** The library's settings of a stream: their outcomes for the values asked. *)
Record stream_settings := mk_settings {
  set_default_payload_type : Ppi -> result unit str;
  set_reliability_params : bool -> ReliabilityType -> Z -> result unit str
}.

Definition configure_stream (acc : access) (st : stream_settings) (dc_type : DataChannelType)
    (reliability_param : Z) : result unit DataChannelError :=
  with_stream acc
    (let? _ := map_err OpenError (set_default_payload_type st Binary) in
     map_err OpenError
       (set_reliability_params st (ordered dc_type) (reliability_type dc_type) reliability_param)).

Definition send (acc : access) (write : result unit str) : result unit DataChannelError :=
  with_stream acc (map_err SendError write).

Definition write_with_ppi (acc : access) (write : result unit str) : result unit DataChannelError :=
  with_stream acc (map_err SendError write).

Definition write_dcep (acc : access) (write : result unit str) : result unit DataChannelError :=
  map_err (fun e => SendError (show_dc_error e)) (write_with_ppi acc write).

(** [Chunks]: one message, and what reading it into a buffer of [n] bytes
    gives: the bytes written at its start. *)
Record Chunks := mk_chunks {
  ppi : Ppi;
  read : nat -> result bytes str
}.

Definition read_chunks (acc : access) (r : result (option Chunks) str) :
    result (option Chunks) DataChannelError :=
  with_stream acc (map_err ReadStreamError r).

(** [recv] into a buffer of [n] bytes, on the outcomes of its calls of
    [read_chunks]; [None] while it is blocked. *)
Fixpoint recv (n : nat) (polls : list (result (option Chunks) DataChannelError)) :
    option (result bytes DataChannelError) :=
  match polls with
  | [] => None
  | Err e :: _ => Some (Err e)
  | Ok (Some chunks) :: _ => Some (map_err ReadChunksError (read chunks n))
  | Ok None :: polls => recv n polls
  end.

(** [ack_timed_out] and [open_timed_out] *)
Definition ack_timed_out (elapsed wait_timeout_millis : Z) : bool :=
  (wait_timeout_millis <? elapsed) && (0 <? wait_timeout_millis).
Definition open_timed_out (elapsed wait_timeout_millis : Z) : bool :=
  (wait_timeout_millis <? elapsed) && (0 <? wait_timeout_millis).

(** The zeroed 1024-byte buffer a DCEP message is read into, decoded whole. *)
Definition padded (d : bytes) : bytes := d ++ replicate (1024 - List.length d) 0.

(** [None] while the loop runs; otherwise its result, or a panic of the decoder. *)
Fixpoint wait_for_ack (timeout : Z) (turns : list (Z * result (option Chunks) DataChannelError)) :
    option (comp (result unit DataChannelError)) :=
  match turns with
  | [] => None
  | (elapsed, polled) :: turns =>
      if ack_timed_out elapsed timeout then Some (Ret (Err OpenTimeout)) else
      match polled with
      | Err e => Some (Ret (Err e))
      | Ok None => wait_for_ack timeout turns
      | Ok (Some chunks) =>
          if decide (ppi chunks = Dcep) then
            match read chunks 1024 with
            | Err e => Some (Ret (Err (ReadChunksError e)))
            | Ok d =>
                match from_bytes (padded d) with
                | Ret (Some DataChannelAck) => Some (Ret (Ok tt))
                | Ret _ => wait_for_ack timeout turns
                | Panic => Some Panic
                end
            end
          else wait_for_ack timeout turns
      end
  end.

Fixpoint wait_for_open (acc : access) (st : stream_settings) (timeout : Z)
    (turns : list (Z * result (option Chunks) DataChannelError)) :
    option (comp (result unit DataChannelError)) :=
  match turns with
  | [] => None
  | (elapsed, polled) :: turns =>
      if open_timed_out elapsed timeout then Some (Ret (Err OpenTimeout)) else
      match polled with
      | Err e => Some (Ret (Err e))
      | Ok None => wait_for_open acc st timeout turns
      | Ok (Some chunks) =>
          if decide (ppi chunks = Dcep) then
            match read chunks 1024 with
            | Err e => Some (Ret (Err (ReadChunksError e)))
            | Ok d =>
                match from_bytes (padded d) with
                | Ret (Some (DataChannelOpen channel_type _ reliability_parameter _ _)) =>
                    Some (Ret (configure_stream acc st channel_type reliability_parameter))
                | Ret _ => wait_for_open acc st timeout turns
                | Panic => Some Panic
                end
            end
          else wait_for_open acc st timeout turns
      end
  end.

(** The message [open] sends. *)
Definition open_message (label : str) : DCEPMessage :=
  DataChannelOpen Reliable 0 0 label (ppi_to_string Binary).

(** [open]: the result and the DCEP messages written. *)
Definition open (label : str) (acc : access) (st : stream_settings) (dc_type : DataChannelType)
    (reliability_param : Z) (write : result unit str) (timeout : Z)
    (turns : list (Z * result (option Chunks) DataChannelError)) :
    option (comp (result unit DataChannelError)) * list bytes :=
  match configure_stream acc st dc_type reliability_param with
  | Err e => (Some (Ret (Err e)), [])
  | Ok _ =>
      match write_dcep acc write with
      | Err e => (Some (Ret (Err e)), [])
      | Ok _ => (wait_for_ack timeout turns, [to_bytes (open_message label)])
      end
  end.

Definition from_accepted_stream (acc : access) (st : stream_settings) (write : result unit str)
    (timeout : Z) (turns : list (Z * result (option Chunks) DataChannelError)) :
    option (comp (result unit DataChannelError)) * list bytes :=
  match wait_for_open acc st timeout turns with
  | Some (Ret (Ok _)) =>
      match write_with_ppi acc write with
      | Err e => (Some (Ret (Err e)), [])
      | Ok _ => (Some (Ret (Ok tt)), [to_bytes DataChannelAck])
      end
  | o => (o, [])
  end.

End Channel.

(** * The transport that holds the channels *)

Inductive SCTPTransportError :=
| ConnectError (e : str)
| OpenStreamError (e : str)
| OpenDataChannelError (e : str)
| IOError (e : str)
| PoisonedLock (e : str)
| SocketConfigError (e : str)
| MapError (e : str).

Definition show_sctp_error (e : SCTPTransportError) : str :=
  match e with
  | ConnectError e => detailed "Failed to connect" e
  | OpenStreamError e => detailed "Failed to open stream" e
  | OpenDataChannelError e => e
  | IOError e => detailed "I/O operation failed" e
  | PoisonedLock e => quoted "Poisoned lock" ++ lit " . Details: " ++ e
  | SocketConfigError e => quoted "Failed to config socket" ++ lit " . Details: " ++ e
  | MapError e => e
  end.

Section Transport.
(** The library's associations, handles and association events. *)
Context {Association Handle AssocEvent : Type}.
Context (handle_event : AssocEvent -> Association -> Association).

Record SCTPTransport := mk_transport {
  association : Association;
  association_handle : option Handle;
  next_stream_id : Z                    (* StreamId, u16 *)
}.

Definition new (default : Association) : SCTPTransport := mk_transport default None 0.

(** The part of [connect] before the event loop starts: what [endpoint.connect]
    returned is used by the client only. *)
Definition connect (is_client : bool) (connected : result (Handle * Association) str) (s : SCTPTransport) :
    result SCTPTransport SCTPTransportError :=
  if is_client then
    let? r := map_err ConnectError connected in
    Ok (mk_transport r.2 (Some r.1) 1)
  else Ok s.

Inductive DatagramEvent :=
| AssociationEvent (e : AssocEvent)
| NewAssociation (a : Association).

(** [handle_incoming] on what [endpoint.handle] returned for the datagram. *)
Definition handle_incoming (r : option (Handle * DatagramEvent)) (s : SCTPTransport) : SCTPTransport :=
  match r with
  | None => s
  | Some (_, AssociationEvent e) =>
      mk_transport (handle_event e (association s)) (association_handle s) (next_stream_id s)
  | Some (h, NewAssociation a) =>
      match association_handle s with
      | None => mk_transport a (Some h) (next_stream_id s)
      | Some _ => s
      end
  end.

(** [open_data_channel] with the outcomes of [open_stream] and [DataChannel::open]
    for the identifier used; that identifier is the channel's. *)
Definition open_data_channel (open_stream : Z -> result unit str)
    (dc_open : Z -> result unit DataChannelError) (s : SCTPTransport) :
    result Z SCTPTransportError * SCTPTransport :=
  let id := next_stream_id s in
  match open_stream id with
  | Err e => (Err (OpenStreamError e), s)
  | Ok _ =>
      match dc_open id with
      | Err e => (Err (OpenDataChannelError (show_dc_error e)), s)
      | Ok _ => (Ok id, mk_transport (association s) (association_handle s) (wrap 16 (id + 2)))
      end
  end.

(** [accept_data_channel] on its turns: the flag read, the stream accepted and the
    outcome of [DataChannel::from_accepted_stream] for it; [None] while it polls. *)
Fixpoint accept_data_channel (turns : list (bool * option (Z * result unit DataChannelError))) :
    option (result Z SCTPTransportError) :=
  match turns with
  | [] => None
  | (connected, accepted) :: turns =>
      if connected then
        match accepted with
        | Some (id, Ok _) => Some (Ok id)
        | Some (_, Err e) => Some (Err (MapError (show_dc_error e)))
        | None => accept_data_channel turns
        end
      else Some (Err (ConnectError []))
  end.

(** The identifiers a transport gives to the channels it opens, successes and
    failures alike, over a sequence of calls. *)
Fixpoint opened (calls : list ((Z -> result unit str) * (Z -> result unit DataChannelError)))
    (s : SCTPTransport) : list Z :=
  match calls with
  | [] => []
  | (open_stream, dc_open) :: calls =>
      let '(r, s') := open_data_channel open_stream dc_open s in
      match r with Ok id => id :: opened calls s' | Err _ => opened calls s' end
  end.

End Transport.
Arguments SCTPTransport : clear implicits.
Arguments DatagramEvent : clear implicits.

(** * Lemmas on messages *)

(** A text field the length of which fits its prefix. *)
Definition short (s : str) : Prop := is_str s /\ Z.of_nat (List.length (utf8_encode s)) < 65536.

Lemma len_u16_short s : short s -> Z.to_nat (from_be (to_be 2 (len_u16 s))) = List.length (utf8_encode s).
Proof.
  intros [_ Hs]. rewrite from_to_be_id by (apply wrap_fits; lia).
  unfold len_u16. rewrite wrap_id by (unfold fits; lia). lia.
Qed.

Ltac fields :=
  repeat first
    [ rewrite array_at_skip by (simpl; lia)
    | rewrite array_at_prefix by (simpl; lia)
    | rewrite slice_skip by (simpl; lia)
    | rewrite slice_prefix by (simpl; lia)
    | progress cbn [cbind] ].

Lemma open_fields_layout b1 pb rb lb qb L P rest :
  List.length pb = 2%nat -> List.length rb = 4%nat -> List.length lb = 2%nat -> List.length qb = 2%nat ->
  open_fields ([3; b1] ++ pb ++ rb ++ lb ++ qb ++ L ++ P ++ rest)
    (12 + List.length L) (12 + List.length L + List.length P) =
  match try_from b1 with
  | Err _ => Ret None
  | Ok t =>
      match utf8_decode L with
      | None => Ret None
      | Some label =>
          match utf8_decode P with
          | None => Ret None
          | Some protocol => Ret (Some (DataChannelOpen t (from_be pb) (from_be rb) label protocol))
          end
      end
  end.
Proof.
  intros H1 H2 H3 H4. unfold open_fields. change (Prelude.index _ 1) with (Ret b1). cbn [cbind].
  destruct (try_from b1) as [t|]; [|done]. fields.
  destruct (utf8_decode L); [|done]. fields. done.
Qed.

Lemma dcep_layout b1 pb rb lb qb L P rest :
  List.length pb = 2%nat -> List.length rb = 4%nat -> List.length lb = 2%nat -> List.length qb = 2%nat ->
  Z.to_nat (from_be lb) = List.length L -> Z.to_nat (from_be qb) = List.length P ->
  from_bytes ([3; b1] ++ pb ++ rb ++ lb ++ qb ++ L ++ P ++ rest) =
  open_fields ([3; b1] ++ pb ++ rb ++ lb ++ qb ++ L ++ P ++ rest)
    (12 + List.length L) (12 + List.length L + List.length P).
Proof.
  intros H1 H2 H3 H4 H5 H6. set (data := [3; b1] ++ _).
  assert (Hlen : List.length data = (12 + (List.length L + (List.length P + List.length rest)))%nat).
  { subst data. rewrite !length_app. simpl. lia. }
  assert (E8 : array_at 2 8 10 data = Ret (Some lb)) by (subst data; fields; done).
  assert (E10 : array_at 2 10 12 data = Ret (Some qb)) by (subst data; fields; done).
  unfold from_bytes. rewrite E8, E10, Hlen. subst data. cbn [app Z.eqb cbind].
  rewrite H5, H6. repeat (case_bool; try lia). done.
Qed.

(** Decoding ignores what follows the message, such as the zeroes of a buffer. *)
Lemma from_to_bytes m rest :
  (match m with
   | DataChannelOpen _ p r label protocol => fits 16 p /\ fits 32 r /\ short label /\ short protocol
   | DataChannelAck => True
   end) ->
  from_bytes (to_bytes m ++ rest) = Ret (Some m).
Proof.
  destruct m as [[] p r label protocol|]; [|done]. intros (Hp & Hr & Hl & Hpr).
  unfold to_bytes. rewrite <-!app_assoc.
  change ([3] ++ [to_u8 Reliable] ++ ?l) with ([3; 0] ++ l).
  rewrite dcep_layout by (rewrite ?length_to_be; try done; by apply len_u16_short).
  rewrite open_fields_layout by (by rewrite length_to_be). simpl try_from. cbv iota.
  destruct Hl, Hpr. rewrite !utf8_roundtrip by done. by rewrite !from_to_be_id.
Qed.

(** Every field of the wire format is checked before it is read. *)
Lemma dcep_bytes_total data : exists o, from_bytes data = Ret o.
Proof.
  unfold from_bytes. destruct data as [|tag data']; [eauto|]. set (data := tag :: data').
  destruct (tag =? 3); [|destruct (tag =? 2); eauto]. case_bool; [eauto|].
  rewrite !array_at_total by lia. cbn [cbind]. case_bool; [eauto|].
  unfold open_fields. destruct (index_ok data 1) as (b1 & -> & _); [lia|]. cbn [cbind].
  destruct (try_from b1); [|eauto]. rewrite !array_at_total by lia. cbn [cbind].
  rewrite slice_ok by lia. cbn [cbind]. case_match; [|eauto].
  rewrite slice_ok by lia. cbn [cbind]. case_match; eauto.
Qed.

(** * Lemmas on the handshake *)

Section ChannelLemmas.
Context `{Sctp}.

Definition turn := (Z * result (option Chunks) DataChannelError)%type.

(** A turn within the time limit that brings no DCEP message. *)
Definition idle (timeout : Z) (t : turn) : Prop :=
  ack_timed_out t.1 timeout = false /\
  (t.2 = Ok None \/ exists c, t.2 = Ok (Some c) /\ ppi c <> Dcep).

(** The library hands the message [d] out whole to a buffer that can hold it. *)
Definition holds (d : bytes) (c : Chunks) : Prop :=
  ppi c = Dcep /\ forall n, (List.length d <= n)%nat -> read c n = Ok d.

Lemma wait_for_ack_idle timeout pre rest :
  Forall (idle timeout) pre -> wait_for_ack timeout (pre ++ rest) = wait_for_ack timeout rest.
Proof.
  induction 1 as [|[e p] pre [Ht Hp] _ IH]; [done|]. simpl in *. rewrite Ht.
  destruct Hp as [->|(c & -> & Hc)]; [done|]. by rewrite decide_False.
Qed.

Lemma wait_for_open_idle acc st timeout pre rest :
  Forall (idle timeout) pre -> wait_for_open acc st timeout (pre ++ rest) = wait_for_open acc st timeout rest.
Proof.
  induction 1 as [|[e p] pre [Ht Hp] _ IH]; [done|]. simpl in *. unfold ack_timed_out in Ht.
  unfold open_timed_out. rewrite Ht. destruct Hp as [->|(c & -> & Hc)]; [done|]. by rewrite decide_False.
Qed.

Lemma open_message_length label :
  List.length (to_bytes (open_message label)) =
  (12 + (List.length (utf8_encode label) + List.length (utf8_encode (ppi_to_string Binary))))%nat.
Proof. unfold to_bytes, open_message. rewrite !length_app, !length_to_be. simpl. lia. Qed.

(** The settings both ends ask of their stream succeed. *)
Definition settable (st : stream_settings) (param : Z) : Prop :=
  set_default_payload_type st Binary = Ok tt /\ set_reliability_params st true sctp_reliable param = Ok tt.

Definition available : access := mk_access (Ok tt) (Ok tt).

Lemma configure_available st param : settable st param -> configure_stream available st Reliable param = Ok tt.
Proof. intros [E1 E2]. unfold configure_stream. simpl. by rewrite E1, E2. Qed.

(** C32: the opening handshake.  When each end is handed the other's message
    before its time limit, after any number of turns without one, [open]
    succeeds having sent one [DataChannelOpen], [from_accepted_stream] succeeds
    having answered one [DataChannelAck] and configured its stream as the
    opener's message asks (ordered, reliable, parameter 0); an end whose turns
    bring nothing before the limit fails with [OpenTimeout]. *)
Theorem channel_established label st_o param st_a t_o t_a pre_o pre_a e_o e_a c_o c_a rest_o rest_a :
  is_str label -> is_str (ppi_to_string Binary) ->
  (List.length (utf8_encode label) + List.length (utf8_encode (ppi_to_string Binary)) <= 1012)%nat ->
  settable st_o param -> settable st_a 0 ->
  Forall (idle t_o) pre_o -> Forall (idle t_a) pre_a ->
  holds (to_bytes DataChannelAck) c_o -> holds (to_bytes (open_message label)) c_a ->
  let opening := open label available st_o Reliable param (Ok tt) t_o (pre_o ++ (e_o, Ok (Some c_o)) :: rest_o) in
  let accepting := from_accepted_stream available st_a (Ok tt) t_a (pre_a ++ (e_a, Ok (Some c_a)) :: rest_a) in
  (opening = (Some (Ret (if ack_timed_out e_o t_o then Err OpenTimeout else Ok tt)),
     [to_bytes (open_message label)])) /\
  (accepting = if open_timed_out e_a t_a then (Some (Ret (Err OpenTimeout)), [])
     else (Some (Ret (Ok tt)), [to_bytes DataChannelAck])).
Proof.
  intros Hl Hb Hlen Ho Ha Hpo Hpa [Ko Ro] [Ka Ra] opening accepting. subst opening accepting. split.
  - unfold open. rewrite configure_available by done. simpl write_dcep. cbv iota.
    rewrite wait_for_ack_idle by done. simpl. destruct (ack_timed_out e_o t_o); [done|].
    rewrite decide_True, Ro by (done || simpl; lia). done.
  - unfold from_accepted_stream. rewrite wait_for_open_idle by done. cbn [wait_for_open].
    destruct (open_timed_out e_a t_a); [done|].
    rewrite decide_True, Ra by (rewrite ?open_message_length; done || lia).
    unfold padded. rewrite from_to_bytes.
    + unfold open_message. cbn -[configure_stream to_bytes]. by rewrite configure_available.
    + unfold open_message, short, fits. split_and!; done || lia.
Qed.

End ChannelLemmas.

(** A concrete library: two payload types, one reliability type. *)
#[local] Instance demo_sctp : Sctp :=
  { Ppi := bool; Dcep := true; Binary := false; ppi_to_string _ := lit "WebRTC Binary";
    ReliabilityType := unit; sctp_reliable := tt }.

Definition demo_settings : stream_settings := mk_settings (fun _ => Ok tt) (fun _ _ _ => Ok tt).
Definition demo_chunks (p : bool) (d : bytes) : Chunks :=
  mk_chunks p (fun n => if (List.length d <=? n)%nat then Ok d else Err (lit "short")).

Lemma demo_holds d : holds d (demo_chunks true d).
Proof. split; [done|]. intros n Hn. simpl. by case_bool; [|lia]. Qed.

Lemma channel_established_witness :
  let o := to_bytes (open_message (lit "notes.txt")) in
  open (lit "notes.txt") available demo_settings Reliable 7 (Ok tt) 100
    ([(3, Ok None); (5, Ok (Some (demo_chunks false [1; 2])))] ++ [(9, Ok (Some (demo_chunks true [2])))]) =
    (Some (Ret (Ok tt)), [o]) /\
  from_accepted_stream available demo_settings (Ok tt) 0 ([(8, Ok None)] ++ [(9, Ok (Some (demo_chunks true o)))]) =
    (Some (Ret (Ok tt)), [to_bytes DataChannelAck]).
Proof.
  apply (channel_established (lit "notes.txt") demo_settings 7 demo_settings 100 0
    [(3, Ok None); (5, Ok (Some (demo_chunks false [1; 2])))] [(8, Ok None)] 9 9 (demo_chunks true [2])
    (demo_chunks true (to_bytes (open_message (lit "notes.txt")))) [] []).
  - apply (bool_decide_unpack _). vm_compute. exact I.
  - apply (bool_decide_unpack _). vm_compute. exact I.
  - vm_compute. lia.
  - split; reflexivity.
  - split; reflexivity.
  - apply Forall_cons_2; [split; [reflexivity|left; reflexivity]|].
    apply Forall_cons_2; [|apply Forall_nil_2]. split; [reflexivity|]. right. eexists. split; [reflexivity|discriminate].
  - apply Forall_cons_2; [split; [reflexivity|left; reflexivity]|apply Forall_nil_2].
  - apply demo_holds.
  - apply demo_holds.
Defined.

(** * Stream identifiers *)

Section TransportLemmas.
Context {A H E : Type} (handle_event : E -> A -> A).

Lemma opened_parity calls (s : SCTPTransport A H) id :
  0 <= next_stream_id s -> id ∈ opened calls s -> id mod 2 = next_stream_id s mod 2.
Proof.
  revert s. induction calls as [|[os dc] calls IH]; intros s Hs; simpl; [by intros ?%elem_of_nil|].
  unfold open_data_channel. destruct (os (next_stream_id s)); [|by apply IH].
  destruct (dc (next_stream_id s)); [|by apply IH]. intros [->|Hin]%elem_of_cons; [done|].
  apply IH in Hin; simpl in *; [|apply wrap_fits; lia].
  rewrite Hin. unfold wrap. change (2 ^ 16) with (2 * 32768). rewrite Z.rem_mul_r by lia.
  rewrite (Z.mul_comm 2 (_ mod _)), Z.mod_add, Z.mod_mod by lia.
  rewrite <-(Z.mod_add (next_stream_id s) 1 2) by lia. by rewrite Z.mul_1_l.
Qed.

(** The client's channels and the server's never share an identifier, however
    many each opens. *)
Lemma stream_ids_apart calls_c calls_s (a : A) (h : H) (dflt : A) c s id :
  connect true (Ok (h, a)) (new dflt) = Ok c -> connect false (Ok (h, a)) (new dflt) = Ok s ->
  id ∈ opened calls_c c -> id ∈ opened calls_s s -> False.
Proof.
  intros [= <-] [= <-] H1%opened_parity H2%opened_parity; simpl in *; try lia. rewrite H1 in H2. done.
Qed.

(** Once adopted, an association and its handle stay: a datagram that would
    create another one is ignored. *)
Lemma association_kept r (s : SCTPTransport A H) h :
  association_handle s = Some h ->
  association_handle (handle_incoming handle_event r s) = Some h /\
  (forall h' a, r = Some (h', NewAssociation a) -> handle_incoming handle_event r s = s).
Proof. intros E0. destruct r as [[h' [e|a]]|]; simpl; rewrite ?E0; split; naive_solver. Qed.

End TransportLemmas.
