(* ===== verification/FileTransfer.v ===== *)
(** File transfer over data channels (src/file/file_metadata/metadata.rs,
    src/file/file_transferer/ftp_message.rs, transferer.rs, error.rs): the
    messages, the offer negotiation with its table of pending channels, and the
    sending and receiving workers.

    The outcomes of file and channel calls are arguments: [Ok d] of a read or a
    receive stands for the bytes put at the start of the buffer.  A worker that
    runs out of turns is still running.  Logging and sleeping are left out;
    dialling ([FileTransferer::new]) and the listener's loop are in Sctp. *)

From S2P Require Import Prelude.
From S2P Require Import JitterBuffer.
From S2P Require Import Text.
From S2P Require Import Sdp.
From S2P Require Import Events.

Definition FILE_CHUNK_SIZE : nat := 512.

(** * File metadata *)

Inductive FileMetadataError := MetadataError | NameError.

Definition show_metadata_error (e : FileMetadataError) : str :=
  match e with
  | MetadataError => quoted "Failed to obtain metadata from file"
  | NameError => quoted "Failed to obtain file name or invalid UTF-8"
  end.

(** [FileMetadata::from] on the file name of the path, when it has one in UTF-8,
    and on the length its metadata gives. *)
Definition metadata_from (name : option str) (len : result Z str) : result FileMetadata FileMetadataError :=
  let? name := ok_or name NameError in
  let? size := map_err (fun _ => MetadataError) len in
  Ok (mk_metadata size name).

Definition metadata_to_bytes (m : FileMetadata) : bytes :=
  to_be 8 (file_size m) ++ [wrap 8 (Z.of_nat (List.length (utf8_encode (file_name m))))] ++
  utf8_encode (file_name m).

Definition metadata_from_bytes (data : bytes) : comp (option FileMetadata) :=
  if (9 <=? List.length data)%nat then
    let! b := Prelude.index data 8 in
    let end_name := (9 + Z.to_nat b)%nat in
    if (List.length data <? end_name)%nat then Ret None else
    let!? size := array_at 8 0 8 data in
    let! name := slice 9 end_name data in
    Ret (match utf8_decode name with
         | Some name => Some (mk_metadata (from_be size) name)
         | None => None
         end)
  else Ret None.

(** * Messages *)

Inductive FTPMessage :=
| FileOffer (offer_id : Z) (file_metadata : FileMetadata)
| AcceptFile
| RejectFile
| FileChunk (payload : bytes)
| EndOfFile.

Definition to_bytes (m : FTPMessage) : bytes :=
  match m with
  | FileOffer offer_id file_metadata => [1] ++ to_be 4 offer_id ++ metadata_to_bytes file_metadata
  | AcceptFile => [2]
  | RejectFile => [3]
  | FileChunk payload => [4] ++ to_be 4 (wrap 32 (Z.of_nat (List.length payload))) ++ payload
  | EndOfFile => [5]
  end.

Definition from_bytes (data : bytes) : comp (option FTPMessage) :=
  match data with
  | [] => Ret None
  | tag :: _ =>
      if (tag =? 1) && (14 <=? List.length data)%nat then
        let!? offer_id := array_at 4 1 5 data in
        let! rest := slice_from 5 data in
        let!? file_metadata := metadata_from_bytes rest in
        Ret (Some (FileOffer (from_be offer_id) file_metadata))
      else if tag =? 2 then Ret (Some AcceptFile)
      else if tag =? 3 then Ret (Some RejectFile)
      else if (tag =? 4) && (5 <=? List.length data)%nat then
        let!? n := array_at 4 1 5 data in
        let payload_len := Z.to_nat (from_be n) in
        if (List.length data <? 5 + payload_len)%nat then Ret None else
        let! payload := slice 5 (5 + payload_len) data in
        Ret (Some (FileChunk payload))
      else if tag =? 5 then Ret (Some EndOfFile)
      else Ret None
  end.

Inductive FileTransfererError :=
| MapError (e : str)
| FileReadError (e : str)
| FileCreateError (e : str)
| UnexpectedIncomingMessage
| FileWriteError (e : str)
| ChannelSendError (e : str)
| UnknownIncomingMessage
| LockError (e : str)
| UnknownOfferId (id : Z).

Definition show_transfer_error (e : FileTransfererError) : str :=
  match e with
  | MapError e => e
  | FileReadError e => quoted "Error while reading a file" ++ lit ". Details: " ++ e
  | FileWriteError e => quoted "Error while writing a file" ++ lit ". Details: " ++ e
  | FileCreateError e => quoted "Error while creating a file" ++ lit ". Details: " ++ e
  | ChannelSendError e => quoted "DataChannel send failed" ++ lit ". Details: " ++ e
  | UnexpectedIncomingMessage => quoted "Unexpected Incoming Message"
  | UnknownIncomingMessage => quoted "Unknown Incoming Message"
  | LockError e => quoted "Lock error" ++ lit ". Details: " ++ e
  | UnknownOfferId id => quoted "Unknown offer id" ++ lit ". Details: " ++ show id
  end.

(** * The offer *)

(** The wait of [file_offer_accepted] for an answer; [None] while it waits. *)
Fixpoint await_answer (received : list (result bytes str)) : option (comp (result bool FileTransfererError)) :=
  match received with
  | [] => None
  | Err e :: _ => Some (Ret (Err (MapError e)))
  | Ok d :: received =>
      match from_bytes d with
      | Ret (Some RejectFile) => Some (Ret (Ok false))
      | Ret (Some AcceptFile) => Some (Ret (Ok true))
      | Ret _ => await_answer received
      | Panic => Some Panic
      end
  end.

(** The result and the messages sent. *)
Definition file_offer_accepted (offer_id : Z) (file_metadata : FileMetadata) (send : result unit str)
    (received : list (result bytes str)) : option (comp (result bool FileTransfererError)) * list bytes :=
  match send with
  | Err e => (Some (Ret (Err (ChannelSendError e))), [])
  | Ok _ => (await_answer received, [to_bytes (FileOffer offer_id file_metadata)])
  end.

(** * The sending worker *)

(** A turn of the loop: the flag, the outcome of the read into the 512-byte
    buffer, the outcome of the send. *)
Record send_turn := mk_send_turn {
  sender_connected : bool;
  read : result bytes str;
  chunk_sent : result unit str
}.

(** The loop: the messages sent, and whether it has ended. *)
Fixpoint send_loop (turns : list send_turn) : list bytes * bool :=
  match turns with
  | [] => ([], false)
  | t :: turns =>
      if sender_connected t then
        match read t with
        | Err _ => ([], true)
        | Ok [] => ([], true)
        | Ok payload =>
            match chunk_sent t with
            | Err _ => ([], true)
            | Ok _ => let '(msgs, ended) := send_loop turns in (to_bytes (FileChunk payload) :: msgs, ended)
            end
        end
      else ([], true)
  end.

(** The worker of an accepted offer: the loop, then the end-of-file message with
    the outcome of its send. *)
Definition send_accepted (turns : list send_turn) (eof_sent : result unit str) : list bytes :=
  let '(msgs, ended) := send_loop turns in
  if ended && is_ok eof_sent then msgs ++ [to_bytes EndOfFile] else msgs.

(** * The receiving worker *)

Record recv_turn := mk_recv_turn {
  receiver_connected : bool;
  channel_read : result bytes str;      (* [recv] into the 517-byte buffer *)
  written : result unit str
}.

Inductive recv_end := Receiving | Stopped | RecvPanicked.

(** [recv_file]: the bytes of the successful writes, the events sent, how it
    ended. *)
Fixpoint recv_file (offer_id : Z) (turns : list recv_turn) : bytes * list AppEvent * recv_end :=
  match turns with
  | [] => ([], [], Receiving)
  | t :: turns =>
      if receiver_connected t then
        match channel_read t with
        | Err _ => ([], [], Stopped)
        | Ok [] => ([], [], Stopped)
        | Ok d =>
            match from_bytes d with
            | Ret (Some (FileChunk payload)) =>
                match written t with
                | Err _ => ([], [], Stopped)
                | Ok _ =>
                    let '(file, evs, e) := recv_file offer_id turns in (payload ++ file, evs, e)
                end
            | Ret (Some EndOfFile) => ([], [FileDownloadCompleted offer_id], Stopped)
            | Ret _ => recv_file offer_id turns
            | Panic => ([], [], RecvPanicked)
            end
        end
      else ([], [], Stopped)
  end.

(** * The pending offers *)

Section Pending.
(** A data channel. *)
Context {DataChannel : Type}.

Record FileTransferer := mk_transferer {
  pending_data_channels : gmap Z DataChannel;
  pending_poisoned : bool;                      (* the mutex is poisoned *)
  next_offer_id : Z                             (* u32 *)
}.

(** [lock()?.remove(&offer_id).ok_or(UnknownOfferId)], with the text of a poison
    error. *)
Definition take_pending (poison_text : str) (offer_id : Z) (s : FileTransferer) :
    result DataChannel FileTransfererError * FileTransferer :=
  if pending_poisoned s then (Err (LockError poison_text), s) else
  (ok_or (pending_data_channels s !! offer_id) (UnknownOfferId offer_id),
   mk_transferer (delete offer_id (pending_data_channels s)) false (next_offer_id s)).

(** The result and the message sent on the channel taken. *)
Definition reject_file_offer (poison_text : str) (offer_id : Z) (send : DataChannel -> result unit str)
    (s : FileTransferer) : result unit FileTransfererError * option (DataChannel * bytes) * FileTransferer :=
  let '(r, s) := take_pending poison_text offer_id s in
  match r with
  | Err e => (Err e, None, s)
  | Ok dc =>
      match send dc with
      | Err e => (Err (MapError e), None, s)
      | Ok _ => (Ok tt, Some (dc, to_bytes RejectFile), s)
      end
  end.

Definition accept_file_offer (poison_text : str) (offer_id : Z) (send : DataChannel -> result unit str)
    (create : result unit str) (s : FileTransferer) :
    result unit FileTransfererError * option (DataChannel * bytes) * FileTransferer :=
  let '(r, s) := take_pending poison_text offer_id s in
  match r with
  | Err e => (Err e, None, s)
  | Ok dc =>
      match send dc with
      | Err e => (Err (MapError e), None, s)
      | Ok _ => (map_err FileCreateError create, Some (dc, to_bytes AcceptFile), s)
      end
  end.

(** [handle_incoming] on a new channel: it waits for an offer, files the channel
    and announces it.  [None] while it waits. *)
Fixpoint handle_incoming (poison_text : str) (dc : DataChannel) (event_sent : result unit str)
    (received : list (result bytes str)) (s : FileTransferer) :
    option (comp (result unit FileTransfererError)) * list AppEvent * FileTransferer :=
  match received with
  | [] => (None, [], s)
  | Err e :: _ => (Some (Ret (Err (FileReadError e))), [], s)
  | Ok d :: received =>
      match from_bytes d with
      | Ret (Some (FileOffer offer_id file_metadata)) =>
          if pending_poisoned s then (Some (Ret (Err (LockError poison_text))), [], s) else
          let s := mk_transferer (<[offer_id := dc]> (pending_data_channels s)) false (next_offer_id s) in
          match event_sent with
          | Err e => (Some (Ret (Err (ChannelSendError e))), [], s)
          | Ok _ => (Some (Ret (Ok tt)), [RemoteFileOffer offer_id file_metadata], s)
          end
      | Ret _ => handle_incoming poison_text dc event_sent received s
      | Panic => (Some Panic, [], s)
      end
  end.

(** The beginning of [send_file]: the offer's identifier and metadata, once the
    file is open, its metadata read and the channel open; the rest is the
    worker. *)
Definition send_file (opened : result unit str) (metadata : result FileMetadata FileMetadataError)
    (channel : FileMetadata -> result DataChannel str) (s : FileTransferer) :
    result (Z * FileMetadata * DataChannel) FileTransfererError * FileTransferer :=
  match
    (let? _ := map_err MapError opened in
     let? m := map_err (fun e => MapError (show_metadata_error e)) metadata in
     let? dc := map_err MapError (channel m) in
     Ok (next_offer_id s, m, dc))
  with
  | Err e => (Err e, s)
  | Ok r => (Ok r, mk_transferer (pending_data_channels s) (pending_poisoned s) (wrap 32 (next_offer_id s + 1)))
  end.

End Pending.
Arguments FileTransferer : clear implicits.

(** * Lemmas on messages *)

Definition metadata_fits (m : FileMetadata) : Prop :=
  fits 64 (file_size m) /\ is_str (file_name m) /\ (List.length (utf8_encode (file_name m)) < 256)%nat.

Definition message_fits (m : FTPMessage) : Prop :=
  match m with
  | FileOffer id meta => fits 32 id /\ metadata_fits meta
  | FileChunk p => (List.length p <= FILE_CHUNK_SIZE)%nat
  | _ => True
  end.

Lemma slice_whole lo hi (l : bytes) : lo = 0%nat -> hi = List.length l -> slice lo hi l = Ret l.
Proof. intros -> ->. rewrite slice_ok by lia. by rewrite Nat.sub_0_r, drop_0, take_ge. Qed.

Lemma metadata_layout sz b nm :
  List.length sz = 8%nat -> Z.to_nat b = List.length nm ->
  metadata_from_bytes (sz ++ [b] ++ nm) =
  Ret (match utf8_decode nm with Some name => Some (mk_metadata (from_be sz) name) | None => None end).
Proof.
  intros Hz Hb. unfold metadata_from_bytes. rewrite !length_app, Hz. change (List.length [b]) with 1%nat.
  rewrite (proj2 (Nat.leb_le _ _)) by lia. rewrite index_app_r, Hz by lia.
  change (Prelude.index _ (8 - 8)) with (Ret b). cbn [cbind]. rewrite Hb.
  rewrite (proj2 (Nat.ltb_ge _ _)) by lia. rewrite array_at_prefix by lia. cbn [cbind].
  do 2 rewrite slice_skip by (simpl; lia). by rewrite slice_whole by (simpl; lia).
Qed.

Lemma metadata_roundtrip m : metadata_fits m -> metadata_from_bytes (metadata_to_bytes m) = Ret (Some m).
Proof.
  intros (Hs & Hn & Hl). destruct m as [size name]. unfold metadata_to_bytes. simpl file_size in *.
  simpl file_name in *. rewrite wrap_id by width.
  rewrite metadata_layout by (rewrite ?length_to_be, ?Nat2Z.id; done).
  by rewrite utf8_roundtrip, from_to_be_id.
Qed.

Lemma offer_layout ib rest :
  List.length ib = 4%nat -> (9 <= List.length rest)%nat ->
  from_bytes ([1] ++ ib ++ rest) =
  (let!? m := metadata_from_bytes rest in Ret (Some (FileOffer (from_be ib) m))).
Proof.
  intros Hi Hr. unfold from_bytes. cbn [app].
  change (1 :: ib ++ rest) with ([1] ++ ib ++ rest). rewrite !length_app, Hi.
  rewrite (proj2 (Nat.leb_le _ _)) by (simpl; lia). cbn [Z.eqb Pos.eqb andb].
  rewrite array_at_skip, array_at_prefix by (simpl; lia). cbn [cbind].
  do 2 rewrite slice_from_skip by (simpl; lia). by rewrite slice_from_0 by (simpl; lia).
Qed.

Lemma chunk_layout nb p :
  List.length nb = 4%nat -> Z.to_nat (from_be nb) = List.length p ->
  from_bytes ([4] ++ nb ++ p) = Ret (Some (FileChunk p)).
Proof.
  intros Hn Hp. unfold from_bytes. cbn [app].
  change (4 :: nb ++ p) with ([4] ++ nb ++ p). rewrite !length_app, Hn.
  rewrite (proj2 (Nat.leb_le 5 _)) by (simpl; lia). cbn [Z.eqb Pos.eqb andb].
  rewrite array_at_skip, array_at_prefix by (simpl; lia). cbn [cbind]. rewrite Hp.
  rewrite (proj2 (Nat.ltb_ge _ _)) by (simpl; lia).
  do 2 rewrite slice_skip by (simpl; lia). by rewrite slice_whole by (simpl; lia).
Qed.

Lemma ftp_to_from m : message_fits m -> from_bytes (to_bytes m) = Ret (Some m).
Proof.
  destruct m as [id meta| | |p|]; try done.
  - intros [Hi Hm]. unfold to_bytes. rewrite offer_layout.
    + rewrite metadata_roundtrip by done. cbn [cbind]. by rewrite from_to_be_id.
    + apply length_to_be.
    + unfold metadata_to_bytes. rewrite !length_app, length_to_be. change (List.length [_]) with 1%nat. lia.
  - intros Hp. simpl in Hp. unfold FILE_CHUNK_SIZE in Hp. apply chunk_layout; [apply length_to_be|].
    rewrite from_to_be_id by (apply wrap_fits; lia). rewrite wrap_id by (unfold fits; lia). lia.
Qed.

(** Every message of a transfer fits the receiver's 517-byte buffer. *)
Lemma message_length m :
  message_fits m -> (List.length (to_bytes m) <= FILE_CHUNK_SIZE + 5)%nat.
Proof.
  destruct m as [id [sz nm]| | |p|]; try (simpl; lia); unfold to_bytes, metadata_to_bytes.
  - intros (_ & _ & _ & H). rewrite !length_app, !length_to_be. unfold FILE_CHUNK_SIZE. simpl in *. lia.
  - unfold message_fits, FILE_CHUNK_SIZE. intros H. rewrite !length_app, !length_to_be. simpl. lia.
Qed.

Lemma metadata_total data : exists o, metadata_from_bytes data = Ret o.
Proof.
  unfold metadata_from_bytes. case_bool; [|eauto].
  destruct (index_ok data 8) as (b & -> & _); [lia|]. cbn [cbind]. case_bool; [eauto|].
  rewrite array_at_total by lia. cbn [cbind]. rewrite slice_ok by lia. simpl. eauto.
Qed.

Lemma ftp_bytes_total data : exists o, from_bytes data = Ret o.
Proof.
  unfold from_bytes. destruct data as [|tag data']; [eauto|]. set (data := tag :: data').
  destruct ((tag =? 1) && _) eqn:E.
  - apply andb_true_iff in E as [_ E%Nat.leb_le].
    rewrite array_at_total by lia. cbn [cbind]. unfold slice_from. rewrite slice_ok by lia. cbn [cbind].
    edestruct metadata_total as [[m|] ->]; simpl; eauto.
  - destruct (tag =? 2); [eauto|]. destruct (tag =? 3); [eauto|].
    destruct ((tag =? 4) && _) eqn:E'; [|destruct (tag =? 5); eauto].
    apply andb_true_iff in E' as [_ E'%Nat.leb_le]. rewrite array_at_total by lia. cbn [cbind].
    destruct (Nat.ltb_spec (List.length data) (5 + Z.to_nat (from_be (take 4 (drop 1 data))))); [eauto|].
    rewrite slice_ok by lia. simpl. eauto.
Qed.

(** * Lemmas on the workers *)

(** The turn at which the sending loop ends. *)
Definition send_stops (t : send_turn) : Prop :=
  sender_connected t = false \/ (exists e, read t = Err e) \/ read t = Ok [] \/ (exists e, chunk_sent t = Err e).

(** A turn that sends the bytes it read. *)
Definition sends (t : send_turn) (p : bytes) : Prop :=
  sender_connected t = true /\ read t = Ok p /\ p <> [] /\ chunk_sent t = Ok tt.

Lemma send_loop_spec turns :
  exists ps, Forall2 sends (take (List.length ps) turns) ps /\
    send_loop turns = (map (fun p => to_bytes (FileChunk p)) ps,
      match turns !! List.length ps with Some _ => true | None => false end) /\
    (forall t, turns !! List.length ps = Some t -> send_stops t).
Proof.
  induction turns as [|t turns (ps & Hps & E & Hstop)]; [exists []; by split_and!|].
  simpl. destruct (sender_connected t) eqn:Ec;
    [|exists []; split; [by constructor|]; split; [done|]; intros ? [=<-]; by left].
  destruct (read t) as [[|b p]|e] eqn:Er;
    [exists []; split; [by constructor|]; split; [done|]; intros ? [=<-]; by right; right; left| |
     exists []; split; [by constructor|]; split; [done|]; intros ? [=<-]; right; left; eauto].
  destruct (chunk_sent t) as [[]|e] eqn:Es;
    [|exists []; split; [by constructor|]; split; [done|]; intros ? [=<-]; right; right; right; eauto].
  exists ((b :: p) :: ps). simpl. rewrite E. split_and!; try done.
  constructor; [|done]. by split_and!.
Qed.

(** A receiver's turn on the message [d], with the flag up and a disk that takes it. *)
Definition delivered (d : bytes) : recv_turn := mk_recv_turn true (Ok d) (Ok tt).

Lemma recv_file_chunk id p rest :
  (List.length p <= FILE_CHUNK_SIZE)%nat ->
  recv_file id (delivered (to_bytes (FileChunk p)) :: rest) =
  let '(file, evs, e) := recv_file id rest in (p ++ file, evs, e).
Proof. intros Hp. cbn [recv_file delivered receiver_connected channel_read]. by rewrite ftp_to_from. Qed.

Lemma recv_file_chunks id ps rest :
  Forall (fun p => (List.length p <= FILE_CHUNK_SIZE)%nat) ps ->
  recv_file id (map delivered (map (fun p => to_bytes (FileChunk p)) ps) ++ rest) =
  let '(file, evs, e) := recv_file id rest in (List.concat ps ++ file, evs, e).
Proof.
  induction 1 as [|p ps Hp _ IH]; [simpl; by destruct (recv_file id rest) as [[? ?] ?]|].
  cbn [map app]. rewrite recv_file_chunk, IH by done.
  destruct (recv_file id rest) as [[file evs] e]. simpl. by rewrite app_assoc.
Qed.

(** * Properties *)

(** C26: a transfer over a channel that delivers every message in order.  The
    sending worker sends the bytes of its first reads, one message each that fits
    the receiver's buffer, up to the first turn where the flag is down, the read
    fails or returns nothing, or the send fails; the receiving worker has then
    written exactly these bytes in order and, once the sender has stopped,
    announces the download as complete, once, whatever made the sender stop (a
    read error or a lost connection included). *)
Theorem file_transfer id turns rest :
  (forall t p, t ∈ turns -> read t = Ok p -> (List.length p <= FILE_CHUNK_SIZE)%nat) ->
  let msgs := send_accepted turns (Ok tt) in
  Forall (fun d => (List.length d <= FILE_CHUNK_SIZE + 5)%nat) msgs /\
  exists ps, Forall2 sends (take (List.length ps) turns) ps /\
    match turns !! List.length ps with
    | Some t => send_stops t /\
        recv_file id (map delivered msgs ++ rest) = (List.concat ps, [FileDownloadCompleted id], Stopped)
    | None =>
        recv_file id (map delivered msgs ++ rest) =
          let '(file, evs, e) := recv_file id rest in (List.concat ps ++ file, evs, e)
    end.
Proof.
  intros Hbuf msgs. destruct (send_loop_spec turns) as (ps & Hps & E & Hstop).
  assert (Hlen : Forall (fun p => (List.length p <= FILE_CHUNK_SIZE)%nat) ps).
  { apply Forall_forall. intros p Hp. apply list_elem_of_lookup in Hp as [i Hi].
    destruct (Forall2_lookup_r _ _ _ _ _ Hps Hi) as (t & Ht & _ & Hr & _).
    apply (Hbuf t); [|done]. apply list_elem_of_lookup. exists i. by apply lookup_take_Some in Ht as [? _]. }
  assert (Hm : msgs = map (fun p => to_bytes (FileChunk p)) ps ++
    match turns !! List.length ps with Some _ => [to_bytes EndOfFile] | None => [] end).
  { subst msgs. unfold send_accepted. rewrite E. destruct (turns !! List.length ps); simpl; [done|by rewrite app_nil_r]. }
  split.
  - rewrite Hm. apply Forall_app. split.
    + apply Forall_map. eapply Forall_impl; [exact Hlen|]. intros p Hp. by apply (message_length (FileChunk p)).
    + destruct (turns !! _); repeat apply Forall_cons_2; try apply Forall_nil_2. simpl. unfold FILE_CHUNK_SIZE. lia.
  - exists ps. split; [done|]. rewrite Hm, map_app, <-app_assoc, recv_file_chunks by done.
    destruct (turns !! List.length ps) eqn:Et; [|done]. split; [by apply Hstop|].
    simpl. by rewrite app_nil_r.
Qed.

(** A file of two chunks, the second read failing: the receiver is told the
    download is complete with the first chunk only. *)
Definition broken_read : list send_turn :=
  [mk_send_turn true (Ok [7; 8; 9]) (Ok tt); mk_send_turn true (Err (lit "I/O error")) (Ok tt)].

Lemma file_transfer_witness :
  recv_file 4 (map delivered (send_accepted broken_read (Ok tt)) ++ []) =
    ([7; 8; 9], [FileDownloadCompleted 4], Stopped).
Proof.
  destruct (file_transfer 4 broken_read []) as [_ (ps & Hps & H)].
  - intros t p Ht Hr. repeat apply elem_of_cons in Ht as [->|Ht]; try (injection Hr as <-; unfold FILE_CHUNK_SIZE; simpl; lia);
      [discriminate|by apply elem_of_nil in Ht].
  - destruct ps as [|p [|q ps]]; simpl in *.
    + destruct H as [[Hc|[[e He]|[Hr|[e Hs]]]] _]; discriminate.
    + inversion Hps as [|? ? ? ? (_ & Hr & _) _]. injection Hr as <-. destruct H as [_ H]. exact H.
    + inversion Hps as [|? ? ? ? _ Hps2]. inversion Hps2 as [|? ? ? ? (_ & Hr & _) _]. discriminate.
Defined.

(** * Lemmas on offers *)

(** Messages that are no answer, or no offer, are passed over. *)
Definition not_answer (d : bytes) : Prop :=
  from_bytes d <> Ret (Some AcceptFile) /\ from_bytes d <> Ret (Some RejectFile).
Definition not_offer (d : bytes) : Prop := forall id m, from_bytes d <> Ret (Some (FileOffer id m)).

Lemma await_answer_noise noise rest :
  Forall not_answer noise -> await_answer (map Ok noise ++ rest) = await_answer rest.
Proof.
  induction 1 as [|d noise [H1 H2] _ IH]; [done|]. simpl. rewrite IH.
  destruct (ftp_bytes_total d) as [o E]. rewrite E in *. by destruct o as [[]|].
Qed.

Section OfferLemmas.
Context {D : Type}.

Lemma handle_incoming_noise text (dc : D) sent noise rest s :
  Forall not_offer noise ->
  handle_incoming text dc sent (map Ok noise ++ rest) s = handle_incoming text dc sent rest s.
Proof.
  induction 1 as [|d noise H _ IH]; [done|]. simpl. rewrite IH.
  destruct (ftp_bytes_total d) as [o E]. specialize (H) as H'. unfold not_offer in H'. rewrite E in *.
  destruct o as [[]|]; try done. by edestruct H'.
Qed.

(** An offer and its answer.  [send_file] numbers the offers; the peer's
    [handle_incoming], whatever else the channel brings first, announces the
    offer with its number and metadata and files the channel under the number,
    in the place of an older channel of the same number; accepting (or
    rejecting) it takes that channel out of the table, leaving the others, and
    sends on it the message for which the offering side's wait returns true (or
    false), whatever it receives before; answering again, or answering a number
    not in the table, is [UnknownOfferId]. *)
Lemma offer_flow {DA} text (dc : D) noise noise' (a : FileTransferer DA) (b : FileTransferer D) m (dc_a : DA) id a' :
  metadata_fits m -> fits 32 (next_offer_id a) -> pending_poisoned b = false ->
  Forall not_offer noise -> Forall not_answer noise' ->
  send_file (Ok tt) (Ok m) (fun _ => Ok dc_a) a = (Ok (id, m, dc_a), a') ->
  next_offer_id a' = wrap 32 (id + 1) /\
  exists b', handle_incoming text dc (Ok tt)
      (map Ok (noise ++ (file_offer_accepted id m (Ok tt) []).2)) b =
      (Some (Ret (Ok tt)), [RemoteFileOffer id m], b') /\
    pending_data_channels b' = <[id := dc]> (pending_data_channels b) /\
    (forall accept create, exists b'' answer,
       (if accept : bool then accept_file_offer text id (fun _ => Ok tt) create b'
        else reject_file_offer text id (fun _ => Ok tt) b') =
         (if accept then map_err FileCreateError create else Ok tt, Some (dc, answer), b'') /\
       pending_data_channels b'' = delete id (pending_data_channels b) /\
       await_answer (map Ok (noise' ++ [answer])) = Some (Ret (Ok accept)) /\
       (forall other, pending_data_channels b'' !! other = None ->
          (accept_file_offer text other (fun _ => Ok tt) create b'').1 = (Err (UnknownOfferId other), None) /\
          (reject_file_offer text other (fun _ => Ok tt) b'').1 = (Err (UnknownOfferId other), None))).
Proof.
  intros Hm Hid Hp Hn Hn' [= <- <-]. split; [done|]. cbn [file_offer_accepted snd].
  rewrite map_app, handle_incoming_noise by done. cbn [map handle_incoming].
  rewrite ftp_to_from by done. rewrite Hp. eexists. split; [done|]. split; [done|].
  intros accept create. unfold accept_file_offer, reject_file_offer, take_pending. simpl.
  rewrite lookup_insert_eq. simpl.
  exists (mk_transferer (delete (next_offer_id a) (pending_data_channels b)) false (next_offer_id b)),
    (to_bytes (if accept then AcceptFile else RejectFile)).
  split; [by destruct accept; rewrite delete_insert_eq|]. split; [done|]. split.
  - rewrite map_app, await_answer_noise by done. by destruct accept.
  - intros other Ho. simpl in *. by rewrite Ho.
Qed.

End OfferLemmas.
