(* ===== verification/Sctp.v ===== *)
(** The SCTP transport at work (src/sctp_transport/transport.rs: connect and the
    event loop thread) and the file transferer dialled over it
    (src/file/file_transferer/transferer.rs: new, wait_for_incoming).

    The library (crate sctp-proto) is a parameter: the functions on its
    endpoints and associations that the loop calls.  What an iteration meets
    outside is its [io]: the datagram received, the clock, which lock
    acquisitions and which sends succeed.  The loops that poll the library until
    it has nothing more run on fuel; [iteration_returns] shows that they end when
    the library's queues are finite. *)

From S2P Require Import Prelude.
From S2P Require Import JitterBuffer.
From S2P Require Import Text.
From S2P Require Import SdpAttribute.
From S2P Require Import Sdp.
From S2P Require Import Events.
From S2P Require Import DataChannel.
From S2P Require Import FileTransfer.
From S2P Require Import Dtls.
From S2P Require Import Logger.

(** * Definitions *)

(** [while let Some(x) = poll() { act }] where every turn may first take a lock:
    [None] when out of fuel; [false]: the thread returned. *)
Fixpoint poll_loop {S X T : Type} (poll : nat -> S -> option X * S) (lock : nat -> bool)
    (act : nat -> X -> T -> bool * T) (fuel i : nat) (s : S) (t : T) : option (bool * S * T) :=
  match fuel with
  | O => None
  | Datatypes.S fuel =>
      if negb (lock i) then Some (false, s, t) else
      match poll i s with
      | (None, s) => Some (true, s, t)
      | (Some x, s) =>
          let '(ok, t) := act i x t in
          if ok then poll_loop poll lock act fuel (Datatypes.S i) s t else Some (false, s, t)
      end
  end.

Inductive Payload :=
| RawEncode (chunks : list bytes)
| OtherPayload.

(** The association's events, as the loop tells them apart, and what it does with
    them: a line in the log, or nothing. *)
Inductive LoopEvent :=
| StreamOpened | StreamFinished (id : Z) | StreamStopped (id : Z) | StreamAvailable | StreamOther
| AssociationConnected | AssociationLost (reason : str) | DatagramReceived.

Definition handle_event (e : LoopEvent) : option (LogLevel * str) :=
  match e with
  | StreamOpened => Some (Debug_, lit "SCTP Stream Opened")
  | StreamFinished id => Some (Debug_, lit "SCTP Stream Finished. Stream ID: " ++ show id)
  | StreamStopped id => Some (Warn, lit "SCTP Stream Stopped. Stream ID: " ++ show id)
  | StreamAvailable => Some (Debug_, lit "SCTP Stream Available")
  | StreamOther => None
  | AssociationConnected => Some (Info, lit "SCTP Association Connected")
  | AssociationLost reason => Some (Error_, lit "SCTP Association Lost. Reason: " ++ reason)
  | DatagramReceived => Some (Debug_, lit "SCTP Datagram Received")
  end.

(** What [recv_from] returns. *)
Inductive received :=
| Received (b : bytes)
| NothingYet                               (* WouldBlock or TimedOut *)
| ReceiveError.

(** Where a lock is taken. *)
Inductive site :=
| EndpointHandle | AssociationHandle | HandleRead | AssociationAdopt | HandleAdopt
| HandleCheck | AssociationMain | HandleEvent (i : nat) | EndpointEvent_ (i : nat)
| AssociationPoll (i : nat) | AssociationTransmit (i : nat) | EndpointTransmit (i : nat).

Record io := mk_io {
  recv_from : received;
  now : Z;                                 (* read before the receive *)
  clock : nat -> Z;                        (* read for every poll of a transmit *)
  lock_ok : site -> bool;
  sends : nat -> bool
}.

Section Loop.
Context {Endpoint Association Handle AssocEvent EndpointEvent Event : Type}.

Record Library := mk_sctp {
  endpoint_handle : bytes -> Endpoint -> option (Handle * @DatagramEvent Association AssocEvent) * Endpoint;
  assoc_event : AssocEvent -> Association -> Association;
  poll_timeout : Association -> option Z;
  handle_timeout : Z -> Association -> Association;
  poll_endpoint_event : Association -> option EndpointEvent * Association;
  endpoint_event : Handle -> EndpointEvent -> Endpoint -> Endpoint;
  poll_event : Association -> option Event * Association;
  poll_transmit : Z -> Association -> option Payload * Association;
  endpoint_transmit : Endpoint -> option Payload * Endpoint
}.

Context (lib : Library) (poison : str).

Record state := mk_state {
  endpoint : Endpoint;
  transport : SCTPTransport Association Handle
}.

(** [handle_incoming]: an association event goes to the association; a new
    association is adopted when there is none yet, its handle in a second lock. *)
Definition incoming (o : io) (b : bytes) (s : state) : result unit SCTPTransportError * state :=
  if negb (lock_ok o EndpointHandle) then (Err (PoisonedLock poison), s) else
  let '(r, e) := endpoint_handle lib b (endpoint s) in
  let tr := transport s in
  match r with
  | None => (Ok tt, mk_state e tr)
  | Some (_, AssociationEvent ev) =>
      if negb (lock_ok o AssociationHandle) then (Err (PoisonedLock poison), mk_state e tr)
      else (Ok tt, mk_state e (mk_transport (assoc_event lib ev (association tr)) (association_handle tr) (next_stream_id tr)))
  | Some (h, NewAssociation a) =>
      if negb (lock_ok o HandleRead) then (Err (PoisonedLock poison), mk_state e tr) else
      match association_handle tr with
      | Some _ => (Ok tt, mk_state e tr)
      | None =>
          if negb (lock_ok o AssociationAdopt) then (Err (PoisonedLock poison), mk_state e tr) else
          let tr := mk_transport a None (next_stream_id tr) in
          if negb (lock_ok o HandleAdopt) then (Err (PoisonedLock poison), mk_state e tr) else
          (Ok tt, mk_state e (mk_transport a (Some h) (next_stream_id tr)))
      end
  end.

(** [send_transmit]: the chunks of a raw payload in turn, up to the first that
    fails; [sent]: what the iteration has sent so far. *)
Fixpoint send_chunks (o : io) (chunks : list bytes) (sent : list bytes) : bool * list bytes :=
  match chunks with
  | [] => (true, sent)
  | c :: chunks => if sends o (List.length sent) then send_chunks o chunks (sent ++ [c]) else (false, sent)
  end.
Definition send_transmit (o : io) (p : Payload) (sent : list bytes) : bool * list bytes :=
  match p with RawEncode chunks => send_chunks o chunks sent | OtherPayload => (true, sent) end.

(** One association event for the endpoint, with the locks around it. *)
Definition forward_event (o : io) (h : option Handle) (i : nat) (ev : EndpointEvent) (e : Endpoint) : bool * Endpoint :=
  if negb (lock_ok o (HandleEvent i)) then (false, e) else
  match h with
  | None => (false, e)
  | Some h => if negb (lock_ok o (EndpointEvent_ i)) then (false, e) else (true, endpoint_event lib h ev e)
  end.

Definition with_association (a : Association) (s : state) : state :=
  mk_state (endpoint s) (mk_transport a (association_handle (transport s)) (next_stream_id (transport s))).

(** A timer that is due is handled. *)
Definition expire (n : Z) (a : Association) : Association :=
  match poll_timeout lib a with
  | Some time => if time <=? n then handle_timeout lib n a else a
  | None => a
  end.

(** The part of an iteration that runs once there is an association. *)
Definition drive (fuel : nat) (o : io) (s : state) : option (bool * state * list bytes) :=
  if negb (lock_ok o AssociationMain) then Some (false, s, []) else
  let h := association_handle (transport s) in
  let a := association (transport s) in
  let a := expire (now o) a in
  match poll_loop (fun _ => poll_endpoint_event lib) (fun _ => true) (forward_event o h) fuel 0 a (endpoint s) with
  | None => None
  | Some (ok, a, e) =>
      let s := mk_state e (transport (with_association a s)) in
      if negb ok then Some (false, s, []) else
      match poll_loop (fun _ => poll_event lib) (fun i => lock_ok o (AssociationPoll i)) (fun _ _ u => (true, u)) fuel 0 a tt with
      | None => None
      | Some (ok, a, _) =>
          let s := with_association a s in
          if negb ok then Some (false, s, []) else
          match poll_loop (fun i => poll_transmit lib (clock o i)) (fun i => lock_ok o (AssociationTransmit i))
                  (fun _ => send_transmit o) fuel 0 a [] with
          | None => None
          | Some (ok, a, sent) =>
              let s := with_association a s in
              if negb ok then Some (false, s, sent) else
              match poll_loop (fun _ => endpoint_transmit lib) (fun i => lock_ok o (EndpointTransmit i))
                      (fun _ => send_transmit o) fuel 0 e sent with
              | None => None
              | Some (ok, e, sent) => Some (ok, mk_state e (transport s), sent)
              end
          end
      end
  end.

(** One iteration: whether the loop goes on, the state, the datagrams sent. *)
Definition iteration (fuel : nat) (o : io) (s : state) : option (bool * state * list bytes) :=
  match (match recv_from o with
         | Received b => Some (incoming o b s).2
         | NothingYet => Some s
         | ReceiveError => None
         end) with
  | None => Some (false, s, [])
  | Some s =>
      if negb (lock_ok o HandleCheck) then Some (false, s, []) else
      match association_handle (transport s) with
      | None => Some (true, s, [])
      | Some _ => drive fuel o s
      end
  end.

(** The thread: the flag read before each iteration and what it meets. *)
Fixpoint event_loop (fuel : nat) (turns : list (bool * io)) (s : state) : option (state * list bytes) :=
  match turns with
  | [] => Some (s, [])
  | (connected, o) :: turns =>
      if negb connected then Some (s, []) else
      match iteration fuel o s with
      | None => None
      | Some (false, s, sent) => Some (s, sent)
      | Some (true, s, sent) =>
          match event_loop fuel turns s with
          | None => None
          | Some (s, rest) => Some (s, sent ++ rest)
          end
      end
  end.

End Loop.
Arguments Library : clear implicits.
Arguments state : clear implicits.

(** ** Dialling *)

Section Dial.
Context {Association Handle : Type} (poison : str).

(** The wait of [connect] for the end of the SCTP handshake: per turn whether the
    lock is sound and whether the association is still handshaking; [None] while
    it waits. *)
Fixpoint await_handshake (polls : list (bool * bool)) : option (result unit SCTPTransportError) :=
  match polls with
  | [] => None
  | (locked, handshaking) :: polls =>
      if negb locked then Some (Err (PoisonedLock poison))
      else if handshaking then await_handshake polls else Some (Ok tt)
  end.

(** The client's part of [connect]: the association dialled replaces the
    transport's own, and its channels get odd identifiers. *)
Definition dial_client (endpoint_lock : bool) (dialled : result (Handle * Association) str) (handle_lock : bool)
    (s : SCTPTransport Association Handle) : result unit SCTPTransportError * SCTPTransport Association Handle :=
  if negb endpoint_lock then (Err (PoisonedLock poison), s) else
  match dialled with
  | Err e => (Err (ConnectError e), s)
  | Ok (h, a) =>
      if negb handle_lock then (Err (PoisonedLock poison), s)
      else (Ok tt, mk_transport a (Some h) 1)
  end.

(** [connect]; the state it leaves is the one the event loop is started with. *)
Definition dial (is_client : bool) (endpoint_lock : bool) (dialled : result (Handle * Association) str) (handle_lock : bool)
    (timeout_set : result unit str) (polls : list (bool * bool)) (s : SCTPTransport Association Handle) :
    option (result unit SCTPTransportError) * SCTPTransport Association Handle :=
  let '(r, s) := if is_client then dial_client endpoint_lock dialled handle_lock s else (Ok tt, s) in
  match (let? _ := r in map_err SocketConfigError timeout_set) with
  | Err e => (Some (Err e), s)
  | Ok _ => (await_handshake polls, s)
  end.

(** [FileTransferer::new]: what binding, the DTLS socket and [connect] gave;
    [None] while it is still connecting. *)
Definition new_transferer {DC Stream} (local_setup_role : DtlsSetupRole) (bound : result unit str)
    (socket : comp (result (DtlsSocket Stream) DtlsError))
    (connected : bool -> option (result unit SCTPTransportError) * SCTPTransport Association Handle) :
    comp (option (result (FileTransferer DC * SCTPTransport Association Handle) FileTransfererError)) :=
  let is_client := match local_setup_role with Active => true | _ => false end in
  match bound with
  | Err e => Ret (Some (Err (MapError e)))
  | Ok _ =>
      let! socket := socket in
      match socket with
      | Err e => Ret (Some (Err (MapError (show_dtls_error e))))
      | Ok _ =>
          match connected is_client with
          | (None, _) => Ret None
          | (Some (Err e), _) => Ret (Some (Err (MapError (show_sctp_error e))))
          | (Some (Ok _), tr) => Ret (Some (Ok (mk_transferer ∅ false 0, tr)))
          end
      end
  end.

End Dial.

(** ** Waiting for offers *)

(** One turn of the listener: the flag, the channel accepted ([None]: none yet),
    what it receives, the event sender. *)
Record listen_turn (DC : Type) := mk_listen_turn {
  l_connected : bool;
  l_accepted : option (result DC SCTPTransportError);
  l_received : list (result bytes str);
  l_event : result unit str
}.
Arguments mk_listen_turn {DC}.
Arguments l_connected {DC}.
Arguments l_accepted {DC}.
Arguments l_received {DC}.
Arguments l_event {DC}.

(** The thread of [wait_for_incoming]: the events it sends, the table it leaves,
    and whether it has ended. *)
Fixpoint wait_for_incoming {DC} (poison : str) (turns : list (listen_turn DC)) (s : FileTransferer DC) :
    list AppEvent * FileTransferer DC * bool :=
  match turns with
  | [] => ([], s, false)
  | t :: turns =>
      if negb (l_connected t) then ([], s, true) else
      match l_accepted t with
      | None => ([], s, false)
      | Some (Err _) => wait_for_incoming poison turns s
      | Some (Ok dc) =>
          let '(r, events, s) := FileTransfer.handle_incoming poison dc (l_event t) (l_received t) s in
          match r with
          | None => (events, s, false)
          | Some (Ret (Ok _)) =>
              let '(rest, s, ended) := wait_for_incoming poison turns s in (events ++ rest, s, ended)
          | Some _ => (events, s, true)
          end
      end
  end.

(** * Lemmas *)

(** ** Polling *)

(** The values polled until there are no more. *)
Inductive polled {S X : Type} (poll : nat -> S -> option X * S) : nat -> S -> list X -> S -> Prop :=
| polled_nil i s s' : poll i s = (None, s') -> polled poll i s [] s'
| polled_cons i s x s1 l s2 :
    poll i s = (Some x, s1) -> polled poll (Datatypes.S i) s1 l s2 -> polled poll i s (x :: l) s2.

(** A queue: polling it takes something out. *)
Definition finite_queue {S X : Type} (poll : S -> option X * S) : Prop :=
  exists m : S -> nat, forall s x s', poll s = (Some x, s') -> (m s' < m s)%nat.

Section Polling.
Context {S X T : Type} (poll : nat -> S -> option X * S).
Context (m : S -> nat) (Hm : forall i s x s', poll i s = (Some x, s') -> (m s' < m s)%nat).

Lemma poll_loop_returns lock (act : nat -> X -> T -> bool * T) i s t :
  exists r, forall fuel, (m s < fuel)%nat -> poll_loop poll lock act fuel i s t = Some r.
Proof.
  remember (m s) as k eqn:Ek. revert i s t Ek. induction (lt_wf k) as [k _ IH]. intros i s t ->.
  destruct (lock i) eqn:El.
  - destruct (poll i s) as [[x|] s1] eqn:Ep.
    + destruct (act i x t) as [[|] t1] eqn:Ea.
      * pose proof (Hm _ _ _ _ Ep) as Hlt. destruct (IH _ Hlt (Datatypes.S i) s1 t1 eq_refl) as [r Hr]. exists r.
        intros fuel Hf. destruct fuel as [|fuel]; [lia|]. cbn [poll_loop]. rewrite El, Ep, Ea. cbn [negb]. apply Hr. lia.
      * exists (false, s1, t1). intros fuel Hf. destruct fuel; [lia|]. cbn [poll_loop]. by rewrite El, Ep, Ea.
    + exists (true, s1, t). intros fuel Hf. destruct fuel; [lia|]. cbn [poll_loop]. by rewrite El, Ep.
  - exists (false, s, t). intros fuel Hf. destruct fuel; [lia|]. cbn [poll_loop]. by rewrite El.
Qed.

(** When every turn succeeds, everything is polled and acted on in order. *)
Lemma poll_loop_all lock (act : nat -> X -> T -> bool * T) (f : X -> T -> T) i s t :
  (forall j, lock j = true) -> (forall j x u, act j x u = (true, f x u)) ->
  exists l s', polled poll i s l s' /\
    forall fuel, (m s < fuel)%nat -> poll_loop poll lock act fuel i s t = Some (true, s', foldl (fun u x => f x u) t l).
Proof.
  intros Hl Ha. remember (m s) as k eqn:Ek. revert i s t Ek. induction (lt_wf k) as [k _ IH]. intros i s t ->.
  destruct (poll i s) as [[x|] s1] eqn:Ep.
  - pose proof (Hm _ _ _ _ Ep) as Hlt. destruct (IH _ Hlt (Datatypes.S i) s1 (f x t) eq_refl) as (l & s' & Hp & Hr).
    exists (x :: l), s'. split; [by econstructor|]. intros fuel Hf. destruct fuel as [|fuel]; [lia|].
    cbn [poll_loop]. rewrite Hl, Ep, Ha. cbn [negb]. apply Hr. lia.
  - exists [], s1. split; [by constructor|]. intros fuel Hf. destruct fuel; [lia|]. cbn [poll_loop]. by rewrite Hl, Ep.
Qed.

End Polling.

(** ** Sending *)

Definition raw (p : Payload) : list bytes := match p with RawEncode cs => cs | OtherPayload => [] end.

Lemma send_transmit_all o p sent :
  (forall i, sends o i = true) -> send_transmit o p sent = (true, sent ++ raw p).
Proof.
  intros Hs. destruct p as [cs|]; cbn [send_transmit raw]; [|by rewrite app_nil_r].
  revert sent. induction cs as [|c cs IH]; intros sent; cbn [send_chunks]; [by rewrite app_nil_r|].
  by rewrite Hs, IH, <-app_assoc.
Qed.

Lemma foldl_raw l sent : foldl (fun u p => u ++ raw p) sent l = sent ++ flat_map raw l.
Proof.
  revert sent. induction l as [|p l IH]; intros sent; cbn [foldl flat_map]; [by rewrite app_nil_r|].
  by rewrite IH, <-app_assoc.
Qed.

(** ** The event loop *)

Section LoopLemmas.
Context {Endpoint Association Handle AssocEvent EndpointEvent Event : Type}.
Abbreviation Lib := (Library Endpoint Association Handle AssocEvent EndpointEvent Event).
Abbreviation St := (state Endpoint Association Handle).
Context (lib : Lib) (poison : str).

(** The library's queues are finite: each of the four polls ends. *)
Record finite : Prop := mk_finite {
  fin_endpoint_event : finite_queue (poll_endpoint_event lib);
  fin_event : finite_queue (poll_event lib);
  fin_transmit : exists m : Association -> nat, forall c a x a', poll_transmit lib c a = (Some x, a') -> (m a' < m a)%nat;
  fin_endpoint_transmit : finite_queue (endpoint_transmit lib)
}.

Lemma drive_returns o (s : St) : finite ->
  exists n r, forall fuel, (n <= fuel)%nat -> drive lib fuel o s = Some r.
Proof.
  intros [[m1 H1] [m2 H2] [m3 H3] [m4 H4]]. unfold drive.
  destruct (lock_ok o AssociationMain); cbn [negb]; [|exists 0%nat; eauto].
  set (a0 := expire lib (now o) (association (transport s))).
  destruct (poll_loop_returns (fun _ => poll_endpoint_event lib) m1 (fun _ => H1) (fun _ => true)
    (forward_event lib o (association_handle (transport s))) 0 a0 (endpoint s)) as [[[ok1 a1] e1] R1].
  destruct ok1; [|eexists (Datatypes.S (m1 a0)), _; intros fuel Hf; rewrite R1 by lia; reflexivity].
  destruct (poll_loop_returns (fun _ => poll_event lib) m2 (fun _ => H2) (fun i => lock_ok o (AssociationPoll i))
    (fun _ _ u => (true, u)) 0 a1 tt) as [[[ok2 a2] u2] R2].
  destruct ok2; [|eexists (Datatypes.S (Nat.max (m1 a0) (m2 a1))), _; intros fuel Hf;
    rewrite R1 by lia; cbn [negb]; rewrite R2 by lia; reflexivity].
  destruct (poll_loop_returns (fun i => poll_transmit lib (clock o i)) m3 (fun i => H3 _) (fun i => lock_ok o (AssociationTransmit i))
    (fun _ => send_transmit o) 0 a2 []) as [[[ok3 a3] sent3] R3].
  destruct ok3; [|eexists (Datatypes.S (Nat.max (m1 a0) (Nat.max (m2 a1) (m3 a2)))), _; intros fuel Hf;
    rewrite R1 by lia; cbn [negb]; rewrite R2 by lia; cbn [negb]; rewrite R3 by lia; reflexivity].
  destruct (poll_loop_returns (fun _ => endpoint_transmit lib) m4 (fun _ => H4) (fun i => lock_ok o (EndpointTransmit i))
    (fun _ => send_transmit o) 0 e1 sent3) as [[[ok4 e4] sent4] R4].
  eexists (Datatypes.S (Nat.max (m1 a0) (Nat.max (m2 a1) (Nat.max (m3 a2) (m4 e1))))), _. intros fuel Hf.
  rewrite R1 by lia; cbn [negb]. rewrite R2 by lia; cbn [negb]. rewrite R3 by lia; cbn [negb]. rewrite R4 by lia. reflexivity.
Qed.

Lemma iteration_returns o (s : St) : finite ->
  exists n r, forall fuel, (n <= fuel)%nat -> iteration lib poison fuel o s = Some r.
Proof.
  intros Hf. unfold iteration.
  destruct (match recv_from o with Received b => _ | NothingYet => _ | ReceiveError => _ end) as [s1|]; [|exists 0%nat; eauto].
  destruct (lock_ok o HandleCheck); cbn [negb]; [|exists 0%nat; eauto].
  destruct (association_handle (transport s1)); [by apply drive_returns|exists 0%nat; eauto].
Qed.

(** Everything that succeeds for an iteration to be complete. *)
Definition smooth (o : io) : Prop := (forall x, lock_ok o x = true) /\ (forall i, sends o i = true) /\ recv_from o <> ReceiveError.

(** The state once the datagram, if any, has been handled. *)
Definition after_receipt (o : io) (s : St) : St :=
  match recv_from o with Received b => (incoming lib poison o b s).2 | _ => s end.

(** What a complete iteration did, from the state it drove: the association's
    events for the endpoint [l1], its own [l2], the payloads of both. *)
Definition drained (o : io) (h : Handle) (s s' : St) (sent : list bytes) : Prop :=
  exists l1 a1 l2 a2 la le,
    polled (fun _ => poll_endpoint_event lib) 0 (expire lib (now o) (association (transport s))) l1 a1 /\
    polled (fun _ => poll_event lib) 0 a1 l2 a2 /\
    polled (fun i => poll_transmit lib (clock o i)) 0 a2 la (association (transport s')) /\
    polled (fun _ => endpoint_transmit lib) 0 (foldl (fun e ev => endpoint_event lib h ev e) (endpoint s) l1) le (endpoint s') /\
    association_handle (transport s') = Some h /\ next_stream_id (transport s') = next_stream_id (transport s) /\
    sent = flat_map raw la ++ flat_map raw le.

Lemma drive_drains o (s : St) h :
  finite -> smooth o -> association_handle (transport s) = Some h ->
  exists s' sent, drained o h s s' sent /\ exists n, forall fuel, (n <= fuel)%nat -> drive lib fuel o s = Some (true, s', sent).
Proof.
  intros [[m1 H1] [m2 H2] [m3 H3] [m4 H4]] (Hl & Hs & _) Hh. unfold drive. rewrite Hl. cbn [negb].
  set (a0 := expire lib (now o) (association (transport s))).
  destruct (poll_loop_all (fun _ => poll_endpoint_event lib) m1 (fun _ => H1) (fun _ => true)
    (forward_event lib o (association_handle (transport s))) (fun ev e => endpoint_event lib h ev e) 0 a0 (endpoint s))
    as (l1 & a1 & P1 & R1); [done| |].
  { intros j x u. unfold forward_event. rewrite !Hl, Hh. done. }
  set (e1 := foldl _ (endpoint s) l1) in R1.
  destruct (poll_loop_all (fun _ => poll_event lib) m2 (fun _ => H2) (fun i => lock_ok o (AssociationPoll i))
    (fun _ _ u => (true, u)) (fun _ u => u) 0 a1 tt) as (l2 & a2 & P2 & R2); [done|done|].
  destruct (poll_loop_all (fun i => poll_transmit lib (clock o i)) m3 (fun i => H3 _) (fun i => lock_ok o (AssociationTransmit i))
    (fun _ => send_transmit o) (fun p u => u ++ raw p) 0 a2 []) as (la & a3 & P3 & R3); [done|by intros; apply send_transmit_all|].
  destruct (poll_loop_all (fun _ => endpoint_transmit lib) m4 (fun _ => H4) (fun i => lock_ok o (EndpointTransmit i))
    (fun _ => send_transmit o) (fun p u => u ++ raw p) 0 e1 (foldl (fun u x => u ++ raw x) [] la)) as (le & e4 & P4 & R4);
    [done|by intros; apply send_transmit_all|].
  exists (mk_state e4 (mk_transport a3 (Some h) (next_stream_id (transport s)))), (flat_map raw la ++ flat_map raw le).
  split; [by exists l1, a1, l2, a2, la, le|]. exists (Datatypes.S (Nat.max (m1 a0) (Nat.max (m2 a1) (Nat.max (m3 a2) (m4 e1))))).
  intros fuel Hf. rewrite R1 by lia. cbn [negb]. rewrite R2 by lia. cbn [negb]. rewrite R3 by lia. cbn [negb]. rewrite R4 by lia.
  rewrite !foldl_raw. cbn [app with_association transport endpoint association_handle next_stream_id]. by rewrite Hh.
Qed.

(** ** Properties of the loop *)

(** The event loop always returns.  When the library's queues are finite,
    any sequence of iterations ends with the same result for every fuel beyond
    some bound, whatever locks, sends and receives fail on the way. *)
Lemma event_loop_returns turns (s : St) : finite ->
  exists n r, forall fuel, (n <= fuel)%nat -> event_loop lib poison fuel turns s = Some r.
Proof.
  intros Hf. revert s. induction turns as [|[c o] turns IH]; intros s; cbn [event_loop]; [exists 0%nat; eauto|].
  destruct c; cbn [negb]; [|exists 0%nat; eauto]. destruct (iteration_returns o s Hf) as (n1 & [[[] s1] sent] & R1).
  - destruct (IH s1) as (n2 & [s2 rest] & R2). exists (Nat.max n1 n2), (s2, sent ++ rest). intros fuel Hl.
    rewrite R1 by lia. by rewrite R2 by lia.
  - exists n1, (s1, sent). intros fuel Hl. by rewrite R1 by lia.
Qed.

(** C30: an iteration sends all there is to send.  Once there is an association,
    an iteration in which no lock, receive or send fails goes on, and the
    datagrams it sends are the raw payloads the association and then the endpoint
    had queued, in that order and completely: afterwards neither has any left. *)
Theorem iteration_drains o (s : St) h :
  finite -> smooth o -> association_handle (transport (after_receipt o s)) = Some h ->
  exists s' sent, drained o h (after_receipt o s) s' sent /\
    exists n, forall fuel, (n <= fuel)%nat -> iteration lib poison fuel o s = Some (true, s', sent).
Proof.
  intros Hf Hs Hh. destruct (drive_drains o _ h Hf Hs Hh) as (s' & sent & Hd & n & R).
  exists s', sent. split; [done|]. exists n. intros fuel Hl. unfold iteration.
  destruct Hs as (Hlock & _ & Hr). unfold after_receipt in *. destruct (recv_from o); [| |done];
    rewrite Hlock, Hh; cbn [negb]; by apply R.
Qed.

End LoopLemmas.

(** ** The listener *)

Section Listener.
Context {DC : Type}.
Abbreviation Turn := (listen_turn DC).

(** A turn that brings an offer, whatever the channel carries before it, or one
    in which accepting a channel fails. *)
Inductive serves : Turn -> option (Z * FileMetadata * DC) -> Prop :=
| serves_offer dc id m noise rest :
    fits 32 id -> metadata_fits m -> Forall not_offer noise ->
    serves (mk_listen_turn true (Some (Ok dc)) (map Ok noise ++ Ok (to_bytes (FileOffer id m)) :: rest) (Ok tt)) (Some (id, m, dc))
| serves_refused e received event : serves (mk_listen_turn true (Some (Err e)) received event) None.

(** A channel that fails before it makes an offer, and one that says nothing. *)
Inductive breaks : Turn -> Prop :=
| breaks_channel dc noise e rest event :
    Forall not_offer noise -> breaks (mk_listen_turn true (Some (Ok dc)) (map Ok noise ++ Err e :: rest) event).
Inductive stalls : Turn -> Prop :=
| stalls_channel dc noise event :
    Forall not_offer noise -> stalls (mk_listen_turn true (Some (Ok dc)) (map Ok noise) event).

Definition announce (o : Z * FileMetadata * DC) : AppEvent := RemoteFileOffer o.1.1 o.1.2.
Definition filed (s : FileTransferer DC) (o : Z * FileMetadata * DC) : FileTransferer DC :=
  mk_transferer (<[o.1.1 := o.2]> (pending_data_channels s)) false (next_offer_id s).

Lemma listen_served text turns offers tail (s : FileTransferer DC) :
  pending_poisoned s = false -> Forall2 serves turns offers ->
  wait_for_incoming text (turns ++ tail) s =
  (let '(rest, s', ended) := wait_for_incoming text tail (foldl filed s (omap id offers)) in
   (map announce (omap id offers) ++ rest, s', ended)).
Proof.
  intros Hp H. revert s Hp. induction H as [|t o turns offers Ht _ IH]; intros s Hp.
  - cbn. by destruct (wait_for_incoming text tail s) as [[rest s'] ended].
  - destruct Ht as [dc i m noise rest Hi Hm Hn|e received event]; cbn [app wait_for_incoming l_connected l_accepted l_received l_event negb].
    + rewrite handle_incoming_noise by done. cbn [FileTransfer.handle_incoming]. rewrite ftp_to_from by done. rewrite Hp.
      rewrite IH by done. cbn [omap list_omap id foldl map]. fold (filed s (i, m, dc)).
      destruct (wait_for_incoming text tail _) as [[rest' s'] ended]. done.
    + rewrite IH by done. done.
Qed.

(** The listener and its first bad channel.  The offers that come in are
    announced in order and their channels filed under their numbers, channels
    that could not be accepted being skipped; but a channel that fails before it
    has made an offer ends the listener, and one that makes none keeps it: in
    both cases no later offer is ever seen. *)
Lemma listener text turns offers t lost (s : FileTransferer DC) :
  pending_poisoned s = false -> Forall2 serves turns offers -> breaks t \/ stalls t ->
  exists ended, wait_for_incoming text (turns ++ t :: lost) s =
    (map announce (omap id offers), foldl filed s (omap id offers), ended) /\ (ended = true <-> breaks t).
Proof.
  intros Hp H Ht. rewrite (listen_served _ _ _ _ _ Hp H). destruct Ht as [Hb|Hs].
  - exists true. split; [|done]. destruct Hb as [dc noise e rest event Hn].
    cbn [wait_for_incoming l_connected l_accepted l_received l_event negb]. rewrite handle_incoming_noise by done.
    cbn. by rewrite app_nil_r.
  - exists false. destruct Hs as [dc noise event Hn]. split.
    + cbn [wait_for_incoming l_connected l_accepted l_received l_event negb].
      rewrite <-(app_nil_r (map Ok noise)), handle_incoming_noise by done. cbn. by rewrite app_nil_r.
    + split; [done|]. intros Hb. exfalso. inversion Hb as [dc' noise' e rest event' Hn'].
      assert (Hin : Err e ∈ map Ok noise).
      { match goal with H : _ ++ Err e :: rest = _ |- _ => rewrite <-H end. apply elem_of_app. right. by left. }
      by apply list_elem_of_fmap in Hin as (x & ? & _).
Qed.

End Listener.

(** ** Dialling *)

(** Nothing but the end of the handshake ends the wait of [connect]: it looks
    neither at the flag nor at the time. *)
Lemma dial_waits {A H} text c (dialled : result (H * A) str) n s s' :
  dial text c true dialled true (Ok tt) (replicate n (true, true)) s = (None, s') ->
  forall m, (dial text c true dialled true (Ok tt) (replicate m (true, true)) s).1 = None.
Proof.
  assert (Hw : forall k, await_handshake text (replicate k (true, true)) = None) by (induction k; done).
  unfold dial. destruct (if c then _ else _) as [[[]|e] s1]; cbn [rbind map_err]; [|done]. intros _ m. cbn. by rewrite Hw.
Qed.

(** The client dials with its own association and odd identifiers, the server
    waits for one; both then have the same handshake to wait for. *)
Lemma dial_roles {A H} text (h : H) (a dflt : A) polls :
  let c := dial text true true (Ok (h, a)) true (Ok tt) polls (DataChannel.new dflt) in
  let s := dial text false true (Ok (h, a)) true (Ok tt) polls (DataChannel.new dflt) in
  c.1 = s.1 /\ association_handle c.2 = Some h /\ association_handle s.2 = None /\
  next_stream_id c.2 = 1 /\ next_stream_id s.2 = 0.
Proof. done. Qed.

(** * Witnesses *)

(** A library of four queues: an association is its events for the endpoint,
    its own events and its payloads; an endpoint is a count of the events it was
    given and its payloads. *)
Definition queues : Type := list Z * list Z * list Payload.

Definition demo_sctp : Library (Z * list Payload) queues Z bytes Z Z :=
  mk_sctp
    (fun b e => (match b with 0 :: b => Some (9, NewAssociation ([7], [1; 2], [RawEncode [b]])) | b => Some (9, AssociationEvent b) end, e))
    (fun ev a => (a.1.1, a.1.2, a.2 ++ [RawEncode [ev]]))
    (fun a => match a.2 with [] => None | _ => Some 5 end) (fun n a => (a.1.1, n :: a.1.2, a.2))
    (fun a => match a.1.1 with [] => (None, a) | x :: l => (Some x, (l, a.1.2, a.2)) end)
    (fun h ev e => (e.1 + h + ev, RawEncode [[ev]] :: e.2))
    (fun a => match a.1.2 with [] => (None, a) | x :: l => (Some x, (a.1.1, l, a.2)) end)
    (fun _ a => match a.2 with [] => (None, a) | x :: l => (Some x, (a.1.1, a.1.2, l)) end)
    (fun e => match e.2 with [] => (None, e) | x :: l => (Some x, (e.1, l)) end).

Lemma demo_finite : finite demo_sctp.
Proof.
  split.
  - exists (fun a => List.length a.1.1). intros [[[|x q] ?] ?] y a'; cbn; [done|]. intros [= <- <-]. cbn. lia.
  - exists (fun a => List.length a.1.2). intros [[? [|x q]] ?] y a'; cbn; [done|]. intros [= <- <-]. cbn. lia.
  - exists (fun a => List.length a.2). intros c [[? ?] [|x q]] y a'; cbn; [done|]. intros [= <- <-]. cbn. lia.
  - exists (fun e => List.length e.2). intros [? [|x q]] y e'; cbn; [done|]. intros [= <- <-]. cbn. lia.
Qed.

Definition demo_io (r : received) (sends : nat -> bool) : io := mk_io r 10 (fun i => 10 + Z.of_nat i) (fun _ => true) sends.
Definition demo_start : state (Z * list Payload) queues Z := mk_state (0, [OtherPayload]) (DataChannel.new ([], [], [])).

(** The server adopts the association of the first datagram and drains it. *)
Example demo_iteration :
  iteration demo_sctp [] 5 (demo_io (Received [0; 42; 43]) (fun _ => true)) demo_start =
  Some (true, mk_state (16, []) (mk_transport ([], [], []) (Some 9) 0), [[42; 43]; [7]]).
Proof. vm_compute. reflexivity. Qed.

Lemma iteration_drains_witness :
  exists s' sent, drained demo_sctp (demo_io (Received [0; 42; 43]) (fun _ => true)) 9
      (after_receipt demo_sctp [] (demo_io (Received [0; 42; 43]) (fun _ => true)) demo_start) s' sent /\
    exists n, forall fuel, (n <= fuel)%nat ->
      iteration demo_sctp [] fuel (demo_io (Received [0; 42; 43]) (fun _ => true)) demo_start = Some (true, s', sent).
Proof. apply (iteration_drains demo_sctp); [exact demo_finite|done|reflexivity]. Defined.
