(* ===== verification/UserStatus.v ===== *)
(** The user status of src/user/user_status.rs: its textual form and parser. *)

From S2P Require Import Prelude.
From S2P Require Import Text.
From S2P Require Import Wire.

Inductive UserStatus :=
| Available
| Occupied (what : str)
| Offline.

#[global] Instance UserStatus_eq_dec : EqDecision UserStatus.
Proof. solve_decision. Defined.

(** [impl Display] *)
Definition display (s : UserStatus) : str :=
  match s with
  | Available => lit "Available"
  | Occupied some => lit "Occupied:" ++ some
  | Offline => lit "Offline"
  end.

Definition from_bytes (b : bytes) : option UserStatus :=
  match utf8_decode b with
  | None => None
  | Some s =>
      let parts := split 58 (trim s) in
      if is_msg "Available" 1 parts then Some Available
      else if is_msg "Occupied" 2 parts then (Some (Occupied (part parts 1)))
      else if is_msg "Offline" 1 parts then Some Offline
      else None
  end.

(** The statuses the textual form can carry. *)
Definition plain (s : UserStatus) : Prop :=
  match s with Occupied w => is_str w /\ (58 ∉ w) /\ tight w | _ => True end.

(** * Lemmas *)

Lemma trim_split_occupied w : tight w ->
  split 58 (trim (lit "Occupied:" ++ w)) = lit "Occupied" :: split 58 w.
Proof.
  intros Ht. rewrite trim_clean.
  - change (lit "Occupied:" ++ w) with (lit "Occupied" ++ 58 :: w). apply split_cons.
    apply (bool_decide_unpack _). vm_compute. exact I.
  - split; [by intros c [= <-]|]. intros c. rewrite last_app. destruct (last w) eqn:E; [|by intros [= <-]].
    intros [= <-]. by apply Ht.
Qed.

Lemma display_roundtrip s : plain s -> from_bytes (utf8_encode (display s)) = Some s.
Proof.
  destruct s as [|w|]; [reflexivity| |reflexivity]. intros (Hs & Hc & Ht). unfold from_bytes, display.
  rewrite utf8_roundtrip.
  - rewrite trim_split_occupied, split_none by done. done.
  - apply Forall_app. split; [|done]. apply ascii_field. reflexivity.
Qed.

Lemma display_tight s : plain s -> tight (display s).
Proof.
  destruct s as [|w|]; [by intros _ c [= <-]| |by intros _ c [= <-]].
  intros (_ & _ & Ht) c. change (display (Occupied w)) with (lit "Occupied:" ++ w). rewrite last_app.
  destruct (last w) eqn:E; [intros [= <-]; by apply Ht|by intros [= <-]].
Qed.

(** * Results *)

(** Parsing the textual form of a status gives the status back exactly
    when its description has no colon and no trailing white space: for every
    other description the server's clients read nothing or something else. *)
Lemma status_roundtrip s :
  (match s with Occupied w => is_str w | _ => True end) ->
  (from_bytes (utf8_encode (display s)) = Some s <-> plain s).
Proof.
  intros Hs. split; [|apply display_roundtrip]. destruct s as [|w|]; [done| |done].
  unfold from_bytes, display, plain. rewrite utf8_roundtrip.
  2:{ apply Forall_app. split; [|done]. apply ascii_field. reflexivity. }
  set (ps := split 58 _).
  destruct (is_msg "Available" 1 ps); [done|]. destruct (is_msg "Occupied" 2 ps) eqn:E;
    [|by destruct (is_msg "Offline" 1 ps)].
  intros [= Hw]. assert (Hps : ps = [lit "Occupied"; w]).
  { unfold is_msg in E. destruct ps as [|p [|q [|? ?]]]; try by rewrite ?andb_false_r in E.
    apply andb_true_iff in E as [->%str_eqb_spec _]. by rewrite <-Hw. }
  destruct (split_spec 58 (trim (lit "Occupied:" ++ w))) as (_ & Hf & Hj). fold ps in Hf, Hj.
  rewrite Hps in Hf, Hj. split_and!; [done| |].
  - inversion Hf as [|? ? _ Hf']. by inversion Hf'.
  - change (join [58] [lit "Occupied"; w]) with (lit "Occupied:" ++ w) in Hj.
    pose proof (trim_is_clean (lit "Occupied:" ++ w)) as [_ Hcl]. rewrite <-Hj in Hcl.
    intros c Hc. apply Hcl. rewrite last_app, Hc. done.
Qed.
