(* ===== verification/ClientMessage.v ===== *)
(** The messages a client sends: src/client_server_protocol/client_message.rs,
    and the client's replies to the server's own messages (client_response.rs).
    The session description is a parameter with its Display and FromStr
    ([Wire]); Sdp provides the instance. *)

From S2P Require Import Prelude.
From S2P Require Import Text.
From S2P Require Import Wire.

Section Messages.
Context {SDP : Type} `{Wire SDP}.

Inductive ClientMessage :=
| Hello
| LogIn (username password : str)
| SignUp (username password : str)
| LogOut (token : str)
| CallRequest (token : str) (offer_sdp : SDP) (to : str)
| CallAccept (from_usr to_usr : str) (sdp_answer : SDP)
| CallReject (from_usr to_usr : str)
| CallHangup (token : str).

(** The '|'-separated fields of the [format!] of each variant. *)
Definition message_fields (m : ClientMessage) : list str :=
  match m with
  | Hello => [lit "HELLO"]
  | LogIn username password => [lit "LOGIN"; username; password]
  | SignUp username password => [lit "SIGNUP"; username; password]
  | LogOut token => [lit "LOGOUT"; token]
  | CallRequest token offer_sdp to => [lit "CALLREQUEST"; token; display offer_sdp; to]
  | CallAccept from_usr to_usr sdp_answer => [lit "CALLACCEPT"; from_usr; to_usr; display sdp_answer]
  | CallReject from_usr to_usr => [lit "CALLREJECT"; from_usr; to_usr]
  | CallHangup token => [lit "CALLHANG"; token]
  end.

Definition to_bytes (m : ClientMessage) : bytes := line (message_fields m).

Definition from_bytes (b : bytes) : option ClientMessage :=
  match parts b with
  | None => None
  | Some ps =>
      if is_msg "HELLO" 1 ps then Some Hello
      else if is_msg "LOGIN" 3 ps then Some (LogIn (part ps 1) (part ps 2))
      else if is_msg "SIGNUP" 3 ps then Some (SignUp (part ps 1) (part ps 2))
      else if is_msg "LOGOUT" 2 ps then Some (LogOut (part ps 1))
      else if is_msg "CALLREQUEST" 4 ps then
        match from_str (part ps 2) with
        | Some offer_sdp => Some (CallRequest (part ps 1) offer_sdp (part ps 3))
        | None => None
        end
      else if is_msg "CALLACCEPT" 4 ps then
        match from_str (part ps 3) with
        | Some sdp_answer => Some (CallAccept (part ps 1) (part ps 2) sdp_answer)
        | None => None
        end
      else if is_msg "CALLREJECT" 3 ps then Some (CallReject (part ps 1) (part ps 2))
      else if is_msg "CALLHANG" 2 ps then Some (CallHangup (part ps 1))
      else None
  end.

(** The messages the format carries: every field is text without '|', the last
    one does not end in white space, and embedded descriptions re-parse. *)
Definition sendable (m : ClientMessage) : Prop :=
  match m with
  | Hello => True
  | LogIn u p | SignUp u p | CallReject u p => field u /\ field p /\ tight p
  | LogOut t | CallHangup t => field t /\ tight t
  | CallRequest t sdp to => field t /\ wired sdp /\ field to /\ tight to
  | CallAccept f t sdp => field f /\ field t /\ wired sdp /\ tight (display sdp)
  end.

End Messages.
Arguments ClientMessage SDP : clear implicits.

(** client_response.rs *)
Inductive ClientResponse :=
| Username (s : str).

Definition response_to_bytes (r : ClientResponse) : bytes :=
  match r with Username s => line [lit "USERNAME"; s] end.

Definition response_from_bytes (b : bytes) : option ClientResponse :=
  match parts b with
  | None => None
  | Some ps => if is_msg "USERNAME" 2 ps then Some (Username (part ps 1)) else None
  end.

(** * Lemmas *)

Lemma client_message_parts {SDP} `{Wire SDP} (m : ClientMessage SDP) :
  sendable m -> parts (to_bytes m) = Some (message_fields m).
Proof.
  intros Hm. unfold to_bytes.
  destruct m; cbn [message_fields]; simpl in Hm; destruct_and?;
    repeat match goal with Hw : wired _ |- _ => destruct Hw end;
    (eapply parts_line; [reflexivity|reflexivity|reflexivity|first [assumption | by intros ? [= <-]]|fields]).
Qed.

(** Decoding the bytes of a message gives the message back, for every
    variant and every field the format can carry, provided embedded session
    descriptions survive their own Display and FromStr. *)
Lemma client_message_roundtrip {SDP} `{Wire SDP} (m : ClientMessage SDP) :
  sendable m -> from_bytes (to_bytes m) = Some m.
Proof.
  intros Hm. unfold from_bytes. rewrite client_message_parts by done.
  destruct m; simpl in Hm; destruct_and?;
    repeat match goal with Hw : wired _ |- _ => destruct Hw as [Hw _] end;
    unfold message_fields, is_msg, part; simpl; rewrite ?H0, ?H1, ?H2; try done.
Qed.

(** The reply to the username request. *)
Lemma client_response_roundtrip name :
  field name -> tight name -> response_from_bytes (response_to_bytes (Username name)) = Some (Username name).
Proof.
  intros Hf Ht. unfold response_from_bytes, response_to_bytes.
  rewrite (parts_line _ 85 (lit "SERNAME") name) by (try done; fields). done.
Qed.
