(* ===== verification/ServerMessage.v ===== *)
(** The messages the server pushes to a client:
    src/client_server_protocol/server_message.rs. *)

From S2P Require Import Prelude.
From S2P Require Import Text.
From S2P Require Import Wire.
From S2P Require Import UserStatus.

Section Messages.
Context {SDP : Type} `{Wire SDP}.

Inductive ServerMessage :=
| UsernameRequest
| CallIncoming (from_usr : str) (offer_sdp : SDP)
| CallAccepted (from_usr : str) (sdp_answer : SDP)
| CallRejected
| UserStatusUpdate (user : str) (status : UserStatus)
| Error (msg : str).

Definition message_fields (m : ServerMessage) : list str :=
  match m with
  | UsernameRequest => [lit "USERNAMEREQUEST"]
  | CallIncoming from_usr offer_sdp => [lit "CALLINCOMING"; from_usr; Wire.display offer_sdp]
  | CallAccepted from_usr sdp_answer => [lit "CALLACCEPTED"; from_usr; Wire.display sdp_answer]
  | CallRejected => [lit "CALLREJECTED"]
  | UserStatusUpdate user status => [lit "USERSTATE"; user; UserStatus.display status]
  | Error msg => [lit "ERROR"; msg]
  end.

Definition to_bytes (m : ServerMessage) : bytes := line (message_fields m).

Definition from_bytes (b : bytes) : option ServerMessage :=
  match parts b with
  | None => None
  | Some ps =>
      if is_msg "USERNAMEREQUEST" 1 ps then Some UsernameRequest
      else if is_msg "CALLINCOMING" 3 ps then
        match from_str (part ps 2) with
        | Some offer_sdp => Some (CallIncoming (part ps 1) offer_sdp)
        | None => None
        end
      else if is_msg "CALLACCEPTED" 3 ps then
        match from_str (part ps 2) with
        | Some sdp_answer => Some (CallAccepted (part ps 1) sdp_answer)
        | None => None
        end
      else if is_msg "CALLREJECTED" 1 ps then Some CallRejected
      else if is_msg "USERSTATE" 3 ps then
        match UserStatus.from_bytes (utf8_encode (part ps 2)) with
        | Some status => Some (UserStatusUpdate (part ps 1) status)
        | None => None
        end
      else if is_msg "ERROR" 2 ps then Some (Error (part ps 1))
      else None
  end.

Definition sendable (m : ServerMessage) : Prop :=
  match m with
  | UsernameRequest | CallRejected => True
  | CallIncoming f sdp | CallAccepted f sdp => field f /\ wired sdp /\ tight (Wire.display sdp)
  | UserStatusUpdate u s => field u /\ field (UserStatus.display s) /\ plain s
  | Error msg => field msg /\ tight msg
  end.

End Messages.
Arguments ServerMessage SDP : clear implicits.

(** * Lemmas *)

Lemma server_message_parts {SDP} `{Wire SDP} (m : ServerMessage SDP) :
  sendable m -> parts (to_bytes m) = Some (message_fields m).
Proof.
  intros Hm. unfold to_bytes.
  destruct m; cbn [message_fields]; simpl in Hm; destruct_and?;
    repeat match goal with Hw : wired _ |- _ => destruct Hw end;
    (eapply parts_line; [reflexivity|reflexivity|reflexivity|
      first [assumption | by apply display_tight | by intros ? [= <-]]|fields]).
Qed.

(** The client decodes exactly what the server pushed, for every variant
    whose fields the format can carry. *)
Lemma server_message_roundtrip {SDP} `{Wire SDP} (m : ServerMessage SDP) :
  sendable m -> from_bytes (to_bytes m) = Some m.
Proof.
  intros Hm. unfold from_bytes. rewrite server_message_parts by done.
  destruct m as [|f sdp|f sdp| |u s|e]; simpl in Hm; unfold message_fields, is_msg, part; simpl; try done.
  - destruct Hm as (_ & [-> _] & _). done.
  - destruct Hm as (_ & [-> _] & _). done.
  - destruct Hm as (_ & _ & Hp). by rewrite display_roundtrip.
Qed.
