(* ===== verification/ServerResponse.v ===== *)
(** The server's answers to client requests:
    src/client_server_protocol/server_response.rs.  The login answer carries
    the table of users, a HashMap written in its iteration order: that order is
    an argument constrained only to enumerate the map ([MapOrder]).  The socket
    address is a parameter with its Display and FromStr ([Wire]). *)

From S2P Require Import Prelude.
From S2P Require Import Text.
From S2P Require Import Wire.
From S2P Require Import UserStatus.

(** The iteration order of a HashMap: some enumeration of its entries. *)
Class MapOrder (A : Type) := {
  iter : gmap str A -> list (str * A);
  iter_permutation m : iter m ≡ₚ map_to_list m
}.

Section Responses.
Context {Addr : Type} `{Wire Addr} `{MapOrder UserStatus}.

Inductive ServerResponse :=
| Welcome
| ServerFull
| LoginOk (token : str) (address : Addr) (users_status : gmap str UserStatus)
| LoginError (msg : str)
| SignupOk
| SignupError (msg : str)
| LogoutOk
| LogoutError (msg : str)
| CallHangUpOk
| CallHangUpError (msg : str)
| CallRequestOk
| CallRequestError (msg : str)
| CallAcceptOk
| CallAcceptError (msg : str)
| CallRejectOk
| CallRejectError (msg : str)
| BadMessage
| Error (msg : str).

(** [format!("{k},{v}")] *)
Definition show_entry (kv : str * UserStatus) : str :=
  kv.1 ++ [44] ++ UserStatus.display kv.2.

Definition show_users (users_status : gmap str UserStatus) : str :=
  join [59] (show_entry <$> iter users_status).

Definition response_fields (r : ServerResponse) : list str :=
  match r with
  | Welcome => [lit "WELCOME"]
  | ServerFull => [lit "SERVERFULL"]
  | LoginOk token address users_status =>
      [lit "LOGINOK"; token; Wire.display address; show_users users_status]
  | LoginError msg => [lit "LOGINERROR"; msg]
  | SignupOk => [lit "SIGNUPOK"]
  | SignupError msg => [lit "SIGNUPERROR"; msg]
  | LogoutOk => [lit "LOGOUTOK"]
  | LogoutError msg => [lit "LOGOUTERROR"; msg]
  | CallHangUpOk => [lit "CALLHANGUPOK"]
  | CallHangUpError msg => [lit "CALLHANGUPERROR"; msg]
  | CallRequestOk => [lit "CALLREQUESTOK"]
  | CallRequestError msg => [lit "CALLREQUESTERROR"; msg]
  | CallAcceptOk => [lit "CALLACCEPTOK"]
  | CallAcceptError msg => [lit "CALLACCEPTERROR"; msg]
  | CallRejectOk => [lit "CALLREJECTOK"]
  | CallRejectError msg => [lit "CALLREJECTERROR"; msg]
  | BadMessage => [lit "BADMSG"]
  | Error msg => [lit "ERROR"; msg]
  end.

Definition to_bytes (r : ServerResponse) : bytes := line (response_fields r).

(** One piece of the user table: name and status, anything after a second
    comma ignored; [None] when either is missing or the status is unreadable. *)
Definition read_entry (entry : str) : option (str * UserStatus) :=
  match split 44 entry with
  | username :: status_str :: _ =>
      match UserStatus.from_bytes (utf8_encode status_str) with
      | Some status => Some (username, status)
      | None => None
      end
  | _ => None
  end.

(** The loop over the pieces: empty ones skipped, later ones win. *)
Fixpoint read_entries (entries : list str) (m : gmap str UserStatus) : option (gmap str UserStatus) :=
  match entries with
  | [] => Some m
  | [] :: entries => read_entries entries m
  | entry :: entries =>
      match read_entry entry with
      | Some (username, status) => read_entries entries (<[username := status]> m)
      | None => None
      end
  end.

Definition read_users (l : str) : option (gmap str UserStatus) :=
  match l with
  | [] => Some ∅
  | _ => read_entries (split 59 l) ∅
  end.

Definition from_bytes (b : bytes) : option ServerResponse :=
  match parts b with
  | None => None
  | Some ps =>
      let named k := match ps with p :: _ => str_eqb p (lit k) | [] => false end in
      if named "WELCOME"%string then Some Welcome
      else if named "SERVERFULL"%string then Some ServerFull
      else if named "LOGINOK"%string && (4 <=? List.length ps)%nat then
        match from_str (part ps 2) with
        | Some address =>
            match read_users (part ps 3) with
            | Some users_status => Some (LoginOk (part ps 1) address users_status)
            | None => None
            end
        | None => None
        end
      else if is_msg "LOGINERROR" 2 ps then Some (LoginError (part ps 1))
      else if is_msg "SIGNUPOK" 1 ps then Some SignupOk
      else if is_msg "SIGNUPERROR" 2 ps then Some (SignupError (part ps 1))
      else if is_msg "LOGOUTOK" 1 ps then Some LogoutOk
      else if is_msg "LOGOUTERROR" 2 ps then Some (LogoutError (part ps 1))
      else if is_msg "CALLHANGUPOK" 1 ps then Some CallHangUpOk
      else if is_msg "CALLHANGUPERROR" 2 ps then Some (CallHangUpError (part ps 1))
      else if is_msg "CALLREQUESTOK" 1 ps then Some CallRequestOk
      else if is_msg "CALLREQUESTERROR" 2 ps then Some (CallRequestError (part ps 1))
      else if is_msg "CALLACCEPTOK" 1 ps then Some CallAcceptOk
      else if is_msg "CALLACCEPTERROR" 2 ps then Some (CallAcceptError (part ps 1))
      else if is_msg "CALLREJECTOK" 1 ps then Some CallRejectOk
      else if is_msg "CALLREJECTERROR" 2 ps then Some (CallRejectError (part ps 1))
      else if is_msg "BADMSG" 1 ps then Some BadMessage
      else if is_msg "ERROR" 2 ps then Some (Error (part ps 1))
      else None
  end.

(** A table entry the format carries: no separator in the name nor in the status. *)
Definition entry_ok (name : str) (s : UserStatus) : Prop :=
  field name /\ (44 ∉ name) /\ (59 ∉ name) /\ plain s /\
  field (UserStatus.display s) /\ (44 ∉ UserStatus.display s) /\ (59 ∉ UserStatus.display s).

Definition sendable (r : ServerResponse) : Prop :=
  match r with
  | LoginOk token address users => field token /\ wired address /\ map_Forall entry_ok users
  | LoginError m | SignupError m | LogoutError m | CallHangUpError m | CallRequestError m
  | CallAcceptError m | CallRejectError m | Error m => field m /\ tight m
  | _ => True
  end.

End Responses.
Arguments ServerResponse Addr : clear implicits.

(** * Lemmas *)

Lemma read_show_entry k v : entry_ok k v -> read_entry (show_entry (k, v)) = Some (k, v).
Proof.
  intros (_ & Hk & _ & Hp & _ & Hc & _). unfold read_entry, show_entry. simpl.
  rewrite split_cons, split_none by done. by rewrite display_roundtrip.
Qed.

Lemma show_entry_cons kv : exists c e, show_entry kv = c :: e.
Proof. destruct kv as [[|c k] v]; [by eexists _, _|]. by exists c, (k ++ [44] ++ UserStatus.display v). Qed.

Lemma read_entries_ok (l : list (str * UserStatus)) (m : gmap str UserStatus) :
  Forall (fun kv => entry_ok kv.1 kv.2) l ->
  read_entries (show_entry <$> l) m = Some (foldl (fun m kv => <[kv.1 := kv.2]> m) m l).
Proof.
  intros Hl. revert m. induction Hl as [|[k v] l Hkv Hl IH]; intros m; [done|]. cbn [fmap list_fmap].
  destruct (show_entry_cons (k, v)) as (c & e & E). rewrite E. cbn [read_entries].
  rewrite <-E, read_show_entry by done. apply IH.
Qed.

Lemma foldl_insert_lookup (l : list (str * UserStatus)) (m : gmap str UserStatus) :
  foldl (fun m kv => <[kv.1 := kv.2]> m) m l = list_to_map (rev l) ∪ m.
Proof.
  revert m. induction l as [|[k v] l IH]; intros m; cbn [foldl rev]; [by rewrite list_to_map_nil, (left_id_L ∅ (∪))|].
  rewrite IH, list_to_map_app. simpl. rewrite <-(assoc_L (∪)), <-insert_union_l.
  by rewrite (left_id_L ∅ (∪)).
Qed.

Section Facts.
Context {Addr : Type} `{Wire Addr} `{Hord : MapOrder UserStatus}.

Lemma iter_Forall (P : str -> UserStatus -> Prop) m :
  map_Forall P m -> Forall (fun kv => P kv.1 kv.2) (iter m).
Proof.
  intros Hm. rewrite (iter_permutation m). apply Forall_forall. intros [k v] Hin.
  apply elem_of_map_to_list in Hin. by apply Hm.
Qed.

Lemma iter_inj (m : gmap str UserStatus) : list_to_map (rev (iter m)) = m.
Proof.
  rewrite <-(list_to_map_to_list m) at 2. apply list_to_map_proper.
  - rewrite <-Permutation_rev, (iter_permutation m). apply NoDup_fst_map_to_list.
  - by rewrite <-Permutation_rev, (iter_permutation m).
Qed.

(** The separator-free parts of an entry make it a field without ';'. *)
Definition piece_ok (name : str) (s : UserStatus) : Prop :=
  field name /\ (59 ∉ name) /\ plain s /\ field (UserStatus.display s) /\ (59 ∉ UserStatus.display s).

Lemma show_entry_field k v : piece_ok k v -> field (show_entry (k, v)) /\ 59 ∉ show_entry (k, v).
Proof.
  intros ([Hs Hp] & Hk & _ & [Hs' Hp'] & Hv). unfold show_entry, field. simpl. split; [split|].
  - apply Forall_app. split; [done|]. constructor; [left; lia|done].
  - rewrite elem_of_app, elem_of_cons. unfold PIPE in *. intros [?|[?|?]]; done.
  - rewrite elem_of_app, elem_of_cons. intros [?|[?|?]]; done.
Qed.

Lemma show_users_field m : map_Forall piece_ok m -> field (show_users m) /\ tight (show_users m).
Proof.
  intros Hm. apply iter_Forall in Hm. unfold show_users. split.
  - induction Hm as [|[k v] l Hkv Hl IH]; [apply ascii_field; reflexivity|].
    destruct (show_entry_field k v Hkv) as [Hf _]. destruct l as [|kv' l]; [exact Hf|].
    cbn [fmap list_fmap] in *. set (rest := join [59] _) in IH.
    change (field (show_entry (k, v) ++ 59 :: rest)). destruct Hf as [Hs Hp], IH as [Hs' Hp']. split.
    + apply Forall_app. split; [done|]. constructor; [left; lia|done].
    + rewrite elem_of_app, elem_of_cons. unfold PIPE in *. intros [?|[?|?]]; done.
  - destruct (last (show_entry <$> iter m)) as [e|] eqn:E.
    + intros c. rewrite (last_join _ _ _ E). rewrite fmap_last in E.
      destruct (last (iter m)) as [[k v]|] eqn:E'; [|done]. injection E as <-.
      rewrite last_lookup in E'. apply list_elem_of_lookup_2 in E'. rewrite Forall_forall in Hm.
      destruct (Hm _ E') as (_ & _ & Hp & _). unfold show_entry. simpl fst. simpl snd.
      rewrite !last_app. pose proof (UserStatus.display_tight v Hp) as Ht.
      destruct (last (UserStatus.display v)) eqn:Ev; [intros [= <-]; by apply Ht|].
      exfalso. apply last_None in Ev. by destruct v.
    + apply last_None in E. rewrite E. by intros c [= ].
Qed.

Lemma read_show_users m : map_Forall entry_ok m -> read_users (show_users m) = Some m.
Proof.
  intros Hm. pose proof (iter_Forall _ _ Hm) as Hl. unfold read_users.
  assert (Hr : read_entries (show_entry <$> iter m) ∅ = Some m).
  { rewrite read_entries_ok, foldl_insert_lookup, iter_inj, (right_id_L ∅ (∪)); done. }
  destruct (iter m) as [|kv l] eqn:Em.
  - unfold show_users. rewrite Em. simpl. by rewrite <-Hr.
  - assert (E : split 59 (show_users m) = show_entry <$> iter m).
    { unfold show_users. apply split_join; [by rewrite Em|]. apply Forall_fmap. rewrite Em.
      eapply Forall_impl; [exact Hl|]. intros [k v] (H1 & H2 & H3 & H4 & H5 & H6 & H7). by apply show_entry_field. }
    destruct (show_users m) as [|c s] eqn:Es; [|by rewrite E, Em].
    rewrite Em in E. simpl in E. destruct (show_entry_cons kv) as (c & e & Ee). by rewrite Ee in E.
Qed.

Lemma server_response_parts r : sendable r -> parts (to_bytes r) = Some (response_fields r).
Proof.
  intros Hr. unfold to_bytes.
  assert (Hu : forall m : gmap str UserStatus, map_Forall entry_ok m -> map_Forall piece_ok m).
  { intros m Hm k v Hkv. destruct (Hm k v Hkv) as (H1 & H2 & H3 & H4 & H5 & H6 & H7). by split_and!. }
  destruct r; cbn [response_fields]; simpl in Hr; destruct_and?;
    try (eapply parts_line; [reflexivity|reflexivity|reflexivity|
      first [assumption | by intros ? [= <-]]|fields]).
  destruct (show_users_field users_status) as [Hf Ht]; [by apply Hu|].
  match goal with Hw : wired _ |- _ => destruct Hw end.
  eapply parts_line; [reflexivity|reflexivity|reflexivity|done|fields].
Qed.

End Facts.

(** * Results *)

(** The client decodes exactly the answer the server encoded, the table of
    users included, whatever order the HashMap is iterated in, as long as the
    fields contain no separator and the address survives Display and FromStr. *)
Lemma server_response_roundtrip {Addr} `{Wire Addr} `{MapOrder UserStatus} (r : ServerResponse Addr) :
  sendable r -> from_bytes (to_bytes r) = Some r.
Proof.
  intros Hr. unfold from_bytes. rewrite server_response_parts by done.
  destruct r; simpl in Hr; try reflexivity.
  destruct Hr as (_ & [Ha _] & Hm). unfold response_fields, part. simpl. by rewrite Ha, read_show_users.
Qed.

(** One bad name spoils the login of everybody.  If the table of users holds
    a name with a comma after which no status can be read (such a name passes
    the server's signup checks), then no client can decode a successful login
    answer, whoever logs in. *)
Lemma login_poisoned {Addr} `{Wire Addr} `{MapOrder UserStatus} (token : str) (address : Addr) users a b s :
  field token -> wired address -> map_Forall piece_ok users ->
  users !! (a ++ [44] ++ b) = Some s -> (44 ∉ a) -> (44 ∉ b) ->
  UserStatus.from_bytes (utf8_encode b) = None ->
  from_bytes (to_bytes (LoginOk token address users)) = None.
Proof.
  intros Ht [Ha Haf] Hm Hin Hca Hcb Hb. destruct (show_users_field users Hm) as [Hf Htl].
  unfold from_bytes, to_bytes. cbn [response_fields].
  rewrite (parts_line _ 76 (lit "OGINOK") (show_users users)) by (try done; fields).
  unfold part. simpl. rewrite Ha.
  assert (Hbad : forall l m, (a ++ [44] ++ b, s) ∈ l -> read_entries (show_entry <$> l) m = None).
  { induction l as [|kv l IH]; intros m Hl; [by apply elem_of_nil in Hl|]. cbn [fmap list_fmap].
    destruct (show_entry_cons kv) as (c & e & E). rewrite E. cbn [read_entries]. rewrite <-E.
    apply elem_of_cons in Hl as [<-|Hl].
    - unfold read_entry, show_entry. simpl. rewrite <-app_assoc. simpl. rewrite split_cons by done.
      rewrite split_cons by done. by rewrite Hb.
    - destruct (read_entry (show_entry kv)) as [[? ?]|]; [by apply IH|done]. }
  assert (Hi : (a ++ [44] ++ b, s) ∈ iter users) by (rewrite (iter_permutation users); by apply elem_of_map_to_list).
  assert (E : split 59 (show_users users) = show_entry <$> iter users).
  { unfold show_users. apply split_join; [by destruct (iter users); [apply elem_of_nil in Hi|]|].
    apply Forall_fmap. eapply Forall_impl; [apply (iter_Forall _ _ Hm)|]. intros [k v] Hkv. by apply show_entry_field. }
  unfold read_users. destruct (show_users users) as [|c u] eqn:Eu; [|by rewrite E, Hbad].
  exfalso. simpl in E. destruct (iter users) as [|kv l]; [by apply elem_of_nil in Hi|].
  simpl in E. destruct (show_entry_cons kv) as (c & e & Ee). by rewrite Ee in E.
Qed.
