(* ===== verification/Controller.v ===== *)
(** The client's controller (src/controller/control.rs, error.rs): requests to the
    signalling server and what their answers change, calls, and the thread that
    handles the messages the server pushes.

    The table of users is behind a shared lock that log_in and log_out replace:
    [tables] is the store of these locks, [users_status] the one the controller
    holds, and a receiver thread keeps the one it was started with.  The flag
    [logged_in] is one shared cell.

    The TLS streams are the outcomes of their calls: an [exchange] is the write
    of a request and the read of its answer, a [push_read] one read of the
    receiver thread.  Starting and stopping the transport and the file transfer
    are outcomes too ([call_media], [renewal]); the media pipeline is the model of
    Capture, the call session that of CallSession.  The socket address is a parameter with its Display
    and FromStr ([Wire]), and [addr_error] the text of its parse error.
    What a TLS connection is made of (files, certificates, sockets) is a
    [tls_io].  The UI's use of the controller is in Ui. *)

From S2P Require Import Prelude.
From S2P Require Import Audio.
From S2P Require Import Capture.
From S2P Require Import JitterBuffer.
From S2P Require Import Text.
From S2P Require Import Wire.
From S2P Require Import Ice.
From S2P Require Import SdpAttribute.
From S2P Require Import Sdp.
From S2P Require Import CallSession.
From S2P Require Import Events.
From S2P Require Import UserStatus.
From S2P Require Import ClientMessage.
From S2P Require Import ServerMessage.
From S2P Require Import ServerResponse.

(** * Definitions *)

Inductive ControllerError :=
| OtherError (e : str)                     (* [Error] in the source *)
| ConnectingToServerFailed
| NetworkError (e : str)                   (* [IOError] *)
| BadResponse
| LogInFailed (e : str)
| SignUpFailed (e : str)
| LogOutFailed (e : str)
| ParsingSocketAddressError (e : str)
| BindingAddressError (e : str)
| ConnectionSocketError (e : str)
| CloningSocketError (e : str)
| PoisonedStatus                           (* [PoisonedLock] *)
| Mapped (e : str)                         (* [MapError] *)
| ConnectionNotStarted
| ConnectionClosed
| NotLoggedInError
| CallError (e : str)
| CallRefused.

Definition show_controller_error (e : ControllerError) : str :=
  match e with
  | OtherError e => e
  | ConnectingToServerFailed => quoted "Connecting to server failed"
  | NetworkError e => quoted "IO Error" ++ lit ". Details: " ++ e
  | BadResponse => quoted "Unexpected response from the server"
  | LogInFailed e => lit "Error: " ++ [34] ++ lit "Failed to log in: " ++ e ++ [34]
  | SignUpFailed e => lit "Error: " ++ [34] ++ lit "Failed to sign up: " ++ e ++ [34]
  | LogOutFailed e => lit "Error: " ++ [34] ++ lit "Failed to log out: " ++ e ++ [34]
  | ParsingSocketAddressError e => quoted "Failed to parse socket address" ++ lit ". Details: " ++ e
  | BindingAddressError e => quoted "Failed to bind socket" ++ lit ". Details: " ++ e
  | ConnectionSocketError e => quoted "Failed to connect" ++ lit ". Details: " ++ e
  | CloningSocketError e => quoted "Failed to clone UDP socket" ++ lit " Details: " ++ e
  | PoisonedStatus => quoted "Poisoned lock"
  | Mapped e => e
  | ConnectionNotStarted => quoted "Connection not started"
  | ConnectionClosed => quoted "Connection closed"
  | NotLoggedInError => quoted "Not logged in"
  | CallError e => quoted "Start call failed" ++ lit ": " ++ e
  | CallRefused => quoted "Call refused by peer"
  end.

(** One request: for the bytes sent, the outcome of the write and of the read
    into the 1024-byte buffer ([Ok] with the bytes put there). *)
Record exchange := mk_exchange {
  written : bytes -> result unit str;
  answer : bytes -> result bytes str
}.

(** A table of users behind its lock. *)
Record table := mk_table {
  entries : gmap str UserStatus;
  poisoned : bool
}.

Section Client.
Context `{SetOrder} {Addr : Type} `{Wire Addr} `{MapOrder UserStatus} (addr_error : str -> str).
Abbreviation Sdp := SessionDescriptionProtocol.

Record Controller := mk_controller {
  tables : list table;                     (* the locks allocated so far *)
  users_status : nat;
  token : option str;
  username : option str;
  logged_in : bool;
  call_session : CallSession;
  file_transferer : bool;                  (* there is one *)
  rtp_port : Z;                            (* port of the transport's rtp_address *)
  media_pipeline : MediaPipeline
}.

Definition with_session (s : CallSession) (c : Controller) : Controller :=
  mk_controller (tables c) (users_status c) (token c) (username c) (logged_in c) s (file_transferer c) (rtp_port c) (media_pipeline c).
Definition with_transferer (b : bool) (c : Controller) : Controller :=
  mk_controller (tables c) (users_status c) (token c) (username c) (logged_in c) (call_session c) b (rtp_port c) (media_pipeline c).
Definition with_logged_in (b : bool) (c : Controller) : Controller :=
  mk_controller (tables c) (users_status c) (token c) (username c) b (call_session c) (file_transferer c) (rtp_port c) (media_pipeline c).
Definition with_tables (l : list table) (c : Controller) : Controller :=
  mk_controller l (users_status c) (token c) (username c) (logged_in c) (call_session c) (file_transferer c) (rtp_port c) (media_pipeline c).
Definition with_port (p : Z) (c : Controller) : Controller :=
  mk_controller (tables c) (users_status c) (token c) (username c) (logged_in c) (call_session c) (file_transferer c) p (media_pipeline c).
Definition with_pipeline (p : MediaPipeline) (c : Controller) : Controller :=
  mk_controller (tables c) (users_status c) (token c) (username c) (logged_in c) (call_session c) (file_transferer c) (rtp_port c) p.

(** [Controller::new], with the outcomes of the connection to the server, of the
    transport's sockets (their port), of the socket's clone and of the session. *)
Definition new (connected : result unit ControllerError) (transport : result Z str) (socket_clone : result unit str)
    (session : result CallSession CallSessionError) : result Controller ControllerError :=
  let? _ := connected in
  let? port := map_err Mapped transport in
  let? _ := map_err CloningSocketError socket_clone in
  let? s := map_err (fun e => Mapped (show_session_error e)) session in
  Ok (mk_controller [mk_table ∅ false] 0 None None false s false port new_pipeline).

(** ** Requests *)

Definition send_message (msg : ClientMessage Sdp) (ex : exchange) :
    result (ServerResponse Addr) ControllerError * list AppEvent :=
  let sent := ClientMessage.to_bytes msg in
  match written ex sent with
  | Err e => (Err (NetworkError e), [Events.FatalError])
  | Ok _ =>
      match answer ex sent with
      | Ok [] => (Err (NetworkError (lit "Connection closed by server")), [Events.FatalError])
      | Ok b => (ok_or (ServerResponse.from_bytes b) BadResponse, [])
      | Err e => (Err (NetworkError e), [Events.FatalError])
      end
  end.

Definition get_users_status (c : Controller) : result (gmap str UserStatus) ControllerError :=
  match tables c !! users_status c with
  | Some t => if poisoned t then Err PoisonedStatus else Ok (entries t)
  | None => Err PoisonedStatus
  end.

Definition get_token (c : Controller) : result str ControllerError := ok_or (token c) NotLoggedInError.

Definition call (peer : str) (ex : exchange) (c : Controller) : result unit ControllerError * list AppEvent :=
  match get_token c with
  | Err e => (Err e, [])
  | Ok token =>
      let '(r, evs) := send_message (CallRequest token (get_offer (call_session c)) peer) ex in
      (let? resp := r in
       match resp with
       | CallRequestOk => Ok tt
       | CallRequestError e => Err (CallError e)
       | _ => Err BadResponse
       end, evs)
  end.

Definition sign_up (name passwd : str) (ex : exchange) : result unit ControllerError * list AppEvent :=
  let '(r, evs) := send_message (SignUp name passwd) ex in
  (let? resp := r in
   match resp with
   | SignupOk => Ok tt
   | SignupError e => Err (Mapped e)
   | _ => Err BadResponse
   end, evs).

(** [log_in], with the outcome of [start_server_receiver] for the address given. *)
Definition log_in (name passwd : str) (ex : exchange) (start_receiver : Addr -> result unit ControllerError)
    (c : Controller) : result unit ControllerError * list AppEvent * Controller :=
  let '(r, evs) := send_message (LogIn name passwd) ex in
  match r with
  | Err e => (Err e, evs, c)
  | Ok (LoginOk t server_client_addr users) =>
      let c := mk_controller (tables c ++ [mk_table users false]) (List.length (tables c)) (Some t) (Some name) true
                 (call_session c) (file_transferer c) (rtp_port c) (media_pipeline c) in
      (start_receiver server_client_addr, evs, c)
  | Ok (LoginError e) => (Err (LogInFailed e), evs, c)
  | Ok _ => (Err BadResponse, evs, c)
  end.

Definition log_out (ex : exchange) (c : Controller) : result unit ControllerError * list AppEvent * Controller :=
  match get_token c with
  | Err e => (Err e, [], c)
  | Ok token =>
      let '(r, evs) := send_message (LogOut token) ex in
      match r with
      | Err e => (Err e, evs, c)
      | Ok LogoutOk =>
          (Ok tt, evs, mk_controller (tables c ++ [mk_table ∅ false]) (List.length (tables c)) None (username c) false
             (call_session c) (file_transferer c) (rtp_port c) (media_pipeline c))
      | Ok (LogoutError e) => (Err (LogOutFailed e), evs, c)
      | Ok _ => (Err BadResponse, evs, c)
      end
  end.

(** [event_sent]: the application still listens. *)
Definition initial_handshake (ex : exchange) (event_sent : result unit str) :
    result unit ControllerError * list AppEvent :=
  let '(r, evs) := send_message Hello ex in
  match r with
  | Err e => (Err e, evs)
  | Ok Welcome => (Ok tt, evs)
  | Ok ServerFull =>
      match event_sent with
      | Ok _ => (Ok tt, evs ++ [Events.FullServerError])
      | Err e => (Err (Mapped e), evs)
      end
  | Ok _ => (Err BadResponse, evs)
  end.

(** [get_username] *)
Definition get_username (c : Controller) : result str ControllerError := get_token c.

(** ** Files: without a transferer nothing happens; [transfer] is the outcome of
    the transferer's method. *)

Definition send_file (transfer : result unit str) (c : Controller) : result unit ControllerError :=
  if file_transferer c then map_err Mapped transfer else Ok tt.
Definition accept_file (transfer : result unit str) (c : Controller) : result unit ControllerError :=
  if file_transferer c then map_err Mapped transfer else Ok tt.
Definition reject_file (transfer : result unit str) (c : Controller) : result unit ControllerError :=
  if file_transferer c then map_err Mapped transfer else Ok tt.

(** ** Calls *)

(** The outcomes of bringing the media up: the transport for the addresses, role
    and fingerprint asked, the file transfer, the pipeline. *)
Record call_media := mk_call_media {
  transport_start : Addr -> Addr -> DtlsSetupRole -> Fingerprint -> result unit str;
  transferer_new : Z -> Addr -> DtlsSetupRole -> Fingerprint -> result unit str;   (* from the local port *)
  devices : pipeline_io                    (* what the pipeline meets *)
}.

(** The traffic of the connectivity checks. *)
Record ice_traffic := mk_ice_traffic {
  timeout_set : bool;
  traffic : nat -> list Ice.turn
}.

Definition remote_address (selected : CandidatePair) (offset : Z) : result Addr ControllerError :=
  let text := address (remote selected) ++ lit ":" ++ show (wrap 16 (port (remote selected) + offset)) in
  ok_or (from_str text) (ParsingSocketAddressError (addr_error text)).

Definition get_remote_addresses (c : Controller) : result (Addr * Addr * Addr) ControllerError :=
  let? selected := map_err (fun e => Mapped (show_session_error e)) (session_selected_pair (call_session c)) in
  let? rtp := remote_address selected 0 in
  let? rtcp := remote_address selected 1 in
  let? sctp := remote_address selected 2 in
  Ok (rtp, rtcp, sctp).

(** [setup_file_transferer] *)
Definition setup_file_transferer (m : call_media) (sctp : Addr) (role : DtlsSetupRole) (f : Fingerprint)
    (c : Controller) : result unit ControllerError * Controller :=
  match transferer_new m (wrap 16 (rtp_port c + 2)) sctp role f with
  | Ok _ => (Ok tt, with_transferer true c)
  | Err e => (Err (Mapped e), c)
  end.

(** [join_call]: the transport, the file transfer, the pipeline; the events are
    the pipeline's. *)
Definition join_call (m : call_media) (c : Controller) : result unit ControllerError * list AppEvent * Controller :=
  match
    (let? addrs := map_err (fun e => Mapped (show_controller_error e)) (get_remote_addresses c) in
     let? fingerprint := ok_or (remote_fingerprint (call_session c)) NotLoggedInError in
     Ok (addrs, fingerprint))
  with
  | Err e => (Err e, [], c)
  | Ok (rtp, rtcp, sctp, fingerprint) =>
      let role := local_setup_role (call_session c) in
      match transport_start m rtp rtcp role fingerprint with
      | Err e => (Err (Mapped e), [], c)
      | Ok _ =>
          let '(r, c) := setup_file_transferer m sctp role fingerprint c in
          match r with
          | Err e => (Err e, [], c)
          | Ok _ =>
              let '(r, events, p) := pipeline_start (devices m) (media_pipeline c) in
              (map_err (fun e => Mapped (show_pipeline_error e)) r, events, with_pipeline p c)
          end
      end
  end.

Definition session_err (e : CallSessionError) : ControllerError := Mapped (show_session_error e).

(** The last part of [get_in_call] and [accept_call]: the checks, then [join_call]. *)
Definition check_and_join (t : ice_traffic) (m : call_media) (c : Controller) :
    result unit ControllerError * list AppEvent * Controller :=
  let '(r, s) := start_ice_checks (timeout_set t) (traffic t) (call_session c) in
  let c := with_session s c in
  match r with
  | Err e => (Err (session_err e), [], c)
  | Ok _ => join_call m c
  end.

Definition get_in_call (sdp_answer : Sdp) (t : ice_traffic) (m : call_media) (c : Controller) :
    result unit ControllerError * list AppEvent * Controller :=
  let '(r, s) := process_answer sdp_answer (call_session c) in
  let c := with_session s c in
  match r with
  | Err e => (Err (session_err e), [], c)
  | Ok _ => check_and_join t m c
  end.

Definition accept_call (to_usr : str) (offer_sdp : Sdp) (ex : exchange) (t : ice_traffic) (m : call_media)
    (c : Controller) : result unit ControllerError * list AppEvent * Controller :=
  let '(r, s) := process_offer offer_sdp (call_session c) in
  let c := with_session s c in
  match r with
  | Err e => (Err (session_err e), [], c)
  | Ok sdp_answer =>
      match get_token c with
      | Err e => (Err e, [], c)
      | Ok token =>
          let '(r, evs) := send_message (CallAccept token to_usr sdp_answer) ex in
          match r with
          | Err e => (Err e, evs, c)
          | Ok CallAcceptOk => let '(r, evs', c) := check_and_join t m c in (r, evs ++ evs', c)
          | Ok (CallAcceptError e) => (Err (CallError e), evs, c)
          | Ok _ => (Err BadResponse, evs, c)
          end
      end
  end.

(** [send_event_or_log_out] *)
Definition send_event_or_log_out (event_sent : bool) (e : AppEvent) (c : Controller) : list AppEvent * Controller :=
  if event_sent then ([e], c) else ([], with_logged_in false c).

Definition reject_call (to_usr : str) (ex : exchange) (event_sent : bool) (c : Controller) :
    result unit ControllerError * list AppEvent * Controller :=
  match get_token c with
  | Err e => (Err e, [], c)
  | Ok token =>
      let '(r, evs) := send_message (CallReject token to_usr) ex in
      match r with
      | Err e => (Err e, evs, c)
      | Ok CallRejectOk =>
          let '(e, c) := send_event_or_log_out event_sent Events.CallRejected c in (Ok tt, evs ++ e, c)
      | Ok (CallRejectError e) => (Err (CallError e), evs, c)
      | Ok _ => (Err BadResponse, evs, c)
      end
  end.

(** What hanging up stops and creates again: the transport's [stop], a new
    transport with its socket, a new session. *)
Record renewal := mk_renewal {
  transport_stop : result unit str;
  new_transport : result Z str;            (* the port of its sockets *)
  socket_clone : result unit str;
  new_session : result CallSession CallSessionError
}.

(** The pipeline stops whatever the transport does. *)
Definition stop_media_components (n : renewal) (c : Controller) : result unit ControllerError * Controller :=
  (map_err Mapped (transport_stop n),
   with_pipeline (pipeline_stop (lit "poisoned lock: another task failed inside") (media_pipeline c)) c).

(** [Controller::toggle_audio] *)
Definition toggle_audio (c : Controller) : Controller := with_pipeline (Capture.toggle_audio (media_pipeline c)) c.

Definition hang_up (ex : exchange) (n : renewal) (c : Controller) :
    result unit ControllerError * list AppEvent * Controller :=
  match get_token c with
  | Err e => (Err e, [], c)
  | Ok token =>
      let '(r, evs) := send_message (CallHangup token) ex in
      match r with
      | Err e => (Err e, evs, c)
      | Ok CallHangUpOk =>
          let '(r, c) := stop_media_components n c in
          match r with
          | Err e => (Err e, evs, c)
          | Ok _ =>
              let c := with_transferer false c in
              match map_err Mapped (new_transport n) with
              | Err e => (Err e, evs, c)
              | Ok port =>
                  let c := with_port port c in
                  match (let? _ := map_err CloningSocketError (socket_clone n) in map_err session_err (new_session n)) with
                  | Err e => (Err e, evs, c)
                  | Ok s => (Ok tt, evs, with_session s c)
                  end
              end
          end
      | Ok (CallHangUpError e) => (Err (CallError e), evs, c)
      | Ok _ => (Err BadResponse, evs, c)
      end
  end.

(** ** Messages pushed by the server *)

(** [update_status] on the lock [t]; a lock that is held is always there. *)
Definition update_status (name : str) (s : UserStatus) (t : nat) (c : Controller) :
    result unit ControllerError * Controller :=
  match tables c !! t with
  | Some u =>
      if poisoned u then (Err PoisonedStatus, c)
      else (Ok tt, with_tables (<[t := mk_table (<[name := s]> (entries u)) false]> (tables c)) c)
  | None => (Err PoisonedStatus, c)
  end.

(** The reply to send, the events sent. *)
Definition get_response_for_server_message (server_msg : ServerMessage Sdp) (event_sent : result unit str)
    (name : str) (user_status : nat) (c : Controller) :
    result (option ClientResponse) ControllerError * list AppEvent * Controller :=
  let event e :=
    match event_sent with
    | Ok _ => (Ok None, [e], c)
    | Err t => (Err (Mapped t), [], c)
    end in
  match server_msg with
  | UsernameRequest => (Ok (Some (Username name)), [], c)
  | UserStatusUpdate user s =>
      let '(r, c) := update_status user s user_status c in (let? _ := r in Ok None, [], c)
  | ServerMessage.CallIncoming from_usr offer_sdp => event (Events.CallIncoming from_usr offer_sdp)
  | ServerMessage.CallAccepted from_usr sdp_answer => event (Events.CallAccepted sdp_answer name from_usr)
  | ServerMessage.CallRejected => event Events.CallRejected
  | ServerMessage.Error e => event (ErrorEvent e)
  end.

(** [reply_written]: the outcome of writing a reply. *)
Definition handle_server_bytes (b : bytes) (event_sent : result unit str) (reply_written : result unit str)
    (name : str) (user_status : nat) (c : Controller) :
    result unit ControllerError * list bytes * list AppEvent * Controller :=
  match ServerMessage.from_bytes b with
  | None => (Err (Mapped (lit "Failed to parse message")), [], [], c)
  | Some server_msg =>
      let '(r, evs, c) := get_response_for_server_message server_msg event_sent name user_status c in
      match r with
      | Err e => (Err (Mapped (show_controller_error e)), [], evs, c)
      | Ok None => (Ok tt, [], evs, c)
      | Ok (Some response) =>
          match reply_written with
          | Err e => (Err (Mapped (show_controller_error (Mapped e))), [], evs, c)
          | Ok _ => (Ok tt, [response_to_bytes response], evs, c)
          end
      end
  end.

(** One turn of the receiver thread: what the read returned ([Ok []] at the end
    of the stream), the flag when a read has failed, whether the application
    listens, the write of a reply. *)
Record push_read := mk_push_read {
  pushed_bytes : result bytes str;
  still_logged_in : bool;
  event_ok : result unit str;
  reply_ok : result unit str
}.

(** [run_receiver_loop]: the replies written, the events sent, whether it has
    ended, the controller's shared state. *)
Fixpoint run_receiver_loop (name : str) (user_status : nat) (reads : list push_read) (c : Controller) :
    list bytes * list AppEvent * bool * Controller :=
  match reads with
  | [] => ([], [], false, c)
  | t :: reads =>
      if negb (logged_in c) then ([], [], true, c) else
      match pushed_bytes t with
      | Ok [] => ([], [], true, c)
      | Ok b =>
          let '(r, out, evs, c) := handle_server_bytes b (event_ok t) (reply_ok t) name user_status c in
          match r with
          | Err e =>
              let '(e', c) := send_event_or_log_out (is_ok (event_ok t)) (ErrorEvent (show_controller_error e)) c in
              (out, evs ++ e', true, c)
          | Ok _ =>
              let '(out', evs', ended, c) := run_receiver_loop name user_status reads c in
              (out ++ out', evs ++ evs', ended, c)
          end
      | Err e =>
          if still_logged_in t then
            let '(e', c) := send_event_or_log_out (is_ok (event_ok t)) (ErrorEvent e) c in ([], e', true, c)
          else ([], [], true, c)
      end
  end.

End Client.

(** ** The TLS connections *)

(** What [connect_tls] meets: the certificates of the file, whether each can be a
    root, the configured name, the TCP connection, the TLS state. *)
Record tls_io {Cert : Type} := mk_tls {
  ca_file : result (list (result Cert str)) str;
  as_root : Cert -> result unit str;
  server_name : bool;
  tcp_connect : result unit str;
  tls_connection : result unit str
}.
Arguments tls_io : clear implicits.

(** The loop over the certificates stops at the first bad one. *)
Fixpoint add_roots {Cert} (add : Cert -> result unit str) (certs : list (result Cert str)) (root_store : list Cert) :
    result (list Cert) ControllerError :=
  match certs with
  | [] => Ok root_store
  | Err e :: _ => Err (Mapped e)
  | Ok cert :: certs =>
      let? _ := map_err Mapped (add cert) in add_roots add certs (root_store ++ [cert])
  end.

(** [connect_tls]: the roots the session trusts.  The handshake itself is made by
    the first read or write. *)
Definition connect_tls {Cert} (io : tls_io Cert) : result (list Cert) ControllerError :=
  let? certs := map_err Mapped (ca_file io) in
  let? root_store := add_roots (as_root io) certs [] in
  let? _ := ok_or (if server_name io then Some tt else None) (Mapped (lit "Invalid server name")) in
  let? _ := map_err ConnectionSocketError (tcp_connect io) in
  let? _ := map_err Mapped (tls_connection io) in
  Ok root_store.

(** [start_server_receiver]: a connection of its own for the pushed messages; the
    thread on it is [run_receiver_loop]. *)
Definition start_server_receiver {Addr Cert} (io : Addr -> tls_io Cert) (server_client_addr : Addr) : result unit ControllerError :=
  let? _ := connect_tls (io server_client_addr) in Ok tt.


(** * Lemmas *)

Lemma map_Ok_inj {A E} (l k : list A) : map (@Ok A E) l = map Ok k -> l = k.
Proof. revert k. induction l as [|x l IH]; intros [|y k]; try done. cbn. intros [= -> E']. f_equal. by apply IH. Qed.

Lemma add_roots_spec {Cert} (add : Cert -> result unit str) certs store roots :
  add_roots add certs store = Ok roots <-> exists l, certs = map Ok l /\ roots = store ++ l /\ Forall (fun c => add c = Ok tt) l.
Proof.
  revert store roots. induction certs as [|[c|e] certs IH]; intros store roots; cbn [add_roots].
  - split; [intros [= ->]; exists []; by rewrite app_nil_r|]. intros ([|c l] & E & -> & _); [by rewrite app_nil_r|done].
  - destruct (add c) as [[]|e] eqn:Ea; cbn [map_err rbind].
    + rewrite IH. split.
      * intros (l & -> & -> & Hl). exists (c :: l). rewrite <-app_assoc. repeat split. by constructor.
      * intros ([|c' l] & E & -> & Hl); [done|]. injection E as <- ->. apply Forall_cons in Hl as [_ Hl].
        exists l. by rewrite <-app_assoc.
    + split; [done|]. intros ([|c' l] & E & _ & Hl); [done|]. injection E as <- _. apply Forall_cons in Hl as [Hc _]. congruence.
  - split; [done|]. by intros ([|c' l] & E & _).
Qed.

(** The session trusts exactly the certificates of the file, and there is one only
    if every certificate could be read and added, the name is valid, and the
    connection was made. *)
Lemma connect_tls_trusts {Cert} (io : tls_io Cert) roots :
  connect_tls io = Ok roots <->
  ca_file io = Ok (map Ok roots) /\ Forall (fun c => as_root io c = Ok tt) roots /\ server_name io = true /\
  is_ok (tcp_connect io) = true /\ is_ok (tls_connection io) = true.
Proof.
  unfold connect_tls. destruct (ca_file io) as [certs|e]; cbn [map_err rbind]; [|split; [done|by intros (? & _)]].
  destruct (add_roots (as_root io) certs []) as [store|e] eqn:Ea; cbn [rbind].
  - apply add_roots_spec in Ea as (l & -> & -> & Hl). cbn [List.app].
    destruct (server_name io), (tcp_connect io), (tls_connection io); cbn;
      (split; [by intros [= <-]|intros ([= E] & _ & ? & ? & ?); try done; f_equal; by apply map_Ok_inj in E]); try done.
  - split; [done|]. intros ([= ->] & Hl & _). exfalso.
    assert (E : add_roots (as_root io) (map Ok roots) [] = Ok roots) by (apply add_roots_spec; eauto). congruence.
Qed.
