(* ===== verification/OperatingServer.v ===== *)
(** The signalling server's core: src/server/operating_server.rs, the user
    record of src/user/user_data.rs and the errors of src/server/error.rs.

    [World] is what the handler threads share: the users map behind its RwLock
    (with a poison flag), the messages written so far on each client's inbound
    stream, the streams that take no more bytes, and the users file.  A stream is
    a number; [stream_poisoned] says which stream mutexes are poisoned.  A stream
    is [closed] once a LogOut has shut it down or its connection is lost; from
    then on every write on it fails, and what may have been written of a message
    before the failure is not a message.  An
    [OperatingServer] is the state of one handler thread.  Every method is a
    function on both; [call_request] is composed of the lock sections the code
    has ([call_request_read], [call_request_commit]), so that the interleaving
    of two handlers can be stated.  The order in which a broadcast walks the
    HashMap is a parameter ([MapOrder]).  Logging is left out. *)

From S2P Require Import Prelude.
From S2P Require Import Text.
From S2P Require Import Wire.
From S2P Require Import UserStatus.
From S2P Require Import ServerMessage.
From S2P Require Import ServerResponse.

Record UserData := mk_user {
  username : str;
  password : str;
  status : UserStatus;
  server_client_stream : option nat
}.

Definition new_user (u p : str) (s : UserStatus) : UserData := mk_user u p s None.
Definition update_status (s : UserStatus) (d : UserData) : UserData :=
  mk_user (username d) (password d) s (server_client_stream d).
Definition update_server_client_stream (i : nat) (d : UserData) : UserData :=
  mk_user (username d) (password d) (status d) (Some i).

Inductive ServerError :=
| OpenUserDataFileError
| WriteUserDataFileError
| UserDoesNotExist (usr_name : str)
| PoisonedLock
| UserNotAvailable (user_name : str)
| MapError (e : str)
| IPNotFound (e : str)
| FailedToBindAddress
| ConnectionError
| ServerOff
| InvalidFormat
| ServerFullError.

(** [impl Display for ServerError] *)
Definition show_error (e : ServerError) : str :=
  match e with
  | OpenUserDataFileError => lit "Error: failed to open user data file"
  | WriteUserDataFileError => lit "Error: failed to write user data file"
  | UserDoesNotExist usr_name => lit "Error: user does not exist: " ++ usr_name
  | PoisonedLock => lit "Error: poisoned lock"
  | UserNotAvailable user_name => lit "Error: user not available: " ++ user_name
  | MapError e => lit "Error: " ++ e
  | IPNotFound e => lit "Error: IP not found: " ++ e
  | FailedToBindAddress => lit "Error: failed to bind address"
  | ConnectionError => lit "Error: failed to connect"
  | ServerOff => lit "Error: is no longer available"
  | InvalidFormat => lit "Error: invalid format"
  | ServerFullError => lit "Error: server full"
  end.

(** Display of the standard library's PoisonError. *)
Definition poison_text : str := lit "poisoned lock: another task failed inside".

Definition validate_string (s : str) : result unit ServerError :=
  let trimmed := trim s in
  match trimmed with
  | [] => Err InvalidFormat
  | _ =>
      if contains_char 32 trimmed || contains_char 10 trimmed ||
         contains_char 58 trimmed || contains_char 124 trimmed
      then Err InvalidFormat else Ok tt
  end.

(** Whether opening and appending to the users file succeed. *)
Record Disk := mk_disk { open_ok : bool; write_ok : bool }.

Section Server.
Context {SDP Addr : Type} `{MapOrder UserData} (stream_poisoned : nat -> bool).

Record World := mk_world {
  users : gmap str UserData;
  users_poisoned : bool;
  pushed : list (nat * ServerMessage SDP);
  closed : list nat;
  users_file : bytes
}.

Record OperatingServer := mk_server {
  server_client_socket_address : Addr;
  me : option str                       (* the field [username] *)
}.

Definition set_users m w := mk_world m (users_poisoned w) (pushed w) (closed w) (users_file w).
Definition push i msg w := mk_world (users w) (users_poisoned w) (pushed w ++ [(i, msg)]) (closed w) (users_file w).
Definition shutdown i w := mk_world (users w) (users_poisoned w) (pushed w) (closed w ++ [i]) (users_file w).
Definition append_file b w := mk_world (users w) (users_poisoned w) (pushed w) (closed w) (users_file w ++ b).
Definition set_me u s := mk_server (server_client_socket_address s) u.

Definition get_user_data (user_name : str) (w : World) : result UserData str :=
  if users_poisoned w then Err (lit "Poisoned lock") else
  match users w !! user_name with
  | Some data => Ok data
  | None => Err (lit "User " ++ user_name ++ lit " not found")
  end.

Definition get_stream_from_user (name : str) (w : World) : result nat ServerError :=
  if users_poisoned w then Err PoisonedLock else
  match users w !! name with
  | Some user_data =>
      match server_client_stream user_data with
      | Some stream => Ok stream
      | None => Err (UserDoesNotExist name)
      end
  | None => Err (UserDoesNotExist name)
  end.

(** [guard.write_all(&message.to_bytes())] *)
Definition write_all (stream : nat) (msg : ServerMessage SDP) (w : World) : result World unit :=
  if bool_decide (stream ∈ closed w) then Err tt else Ok (push stream msg w).

(** [let _ =]: a write that fails is not noticed. *)
Definition send_message (stream : nat) (msg : ServerMessage SDP) (w : World) : World :=
  if stream_poisoned stream then w else
  match write_all stream msg w with
  | Ok w => w
  | Err _ => w
  end.

(** The streams of every user but [name], in iteration order. *)
Definition other_streams (name : str) (m : gmap str UserData) : list nat :=
  omap (fun kv => if str_eqb kv.1 name then None else server_client_stream kv.2) (iter m).

Definition notify_status_update (name : str) (s : UserStatus) (w : World) : World :=
  if users_poisoned w then w else
  foldl (fun w stream => send_message stream (UserStatusUpdate name s) w) w (other_streams name (users w)).

Definition get_clients_for_user (own_username : str) (w : World) : gmap str UserStatus :=
  if users_poisoned w then ∅ else
  status <$> filter (fun kv => kv.1 <> own_username) (users w).

Definition login_user (name passwd : str) (s : OperatingServer) (w : World)
    : ServerResponse Addr * OperatingServer * World :=
  if users_poisoned w then (ServerResponse.Error poison_text, s, w) else
  match users w !! name with
  | Some data =>
      if negb (str_eqb (password data) passwd)
      then (LoginError (lit "Wrong password. Try again"), s, w)
      else match status data with
      | Available | Occupied _ => (LoginError (lit "User already logged in"), s, w)
      | Offline =>
          let w := set_users (<[name := update_status Available data]> (users w)) w in
          let s := set_me (Some name) s in
          let w := notify_status_update name Available w in
          (LoginOk name (server_client_socket_address s) (get_clients_for_user name w), s, w)
      end
  | None => (LoginError (lit "User " ++ name ++ lit " not found"), s, w)
  end.

(** [writeln!(file, "{username}:{password}")] *)
Definition user_line (name passwd : str) : bytes := utf8_encode (name ++ [58] ++ passwd ++ [10]).

Definition load_user_data_in_disk (name passwd : str) (d : Disk) (w : World) : result unit ServerError * World :=
  if negb (open_ok d) then (Err OpenUserDataFileError, w)
  else if negb (write_ok d) then (Err WriteUserDataFileError, w)
  else (Ok tt, append_file (user_line name passwd) w).

Definition signup_user (name passwd : str) (d : Disk) (s : OperatingServer) (w : World)
    : ServerResponse Addr * OperatingServer * World :=
  if negb (is_ok (validate_string name)) then (SignupError (lit "Invalid username"), s, w)
  else if negb (is_ok (validate_string passwd)) then (SignupError (lit "Invalid password"), s, w)
  else if users_poisoned w then (SignupError poison_text, s, w)
  else match users w !! name with
  | Some _ => (SignupError (lit "User " ++ name ++ lit " already exists"), s, w)
  | None =>
      let w := set_users (<[name := new_user name passwd Offline]> (users w)) w in
      let w := notify_status_update name Offline w in
      let '(r, w) := load_user_data_in_disk name passwd d w in
      match r with
      | Err e => (ServerResponse.Error (lit "Error loading user data: " ++ show_error e), s, w)
      | Ok _ => (SignupOk, s, w)
      end
  end.

Definition logout_user (name : str) (s : OperatingServer) (w : World)
    : ServerResponse Addr * OperatingServer * World :=
  if users_poisoned w then (LogoutError poison_text, s, w) else
  match users w !! name with
  | Some user_data =>
      let w := set_users (<[name := update_status Offline user_data]> (users w)) w in
      match server_client_stream user_data with
      | None => (ServerResponse.Error (lit "User not found"), s, w)
      | Some stream =>
          if stream_poisoned stream then (ServerResponse.Error poison_text, s, w) else
          let w := shutdown stream w in
          let s := set_me None s in
          let w := notify_status_update name Offline w in
          (LogoutOk, s, w)
      end
  | None => (LogoutError (lit "User " ++ name ++ lit " not found"), s, w)
  end.

(** The read sections and checks of [call_request]. *)
Definition call_request_read (from_usr to_usr : str) (w : World)
    : result (nat * UserData * UserData) (ServerResponse Addr) :=
  let? stream := map_err (fun e => CallRequestError (show_error e)) (get_stream_from_user to_usr w) in
  let? from_usr_data := map_err ServerResponse.Error (get_user_data from_usr w) in
  let? to_usr_data := map_err ServerResponse.Error (get_user_data to_usr w) in
  if negb (bool_decide (status from_usr_data = Available))
  then Err (ServerResponse.Error (show_error (UserNotAvailable from_usr)))
  else if negb (bool_decide (status to_usr_data = Available))
  then Err (ServerResponse.Error (show_error (UserNotAvailable to_usr)))
  else Ok (stream, update_status (Occupied to_usr) from_usr_data, update_status (Occupied from_usr) to_usr_data).

(** Its write section, the broadcasts and the message to the callee. *)
Definition call_request_commit (from_usr to_usr : str) (offer_sdp : SDP)
    (read : nat * UserData * UserData) (w : World) : ServerResponse Addr * World :=
  let '(stream, from_usr_data, to_usr_data) := read in
  if users_poisoned w then (CallRequestError poison_text, w) else
  let w := set_users (<[username from_usr_data := from_usr_data]>
                     (<[username to_usr_data := to_usr_data]> (users w))) w in
  let w := notify_status_update from_usr (Occupied to_usr) w in
  let w := notify_status_update to_usr (Occupied from_usr) w in
  let w := send_message stream (CallIncoming from_usr offer_sdp) w in
  (CallRequestOk, w).

Definition call_request (from_usr to_usr : str) (offer_sdp : SDP) (w : World) : ServerResponse Addr * World :=
  match call_request_read from_usr to_usr w with
  | Err r => (r, w)
  | Ok read => call_request_commit from_usr to_usr offer_sdp read w
  end.

Definition call_accept (from_usr to_usr : str) (sdp_answer : SDP) (w : World) : ServerResponse Addr * World :=
  match
    let? stream := map_err (fun e => CallAcceptError (show_error e)) (get_stream_from_user to_usr w) in
    let? from_usr_data := map_err CallAcceptError (get_user_data from_usr w) in
    let? to_usr_data := map_err CallAcceptError (get_user_data to_usr w) in
    if negb (bool_decide (status from_usr_data = Occupied to_usr))
    then Err (CallAcceptError (show_error (UserNotAvailable from_usr)))
    else if negb (bool_decide (status to_usr_data = Occupied from_usr))
    then Err (CallAcceptError (show_error (UserNotAvailable to_usr)))
    else Ok stream
  with
  | Err r => (r, w)
  | Ok stream => (CallAcceptOk, send_message stream (CallAccepted from_usr sdp_answer) w)
  end.

Definition call_reject_read (from_usr to_usr : str) (w : World)
    : result (nat * UserData * UserData) (ServerResponse Addr) :=
  let? stream := map_err (fun e => CallRejectError (show_error e)) (get_stream_from_user to_usr w) in
  let? from_usr_data := map_err CallRejectError (get_user_data from_usr w) in
  let? to_usr_data := map_err CallRejectError (get_user_data to_usr w) in
  if negb (bool_decide (status from_usr_data = Occupied to_usr))
  then Err (CallRejectError (show_error (UserNotAvailable from_usr)))
  else if negb (bool_decide (status to_usr_data = Occupied from_usr))
  then Err (CallRejectError (show_error (UserNotAvailable to_usr)))
  else Ok (stream, update_status Available from_usr_data, update_status Available to_usr_data).

Definition call_reject (from_usr to_usr : str) (w : World) : ServerResponse Addr * World :=
  match call_reject_read from_usr to_usr w with
  | Err r => (r, w)
  | Ok (stream, from_usr_data, to_usr_data) =>
      let w := notify_status_update from_usr Available w in
      let w := notify_status_update to_usr Available w in
      if users_poisoned w then (CallRejectError poison_text, w) else
      let w := set_users (<[username from_usr_data := from_usr_data]>
                         (<[username to_usr_data := to_usr_data]> (users w))) w in
      (CallRejectOk, send_message stream CallRejected w)
  end.

Definition call_hangup (user : str) (w : World) : ServerResponse Addr * World :=
  if users_poisoned w then (CallHangUpError poison_text, w) else
  match users w !! user with
  | None => (CallHangUpError (lit "User does not exist"), w)
  | Some data =>
      match status data with
      | Occupied _ =>
          let w := set_users (<[user := update_status Available data]> (users w)) w in
          (CallHangUpOk, notify_status_update user Available w)
      | _ => (CallHangUpError (lit "Unexpected user status"), w)
      end
  end.

Definition make_user_offline (s : OperatingServer) (w : World)
    : result unit ServerError * OperatingServer * World :=
  match me s with
  | None => (Ok tt, s, w)
  | Some name =>
      if users_poisoned w then (Err (MapError poison_text), s, w) else
      match users w !! name with
      | None => (Err (UserNotAvailable name), s, w)
      | Some user_data =>
          let w := set_users (<[name := update_status Offline user_data]> (users w)) w in
          let w := notify_status_update name Offline w in
          (Ok tt, set_me None s, w)
      end
  end.

End Server.
Arguments World SDP : clear implicits.
Arguments OperatingServer Addr : clear implicits.

(** * Lemmas *)

Section Facts.
Context {SDP Addr : Type} `{Hord : MapOrder UserData} (stream_poisoned : nat -> bool).

(** The streams nothing can be written on. *)
Definition deaf (w : World SDP) (i : nat) : bool := stream_poisoned i || bool_decide (i ∈ closed w).

(** What a broadcast adds to the pushed messages. *)
Definition broadcast (deaf : nat -> bool) (name : str) (s : UserStatus) (m : gmap str UserData) : list (nat * ServerMessage SDP) :=
  (fun i => (i, UserStatusUpdate name s)) <$> filter (fun i => deaf i = false) (other_streams name m).

Lemma deaf_false w i : deaf w i = false <-> stream_poisoned i = false /\ i ∉ closed w.
Proof. unfold deaf. by rewrite orb_false_iff, bool_decide_eq_false. Qed.

Lemma deaf_closed w w' : closed w' = closed w -> deaf w' = deaf w.
Proof. unfold deaf. by intros ->. Qed.

Lemma send_message_eq i msg (w : World SDP) : send_message stream_poisoned i msg w = if deaf w i then w else push i msg w.
Proof. unfold send_message, write_all, deaf. destruct (stream_poisoned i); [done|]. by case_bool_decide. Qed.

Lemma notify_spec name s (w : World SDP) :
  users_poisoned w = false ->
  notify_status_update stream_poisoned name s w =
  mk_world (users w) (users_poisoned w) (pushed w ++ broadcast (deaf w) name s (users w)) (closed w) (users_file w).
Proof.
  intros Hp. unfold notify_status_update. rewrite Hp. unfold broadcast.
  set (l := other_streams name (users w)). clearbody l. revert w Hp.
  induction l as [|i l IH]; intros w Hp; cbn [foldl].
  - rewrite app_nil_r. destruct w. simpl in *. by subst.
  - rewrite filter_cons, send_message_eq. destruct (deaf w i) eqn:E.
    + rewrite decide_False by done. by apply IH.
    + rewrite decide_True by done. rewrite IH by done. rewrite (deaf_closed w (push _ _ w)) by done.
      unfold push. simpl. by rewrite <-app_assoc.
Qed.

Lemma notify_users name s (w : World SDP) :
  users (notify_status_update stream_poisoned name s w) = users w /\
  users_poisoned (notify_status_update stream_poisoned name s w) = users_poisoned w /\
  users_file (notify_status_update stream_poisoned name s w) = users_file w.
Proof.
  destruct (users_poisoned w) eqn:E.
  - unfold notify_status_update. rewrite E. by rewrite E.
  - by rewrite notify_spec.
Qed.

Lemma send_users i msg (w : World SDP) :
  users (send_message stream_poisoned i msg w) = users w /\
  users_poisoned (send_message stream_poisoned i msg w) = users_poisoned w /\
  users_file (send_message stream_poisoned i msg w) = users_file w.
Proof. rewrite send_message_eq. by destruct (deaf w i). Qed.

Lemma send_closed i msg (w : World SDP) : closed (send_message stream_poisoned i msg w) = closed w.
Proof. rewrite send_message_eq. by destruct (deaf w i). Qed.

(** Every record is filed under its own name. *)
Definition keyed (w : World SDP) : Prop := forall k d, users w !! k = Some d -> username d = k.

Lemma get_stream_ok name (w : World SDP) i :
  get_stream_from_user name w = Ok i <->
  users_poisoned w = false /\ exists d, users w !! name = Some d /\ server_client_stream d = Some i.
Proof.
  unfold get_stream_from_user. destruct (users_poisoned w); [split; [done|by intros [? _]]|].
  destruct (users w !! name) as [d|]; [|split; [done|by intros (_ & d & ? & _)]].
  destruct (server_client_stream d) eqn:E; split.
  - intros [= ->]. eauto.
  - intros (_ & d' & [= <-] & E'). congruence.
  - done.
  - intros (_ & d' & [= <-] & E'). congruence.
Qed.

(** When [call_request] goes through, and what it has read. *)
Lemma call_request_read_ok from to (w : World SDP) i f t :
  @call_request_read SDP Addr from to w = Ok (i, f, t) <->
  users_poisoned w = false /\ exists df dt,
    users w !! from = Some df /\ users w !! to = Some dt /\
    status df = Available /\ status dt = Available /\ server_client_stream dt = Some i /\
    f = update_status (Occupied to) df /\ t = update_status (Occupied from) dt.
Proof.
  unfold call_request_read. split.
  - destruct (get_stream_from_user to w) as [j|e] eqn:Es; [|done].
    apply get_stream_ok in Es as (Hp & d & Hd & Hj). simpl.
    unfold get_user_data. rewrite Hp, Hd. destruct (users w !! from) as [df|] eqn:Hf; [|done]. simpl.
    do 2 case_bool_decide; simpl; try done. intros [= -> <- <-]. split; [done|]. by exists df, d.
  - intros (Hp & df & dt & Hf & Ht & Hsf & Hst & Hi & -> & ->).
    assert (get_stream_from_user to w = Ok i) as -> by (apply get_stream_ok; eauto). simpl.
    unfold get_user_data. rewrite Hp, Hf, Ht. simpl. by rewrite !bool_decide_true.
Qed.

Lemma call_reject_read_ok from to (w : World SDP) i f t :
  @call_reject_read SDP Addr from to w = Ok (i, f, t) <->
  users_poisoned w = false /\ exists df dt,
    users w !! from = Some df /\ users w !! to = Some dt /\
    status df = Occupied to /\ status dt = Occupied from /\ server_client_stream dt = Some i /\
    f = update_status Available df /\ t = update_status Available dt.
Proof.
  unfold call_reject_read. split.
  - destruct (get_stream_from_user to w) as [j|e] eqn:Es; [|done].
    apply get_stream_ok in Es as (Hp & d & Hd & Hj). simpl.
    unfold get_user_data. rewrite Hp, Hd. destruct (users w !! from) as [df|] eqn:Hf; [|done]. simpl.
    do 2 case_bool_decide; simpl; try done. intros [= -> <- <-]. split; [done|]. by exists df, d.
  - intros (Hp & df & dt & Hf & Ht & Hsf & Hst & Hi & -> & ->).
    assert (get_stream_from_user to w = Ok i) as -> by (apply get_stream_ok; eauto). simpl.
    unfold get_user_data. rewrite Hp, Hf, Ht. simpl. by rewrite !bool_decide_true.
Qed.

(** The status changes a user may undergo in one operation. *)
Definition edge (s s' : UserStatus) : Prop :=
  s' = s \/ s' = Offline \/ (s = Offline /\ s' = Available) \/
  (s = Available /\ exists u, s' = Occupied u) \/ (exists u, s = Occupied u) /\ s' = Available.

(** A world in which every user of [w] is still there, with the same name and
    password and a legal status. *)
Definition evolves (w w' : World SDP) : Prop :=
  users_poisoned w' = users_poisoned w /\
  forall k d, users w !! k = Some d -> exists d', users w' !! k = Some d' /\
    username d' = username d /\ password d' = password d /\
    server_client_stream d' = server_client_stream d /\ edge (status d) (status d').

Lemma edge_refl s : edge s s.
Proof. by left. Qed.

Lemma evolves_refl w : evolves w w.
Proof. split; [done|]. intros k d Hd. exists d. split_and!; try done. apply edge_refl. Qed.

Lemma evolves_same w w' : users w' = users w -> users_poisoned w' = users_poisoned w -> evolves w w'.
Proof. intros E Ep. split; [done|]. intros k d Hd. exists d. rewrite E. split_and!; try done. apply edge_refl. Qed.

Lemma evolves_update w w' k s d :
  users w !! k = Some d -> edge (status d) s -> users_poisoned w' = users_poisoned w ->
  users w' = <[k := update_status s d]> (users w) -> evolves w w'.
Proof.
  intros Hd He Ep E. split; [done|]. intros k' d' Hd'. rewrite E. destruct (decide (k = k')) as [<-|Hne].
  - rewrite lookup_insert_eq. simplify_eq. eexists. by split_and!.
  - rewrite lookup_insert_ne by done. exists d'. split_and!; try done. apply edge_refl.
Qed.

(** The double insertion of [call_request] and [call_reject]. *)
Lemma evolves_update2 w w' from to sf st df dt :
  keyed w -> users w !! from = Some df -> users w !! to = Some dt ->
  edge (status df) sf -> edge (status dt) st -> users_poisoned w' = users_poisoned w ->
  users w' = <[username (update_status sf df) := update_status sf df]>
    (<[username (update_status st dt) := update_status st dt]> (users w)) -> evolves w w'.
Proof.
  intros Hk Hf Ht Hef Het Ep E. simpl in E. rewrite (Hk _ _ Hf), (Hk _ _ Ht) in E. split; [done|].
  intros k' d' Hd'. rewrite E. destruct (decide (from = k')) as [<-|Hne].
  - rewrite lookup_insert_eq. simplify_eq. eexists. by split_and!.
  - rewrite lookup_insert_ne by done. destruct (decide (to = k')) as [<-|Hne'].
    + rewrite lookup_insert_eq. simplify_eq. eexists. by split_and!.
    + rewrite lookup_insert_ne by done. exists d'. split_and!; try done. apply edge_refl.
Qed.

Lemma keyed_update w k s d : keyed w -> users w !! k = Some d -> keyed (set_users (<[k := update_status s d]> (users w)) w).
Proof.
  intros Hk Hd k' d'. simpl. rewrite lookup_insert_Some. intros [[<- <-]|[_ ?]]; [|by apply Hk].
  simpl. by apply Hk.
Qed.

Lemma keyed_same w w' : users w' = users w -> keyed w -> keyed w'.
Proof. intros E Hk k d. rewrite E. apply Hk. Qed.

Lemma keyed_update2 w df dt sf st :
  keyed w -> keyed (set_users (<[username (update_status sf df) := update_status sf df]>
    (<[username (update_status st dt) := update_status st dt]> (users w))) w).
Proof.
  intros Hk k d. simpl. rewrite lookup_insert_Some. intros [[<- <-]|[_ Hd]]; [done|].
  rewrite lookup_insert_Some in Hd. destruct Hd as [[<- <-]|[_ Hd]]; [done|]. by apply Hk.
Qed.

Lemma login_evolves name passwd (s : OperatingServer Addr) w :
  keyed w -> let '(_, _, w') := login_user stream_poisoned name passwd s w in keyed w' /\ evolves w w'.
Proof.
  intros Hk. unfold login_user. destruct (users_poisoned w) eqn:Ep; [split; [done|apply evolves_refl]|].
  destruct (users w !! name) as [d|] eqn:Hd; [|split; [done|apply evolves_refl]].
  destruct (negb _); [split; [done|apply evolves_refl]|].
  destruct (status d) eqn:Es; try (split; [done|apply evolves_refl]).
  destruct (notify_users name Available (set_users (<[name := update_status Available d]> (users w)) w)) as (E & Ep' & _).
  split.
  - eapply keyed_same; [exact E|]. by apply keyed_update.
  - eapply evolves_update; [exact Hd| |done|exact E]. rewrite Es. right; right; left. done.
Qed.

Lemma signup_evolves name passwd dk (s : OperatingServer Addr) w :
  keyed w -> let '(_, _, w') := signup_user stream_poisoned name passwd dk s w in keyed w' /\ evolves w w'.
Proof.
  intros Hk. unfold signup_user. do 2 (destruct (negb _); [split; [done|apply evolves_refl]|]).
  destruct (users_poisoned w) eqn:Ep; [split; [done|apply evolves_refl]|].
  destruct (users w !! name) as [d|] eqn:Hd; [split; [done|apply evolves_refl]|].
  set (w1 := set_users _ w).
  destruct (notify_users name Offline w1) as (E & Ep' & _). set (w2 := notify_status_update _ _ _ w1) in *.
  assert (Hw2 : keyed w2 /\ evolves w w2).
  { split.
    - eapply keyed_same; [exact E|]. intros k d. unfold w1. simpl. rewrite lookup_insert_Some.
      intros [[<- <-]|[_ ?]]; [done|by apply Hk].
    - split; [by rewrite Ep'|]. intros k d' Hd'. exists d'. rewrite E. unfold w1. simpl.
      rewrite lookup_insert_ne by congruence. split_and!; try done. apply edge_refl. }
  unfold load_user_data_in_disk. destruct (negb (open_ok dk)); [done|]. by destruct (negb (write_ok dk)).
Qed.

Lemma logout_evolves name (s : OperatingServer Addr) w :
  keyed w -> let '(_, _, w') := logout_user stream_poisoned name s w in keyed w' /\ evolves w w'.
Proof.
  intros Hk. unfold logout_user. destruct (users_poisoned w) eqn:Ep; [split; [done|apply evolves_refl]|].
  destruct (users w !! name) as [d|] eqn:Hd; [|split; [done|apply evolves_refl]].
  set (w1 := set_users _ w).
  assert (Hw1 : keyed w1 /\ evolves w w1).
  { split; [by apply keyed_update|]. eapply evolves_update; [exact Hd| |done|done]. by right; left. }
  destruct (server_client_stream d) as [i|]; [|done]. destruct (stream_poisoned i); [done|].
  destruct (notify_users name Offline (shutdown i w1)) as (E & Ep' & _). split.
  - eapply keyed_same; [exact E|]. apply Hw1.
  - eapply evolves_update; [exact Hd| |by rewrite Ep'|exact E]. by right; left.
Qed.

Lemma call_request_evolves from to sdp w :
  keyed w -> let '(_, w') := @call_request SDP Addr _ stream_poisoned from to sdp w in keyed w' /\ evolves w w'.
Proof.
  intros Hk. unfold call_request. destruct (call_request_read from to w) as [[[i f] t]|r] eqn:Er;
    [|split; [done|apply evolves_refl]].
  apply call_request_read_ok in Er as (Ep & df & dt & Hf & Ht & Hsf & Hst & _ & -> & ->).
  unfold call_request_commit. rewrite Ep. set (w1 := set_users _ w).
  destruct (notify_users from (Occupied to) w1) as (E1 & P1 & _). set (w2 := notify_status_update _ from _ w1) in *.
  destruct (notify_users to (Occupied from) w2) as (E2 & P2 & _). set (w3 := notify_status_update _ to _ w2) in *.
  destruct (send_users i (CallIncoming from sdp) w3) as (E3 & P3 & _).
  split.
  - apply (keyed_same w1); [by rewrite E3, E2, E1|]. by apply keyed_update2.
  - eapply (evolves_update2 w _ from to (Occupied to) (Occupied from) df dt); try done.
    + rewrite Hsf. right; right; right; left. eauto.
    + rewrite Hst. right; right; right; left. eauto.
    + by rewrite P3, P2, P1.
    + by rewrite E3, E2, E1.
Qed.

Lemma call_reject_evolves from to w :
  keyed w -> let '(_, w') := @call_reject SDP Addr _ stream_poisoned from to w in keyed w' /\ evolves w w'.
Proof.
  intros Hk. unfold call_reject. destruct (call_reject_read from to w) as [[[i f] t]|r] eqn:Er;
    [|split; [done|apply evolves_refl]].
  apply call_reject_read_ok in Er as (Ep & df & dt & Hf & Ht & Hsf & Hst & _ & -> & ->).
  destruct (notify_users from Available w) as (E1 & P1 & _). set (w1 := notify_status_update _ from _ w) in *.
  destruct (notify_users to Available w1) as (E2 & P2 & _). set (w2 := notify_status_update _ to _ w1) in *.
  rewrite P2, P1, Ep. set (w3 := set_users _ w2).
  destruct (send_users i CallRejected w3) as (E3 & P3 & _). split.
  - apply (keyed_same w3); [exact E3|]. apply keyed_update2. apply (keyed_same w); [by rewrite E2, E1|done].
  - eapply (evolves_update2 w _ from to Available Available df dt); try done.
    + rewrite Hsf. right; right; right; right. eauto.
    + rewrite Hst. right; right; right; right. eauto.
    + rewrite P3. unfold w3. simpl. by rewrite P2, P1.
    + rewrite E3. unfold w3. simpl. by rewrite E2, E1.
Qed.

Lemma call_hangup_evolves user w :
  keyed w -> let '(_, w') := @call_hangup SDP Addr _ stream_poisoned user w in keyed w' /\ evolves w w'.
Proof.
  intros Hk. unfold call_hangup. destruct (users_poisoned w) eqn:Ep; [split; [done|apply evolves_refl]|].
  destruct (users w !! user) as [d|] eqn:Hd; [|split; [done|apply evolves_refl]].
  destruct (status d) eqn:Es; try (split; [done|apply evolves_refl]).
  destruct (notify_users user Available (set_users (<[user := update_status Available d]> (users w)) w)) as (E & Ep' & _).
  split.
  - eapply keyed_same; [exact E|]. by apply keyed_update.
  - eapply evolves_update; [exact Hd| |by rewrite Ep'|exact E]. rewrite Es. right; right; right; right. eauto.
Qed.

Lemma call_accept_evolves from to sdp w :
  keyed w -> let '(_, w') := @call_accept SDP Addr stream_poisoned from to sdp w in keyed w' /\ evolves w w'.
Proof.
  intros Hk. unfold call_accept. destruct (rbind _ _) as [i|r]; [|split; [done|apply evolves_refl]].
  destruct (send_users i (CallAccepted from sdp) w) as (E & Ep & _). split; [by eapply keyed_same|].
  by apply evolves_same.
Qed.

Lemma make_user_offline_evolves (s : OperatingServer Addr) w :
  keyed w -> let '(_, _, w') := make_user_offline stream_poisoned s w in keyed w' /\ evolves w w'.
Proof.
  intros Hk. unfold make_user_offline. destruct (me s) as [name|]; [|split; [done|apply evolves_refl]].
  destruct (users_poisoned w) eqn:Ep; [split; [done|apply evolves_refl]|].
  destruct (users w !! name) as [d|] eqn:Hd; [|split; [done|apply evolves_refl]].
  destruct (notify_users name Offline (set_users (<[name := update_status Offline d]> (users w)) w)) as (E & Ep' & _).
  split.
  - eapply keyed_same; [exact E|]. by apply keyed_update.
  - eapply evolves_update; [exact Hd| |by rewrite Ep'|exact E]. by right; left.
Qed.

End Facts.

Lemma clients_others (name : str) (s : UserStatus) (d : UserData) (m : gmap str UserData) :
  status <$> filter (fun kv => kv.1 <> name) (<[name := update_status s d]> m) = status <$> delete name m.
Proof.
  f_equal. apply map_eq. intros k. rewrite map_lookup_filter.
  destruct (decide (k = name)) as [->|Hne].
  - rewrite lookup_insert_eq, lookup_delete_eq. simpl. case_guard; done.
  - rewrite lookup_insert_ne, lookup_delete_ne by done. destruct (m !! k); simpl; [|done]. case_guard; done.
Qed.

(** * Properties *)

(** What a successful call request leaves behind. *)
Definition requested {SDP} `{MapOrder UserData} (bad : nat -> bool) (from to : str) (sdp : SDP)
    (df dt : UserData) (i : nat) (w : World SDP) : World SDP :=
  let m := <[from := update_status (Occupied to) df]> (<[to := update_status (Occupied from) dt]> (users w)) in
  mk_world m false
    (pushed w ++ broadcast (deaf bad w) from (Occupied to) m ++ broadcast (deaf bad w) to (Occupied from) m ++
     (if deaf bad w i then [] else [(i, CallIncoming from sdp)])) (closed w) (users_file w).

Lemma call_request_does {SDP Addr} `{MapOrder UserData} bad from to (sdp : SDP) df dt i w :
  keyed w -> users_poisoned w = false -> users w !! from = Some df -> users w !! to = Some dt ->
  @call_request_commit SDP Addr _ bad from to sdp
    (i, update_status (Occupied to) df, update_status (Occupied from) dt) w =
  (CallRequestOk, requested bad from to sdp df dt i w).
Proof.
  intros Hk Hp Hf Ht. unfold call_request_commit. rewrite Hp. simpl username.
  rewrite (Hk _ _ Hf), (Hk _ _ Ht). rewrite (notify_spec bad from) by exact Hp. rewrite (notify_spec bad to) by exact Hp.
  rewrite send_message_eq, !(deaf_closed bad w) by done. unfold push, requested. cbn -[broadcast deaf]. rewrite ?Hp.
  destruct (deaf bad w i); simpl; by rewrite <-!app_assoc, ?app_nil_r.
Qed.

(** [login_user] succeeds exactly for a registered, offline user with the
    right password.  Then the user becomes Available, the handler remembers the
    name, every other connected user is told, and the answer lists the status
    of every other user.  Otherwise nothing at all changes. *)
Lemma login_spec {SDP Addr} `{MapOrder UserData} bad name passwd (s : OperatingServer Addr) (w : World SDP) :
  users_poisoned w = false ->
  (exists d, users w !! name = Some d /\ password d = passwd /\ status d = Offline /\
     let m := <[name := update_status Available d]> (users w) in
     login_user bad name passwd s w =
     (LoginOk name (server_client_socket_address s) (status <$> delete name (users w)), set_me (Some name) s,
      mk_world m false (pushed w ++ broadcast (deaf bad w) name Available m) (closed w) (users_file w))) \/
  (exists msg, login_user bad name passwd s w = (LoginError msg, s, w) /\
     forall d, users w !! name = Some d -> password d <> passwd \/ status d <> Offline).
Proof.
  intros Hp. unfold login_user. rewrite Hp. destruct (users w !! name) as [d|] eqn:Hd.
  2:{ right. eexists. split; [done|]. by intros. }
  destruct (str_eqb (password d) passwd) eqn:Epw; simpl.
  2:{ right. eexists. split; [done|]. intros d' [= <-]. left. intros E. apply str_eqb_spec in E. congruence. }
  apply str_eqb_spec in Epw. destruct (status d) eqn:Es;
    try (right; eexists; split; [done|]; intros d' [= <-]; right; congruence).
  left. exists d. split_and!; try done. rewrite notify_spec by exact Hp. simpl. unfold get_clients_for_user. simpl.
  rewrite Hp. by rewrite clients_others.
Qed.

(** C9: [call_request] succeeds exactly when both users are registered and
    Available and the callee has an inbound stream.  Then both become Occupied
    with each other, everybody else is told of both changes, and the callee is
    sent the offer.  Otherwise an error is returned and nothing changes. *)
Theorem call_request_spec {SDP Addr} `{MapOrder UserData} bad from to (sdp : SDP) w :
  keyed w -> users_poisoned w = false ->
  (exists df dt i, users w !! from = Some df /\ users w !! to = Some dt /\ status df = Available /\
     status dt = Available /\ server_client_stream dt = Some i /\
     @call_request SDP Addr _ bad from to sdp w = (CallRequestOk, requested bad from to sdp df dt i w)) \/
  (exists r, call_request bad from to sdp w = (r, w) /\ r <> (CallRequestOk : ServerResponse Addr) /\
     forall df dt i, users w !! from = Some df -> users w !! to = Some dt -> server_client_stream dt = Some i ->
       status df <> Available \/ status dt <> Available).
Proof.
  intros Hk Hp. unfold call_request. destruct (@call_request_read SDP Addr from to w) as [[[i f] t]|r] eqn:Er.
  - apply call_request_read_ok in Er as (_ & df & dt & Hf & Ht & Hsf & Hst & Hi & -> & ->). left.
    exists df, dt, i. split_and!; try done. by apply call_request_does.
  - right. exists r. split; [done|]. split.
    + intros ->. revert Er. unfold call_request_read.
      destruct (get_stream_from_user to w); simpl; [|done]. destruct (get_user_data from w); simpl; [|done].
      destruct (get_user_data to w); simpl; [|done]. destruct (negb _); [done|]. by destruct (negb _).
    + intros df dt i Hf Ht Hi. destruct (decide (status df = Available)) as [Hsf|]; [|by left].
      destruct (decide (status dt = Available)) as [Hst|]; [|by right].
      assert (E : @call_request_read SDP Addr from to w = Ok (i, update_status (Occupied to) df, update_status (Occupied from) dt)).
      { apply call_request_read_ok. split; [done|]. by exists df, dt. }
      congruence.
Qed.

(** A request on an Available pair goes through. *)
Lemma call_request_goes {SDP Addr} `{MapOrder UserData} bad a b (offer : SDP) w da db j :
  keyed w -> users_poisoned w = false -> users w !! a = Some da -> users w !! b = Some db ->
  status da = Available -> status db = Available -> server_client_stream db = Some j ->
  @call_request SDP Addr _ bad a b offer w = (CallRequestOk, requested bad a b offer da db j w).
Proof.
  intros Hk Hp Ha Hb Hsa Hsb Hj. unfold call_request.
  assert (@call_request_read SDP Addr a b w = Ok (j, update_status (Occupied b) da, update_status (Occupied a) db)) as ->.
  { apply call_request_read_ok. split; [done|]. by exists da, db. }
  by apply call_request_does.
Qed.

Lemma requested_pair {SDP} `{MapOrder UserData} bad a b (offer : SDP) w da db j :
  a <> b ->
  users (requested bad a b offer da db j w) !! a = Some (update_status (Occupied b) da) /\
  users (requested bad a b offer da db j w) !! b = Some (update_status (Occupied a) db).
Proof.
  intros Hab. cbn [users requested]. split; [by rewrite lookup_insert_eq|].
  rewrite lookup_insert_ne by done. by rewrite lookup_insert_eq.
Qed.

(** The caller is told that the call goes through even when the callee's stream
    takes nothing: both are busy with each other, and the callee is never told. *)
Lemma unheard_call {SDP Addr} `{MapOrder UserData} bad a b (offer : SDP) w da db j :
  keyed w -> users_poisoned w = false -> users w !! a = Some da -> users w !! b = Some db -> a <> b ->
  status da = Available -> status db = Available -> server_client_stream db = Some j -> j ∈ closed w ->
  exists w', @call_request SDP Addr _ bad a b offer w = (CallRequestOk, w') /\
    status <$> users w' !! a = Some (Occupied b) /\ status <$> users w' !! b = Some (Occupied a) /\
    forall msg, (j, msg) ∈ pushed w' -> (j, msg) ∈ pushed w.
Proof.
  intros Hk Hp Ha Hb Hab Hsa Hsb Hj Hcl. eexists. split; [by apply call_request_goes|].
  destruct (requested_pair bad a b offer w da db j Hab) as [-> ->]. split; [done|]. split; [done|].
  assert (Hd : deaf bad w j = true) by (unfold deaf; by rewrite bool_decide_true, orb_true_r).
  intros msg. cbn [pushed requested]. rewrite Hd, app_nil_r, !elem_of_app.
  intros [?|[Hin|Hin]]; [done|..]; apply list_elem_of_fmap in Hin as (i & [= <- _] & [Hi _]%list_elem_of_filter); congruence.
Qed.

(** Afterwards the callee can accept. *)
Lemma requested_accept {SDP Addr} `{MapOrder UserData} bad a b (offer answer : SDP) w da db i j :
  a <> b -> server_client_stream da = Some i -> deaf bad w i = false ->
  let w1 := requested bad a b offer da db j w in
  @call_accept SDP Addr bad b a answer w1 = (CallAcceptOk, push i (CallAccepted b answer) w1).
Proof.
  intros Hab Hi Hbad w1. destruct (requested_pair bad a b offer w da db j Hab) as [Ha1 Hb1].
  fold w1 in Ha1, Hb1. assert (Hp1 : users_poisoned w1 = false) by done.
  unfold call_accept.
  assert (get_stream_from_user a w1 = Ok i) as -> by (apply get_stream_ok; split; [done|]; eauto).
  unfold get_user_data. rewrite Ha1, Hb1, Hp1. cbn [rbind map_err status update_status].
  rewrite !bool_decide_true by done. cbn [negb]. by rewrite send_message_eq, (deaf_closed bad w), Hbad.
Qed.

(** A call offered by a to b can be answered.  After a successful request,
    b's acceptance reaches a's stream with the answer and leaves the pair
    Occupied; b's rejection makes both Available again and reaches a's stream. *)
Lemma call_flow {SDP Addr} `{MapOrder UserData} bad a b (offer answer : SDP) w da db i j :
  keyed w -> users_poisoned w = false -> a <> b ->
  users w !! a = Some da -> users w !! b = Some db -> status da = Available -> status db = Available ->
  server_client_stream da = Some i -> server_client_stream db = Some j -> deaf bad w i = false ->
  exists w1, @call_request SDP Addr _ bad a b offer w = (CallRequestOk, w1) /\
    @call_accept SDP Addr bad b a answer w1 = (CallAcceptOk, push i (CallAccepted b answer) w1) /\
    exists w2, @call_reject SDP Addr _ bad b a w1 = (CallRejectOk, push i CallRejected w2) /\
      status <$> users w2 !! a = Some Available /\ status <$> users w2 !! b = Some Available /\
      forall k, k <> a -> k <> b -> users w2 !! k = users w !! k.
Proof.
  intros Hk Hp Hab Ha Hb Hsa Hsb Hi Hj Hbad.
  exists (requested bad a b offer da db j w). split; [by apply call_request_goes|].
  destruct (requested_pair bad a b offer w da db j Hab) as [Ha1 Hb1]. set (w1 := requested _ _ _ _ _ _ _ _) in *.
  split.
  - by apply (requested_accept bad a b offer answer w da db i j).
  - unfold call_reject.
    assert (@call_reject_read SDP Addr b a w1 =
      Ok (i, update_status Available (update_status (Occupied a) db), update_status Available (update_status (Occupied b) da))) as ->.
    { apply call_reject_read_ok. split; [done|]. by eexists _, _. }
    assert (P1 : users_poisoned w1 = false) by done. rewrite (notify_spec bad b) by exact P1.
    rewrite (notify_spec bad a) by exact P1. cbn -[broadcast].
    rewrite send_message_eq, (deaf_closed bad w), Hbad by done. eexists. split; [reflexivity|]. simpl.
    rewrite (Hk _ _ Ha), (Hk _ _ Hb). split_and!.
    + rewrite lookup_insert_ne, lookup_insert_eq by done. done.
    + by rewrite lookup_insert_eq.
    + intros k Hka Hkb. by rewrite !lookup_insert_ne by done.
Qed.

(** The availability check and the update of [call_request] are separate
    lock sections, and two handlers can interleave: a and b call c at the same
    time, both read it Available, both are told CallRequestOk, and in the end a
    and b are Occupied with c while c is Occupied with b only: a's call can
    no longer be accepted. *)
Lemma call_request_race {SDP Addr} `{MapOrder UserData} bad a b c (sa sb sdp : SDP) w da db dc i j :
  keyed w -> users_poisoned w = false -> a <> b -> a <> c -> b <> c ->
  users w !! a = Some da -> users w !! b = Some db -> users w !! c = Some dc ->
  status da = Available -> status db = Available -> status dc = Available ->
  server_client_stream dc = Some i -> server_client_stream da = Some j ->
  exists ra rb w1 w2,
    @call_request_read SDP Addr a c w = Ok ra /\ @call_request_read SDP Addr b c w = Ok rb /\
    @call_request_commit SDP Addr _ bad a c sa ra w = (CallRequestOk, w1) /\
    @call_request_commit SDP Addr _ bad b c sb rb w1 = (CallRequestOk, w2) /\
    status <$> users w2 !! a = Some (Occupied c) /\ status <$> users w2 !! b = Some (Occupied c) /\
    status <$> users w2 !! c = Some (Occupied b) /\
    @call_accept SDP Addr bad c a sdp w2 = (CallAcceptError (show_error (UserNotAvailable c)), w2).
Proof.
  intros Hk Hp Hab Hac Hbc Ha Hb Hc Hsa Hsb Hsc Hi Hj.
  exists (i, update_status (Occupied c) da, update_status (Occupied a) dc),
         (i, update_status (Occupied c) db, update_status (Occupied b) dc),
         (requested bad a c sa da dc i w).
  set (w1 := requested bad a c sa da dc i w).
  assert (H1 : @call_request_commit SDP Addr _ bad a c sa
    (i, update_status (Occupied c) da, update_status (Occupied a) dc) w = (CallRequestOk, w1))
    by by apply call_request_does.
  set (dc1 := update_status (Occupied a) dc).
  assert (Hk1 : keyed w1).
  { intros k d. unfold w1. simpl. rewrite !lookup_insert_Some.
    intros [[<- <-]|[_ [[<- <-]|[_ ?]]]]; simpl; by apply Hk. }
  assert (Hb1 : users w1 !! b = Some db) by (unfold w1; simpl; by rewrite !lookup_insert_ne by done).
  assert (Hc1 : users w1 !! c = Some dc1).
  { unfold w1; simpl. rewrite lookup_insert_ne by done. apply lookup_insert_eq. }
  exists (requested bad b c sb db dc1 i w1). split_and!.
  - apply call_request_read_ok. split; [done|]. by exists da, dc.
  - apply call_request_read_ok. split; [done|]. by exists db, dc.
  - done.
  - change (update_status (Occupied b) dc) with (update_status (Occupied b) dc1). by apply call_request_does.
  - simpl. rewrite !lookup_insert_ne by done. by rewrite lookup_insert_eq.
  - simpl. by rewrite lookup_insert_eq.
  - simpl. rewrite lookup_insert_ne by done. by rewrite lookup_insert_eq.
  - set (w2 := requested _ _ _ _ _ _ _ _).
    assert (Ha2 : users w2 !! a = Some (update_status (Occupied c) da)).
    { unfold w2; simpl. rewrite !lookup_insert_ne by done. apply lookup_insert_eq. }
    assert (Hc2 : users w2 !! c = Some (update_status (Occupied b) dc1)).
    { unfold w2; simpl. rewrite lookup_insert_ne by done. apply lookup_insert_eq. }
    unfold call_accept.
    assert (get_stream_from_user a w2 = Ok j) as -> by (apply get_stream_ok; split; [done|]; eauto).
    unfold get_user_data. rewrite Ha2, Hc2. simpl. rewrite bool_decide_false; [done|]. by intros [= ->].
Qed.

(** [call_accept] and [call_reject] refuse a pair of Available users, with
    an error and without any change (their documentation says they require it). *)
Lemma available_pair_refused {SDP Addr} `{MapOrder UserData} bad from to (sdp : SDP) w df dt :
  users w !! from = Some df -> users w !! to = Some dt -> status df = Available -> status dt = Available ->
  (exists m, @call_accept SDP Addr bad from to sdp w = (CallAcceptError m, w)) /\
  (exists m, @call_reject SDP Addr _ bad from to w = (CallRejectError m, w)).
Proof.
  intros Hf Ht Hsf Hst. unfold call_accept, call_reject, call_reject_read, get_stream_from_user, get_user_data.
  destruct (users_poisoned w); [split; eexists; reflexivity|]. rewrite Hf, Ht.
  destruct (server_client_stream dt); [|split; eexists; reflexivity]. simpl. rewrite Hsf.
  split; eexists; reflexivity.
Qed.

(** * Witnesses *)

#[local] Instance demo_order : MapOrder UserData := { iter := map_to_list; iter_permutation m := Permutation_refl _ }.

(** Three connected users. *)
Definition demo_user (u : str) (s : UserStatus) (i : nat) : UserData := mk_user u (lit "pw") s (Some i).
Definition demo_world (s : UserStatus) : World str :=
  mk_world {[ lit "ann" := demo_user (lit "ann") s 1; lit "bob" := demo_user (lit "bob") s 2;
              lit "cat" := demo_user (lit "cat") s 3 ]} false [] [] [].
Definition demo_server : OperatingServer str := mk_server (lit "127.0.0.1:8081") None.

Lemma demo_keyed s : keyed (demo_world s).
Proof.
  intros k d. unfold demo_world. simpl. rewrite !lookup_insert_Some, lookup_singleton_Some.
  by intros [[<- <-]|[_ [[<- <-]|[_ [<- <-]]]]].
Qed.

Lemma call_request_spec_witness :
  exists w', @call_request str str _ (fun _ => false) (lit "ann") (lit "bob") (lit "v=0") (demo_world Available) = (CallRequestOk, w').
Proof.
  destruct (@call_request_spec str str _ (fun _ => false) (lit "ann") (lit "bob") (lit "v=0") (demo_world Available))
    as [(df & dt & i & _ & _ & _ & _ & _ & E)|(r & _ & _ & Hno)].
  - apply demo_keyed.
  - reflexivity.
  - eexists. exact E.
  - exfalso. by destruct (Hno (demo_user (lit "ann") Available 1) (demo_user (lit "bob") Available 2) 2%nat eq_refl eq_refl eq_refl).
Defined.
