(* ===== verification/UserHandler.v ===== *)
(** One client connection of the server: src/server/user_handler.rs.  The TLS
    stream is a list of the outcomes of its reads and writes; [handle_client]
    consumes one [turn] per iteration of its loop and collects the answers it
    wrote.  The configured capacity and the shared counter of connections are
    arguments of the handshake. *)

From S2P Require Import Prelude.
From S2P Require Import Text.
From S2P Require Import Wire.
From S2P Require Import UserStatus.
From S2P Require Import ClientMessage.
From S2P Require Import ServerMessage.
From S2P Require Import ServerResponse.
From S2P Require Import OperatingServer.

(** What [stream.read] returned. *)
Inductive read :=
| Eof
| Data (b : bytes)
| ReadError.

(** One iteration: the [on] flag, the read, whether the disk takes a new user,
    and whether the answer could be written. *)
Record turn := mk_turn {
  turn_on : bool;
  turn_read : read;
  turn_disk : Disk;
  turn_sent : bool
}.

Section Handler.
Context {SDP Addr : Type} `{Wire SDP} `{MapOrder UserData} (stream_poisoned : nat -> bool).

Definition handle_client_message (event : ClientMessage SDP) (d : Disk) (s : OperatingServer Addr) (w : World SDP)
    : ServerResponse Addr * OperatingServer Addr * World SDP :=
  let without_me r := let '(resp, w) := (r : ServerResponse Addr * World SDP) in (resp, s, w) in
  match event with
  | LogIn username password => login_user stream_poisoned username password s w
  | SignUp username password => signup_user stream_poisoned username password d s w
  | LogOut token => logout_user stream_poisoned token s w
  | CallRequest token offer_sdp to => without_me (call_request stream_poisoned token to offer_sdp w)
  | CallAccept from_usr to_usr sdp_answer => without_me (call_accept stream_poisoned from_usr to_usr sdp_answer w)
  | CallReject from_usr to_usr => without_me (call_reject stream_poisoned from_usr to_usr w)
  | CallHangup token => without_me (call_hangup stream_poisoned token w)
  | Hello => (BadMessage, s, w)
  end.

(** The loop over the connection's turns: the answers written and the final
    state, with the value returned ([None]: still waiting for a read). *)
Fixpoint handle_client (turns : list turn) (s : OperatingServer Addr) (w : World SDP)
    : option (result unit ServerError) * list (ServerResponse Addr) * OperatingServer Addr * World SDP :=
  match turns with
  | [] => (None, [], s, w)
  | t :: turns =>
      if negb (turn_on t) then (Some (Err ServerOff), [], s, w) else
      match turn_read t with
      | Eof =>
          let '(r, s, w) := make_user_offline stream_poisoned s w in
          (Some (let? _ := r in Ok tt), [], s, w)
      | ReadError =>
          let '(r, s, w) := make_user_offline stream_poisoned s w in
          (Some (let? _ := r in Err ConnectionError), [], s, w)
      | Data b =>
          let '(resp, s, w) :=
            match ClientMessage.from_bytes b with
            | Some event => handle_client_message event (turn_disk t) s w
            | None => (BadMessage, s, w)
            end in
          if negb (turn_sent t) then (Some (Err ConnectionError), [], s, w) else
          let '(r, resps, s, w) := handle_client turns s w in (r, resp :: resps, s, w)
      end
  end.

(** The handshake on the first read, the capacity and the counter: its result,
    the answer written, and the new counter. *)
Definition client_server_handshake (r : read) (sent : bool) (max_amount_of_users_connected users_connected : nat)
    : result unit ServerError * option (ServerResponse Addr) * nat :=
  match r with
  | ReadError => (Err ConnectionError, None, users_connected)
  | _ =>
      let b := match r with Data b => b | _ => [] end in
      match ClientMessage.from_bytes (SDP := SDP) b with
      | Some Hello =>
          if (max_amount_of_users_connected <=? users_connected)%nat
          then if sent then (Err ServerFullError, Some ServerFull, users_connected)
               else (Err ConnectionError, None, users_connected)
          else if sent then (Ok tt, Some Welcome, S users_connected)
               else (Err ConnectionError, None, users_connected)
      | _ => (Err ConnectionError, None, users_connected)
      end
  end.

End Handler.

(** * Lemmas *)

Section Facts.
Context {SDP Addr : Type} `{Wire SDP} `{Hord : MapOrder UserData} (stream_poisoned : nat -> bool).


Lemma handle_client_message_evolves (event : ClientMessage SDP) dk (s : OperatingServer Addr) w :
  keyed w ->
  let '(_, _, w') := handle_client_message stream_poisoned event dk s w in keyed w' /\ evolves w w'.
Proof.
  intros Hk. destruct event as [|u p|u p|t|t sdp to|f t sdp|f t|t]; simpl.
  - split; [done|apply evolves_refl].
  - by apply login_evolves.
  - by apply signup_evolves.
  - by apply logout_evolves.
  - pose proof (call_request_evolves (Addr := Addr) stream_poisoned t to sdp w Hk). by destruct (call_request _ _ _ _ _).
  - pose proof (call_accept_evolves (Addr := Addr) stream_poisoned f t sdp w Hk). by destruct (call_accept _ _ _ _ _).
  - pose proof (call_reject_evolves (Addr := Addr) stream_poisoned f t w Hk). by destruct (call_reject _ _ _ _).
  - pose proof (call_hangup_evolves (Addr := Addr) stream_poisoned t w Hk). by destruct (call_hangup _ _ _).
Qed.

(** The name [k] is still unknown after an operation that left the users alone. *)
Ltac unchanged :=
  cbv beta iota zeta; cbn [fst snd];
  match goal with Hn : _ !! _ = None |- _ => rewrite Hn; by intros [? ?] end.

(** Only a signup can add a user. *)
Lemma handle_client_message_adds (event : ClientMessage SDP) dk (s : OperatingServer Addr) w k :
  keyed w -> users w !! k = None ->
  let '(_, _, w') := handle_client_message stream_poisoned event dk s w in
  is_Some (users w' !! k) -> exists p, event = SignUp k p.
Proof.
  intros Hk Hn.
  destruct event as [|u p|u p|t|t sdp to|f t sdp|f t|t]; simpl; try (unchanged).
  - unfold login_user. destruct (users_poisoned w); [unchanged|].
    destruct (users w !! u) as [d|] eqn:Hd; [|unchanged].
    destruct (negb _); [unchanged|].
    destruct (status d); try (unchanged).
    rewrite (proj1 (notify_users _ _ _ _)). simpl. rewrite lookup_insert_ne by congruence. rewrite Hn. by intros [? ?].
  - unfold signup_user. do 2 (destruct (negb _); [unchanged|]).
    destruct (users_poisoned w); [unchanged|].
    destruct (users w !! u) as [d|] eqn:Hd; [unchanged|].
    set (w2 := notify_status_update _ _ _ _).
    assert (E : users w2 = <[u := new_user u p Offline]> (users w)) by (unfold w2; by rewrite (proj1 (notify_users _ _ _ _))).
    assert (G : is_Some (users w2 !! k) -> exists p', SignUp u p = (SignUp k p' : ClientMessage SDP)).
    { rewrite E. destruct (decide (u = k)) as [->|]; [by eexists|].
      rewrite lookup_insert_ne, Hn by done. by intros [? ?]. }
    unfold load_user_data_in_disk. destruct (negb (open_ok dk)); [done|]. by destruct (negb (write_ok dk)).
  - unfold logout_user. destruct (users_poisoned w); [unchanged|].
    destruct (users w !! t) as [d|] eqn:Hd; [|unchanged].
    destruct (server_client_stream d); [destruct (stream_poisoned n)|];
      rewrite ?(proj1 (notify_users _ _ _ _)); simpl; rewrite lookup_insert_ne by congruence; unchanged.
  - unfold call_request. destruct (call_request_read t to w) as [[[i f'] t']|r] eqn:Er; [|unchanged].
    apply call_request_read_ok in Er as (Ep & df & dt & Hf & Ht & _ & _ & _ & -> & ->).
    rewrite call_request_does by done. simpl. rewrite !lookup_insert_ne by congruence. rewrite Hn. by intros [? ?].
  - unfold call_accept. destruct (rbind _ _) as [i|r]; [|unchanged].
    rewrite (proj1 (send_users _ _ _ _)), Hn. by intros [? ?].
  - unfold call_reject. destruct (call_reject_read f t w) as [[[i f'] t']|r] eqn:Er; [|unchanged].
    apply call_reject_read_ok in Er as (Ep & df & dt & Hf & Ht & _ & _ & _ & -> & ->).
    assert (E : users (notify_status_update stream_poisoned t Available (notify_status_update stream_poisoned f Available w)) = users w)
      by by rewrite !(proj1 (notify_users _ _ _ _)).
    assert (P : users_poisoned (notify_status_update stream_poisoned t Available (notify_status_update stream_poisoned f Available w)) = false)
      by (by rewrite !(proj1 (proj2 (notify_users _ _ _ _)))).
    rewrite P. cbv beta iota zeta.
    rewrite (proj1 (send_users _ _ _ _)). simpl. rewrite (Hk _ _ Hf), (Hk _ _ Ht), E.
    rewrite !lookup_insert_ne by congruence. rewrite Hn. by intros [? ?].
  - unfold call_hangup. destruct (users_poisoned w); [unchanged|].
    destruct (users w !! t) as [d|] eqn:Hd; [|unchanged].
    destruct (status d); try (unchanged).
    rewrite (proj1 (notify_users _ _ _ _)). simpl. rewrite lookup_insert_ne by congruence. rewrite Hn. by intros [? ?].
Qed.

End Facts.

(** * Properties *)

(** C1: whatever message a client sends, every record stays filed under its own
    name, no registered user disappears or has its name, password or stream
    changed, statuses move only along the legal edges (offline to available by
    login, available to occupied and back by calls, anything to offline), and
    a new name appears only by a SignUp for that name. *)
Theorem message_safe {SDP Addr} `{Wire SDP} `{MapOrder UserData} bad (event : ClientMessage SDP) dk
    (s : OperatingServer Addr) w :
  keyed w ->
  let '(_, _, w') := handle_client_message bad event dk s w in
  keyed w' /\ evolves w w' /\
  forall k, users w !! k = None -> is_Some (users w' !! k) -> exists p, event = SignUp k p.
Proof.
  intros Hk. pose proof (handle_client_message_evolves bad event dk s w Hk) as He.
  pose proof (fun k => handle_client_message_adds bad event dk s w k Hk) as Ha.
  destruct (handle_client_message bad event dk s w) as [[r s'] w']. destruct He. by split_and!.
Qed.

(** When a client disconnects, its user (if one is logged in) becomes
    Offline, everybody else is told, and the loop ends normally. *)
Lemma disconnect_offline {SDP Addr} `{Wire SDP} `{MapOrder UserData} bad name d dk sent turns
    (s : OperatingServer Addr) (w : World SDP) :
  me s = Some name -> users_poisoned w = false -> users w !! name = Some d ->
  let m := <[name := update_status Offline d]> (users w) in
  handle_client bad (mk_turn true Eof dk sent :: turns) s w =
  (Some (Ok tt), [], set_me None s,
   mk_world m false (pushed w ++ broadcast (deaf bad w) name Offline m) (closed w) (users_file w)).
Proof.
  intros Hme Hp Hd. simpl. unfold make_user_offline. rewrite Hme, Hp, Hd.
  rewrite notify_spec by exact Hp. simpl. by rewrite Hp.
Qed.

(** The handshake admits a client exactly when it says Hello while the
    counter is below the configured capacity and the answer can be written;
    only then is the counter incremented, so that, one handshake at a time, it
    never exceeds the capacity. *)
Lemma handshake_capacity {SDP Addr} `{Wire SDP} r sent (cap n : nat) :
  (n <= cap)%nat ->
  let '(res, ans, n') := client_server_handshake (SDP := SDP) (Addr := Addr) r sent cap n in
  (n' <= cap)%nat /\
  (res = Ok tt <-> n' = S n) /\
  (res = Ok tt <-> (n < cap)%nat /\ sent = true /\ exists b, r = Data b /\ ClientMessage.from_bytes (SDP := SDP) b = Some Hello) /\
  (ans = Some ServerFull <-> n = cap /\ sent = true /\ exists b, r = Data b /\ ClientMessage.from_bytes (SDP := SDP) b = Some Hello).
Proof.
  intros Hn. unfold client_server_handshake.
  assert (He : ClientMessage.from_bytes (SDP := SDP) [] = None) by reflexivity.
  destruct r as [|b|]; rewrite ?He;
    try (split_and!; try lia; split; try done; try lia; by intros (_ & _ & b & [=] & _)).
  destruct (ClientMessage.from_bytes b) as [[]|] eqn:E;
    try (split_and!; try lia; split; try done; try lia; intros (_ & _ & b' & [= <-] & Hb); congruence).
  case_bool; destruct sent; (split_and!; [lia|..]; split; try done; try lia; intros);
    destruct_and?; try done; try lia; split_and!; try done; try lia; eauto.
Qed.

(** The token of a LogOut is only a name.  Whichever user the handler
    belongs to, or none, the named user is set Offline and its inbound stream is
    shut down. *)
Lemma logout_needs_no_login {SDP Addr} `{Wire SDP} `{MapOrder UserData} bad victim d i dk
    (s : OperatingServer Addr) (w : World SDP) :
  users_poisoned w = false -> users w !! victim = Some d -> server_client_stream d = Some i -> bad i = false ->
  exists w', handle_client_message bad (LogOut victim) dk s w = (LogoutOk, set_me None s, w') /\
    users w' !! victim = Some (update_status Offline d) /\ closed w' = closed w ++ [i].
Proof.
  intros Hp Hd Hi Hb. simpl. unfold logout_user. rewrite Hp, Hd, Hi, Hb. rewrite notify_spec by exact Hp.
  eexists. split; [reflexivity|]. simpl. split; [apply lookup_insert_eq|done].
Qed.

(** * Witnesses *)

#[local] Instance demo_order : MapOrder UserData := { iter := map_to_list; iter_permutation m := Permutation_refl _ }.
#[local] Instance raw_wire : Wire str := { Wire.display := id; from_str := Some }.

Lemma message_safe_witness :
  let '(_, _, w') := handle_client_message (fun _ => false) (CallRequest (lit "ann") (lit "v=0") (lit "bob"))
    (mk_disk true true) demo_server (demo_world Available) in
  evolves (demo_world Available) w'.
Proof.
  pose proof (message_safe (fun _ => false) (CallRequest (lit "ann") (lit "v=0") (lit "bob")) (mk_disk true true)
    demo_server (demo_world Available) (demo_keyed Available)) as Hs.
  destruct (handle_client_message _ _ _ _ _) as [[r s'] w']. apply Hs.
Defined.
