(* ===== verification/Calls.v ===== *)
(** Calls in the server's book: who may end a call, and who may not.

    A user the server holds for busy is left alone by everything but four
    messages ([ends]).  So a call lasts, over any sequence of messages on any
    connections handled one at a time, until somebody says one of them in the
    name of one of the two ([call_undisturbed]); and in the meantime nobody else's
    call is announced to them.  Undisturbed has the same for messages handled at
    once, where the exception is an overlapping request. *)

From S2P Require Import Prelude.
From S2P Require Import Text.
From S2P Require Import Wire.
From S2P Require Import UserStatus.
From S2P Require Import ClientMessage.
From S2P Require Import ServerMessage.
From S2P Require Import ServerResponse.
From S2P Require Import OperatingServer.
From S2P Require Import UserHandler.

(** * Definitions *)

(** The messages that change the record of [a] while it is busy with [b]. *)
Definition ends {SDP} (event : ClientMessage SDP) (a b : str) : Prop :=
  event = LogOut a \/ event = CallHangup a \/ event = CallReject a b \/ event = CallReject b a.

(** A message handled: the connection's handler, the disk, and the message. *)
Record delivery (SDP Addr : Type) := mk_delivery {
  handler : OperatingServer Addr;
  disk : Disk;
  event : ClientMessage SDP
}.
Arguments mk_delivery {SDP Addr}.
Arguments handler {SDP Addr}.
Arguments disk {SDP Addr}.
Arguments event {SDP Addr}.

(** Messages handled one at a time, on whatever connections. *)
Fixpoint serve {SDP Addr} `{Wire SDP} `{MapOrder UserData} (bad : nat -> bool) (l : list (delivery SDP Addr)) (w : World SDP) : World SDP :=
  match l with
  | [] => w
  | e :: l => serve bad l (handle_client_message bad (event e) (disk e) (handler e) w).2
  end.

(** * Lemmas *)

Section Facts.
Context {SDP Addr : Type} `{Wire SDP} `{Hord : MapOrder UserData} (bad : nat -> bool).

(** ** The record of a busy user *)

Lemma event_keeps (event : ClientMessage SDP) dk (s : OperatingServer Addr) w k d o :
  keyed w -> users w !! k = Some d -> status d = Occupied o -> ~ ends event k o ->
  users (handle_client_message bad event dk s w).2 !! k = Some d.
Proof.
  intros Hk Hd Hs He. destruct event as [|u p|u p|t|t sdp to|f t sdp|f t|t]; simpl.
  - done.
  - unfold login_user. destruct (users_poisoned w); [done|]. destruct (users w !! u) as [du|] eqn:Hu; [|done].
    destruct (negb _); [done|]. destruct (status du) eqn:Es; try done. cbn [snd]. rewrite (proj1 (notify_users _ _ _ _)). cbn [users set_users].
    rewrite lookup_insert_ne; [done|]. intros ->. congruence.
  - unfold signup_user. do 2 (destruct (negb _); [done|]). destruct (users_poisoned w); [done|].
    destruct (users w !! u) as [du|] eqn:Hu; [done|]. unfold load_user_data_in_disk.
    assert (E : users (notify_status_update bad u Offline (set_users (<[u := new_user u p Offline]> (users w)) w)) !! k = Some d).
    { rewrite (proj1 (notify_users _ _ _ _)). cbn [users set_users]. rewrite lookup_insert_ne; [done|]. intros ->. congruence. }
    destruct (negb (open_ok dk)); [exact E|]. by destruct (negb (write_ok dk)).
  - assert (t <> k) by (intros ->; apply He; by left).
    unfold logout_user. destruct (users_poisoned w); [done|]. destruct (users w !! t) as [dt|]; [|done].
    destruct (server_client_stream dt) as [j|]; [destruct (bad j)|]; cbn [snd]; rewrite ?(proj1 (notify_users _ _ _ _));
      cbn [users set_users shutdown]; by rewrite lookup_insert_ne.
  - unfold call_request. destruct (call_request_read t to w) as [[[i f'] t']|r] eqn:Er; [|done].
    apply call_request_read_ok in Er as (Ep & df & dt & Hf & Ht & Hsf & Hst & _ & -> & ->).
    rewrite call_request_does by done. cbn [snd requested users]. rewrite !lookup_insert_ne; [done|..]; intros ->; congruence.
  - unfold call_accept. destruct (rbind _ _) as [i|r]; [|done]. cbn [snd]. by rewrite (proj1 (send_users _ _ _ _)).
  - unfold call_reject. destruct (call_reject_read f t w) as [[[i f'] t']|r] eqn:Er; [|done].
    apply call_reject_read_ok in Er as (Ep & df & dt & Hf & Ht & Hsf & Hst & _ & -> & ->).
    rewrite !(proj1 (proj2 (notify_users _ _ _ _))), Ep. cbn [snd]. rewrite (proj1 (send_users _ _ _ _)). cbn [users set_users update_status username].
    rewrite (Hk _ _ Hf), (Hk _ _ Ht), !(proj1 (notify_users _ _ _ _)).
    rewrite !lookup_insert_ne; [done|..]; intros ->; apply He; right; right.
    + right. congruence.
    + left. congruence.
  - assert (t <> k) by (intros ->; apply He; right; by left).
    unfold call_hangup. destruct (users_poisoned w); [done|]. destruct (users w !! t) as [dt|]; [|done].
    destruct (status dt); try done. cbn [snd]. rewrite (proj1 (notify_users _ _ _ _)). cbn [users set_users]. by rewrite lookup_insert_ne.
Qed.

(** ** The calls that are announced *)

(** Nothing pushed between two worlds announces a call. *)
Definition is_call (m : nat * ServerMessage SDP) : Prop := exists f sdp, m.2 = CallIncoming f sdp.
Definition hushed (w w' : World SDP) : Prop := exists l, pushed w' = pushed w ++ l /\ Forall (fun m => ~ is_call m) l.

Lemma hushed_same w w' : pushed w' = pushed w -> hushed w w'.
Proof. intros E. exists []. by rewrite app_nil_r. Qed.

Lemma hushed_trans w1 w2 w3 : hushed w1 w2 -> hushed w2 w3 -> hushed w1 w3.
Proof. intros (l & E & Hl) (l' & E' & Hl'). exists (l ++ l'). rewrite E', E, app_assoc. split; [done|]. by apply Forall_app. Qed.

Lemma broadcast_hushed mute name s m : Forall (fun m => ~ is_call m) (broadcast mute name s m).
Proof. apply Forall_forall. intros x (j & -> & _)%list_elem_of_fmap (f & sdp & E). done. Qed.

Lemma hushed_notify name s w w' : hushed w w' -> hushed w (notify_status_update bad name s w').
Proof.
  intros Hw. eapply hushed_trans; [exact Hw|]. destruct (users_poisoned w') eqn:E.
  - apply hushed_same. unfold notify_status_update. by rewrite E.
  - rewrite notify_spec by done. exists (broadcast (deaf bad w') name s (users w')). split; [done|apply broadcast_hushed].
Qed.

Lemma hushed_send i msg w w' : (forall f sdp, msg <> CallIncoming f sdp) -> hushed w w' -> hushed w (send_message bad i msg w').
Proof.
  intros Hm Hw. eapply hushed_trans; [exact Hw|]. rewrite send_message_eq. destruct (deaf bad w' i); [by apply hushed_same|].
  exists [(i, msg)]. split; [done|]. apply Forall_singleton. intros (f & sdp & E). by eapply Hm.
Qed.

(** Only a request pushes a call, and only on the stream of a user it found Available. *)
Lemma event_calls (event : ClientMessage SDP) dk (s : OperatingServer Addr) w : keyed w ->
  exists l, pushed (handle_client_message bad event dk s w).2 = pushed w ++ l /\
    forall i from sdp, (i, CallIncoming from sdp) ∈ l -> exists to dt,
      event = CallRequest from sdp to /\ users w !! to = Some dt /\ status dt = Available /\ server_client_stream dt = Some i.
Proof.
  intros Hk.
  assert (G : hushed w (handle_client_message bad event dk s w).2 -> exists l,
    pushed (handle_client_message bad event dk s w).2 = pushed w ++ l /\
    forall i from sdp, (i, CallIncoming from sdp) ∈ l -> exists to dt,
      event = CallRequest from sdp to /\ users w !! to = Some dt /\ status dt = Available /\ server_client_stream dt = Some i).
  { intros (l & E & Hl). exists l. split; [done|]. intros i from sdp Hin. rewrite Forall_forall in Hl. destruct (Hl _ Hin). by eexists _, _. }
  pose proof (hushed_same w w eq_refl) as Hr.
  destruct event as [|u p|u p|t|t sdp to|f t sdp|f t|t]; simpl in *.
  - by apply G.
  - apply G. unfold login_user. destruct (users_poisoned w); [done|]. destruct (users w !! u) as [du|]; [|done].
    destruct (negb _); [done|]. destruct (status du); try done. by apply hushed_notify.
  - apply G. unfold signup_user. do 2 (destruct (negb _); [done|]). destruct (users_poisoned w); [done|].
    destruct (users w !! u); [done|]. unfold load_user_data_in_disk.
    assert (Hn : hushed w (notify_status_update bad u Offline (set_users (<[u := new_user u p Offline]> (users w)) w))) by by apply hushed_notify.
    destruct (negb (open_ok dk)); [exact Hn|]. by destruct (negb (write_ok dk)).
  - apply G. unfold logout_user. destruct (users_poisoned w); [done|]. destruct (users w !! t) as [dt|]; [|done].
    destruct (server_client_stream dt) as [j|]; [destruct (bad j)|]; try (by apply hushed_same). by apply hushed_notify.
  - unfold call_request. destruct (call_request_read t to w) as [[[i f'] t']|r] eqn:Er;
      [|exists []; split; [by rewrite app_nil_r|by intros ??? ?%elem_of_nil]].
    apply call_request_read_ok in Er as (Ep & df & dt & Hf & Ht & Hsf & Hst & Hi & -> & ->).
    rewrite call_request_does by done. cbn [snd requested pushed]. eexists. split; [reflexivity|].
    intros j from sdp' Hin. rewrite !elem_of_app in Hin. destruct Hin as [Hin|[Hin|Hin]].
    1,2: by apply list_elem_of_fmap in Hin as (? & ? & _).
    destruct (deaf bad w i); [by apply elem_of_nil in Hin|]. apply list_elem_of_singleton in Hin. simplify_eq. by exists to, dt.
  - apply G. unfold call_accept. destruct (rbind _ _) as [i|r]; [|done]. by apply hushed_send.
  - apply G. unfold call_reject. destruct (call_reject_read f t w) as [[[i f'] t']|r]; [|done].
    rewrite !(proj1 (proj2 (notify_users _ _ _ _))). destruct (users_poisoned w); cbn [snd]; [by apply hushed_notify, hushed_notify|].
    apply hushed_send; [done|]. eapply hushed_trans; [|by apply hushed_same]. by apply hushed_notify, hushed_notify.
  - apply G. unfold call_hangup. destruct (users_poisoned w); [done|]. destruct (users w !! t) as [dt|]; [|done].
    destruct (status dt); try done. by apply hushed_notify.
Qed.

Lemma serve_keyed (l : list (delivery SDP Addr)) w : keyed w -> keyed (serve bad l w).
Proof.
  revert w. induction l as [|e l IH]; intros w Hk; [done|]. cbn [serve]. apply IH.
  pose proof (handle_client_message_evolves bad (event e) (disk e) (handler e) w Hk) as He.
  destruct (handle_client_message _ _ _ _ _) as [[r s'] w']. apply He.
Qed.

Lemma serve_keeps (l : list (delivery SDP Addr)) w k d o :
  keyed w -> users w !! k = Some d -> status d = Occupied o -> Forall (fun e => ~ ends (event e) k o) l ->
  users (serve bad l w) !! k = Some d.
Proof.
  revert w. induction l as [|e l IH]; intros w Hk Hd Hs Hl; [done|]. apply Forall_cons in Hl as [He Hl]. cbn [serve]. apply IH; try done.
  - by apply (serve_keyed [e]).
  - by eapply event_keeps.
Qed.
End Facts.

(** * Properties *)

(** Nobody ends another pair's call.  While two users are in a call, any
    sequence of messages, on any connections and whatever their answers, leaves
    both records exactly as they are, unless one of the messages logs one of the
    two out, hangs up for one of them, or rejects in the name of one the call of
    the other; and no incoming call is announced to them: a call is only ever
    announced on the stream of a user found Available. *)
Lemma call_undisturbed {SDP Addr} `{Wire SDP} `{MapOrder UserData} bad (l : list (delivery SDP Addr)) a b da db (w : World SDP) :
  keyed w -> users w !! a = Some da -> users w !! b = Some db -> status da = Occupied b -> status db = Occupied a ->
  Forall (fun e => ~ ends (event e) a b /\ ~ ends (event e) b a) l ->
  let w' := serve bad l w in
  users w' !! a = Some da /\ users w' !! b = Some db /\
  forall e, let w2 := (handle_client_message bad (event e) (disk e) (handler e : OperatingServer Addr) w').2 in
    exists new, pushed w2 = pushed w' ++ new /\
    forall i from sdp, (i, CallIncoming from sdp) ∈ new -> exists to dt,
      to <> a /\ to <> b /\ event e = CallRequest from sdp to /\ users w' !! to = Some dt /\ server_client_stream dt = Some i.
Proof.
  intros Hk Ha Hb Hsa Hsb Hl w'.
  assert (Ha' : users w' !! a = Some da) by (eapply serve_keeps; eauto; eapply Forall_impl; [exact Hl|]; by intros e [? _]).
  assert (Hb' : users w' !! b = Some db) by (eapply serve_keeps; eauto; eapply Forall_impl; [exact Hl|]; by intros e [_ ?]).
  split_and!; [done|done|]. intros e w2.
  destruct (event_calls bad (event e) (disk e) (handler e) w' (serve_keyed bad l w Hk)) as (new & E & Hc).
  exists new. split; [done|]. intros i from sdp (to & dt & He & Ht & Hst & Hi)%Hc. exists to, dt.
  split_and!; try done; intros ->; congruence.
Qed.

(** Nothing stops a user from calling itself: it is then busy with itself, and
    its own call is announced to it. *)
Lemma self_call {SDP Addr} `{MapOrder UserData} bad a (offer : SDP) w da j :
  keyed w -> users_poisoned w = false -> users w !! a = Some da -> status da = Available -> server_client_stream da = Some j ->
  deaf bad w j = false ->
  let '(r, w') := @call_request SDP Addr _ bad a a offer w in
  r = CallRequestOk /\ users w' !! a = Some (update_status (Occupied a) da) /\ last (pushed w') = Some (j, CallIncoming a offer).
Proof.
  intros Hk Hp Ha Hs Hj Hb. rewrite (call_request_goes bad a a offer w da da j) by done. cbn [requested users pushed].
  split_and!; [done|apply lookup_insert_eq|]. rewrite Hb, !app_assoc. apply last_snoc.
Qed.
