(* ===== verification/CentralServer.v ===== *)
(** The server's global parts: src/server/central_server.rs.  Loading the users
    file, attaching an inbound stream to a user, and the life of one accepted
    connection with the shared counter.  The outcomes of reads and writes are
    arguments; the start of the server and its listeners are in Server. *)

From S2P Require Import Prelude.
From S2P Require Import Text.
From S2P Require Import Wire.
From S2P Require Import UserStatus.
From S2P Require Import ClientMessage.
From S2P Require Import ServerMessage.
From S2P Require Import ServerResponse.
From S2P Require Import OperatingServer.
From S2P Require Import UserHandler.

(** [BufRead::lines] on bytes: lines end at a newline byte, which is removed
    together with a carriage return before it; an unterminated last line counts. *)
Definition strip_cr (l : bytes) : bytes :=
  match rev l with c :: r => if c =? 13 then rev r else l | [] => l end.

Fixpoint file_lines (cur : bytes) (b : bytes) : list bytes :=
  match b with
  | [] => match cur with [] => [] | _ => [rev cur] end
  | x :: b' => if x =? 10 then strip_cr (rev cur) :: file_lines [] b' else file_lines (x :: cur) b'
  end.

(** One iteration of the loop: lines that are not UTF-8 or have no colon are skipped. *)
Definition load_line (m : gmap str UserData) (l : bytes) : gmap str UserData :=
  match utf8_decode l with
  | Some s =>
      match split_once 58 s with
      | Some (username, password) => <[username := mk_user username password Offline None]> m
      | None => m
      end
  | None => m
  end.

Definition load_users (content : bytes) : gmap str UserData := foldl load_line ∅ (file_lines [] content).

(** [content]: the file if it can be opened; [created]: whether creating it works. *)
Definition load_users_from_mem (content : option bytes) (created : result unit str)
    : result (gmap str UserData) ServerError :=
  match content with
  | Some b => Ok (load_users b)
  | None => match created with Ok _ => Ok ∅ | Err e => Err (MapError e) end
  end.

Section Central.
Context {SDP Addr : Type} `{Wire SDP} `{MapOrder UserData} (stream_poisoned : nat -> bool).

(** [asked]: the username request could be written; [i]: the stream. *)
Definition map_stream_to_user (asked : bool) (r : read) (i : nat) (w : World SDP) : World SDP :=
  if negb asked then w else
  match r with
  | Data b =>
      match response_from_bytes b with
      | Some (Username username) =>
          if users_poisoned w then w else
          match users w !! username with
          | Some user_data => set_users (<[username := update_server_client_stream i user_data]> (users w)) w
          | None => w
          end
      | None => w
      end
  | _ => w
  end.

(** The thread of one accepted connection: handshake, loop, and the counter's
    decrement on the two results that have one.  Returns the counter and the world. *)
Definition handle_client_conn (first : read) (welcomed : bool) (turns : list turn) (cap n : nat) (address : Addr)
    (w : World SDP) : nat * World SDP :=
  let '(res, _, n) := client_server_handshake (SDP := SDP) (Addr := Addr) first welcomed cap n in
  match res with
  | Err _ => (n, w)
  | Ok _ =>
      let '(r, _, _, w) := handle_client stream_poisoned turns (mk_server address None) w in
      match r with
      | Some (Ok _) | Some (Err ConnectionError) => ((n - 1)%nat, w)
      | _ => (n, w)
      end
  end.

End Central.

(** * Lemmas *)

(** ASCII bytes of an encoding are characters of the text. *)
Lemma utf8_char_ascii c b : b < 128 -> b ∈ utf8_char c -> is_scalar c -> c = b.
Proof.
  intros Hb Hin Hc. unfold utf8_char, is_scalar in *. revert Hin.
  pose proof (Z.mod_pos_bound c 64 eq_refl). pose proof (Z.mod_pos_bound (c / 64) 64 eq_refl).
  pose proof (Z.mod_pos_bound (c / 4096) 64 eq_refl).
  assert (0 <= c / 64 /\ 0 <= c / 4096 /\ 0 <= c / 262144) by (split_and!; apply Z.div_pos; lia).
  repeat case_bool; rewrite ?elem_of_cons, elem_of_nil; intros Hin; destruct_or?; try done; lia.
Qed.

Lemma utf8_encode_ascii s b : is_str s -> b < 128 -> b ∈ utf8_encode s -> b ∈ s.
Proof.
  intros Hs Hb. induction Hs as [|c s Hc Hs IH]; [by intros ?%elem_of_nil|].
  cbn [utf8_encode flat_map]. rewrite elem_of_app, elem_of_cons. intros [Hin|Hin]; [|by right; apply IH].
  left. symmetry. by apply utf8_char_ascii in Hin.
Qed.

Lemma utf8_encode_last s b : is_str s -> b < 128 -> last (utf8_encode s) = Some b -> last s = Some b.
Proof.
  intros Hs Hb. destruct s as [|c s _] using rev_ind; [done|]. rewrite utf8_encode_app, last_app, last_snoc.
  apply Forall_app in Hs as [_ Hc]. inversion Hc as [|? ? Hc' _]; subst. cbn [utf8_encode flat_map].
  rewrite app_nil_r. destruct (last (utf8_char c)) as [x|] eqn:E.
  - intros [= ->]. f_equal. apply utf8_char_ascii; [done| |done]. rewrite last_lookup in E.
    by eapply list_elem_of_lookup_2.
  - apply last_None in E. by apply utf8_char_nonempty in E.
Qed.

(** A file of complete lines. *)
Definition complete (f : bytes) : Prop := f = [] \/ exists g, f = g ++ [10].

Lemma file_lines_no_newline cur l : 10 ∉ l -> forall b, file_lines cur (l ++ 10 :: b) = strip_cr (rev cur ++ l) :: file_lines [] b.
Proof.
  revert cur. induction l as [|x l IH]; intros cur Hl b; simpl; [by rewrite app_nil_r|].
  rewrite not_elem_of_cons in Hl. destruct Hl as [Hx Hl].
  rewrite (proj2 (Z.eqb_neq x 10)) by congruence. rewrite IH by done. simpl. by rewrite <-app_assoc.
Qed.

Lemma file_lines_app cur f l : file_lines cur (f ++ 10 :: l) = file_lines cur (f ++ [10]) ++ file_lines [] l.
Proof.
  revert cur. induction f as [|x f IH]; intros cur; simpl; [done|].
  destruct (x =? 10); [simpl; by rewrite IH|apply IH].
Qed.

(** Appending a complete line adds exactly that line. *)
Lemma file_lines_snoc f l : complete f -> 10 ∉ l -> file_lines [] (f ++ l ++ [10]) = file_lines [] f ++ [strip_cr l].
Proof.
  intros [->|[g ->]] Hl.
  - simpl. by rewrite (file_lines_no_newline [] l Hl []).
  - rewrite <-app_assoc. simpl. rewrite file_lines_app. by rewrite (file_lines_no_newline [] l Hl []).
Qed.

Lemma strip_cr_id l : last l <> Some 13 -> strip_cr l = l.
Proof.
  unfold strip_cr. intros H. destruct (rev l) as [|c r] eqn:E; [done|].
  assert (Hl : last l = Some c) by (by rewrite <-head_rev, E).
  rewrite (proj2 (Z.eqb_neq c 13)); [done|]. intros ->. by apply H.
Qed.

(** The text of a name or password survives a line of the users file. *)
Definition storable (s : str) : Prop := is_str s /\ (10 ∉ s).

Lemma load_user_line f name passwd :
  complete f -> storable name -> (58 ∉ name) -> storable passwd -> last passwd <> Some 13 ->
  load_users (f ++ user_line name passwd) = <[name := new_user name passwd Offline]> (load_users f) /\
  complete (f ++ user_line name passwd).
Proof.
  intros Hf [Hn Hn10] Hn58 [Hp Hp10] Hcr.
  assert (Hs : is_str (name ++ [58] ++ passwd)).
  { apply Forall_app. split; [done|]. constructor; [left; lia|done]. }
  assert (E : user_line name passwd = utf8_encode (name ++ [58] ++ passwd) ++ [10]).
  { unfold user_line. rewrite <-(utf8_encode_app _ [10]). by rewrite <-app_assoc. }
  rewrite E. split; [|right; exists (f ++ utf8_encode (name ++ [58] ++ passwd)); by rewrite <-app_assoc].
  unfold load_users. rewrite file_lines_snoc, foldl_app; [|done|].
  2:{ intros Hin. apply utf8_encode_ascii in Hin; [|done|lia].
      rewrite !elem_of_app, list_elem_of_singleton in Hin. destruct Hin as [?|[?|?]]; done. }
  cbn [foldl]. rewrite strip_cr_id.
  - unfold load_line. rewrite utf8_roundtrip by done. simpl app. by rewrite (split_once_app 58 name passwd).
  - intros Hl. apply utf8_encode_last in Hl; [|done|lia]. rewrite !last_app in Hl.
    destruct (last passwd) eqn:El; [congruence|]. simpl in Hl. congruence.
Qed.

(** A validated text without spaces around it has none of the separators. *)
Lemma validated_plain x : clean x -> is_ok (validate_string x) = true -> (10 ∉ x) /\ (58 ∉ x).
Proof.
  intros Hx. unfold validate_string. rewrite trim_clean by done. destruct x as [|c x]; [done|].
  destruct (_ || _) eqn:Eb; [done|]. intros _. rewrite !orb_false_iff in Eb. destruct Eb as [[[_ E10] E58] _].
  split; intros Hin; apply list_elem_of_In in Hin.
  - apply not_true_iff_false in E10. apply E10, existsb_exists. exists 10. by rewrite Z.eqb_refl.
  - apply not_true_iff_false in E58. apply E58, existsb_exists. exists 58. by rewrite Z.eqb_refl.
Qed.

Section Facts.
Context {SDP Addr : Type} `{Wire SDP} `{Hord : MapOrder UserData} (stream_poisoned : nat -> bool).

(** The effect of an accepted signup. *)
Lemma signup_ok name passwd dk (s : OperatingServer Addr) (w : World SDP) s' w' :
  signup_user stream_poisoned name passwd dk s w = (SignupOk, s', w') ->
  is_ok (validate_string name) = true /\ is_ok (validate_string passwd) = true /\
  users w !! name = None /\ users w' = <[name := new_user name passwd Offline]> (users w) /\
  users_file w' = users_file w ++ user_line name passwd.
Proof.
  unfold signup_user. destruct (is_ok (validate_string name)); [|done].
  destruct (is_ok (validate_string passwd)); [|done]. simpl. destruct (users_poisoned w) eqn:Hp; [done|].
  destruct (users w !! name) eqn:Hu; [done|]. set (w1 := set_users _ w).
  destruct (notify_users stream_poisoned name Offline w1) as (E1 & _ & E2).
  unfold load_user_data_in_disk. destruct (open_ok dk); [|done]. destruct (write_ok dk); [|done]. simpl.
  intros [= _ <-]. split_and!; try done. simpl. by rewrite E2.
Qed.

Lemma signup_accepts name passwd (s : OperatingServer Addr) (w : World SDP) :
  is_ok (validate_string name) = true -> is_ok (validate_string passwd) = true ->
  users_poisoned w = false -> users w !! name = None ->
  exists w', signup_user stream_poisoned name passwd (mk_disk true true) s w = (SignupOk, s, w').
Proof.
  intros Hn Hp Hl Hu. unfold signup_user. rewrite Hn, Hp, Hl, Hu. simpl. by eexists.
Qed.

(** The handler's own user is registered. *)
Definition registered (s : OperatingServer Addr) (w : World SDP) : Prop :=
  forall name, me s = Some name -> is_Some (users w !! name).

Lemma registered_evolves (s : OperatingServer Addr) w w' : evolves w w' -> registered s w -> registered s w'.
Proof. intros [_ He] Hr name Hn. destruct (Hr name Hn) as [d Hd]. destruct (He name d Hd) as (d' & ? & _). eauto. Qed.

Lemma handle_client_message_me (event : ClientMessage SDP) dk (s : OperatingServer Addr) w :
  keyed w -> registered s w ->
  let '(_, s', w') := handle_client_message stream_poisoned event dk s w in registered s' w'.
Proof.
  intros Hk Hr. pose proof (handle_client_message_evolves stream_poisoned event dk s w Hk) as He.
  destruct (handle_client_message stream_poisoned event dk s w) as [[r s'] w'] eqn:E. destruct He as [_ He].
  assert (Hs : me s' = me s \/ me s' = None \/ exists name, me s' = Some name /\ is_Some (users w !! name)).
  { destruct event as [|u p|u p|t|t sdp to|f t sdp|f t|t]; simpl in E.
    - injection E as _ <- _. by left.
    - unfold login_user in E. destruct (users_poisoned w); [injection E as _ <- _; by left|].
      destruct (users w !! u) eqn:Hu; [|injection E as _ <- _; by left].
      destruct (negb _); [injection E as _ <- _; by left|].
      destruct (status u0); injection E as _ <- _; try (by left). right; right. exists u. eauto.
    - unfold signup_user in E. do 2 (destruct (negb _); [injection E as _ <- _; by left|]).
      destruct (users_poisoned w); [injection E as _ <- _; by left|].
      destruct (users w !! u); [injection E as _ <- _; by left|].
      destruct (load_user_data_in_disk _ _ _ _) as [[|] ?]; injection E as _ <- _; by left.
    - unfold logout_user in E. destruct (users_poisoned w); [injection E as _ <- _; by left|].
      destruct (users w !! t) as [d|]; [|injection E as _ <- _; by left].
      destruct (server_client_stream d); [|injection E as _ <- _; by left].
      destruct (stream_poisoned n); injection E as _ <- _; [by left|by right; left].
    - destruct (call_request _ _ _ _ _). injection E as _ <- _. by left.
    - destruct (call_accept _ _ _ _ _). injection E as _ <- _. by left.
    - destruct (call_reject _ _ _ _). injection E as _ <- _. by left.
    - destruct (call_hangup _ _ _). injection E as _ <- _. by left. }
  intros name Hn. destruct Hs as [Hs|[Hs|(name' & Hs & Hu)]]; [|congruence|].
  - apply (registered_evolves s w w' He Hr). congruence.
  - assert (name' = name) as -> by congruence. destruct Hu as [d Hd]. destruct He as [_ He].
    destruct (He name d Hd) as (d' & ? & _). eauto.
Qed.

(** While the server is on and its locks are sound, the loop ends in one of the
    two ways that release the connection. *)
Lemma handle_client_ends turns (s : OperatingServer Addr) (w : World SDP) :
  keyed w -> users_poisoned w = false -> registered s w -> Forall (fun t => turn_on t = true) turns ->
  let '(r, _, _, _) := handle_client stream_poisoned turns s w in
  r = None \/ r = Some (Ok tt) \/ r = Some (Err ConnectionError).
Proof.
  intros Hk Hp Hr Hon. revert s w Hk Hp Hr. induction Hon as [|t turns Ht Hon IH]; intros s w Hk Hp Hr; simpl; [by left|].
  rewrite Ht. simpl.
  assert (Hmo : let '(r, _, _) := make_user_offline stream_poisoned s w in r = Ok tt).
  { unfold make_user_offline. destruct (me s) as [name|] eqn:Hme; [|done]. rewrite Hp.
    destruct (Hr name Hme) as [d ->]. done. }
  destruct (turn_read t) as [|b|].
  - destruct (make_user_offline stream_poisoned s w) as [[r s'] w']. rewrite Hmo. by right; left.
  - assert (Hstep : let '(_, s', w') := (match ClientMessage.from_bytes b with
        | Some event => handle_client_message stream_poisoned event (turn_disk t) s w
        | None => (BadMessage, s, w) end) in keyed w' /\ users_poisoned w' = false /\ registered s' w').
    { destruct (ClientMessage.from_bytes b) as [event|]; [|by split_and!].
      pose proof (handle_client_message_evolves stream_poisoned event (turn_disk t) s w Hk) as He.
      pose proof (handle_client_message_me event (turn_disk t) s w Hk Hr) as Hm.
      destruct (handle_client_message _ _ _ _ _) as [[r s'] w']. destruct He as [Hk' [Hp' _]]. split_and!; [done|congruence|done]. }
    destruct (match ClientMessage.from_bytes b with Some _ => _ | None => _ end) as [[resp s'] w'].
    destruct Hstep as (Hk' & Hp' & Hr'). destruct (negb (turn_sent t)); [by right; right|].
    specialize (IH s' w' Hk' Hp' Hr'). destruct (handle_client stream_poisoned turns s' w') as [[[r rs] s2] w2]. exact IH.
  - destruct (make_user_offline stream_poisoned s w) as [[r s'] w']. rewrite Hmo. by right; right.
Qed.

End Facts.

(** * Properties *)

(** A registration is durable.  After a successful signup with a name and a
    password that [trim] leaves alone, loading the users file again gives the
    accounts it gave before plus exactly the new one, offline, under its name
    and password; and the file is ready for the next one. *)
Lemma signup_persists {SDP Addr} `{MapOrder UserData} bad name passwd dk (s : OperatingServer Addr) (w : World SDP) s' w' :
  complete (users_file w) -> is_str name -> is_str passwd -> clean name -> clean passwd ->
  signup_user bad name passwd dk s w = (SignupOk, s', w') ->
  load_users (users_file w') = <[name := new_user name passwd Offline]> (load_users (users_file w)) /\
  complete (users_file w').
Proof.
  intros Hf Hn Hp Hcn Hcp E. apply signup_ok in E as (Vn & Vp & _ & _ & ->).
  destruct (validated_plain name Hcn Vn), (validated_plain passwd Hcp Vp).
  apply load_user_line; try done. intros E. by apply Hcp in E.
Qed.

(** C40: signup checks the trimmed name but stores the raw one, so a newline in
    front of somebody else's name gets past the duplicate check and writes a
    second line for that account: after the next restart the attacker's password
    is the victim's. *)
Theorem account_takeover {SDP Addr} `{MapOrder UserData} bad victim passwd (s : OperatingServer Addr) (w : World SDP) :
  complete (users_file w) -> storable victim -> storable passwd -> clean victim -> clean passwd ->
  (58 ∉ victim) -> is_ok (validate_string victim) = true -> is_ok (validate_string passwd) = true ->
  users_poisoned w = false -> users w !! (10 :: victim) = None ->
  exists w', signup_user bad (10 :: victim) passwd (mk_disk true true) s w = (SignupOk, s, w') /\
    load_users (users_file w') !! victim = Some (new_user victim passwd Offline).
Proof.
  intros Hf Hv Hp Hcv Hcp H58 Vv Vp Hl Hu.
  assert (Ht : trim (10 :: victim) = trim victim) by reflexivity.
  assert (Vn : is_ok (validate_string (10 :: victim)) = true) by (unfold validate_string in *; by rewrite Ht).
  destruct (signup_accepts bad (10 :: victim) passwd s w Vn Vp Hl Hu) as [w' E]. exists w'. split; [done|].
  apply signup_ok in E as (_ & _ & _ & _ & ->).
  assert (Hline : user_line (10 :: victim) passwd = [10] ++ user_line victim passwd) by reflexivity.
  rewrite Hline, app_assoc.
  destruct (load_user_line (users_file w ++ [10]) victim passwd) as [-> _]; try done.
  - by right; eexists.
  - intros E. by apply Hcp in E.
  - apply lookup_insert_eq.
Qed.

(** Connections are balanced.  While the server is on and its locks are
    sound, a connection that has ended, however it ended and whatever it sent,
    leaves the counter of connected clients where it found it; one still open
    holds exactly one unit. *)
Lemma connection_balanced {SDP Addr} `{Wire SDP} `{MapOrder UserData} bad first welcomed turns cap n
    (address : Addr) (w : World SDP) :
  keyed w -> users_poisoned w = false -> Forall (fun t => turn_on t = true) turns ->
  let '(res, _, n1) := client_server_handshake (SDP := SDP) (Addr := Addr) first welcomed cap n in
  let '(n2, _) := handle_client_conn bad first welcomed turns cap n address w in
  (n2 = n \/ n2 = S n) /\
  (n2 = S n <-> res = Ok tt /\ (let '(r, _, _, _) := handle_client bad turns (mk_server address None) w in r = None)).
Proof.
  intros Hk Hp Hon. unfold handle_client_conn.
  assert (Hh : let '(res, _, n1) := client_server_handshake (SDP := SDP) (Addr := Addr) first welcomed cap n in
    (res = Ok tt /\ n1 = S n) \/ (exists e, res = Err e) /\ n1 = n).
  { unfold client_server_handshake.
    assert (G : forall b, let '(res, _, n1) := (match ClientMessage.from_bytes (SDP := SDP) b with
      | Some Hello => if (cap <=? n)%nat then (if welcomed then (Err ServerFullError, Some (ServerFull : ServerResponse Addr), n)
            else (Err ConnectionError, None, n))
          else (if welcomed then (Ok tt, Some Welcome, S n) else (Err ConnectionError, None, n))
      | _ => (Err ConnectionError, None, n) end) in (res = Ok tt /\ n1 = S n) \/ (exists e, res = Err e) /\ n1 = n).
    { intros b. destruct (ClientMessage.from_bytes b) as [[]|]; try (right; split; [by eexists|done]).
      destruct (cap <=? n)%nat, welcomed; try (right; split; [by eexists|done]). by left. }
    destruct first; [apply G|apply G|]. right; split; [by eexists|done]. }
  destruct (client_server_handshake _ _ _ _) as [[res a] n1]. destruct Hh as [[-> ->]|[[e ->] ->]].
  - pose proof (handle_client_ends bad turns (mk_server address None) w Hk Hp) as He.
    destruct (handle_client _ _ _ _) as [[[r rs] s'] w'].
    destruct He as [-> | [-> | ->]]; [done|done| | |]; simpl; rewrite ?Nat.sub_0_r; split; try lia; split; try done; try lia;
      by intros [_ ?].
  - split; [by left|]. split; [lia|by intros [? _]].
Qed.

(** * Witnesses *)

#[local] Instance demo_order : MapOrder UserData := { iter := map_to_list; iter_permutation m := Permutation_refl _ }.
#[local] Instance raw_wire : Wire str := { Wire.display := id; from_str := Some }.

Lemma account_takeover_witness :
  exists w', signup_user (fun _ => false) (10 :: lit "ann") (lit "evil") (mk_disk true true) demo_server (demo_world Offline) =
    (SignupOk, demo_server, w') /\
    load_users (users_file w') !! lit "ann" = Some (new_user (lit "ann") (lit "evil") Offline).
Proof.
  apply (account_takeover (fun _ => false) (lit "ann") (lit "evil") demo_server (demo_world Offline)); try reflexivity.
  - by left.
  - split; [apply ascii_field; reflexivity|apply (bool_decide_unpack _); vm_compute; exact I].
  - split; [apply ascii_field; reflexivity|apply (bool_decide_unpack _); vm_compute; exact I].
  - split; by intros c [= <-].
  - split; by intros c [= <-].
  - apply (bool_decide_unpack _); vm_compute; exact I.
Defined.
