(* ===== verification/Server.v ===== *)
(** The server process (src/server/central_server.rs: CentralServer::new, start,
    the two listeners; src/bin/server/main.rs): certificates, addresses, the
    threads it starts, and the connections that share the counter of clients.

    rustls, the network interfaces and the sockets are the outcomes of their
    calls.  Connections run concurrently: what they do to the counter is a step
    relation ([step]), in which the test of the limit and the increment of
    user_handler.rs client_server_handshake are two steps. *)

From S2P Require Import Prelude.
From S2P Require Import Text.
From S2P Require Import Wire.
From S2P Require Import UserStatus.
From S2P Require Import ClientMessage.
From S2P Require Import ServerMessage.
From S2P Require Import ServerResponse.
From S2P Require Import OperatingServer.
From S2P Require Import UserHandler.
From S2P Require Import CentralServer.

(** * Definitions *)

(** ** Starting *)

Section Start.
Context {Cert Key Tls Addr : Type}.

(** The loop over the certificates of the file stops at the first bad one. *)
Fixpoint collect_certs (items : list (result Cert str)) : result (list Cert) ServerError :=
  match items with
  | [] => Ok []
  | Ok c :: items => let? certs := collect_certs items in Ok (c :: certs)
  | Err e :: _ => Err (MapError e)
  end.

Definition generate_certs_and_key (cert_file : result (list (result Cert str)) str) (key_file : result Key str) :
    result (list Cert * Key) ServerError :=
  let? items := map_err MapError cert_file in
  let? certs := collect_certs items in
  let? key := map_err MapError key_file in
  Ok (certs, key).

(** An interface: whether it is a loopback, and its address if it is an IPv4 one. *)
Fixpoint first_ipv4 (interfaces : list (bool * option str)) : option str :=
  match interfaces with
  | [] => None
  | (loopback, ip) :: interfaces =>
      match ip with
      | Some ip => if loopback then first_ipv4 interfaces else Some ip
      | None => first_ipv4 interfaces
      end
  end.

Definition get_server_ip (interfaces : result (list (bool * option str)) str) : result str ServerError :=
  let? l := map_err MapError interfaces in
  ok_or (first_ipv4 l) (IPNotFound []).

Record CentralServer := mk_central {
  tls_config : Tls;
  users : gmap str UserData;
  users_connected : nat;
  on : bool;
  server_client_socket_addr : Addr
}.

(** [CentralServer::new].  The addresses it announces use the ports 8080 and
    8081, whatever the configuration says the listeners bind to. *)
Definition new (cert_file : result (list (result Cert str)) str) (key_file : result Key str)
    (users_file : option bytes) (created : result unit str) (tls : list Cert -> Key -> result Tls str)
    (interfaces : result (list (bool * option str)) str) (parse_addr : str -> result Addr str) :
    result CentralServer ServerError :=
  let? ck := generate_certs_and_key cert_file key_file in
  let? us := load_users_from_mem users_file created in
  let? tls_config := map_err MapError (tls ck.1 ck.2) in
  let? local_ip := map_err (fun e => MapError (show_error e)) (get_server_ip interfaces) in
  let? _ := map_err MapError (parse_addr (local_ip ++ lit ":8080")) in
  let? addr := map_err MapError (parse_addr (local_ip ++ lit ":8081")) in
  Ok (mk_central tls_config us 0 false addr).

(** The loop of [start] on its standard input: the number of bytes of each line
    read ([None]: an error); the flag once it ends, [None] while it runs. *)
Fixpoint await_end (lines : list (option nat)) : option bool :=
  match lines with
  | [] => None
  | Some (S _) :: lines => await_end lines
  | _ => Some false
  end.

(** [start]: the flag goes up before the threads are started and comes down when
    the input ends, or when the listener's thread cannot bind its address
    ([bound]); only the end of the input ends [start]. *)
Definition start (bound : bool) (lines : list (option nat)) (s : CentralServer) : option (result unit ServerError) * CentralServer :=
  let up := mk_central (tls_config s) (users s) (users_connected s) bound (server_client_socket_addr s) in
  match await_end lines with
  | None => (None, up)
  | Some off => (Some (Ok tt), mk_central (tls_config s) (users s) (users_connected s) off (server_client_socket_addr s))
  end.

End Start.
Arguments CentralServer : clear implicits.

(** ** The listeners *)

(** [run_connections_loop]: per incoming connection the flag and whether it was
    accepted; the number of workers started and whether the loop has ended. *)
Fixpoint run_connections_loop (l : list (bool * bool)) : nat * bool :=
  match l with
  | [] => (0%nat, false)
  | (up, accepted) :: l =>
      if negb up then (0%nat, true) else
      if negb accepted then run_connections_loop l else
      let '(n, ended) := run_connections_loop l in (S n, ended)
  end.

(** The thread of [await_for_connections]: without its address it lowers the flag
    and ends; the number of workers, whether it has ended, the flag it leaves. *)
Definition await_for_connections (bound : bool) (l : list (bool * bool)) (on : bool) : nat * bool * bool :=
  if bound then (run_connections_loop l, on) else (0%nat, true, false).

(** One connection to the second listener: accepted, its TLS session set up, the
    request for its name written, and what it answered; streams are numbered. *)
Record inbound := mk_inbound { accepted : bool; secured : bool; asked : bool; answered : read; number : nat }.

(** The thread of [spawn_server_client_thread]; the connections take the lock on
    the users in this order. *)
Fixpoint server_client_thread {SDP} (l : list inbound) (w : World SDP) : World SDP :=
  match l with
  | [] => w
  | i :: l =>
      let w := if accepted i && secured i then map_stream_to_user (asked i) (answered i) (number i) w else w in
      server_client_thread l w
  end.

(** ** The connections and their counter *)

(** A connection: accepted, past the test of the limit, counted, ended; ended
    without giving its place back, which [handle_client_conn] does when the
    handler's loop ends with another error than a failed connection. *)
Inductive client := Arrived | Passed | Connected | Gone | Leaked.

#[global] Instance client_eq_dec : EqDecision client.
Proof. solve_decision. Defined.

Record hall := mk_hall { clients : list client; counter : nat }.

Inductive step (cap : nat) : hall -> hall -> Prop :=
| step_arrive l n : step cap (mk_hall l n) (mk_hall (l ++ [Arrived]) n)
| step_refuse l n i : l !! i = Some Arrived -> step cap (mk_hall l n) (mk_hall (<[i := Gone]> l) n)
| step_pass l n i : l !! i = Some Arrived -> (n < cap)%nat -> step cap (mk_hall l n) (mk_hall (<[i := Passed]> l) n)
| step_lose l n i : l !! i = Some Passed -> step cap (mk_hall l n) (mk_hall (<[i := Gone]> l) n)
| step_count l n i : l !! i = Some Passed -> step cap (mk_hall l n) (mk_hall (<[i := Connected]> l) (S n))
| step_leave l n i : l !! i = Some Connected -> step cap (mk_hall l n) (mk_hall (<[i := Gone]> l) (n - 1))
| step_leak l n i : l !! i = Some Connected -> step cap (mk_hall l n) (mk_hall (<[i := Leaked]> l) n).

(** * Lemmas *)

(** The places a list of connections holds. *)
Definition place (c : client) : nat := match c with Connected | Leaked => 1 | _ => 0 end.
Definition places (l : list client) : nat := foldr (fun c n => place c + n)%nat 0%nat l.

Lemma places_app l k : places (l ++ k) = (places l + places k)%nat.
Proof. unfold places. induction l as [|c l IH]; cbn [app foldr]; [done|]. rewrite IH. lia. Qed.

Lemma places_insert l i c d : l !! i = Some c -> (places (<[i := d]> l) + place c = places l + place d)%nat.
Proof.
  intros Hi. rewrite <-(take_drop_middle l i c Hi) at 2.
  rewrite insert_take_drop by (by eapply lookup_lt_Some). rewrite !places_app.
  change (places (d :: ?k)) with (place d + places k)%nat. change (places (c :: ?k)) with (place c + places k)%nat. lia.
Qed.

Lemma step_counts cap h h' : step cap h h' -> counter h = places (clients h) -> counter h' = places (clients h').
Proof.
  intros Hs. destruct Hs as [l n|l n i H|l n i H Hc|l n i H|l n i H|l n i H|l n i H]; cbn [clients counter]; intros ->;
    try (pose proof (places_insert l i _ Gone H) as E; cbn [place] in E; lia).
  - rewrite places_app. cbn. lia.
  - pose proof (places_insert l i _ Passed H) as E. cbn [place] in E. lia.
  - pose proof (places_insert l i _ Connected H) as E. cbn [place] in E. lia.
  - pose proof (places_insert l i _ Leaked H) as E. cbn [place] in E. lia.
Qed.

(** Any number of connections may arrive, pass the test one after the other
    while nobody has been counted, and then all be counted. *)
Lemma arrivals cap l n k : rtc (step cap) (mk_hall l n) (mk_hall (l ++ replicate k Arrived) n).
Proof.
  induction k as [|k IH]; [by rewrite app_nil_r|]. eapply rtc_r; [exact IH|].
  replace (l ++ replicate (S k) Arrived) with ((l ++ replicate k Arrived) ++ [Arrived]); [constructor|].
  by rewrite <-app_assoc, <-replicate_cons_app.
Qed.

Lemma advance cap c d n k (f : nat -> nat) :
  (forall l i m, l !! i = Some c -> step cap (mk_hall l (f m)) (mk_hall (<[i := d]> l) (f (S m)))) -> f 0%nat = n ->
  rtc (step cap) (mk_hall (replicate k c) n) (mk_hall (replicate k d) (f k)).
Proof.
  intros Hs <-. assert (H : forall j, (j <= k)%nat ->
    rtc (step cap) (mk_hall (replicate k c) (f 0%nat)) (mk_hall (replicate j d ++ replicate (k - j) c) (f j))).
  { induction j as [|j IH]; intros Hj; [by rewrite Nat.sub_0_r|]. eapply rtc_r; [apply IH; lia|].
    replace (k - j)%nat with (S (k - S j)) by lia. cbn [replicate].
    assert (E : replicate (S j) d ++ replicate (k - S j) c = <[j := d]> (replicate j d ++ c :: replicate (k - S j) c)).
    { rewrite insert_app_r_alt by (rewrite length_replicate; lia). rewrite length_replicate, Nat.sub_diag. cbn [replicate].
      change (<[0%nat := d]> (c :: replicate (k - S j) c)) with (d :: replicate (k - S j) c).
      change (d :: replicate j d) with (replicate (S j) d). by rewrite (replicate_S_end j d), <-app_assoc. }
    cbn [replicate] in E. rewrite E. apply Hs. rewrite lookup_app_r by (rewrite length_replicate; lia).
    by rewrite length_replicate, Nat.sub_diag. }
  specialize (H k (le_n k)). by rewrite Nat.sub_diag, app_nil_r in H.
Qed.

(** One handshake without anybody in between is the handler's own. *)
Lemma handshake_steps {SDP Addr} `{Wire SDP} r sent cap n l :
  let '(res, _, n') := client_server_handshake (SDP := SDP) (Addr := Addr) r sent cap n in
  exists c, (res = Ok tt <-> c = Connected) /\
    rtc (step cap) (mk_hall (l ++ [Arrived]) n) (mk_hall (l ++ [c]) n').
Proof.
  assert (Hi : forall c d, (l ++ [c]) !! List.length l = Some c /\ <[List.length l := d]> (l ++ [c]) = l ++ [d]).
  { intros c d. rewrite lookup_app_r by lia. rewrite Nat.sub_diag. split; [done|].
    rewrite insert_app_r_alt by lia. by rewrite Nat.sub_diag. }
  assert (Hgone : rtc (step cap) (mk_hall (l ++ [Arrived]) n) (mk_hall (l ++ [Gone]) n)).
  { apply rtc_once. destruct (Hi Arrived Gone) as [H1 <-]. by constructor. }
  assert (Hno : forall e : ServerError, exists c, (@Err unit ServerError e = Ok tt <-> c = Connected) /\
    rtc (step cap) (mk_hall (l ++ [Arrived]) n) (mk_hall (l ++ [c]) n)) by (intros e; exists Gone; by split).
  assert (Hyes : (n < cap)%nat -> exists c, (@Ok unit ServerError tt = Ok tt <-> c = Connected) /\
    rtc (step cap) (mk_hall (l ++ [Arrived]) n) (mk_hall (l ++ [c]) (S n))).
  { intros Hn. exists Connected. split; [done|]. destruct (Hi Arrived Passed) as [H1 E1], (Hi Passed Connected) as [H2 E2].
    eapply rtc_l; [by apply (step_pass cap _ _ _ H1)|]. rewrite E1, <-E2. apply rtc_once. by apply step_count. }
  unfold client_server_handshake. destruct r; try apply Hno;
    (destruct (ClientMessage.from_bytes _) as [[]|]; try apply Hno);
    (destruct (Nat.leb_spec cap n); [destruct sent; apply Hno|]); (destruct sent; [by apply Hyes|apply Hno]).
Qed.

(** The first interface that is not a loopback and has an IPv4 address. *)
Lemma server_ip l ip :
  get_server_ip (Ok l) = Ok ip <-> exists pre rest, l = pre ++ (false, Some ip) :: rest /\ Forall (fun i => i.1 = true \/ i.2 = None) pre.
Proof.
  unfold get_server_ip. cbn [map_err rbind]. induction l as [|[b o] l IH]; cbn [first_ipv4 ok_or].
  { split; [done|]. intros (pre & rest & E & _). by destruct pre. }
  assert (Hskip : (b = true \/ o = None) ->
    (ok_or (first_ipv4 l) (IPNotFound []) = Ok ip <-> exists pre rest, (b, o) :: l = pre ++ (false, Some ip) :: rest /\
      Forall (fun i : bool * option str => i.1 = true \/ i.2 = None) pre)).
  { intros Hbo. rewrite IH. split; intros (pre & rest & E & Hf).
    - exists ((b, o) :: pre), rest. split; [by rewrite E|by constructor].
    - destruct pre as [|q pre]; [injection E as -> ->; by destruct Hbo|].
      injection E as _ ->. exists pre, rest. split; [done|]. by apply Forall_cons in Hf as [_ ?]. }
  destruct o as [x|]; [destruct b|]; cbn [ok_or]; [apply Hskip; by left| |apply Hskip; by right].
  split; [intros [= ->]; by exists [], l|]. intros (pre & rest & E & Hf). destruct pre as [|q pre]; [by injection E as -> _|].
  injection E as <- _. apply Forall_cons in Hf as [[?|?] _]; done.
Qed.

(** * Properties *)

(** C37: the counter is exact, its limit is not.  However the connections'
    steps interleave, the counter of connected clients is the number of
    connections counted and not given back; but since the limit is tested before
    the welcome is written and the counter raised after it, any number of
    connections can be let in at once, whatever the limit, unless it is zero. *)
Theorem connection_counter cap k : (0 < cap)%nat ->
  (forall h, rtc (step cap) (mk_hall [] 0) h -> counter h = places (clients h)) /\
  rtc (step cap) (mk_hall [] 0) (mk_hall (replicate k Connected) k).
Proof.
  intros Hcap. split.
  - intros h Hr. assert (G : forall a b, rtc (step cap) a b -> counter a = places (clients a) -> counter b = places (clients b)).
    { induction 1 as [|a b c Hs _ IH]; [done|]. intros Ha. by apply IH, (step_counts cap a b). }
    by apply (G _ _ Hr).
  - etransitivity; [apply (arrivals cap [] 0 k)|]. cbn [app]. etransitivity.
    + apply (advance cap Arrived Passed 0 k (fun _ => 0%nat)); [|done]. intros l i m Hi. by constructor.
    + apply (advance cap Passed Connected 0 k id); [|done]. intros l i m Hi. by constructor.
Qed.

(** * Witnesses *)

(** Three clients at a server for one. *)
Lemma connection_counter_witness : rtc (step 1) (mk_hall [] 0) (mk_hall [Connected; Connected; Connected] 3).
Proof. exact (proj2 (connection_counter 1 3 ltac:(lia))). Defined.
