(* ===== verification/Life.v ===== *)
(** The life of the server process: many connections at once, each in the
    middle of something, the users file, and restarts
    (src/server/operating_server.rs, user_handler.rs, central_server.rs).

    The handlers of OperatingServer hold the lock on the users only for part of
    what they do.  Here the operations that write outside the section they read
    in, or that write the file outside any section, are split at those points:
    call_request and call_reject (read, then write), signup_user (the new user,
    then each of the four writes that [writeln!] makes on an unbuffered file).
    A [Process] is the shared world and every connection with the [phase] it is
    in; [act] is what one thread does next, and a life is a list of [action]s, in
    any order the threads may take.  The pushed messages of one section are
    taken together with it, and so are the reads of one operation; a message that
    does not decode is answered without touching anything and is left out. *)

From S2P Require Import Prelude.
From S2P Require Import Text.
From S2P Require Import Wire.
From S2P Require Import UserStatus.
From S2P Require Import ClientMessage.
From S2P Require Import ServerMessage.
From S2P Require Import ServerResponse.
From S2P Require Import OperatingServer.
From S2P Require Import UserHandler.
From S2P Require Import CentralServer.

(** * Definitions *)

Section Life.
Context {SDP Addr : Type} `{Wire SDP} `{MapOrder UserData} (bad : nat -> bool).

(** ** Operations cut at their lock sections *)

(** [signup_user] up to the file. *)
Definition signup_begin (name passwd : str) (w : World SDP) : result (World SDP) (ServerResponse Addr) :=
  if negb (is_ok (validate_string name)) then Err (SignupError (lit "Invalid username"))
  else if negb (is_ok (validate_string passwd)) then Err (SignupError (lit "Invalid password"))
  else if users_poisoned w then Err (SignupError poison_text)
  else match users w !! name with
  | Some _ => Err (SignupError (lit "User " ++ name ++ lit " already exists"))
  | None => Ok (notify_status_update bad name Offline (set_users (<[name := new_user name passwd Offline]> (users w)) w))
  end.

(** The writes of [writeln!(file, "{username}:{password}")]. *)
Definition user_pieces (name passwd : str) : list bytes := [utf8_encode name; [58]; utf8_encode passwd; [10]].

(** [call_reject] after its checks. *)
Definition call_reject_commit (from_usr to_usr : str) (read : nat * UserData * UserData) (w : World SDP) :
    ServerResponse Addr * World SDP :=
  let '(stream, from_usr_data, to_usr_data) := read in
  let w := notify_status_update bad from_usr Available w in
  let w := notify_status_update bad to_usr Available w in
  if users_poisoned w then (CallRejectError poison_text, w) else
  let w := set_users (<[username from_usr_data := from_usr_data]>
                     (<[username to_usr_data := to_usr_data]> (users w))) w in
  (CallRejectOk, send_message bad stream CallRejected w).

(** ** The process *)

(** What a connection's thread is doing: waiting for a message, between the two
    sections of a call request or a rejection, or writing a user to the file. *)
Inductive phase :=
| Ready
| Requesting (from_usr to_usr : str) (offer_sdp : SDP) (read : nat * UserData * UserData)
| Rejecting (from_usr to_usr : str) (read : nat * UserData * UserData)
| Appending (pieces : list bytes).

Record Process := mk_process {
  world : World SDP;
  handlers : gmap nat (OperatingServer Addr * phase);
  answers : list (nat * ServerResponse Addr)
}.

(** A process started on a users file. *)
Definition boot (file : bytes) : Process := mk_process (mk_world (load_users file) false [] [] file) ∅ [].

Inductive action :=
| Connect (i : nat) (address : Addr)
| Receive (i : nat) (event : ClientMessage SDP)
| Continue (i : nat) (written : result unit ServerError)
| Attach (asked : bool) (r : read) (stream : nat)
| Lose (stream : nat)
| Close (i : nat)
| Break (i : nat)
| Restart.

(** Connection [i] has answered, and waits again. *)
Definition answer (i : nat) (r : ServerResponse Addr) (s : OperatingServer Addr) (w : World SDP) (p : Process) : Process :=
  mk_process w (<[i := (s, Ready)]> (handlers p)) (answers p ++ [(i, r)]).

(** Connection [i] has left its first section. *)
Definition enter (i : nat) (ph : phase) (s : OperatingServer Addr) (w : World SDP) (p : Process) : Process :=
  mk_process w (<[i := (s, ph)]> (handlers p)) (answers p).

(** A message read by connection [i]. *)
Definition receive (i : nat) (event : ClientMessage SDP) (s : OperatingServer Addr) (p : Process) : Process :=
  let w := world p in
  match event with
  | SignUp name passwd =>
      match signup_begin name passwd w with
      | Err r => answer i r s w p
      | Ok w => enter i (Appending (user_pieces name passwd)) s w p
      end
  | CallRequest token offer_sdp to =>
      match call_request_read token to w with
      | Err r => answer i r s w p
      | Ok read => enter i (Requesting token to offer_sdp read) s w p
      end
  | CallReject from_usr to_usr =>
      match call_reject_read from_usr to_usr w with
      | Err r => answer i r s w p
      | Ok read => enter i (Rejecting from_usr to_usr read) s w p
      end
  | _ =>
      let '(r, s, w) := handle_client_message bad event (mk_disk true true) s w in
      answer i r s w p
  end.

(** The next section of connection [i]; [written]: whether the file could be
    opened and took the bytes. *)
Definition continue (i : nat) (written : result unit ServerError) (s : OperatingServer Addr) (ph : phase) (p : Process) : option Process :=
  let w := world p in
  match ph with
  | Ready => None
  | Requesting from_usr to_usr offer_sdp read =>
      let '(r, w) := call_request_commit bad from_usr to_usr offer_sdp read w in Some (answer i r s w p)
  | Rejecting from_usr to_usr read =>
      let '(r, w) := call_reject_commit from_usr to_usr read w in Some (answer i r s w p)
  | Appending [] => Some (answer i SignupOk s w p)
  | Appending (b :: pieces) =>
      match written, pieces with
      | Err e, _ => Some (answer i (ServerResponse.Error (lit "Error loading user data: " ++ show_error e)) s w p)
      | Ok _, [] => Some (answer i SignupOk s (append_file b w) p)
      | Ok _, _ => Some (enter i (Appending pieces) s (append_file b w) p)
      end
  end.

(** One thread's next step; [None]: that thread cannot take it now.  [Lose] is
    an inbound stream on which writes fail from now on; [Close] is
    the end of the input or a failed read, [Break] an answer that cannot be
    written or the server's flag found down; [Restart] loads the file again. *)
Definition act (p : Process) (a : action) : option Process :=
  match a with
  | Connect i address =>
      match handlers p !! i with
      | Some _ => None
      | None => Some (mk_process (world p) (<[i := (mk_server address None, Ready)]> (handlers p)) (answers p))
      end
  | Receive i event =>
      match handlers p !! i with
      | Some (s, Ready) => Some (receive i event s p)
      | _ => None
      end
  | Continue i written =>
      match handlers p !! i with
      | Some (s, ph) => continue i written s ph p
      | None => None
      end
  | Attach asked r stream => Some (mk_process (map_stream_to_user asked r stream (world p)) (handlers p) (answers p))
  | Lose stream => Some (mk_process (shutdown stream (world p)) (handlers p) (answers p))
  | Close i =>
      match handlers p !! i with
      | Some (s, Ready) =>
          let '(_, _, w) := make_user_offline bad s (world p) in
          Some (mk_process w (delete i (handlers p)) (answers p))
      | _ => None
      end
  | Break i =>
      match handlers p !! i with
      | Some (_, Ready) => Some (mk_process (world p) (delete i (handlers p)) (answers p))
      | _ => None
      end
  | Restart => Some (boot (users_file (world p)))
  end.

Fixpoint run (l : list action) (p : Process) : option Process :=
  match l with
  | [] => Some p
  | a :: l => match act p a with Some p => run l p | None => None end
  end.

End Life.
Arguments Process : clear implicits.
Arguments phase : clear implicits.
Arguments action : clear implicits.

(** ** The ledger: what a life means for the accounts

    The passwords of the registered users, the users file, and the writes each
    connection still has to make. *)

Definition accounts (m : gmap str UserData) : gmap str str := password <$> m.

Record Ledger := mk_ledger {
  booked : gmap str str;
  stored : bytes;
  pending : gmap nat (list bytes)
}.

Definition to_write {SDP} (ph : phase SDP) : option (list bytes) :=
  match ph with Appending pieces => Some pieces | _ => None end.

Definition ledger_of {SDP Addr} (p : Process SDP Addr) : Ledger :=
  mk_ledger (accounts (users (world p))) (users_file (world p)) (omap (fun h => to_write h.2) (handlers p)).

Inductive entry :=
| Silent
| Begin (i : nat) (name passwd : str)
| Write (i : nat)
| GiveUp (i : nat)
| Reload.

Inductive ledger_step : entry -> Ledger -> Ledger -> Prop :=
| ledger_silent L : ledger_step Silent L L
| ledger_begin i name passwd m f q :
    is_ok (validate_string name) = true -> is_ok (validate_string passwd) = true ->
    m !! name = None -> q !! i = None ->
    ledger_step (Begin i name passwd) (mk_ledger m f q) (mk_ledger (<[name := passwd]> m) f (<[i := user_pieces name passwd]> q))
| ledger_write i b rest m f q :
    q !! i = Some (b :: rest) ->
    ledger_step (Write i) (mk_ledger m f q)
      (mk_ledger m (f ++ b) (match rest with [] => delete i q | _ => <[i := rest]> q end))
| ledger_give_up i l m f q : q !! i = Some l -> ledger_step (GiveUp i) (mk_ledger m f q) (mk_ledger m f (delete i q))
| ledger_reload m f q : ledger_step Reload (mk_ledger m f q) (mk_ledger (accounts (load_users f)) f ∅).

(** The entry an action can make. *)
Definition books {SDP Addr} (a : action SDP Addr) (e : entry) : Prop :=
  match e with
  | Silent => a <> Restart
  | Begin i name passwd => a = Receive i (SignUp name passwd)
  | Write i => a = Continue i (Ok tt)
  | GiveUp i => exists err, a = Continue i (Err err)
  | Reload => a = Restart
  end.

Inductive ledger_run : list entry -> Ledger -> Ledger -> Prop :=
| ledger_run_nil L : ledger_run [] L L
| ledger_run_cons e es L1 L2 L3 : ledger_step e L1 L2 -> ledger_run es L2 L3 -> ledger_run (e :: es) L1 L3.

(** A life in order: names and passwords without spaces around them, one
    sign-up in the file at a time, a file that takes the bytes, and no restart in
    the middle of a sign-up. *)
Definition orderly {SDP Addr} (p : Process SDP Addr) (a : action SDP Addr) : Prop :=
  match a with
  | Receive _ (SignUp name passwd) =>
      is_str name /\ is_str passwd /\ clean name /\ clean passwd /\ pending (ledger_of p) = ∅
  | Continue _ written => written = Ok tt
  | Restart => pending (ledger_of p) = ∅
  | _ => True
  end.

Fixpoint orderly_life {SDP Addr} `{Wire SDP} `{MapOrder UserData} (bad : nat -> bool) (l : list (action SDP Addr))
    (p : Process SDP Addr) : Prop :=
  match l with
  | [] => True
  | a :: l => orderly p a /\ match act bad p a with Some p => orderly_life bad l p | None => True end
  end.

(** Clients that only log themselves out, once their inbound stream is attached. *)
Definition courteous {SDP Addr} (bad : nat -> bool) (p : Process SDP Addr) (a : action SDP Addr) : Prop :=
  match a with
  | Receive i (LogOut token) =>
      exists s d j, handlers p !! i = Some (s, Ready) /\ me s = Some token /\
        users (world p) !! token = Some d /\ server_client_stream d = Some j /\ bad j = false
  | _ => True
  end.

Fixpoint courteous_life {SDP Addr} `{Wire SDP} `{MapOrder UserData} (bad : nat -> bool) (l : list (action SDP Addr))
    (p : Process SDP Addr) : Prop :=
  match l with
  | [] => True
  | a :: l => courteous bad p a /\ match act bad p a with Some p => courteous_life bad l p | None => True end
  end.

(** * Lemmas *)

Section Facts.
Context {SDP Addr : Type} `{Wire SDP} `{Hord : MapOrder UserData} (bad : nat -> bool).
Implicit Types (w : World SDP) (p : Process SDP Addr) (s : OperatingServer Addr).

Lemma accounts_lookup m k : accounts m !! k = password <$> m !! k.
Proof. apply lookup_fmap. Qed.

Lemma accounts_insert m k d : accounts (<[k := d]> m) = <[k := password d]> (accounts m).
Proof. apply fmap_insert. Qed.

Lemma accounts_update m k d d' : m !! k = Some d -> password d' = password d -> accounts (<[k := d']> m) = accounts m.
Proof. intros Hd Hp. rewrite accounts_insert, Hp. apply insert_id. by rewrite accounts_lookup, Hd. Qed.

(** ** The split operations are the handlers' *)

Lemma pieces_line name passwd : List.concat (user_pieces name passwd) = user_line name passwd.
Proof. unfold user_line. rewrite !utf8_encode_app. reflexivity. Qed.

Lemma signup_split name passwd dk s w :
  signup_user bad name passwd dk s w =
  match signup_begin bad name passwd w with
  | Err r => (r, s, w)
  | Ok w =>
      let '(r, w) := load_user_data_in_disk name passwd dk w in
      match r with
      | Err e => (ServerResponse.Error (lit "Error loading user data: " ++ show_error e), s, w)
      | Ok _ => (SignupOk, s, w)
      end
  end.
Proof.
  unfold signup_user, signup_begin. destruct (negb _); [done|]. destruct (negb _); [done|].
  destruct (users_poisoned w); [done|]. by destruct (users w !! name).
Qed.

Lemma reject_split from to w :
  call_reject bad from to w =
  match @call_reject_read SDP Addr from to w with Err r => (r, w) | Ok read => call_reject_commit bad from to read w end.
Proof. unfold call_reject. by destruct (call_reject_read from to w) as [[[i f] t]|r]. Qed.

Lemma append_append a b w : append_file b (append_file a w) = append_file (a ++ b) w.
Proof. unfold append_file. cbn. by rewrite app_assoc. Qed.

Lemma enter_lookup i ph s w p : handlers (enter i ph s w p) !! i = Some (s, ph).
Proof. apply lookup_insert_eq. Qed.

Lemma answer_enter i r s s' w w' ph p : answer i r s' w' (enter i ph s w p) = answer i r s' w' p.
Proof. unfold answer, enter. cbn. by rewrite insert_insert_eq. Qed.

Lemma enter_enter i ph ph' s s' w w' p : enter i ph' s' w' (enter i ph s w p) = enter i ph' s' w' p.
Proof. unfold enter. cbn. by rewrite insert_insert_eq. Qed.

(** Left alone, the thread that appends a user writes its line. *)
Lemma appending_alone i s w p name passwd :
  run bad (replicate 4 (Continue i (Ok tt))) (enter i (Appending (user_pieces name passwd)) s w p) =
  Some (answer i SignupOk s (append_file (user_line name passwd) w) p).
Proof.
  cbn [replicate run act]. unfold user_pieces.
  do 3 (rewrite enter_lookup; cbn [continue]; rewrite enter_enter; cbn [world enter]; rewrite ?append_append).
  rewrite enter_lookup. cbn [continue]. rewrite answer_enter. cbn [world enter]. rewrite append_append.
  do 3 f_equal. rewrite <-pieces_line. cbn. by rewrite <-!app_assoc.
Qed.

(** ** What a section does to the accounts and the file *)

Definition steady w w' : Prop :=
  keyed w' /\ users_poisoned w' = users_poisoned w /\ accounts (users w') = accounts (users w) /\ users_file w' = users_file w.

Lemma steady_refl w : keyed w -> steady w w.
Proof. done. Qed.

Lemma steady_trans w1 w2 w3 : steady w1 w2 -> steady w2 w3 -> steady w1 w3.
Proof. intros (_ & Hp & Ha & Hf) (Hk & Hp' & Ha' & Hf'). split_and!; [done|congruence..]. Qed.

Lemma notify_steady name st w : keyed w -> steady w (notify_status_update bad name st w).
Proof.
  intros Hk. destruct (notify_users bad name st w) as (E & Ep & Ef). split_and!; [|done|by rewrite E|done].
  by eapply keyed_same.
Qed.

Lemma send_steady i msg w : keyed w -> steady w (send_message bad i msg w).
Proof.
  intros Hk. destruct (send_users bad i msg w) as (E & Ep & Ef). split_and!; [|done|by rewrite E|done].
  by eapply keyed_same.
Qed.

Lemma set_status_steady k st d w :
  keyed w -> users w !! k = Some d -> steady w (set_users (<[k := update_status st d]> (users w)) w).
Proof. intros Hk Hd. split_and!; [by apply keyed_update|done|by eapply accounts_update|done]. Qed.

(** After steady steps, another. *)
Lemma steady_notify name st w w' : steady w w' -> steady w (notify_status_update bad name st w').
Proof. intros Hs. eapply steady_trans; [exact Hs|]. by apply notify_steady, Hs. Qed.

Lemma steady_send i msg w w' : steady w w' -> steady w (send_message bad i msg w').
Proof. intros Hs. eapply steady_trans; [exact Hs|]. by apply send_steady, Hs. Qed.

(** Every message but a sign-up. *)
Lemma message_steady event dk s w :
  keyed w -> (forall u pw, event <> SignUp u pw) ->
  (forall t o to, event <> CallRequest t o to) -> (forall f t, event <> CallReject f t) ->
  let '(_, _, w') := handle_client_message bad event dk s w in steady w w'.
Proof.
  intros Hk Hs Hc Hr. destruct event as [|u pw|u pw|t|t o to|f t o|f t|t]; cbn [handle_client_message]; try congruence.
  - done.
  - unfold login_user. destruct (users_poisoned w); [done|]. destruct (users w !! u) as [d|] eqn:Hd; [|done].
    destruct (negb _); [done|]. destruct (status d); try done. by apply steady_notify, set_status_steady.
  - by exfalso; eapply Hs.
  - unfold logout_user. destruct (users_poisoned w); [done|]. destruct (users w !! t) as [d|] eqn:Hd; [|done].
    pose proof (set_status_steady t Offline d w Hk Hd).
    destruct (server_client_stream d) as [i|]; [|done]. destruct (bad i); [done|]. by apply steady_notify.
  - by exfalso; eapply Hc.
  - unfold call_accept. destruct (rbind _ _); [|done]. cbn. by apply send_steady.
  - by exfalso; eapply Hr.
  - unfold call_hangup. destruct (users_poisoned w); [done|]. destruct (users w !! t) as [d|] eqn:Hd; [|done].
    destruct (status d); try done. by apply steady_notify, set_status_steady.
Qed.

Lemma offline_steady s w : keyed w -> let '(_, _, w') := make_user_offline bad s w in steady w w'.
Proof.
  intros Hk. unfold make_user_offline. destruct (me s) as [name|]; [|done]. destruct (users_poisoned w); [done|].
  destruct (users w !! name) as [d|] eqn:Hd; [|done]. by apply steady_notify, set_status_steady.
Qed.

Lemma attach_steady asked r i w : keyed w -> steady w (map_stream_to_user asked r i w).
Proof.
  intros Hk. unfold map_stream_to_user. destruct (negb asked); [done|]. destruct r as [|b|]; try done.
  destruct (response_from_bytes b) as [[u]|]; [|done]. destruct (users_poisoned w); [done|].
  destruct (users w !! u) as [d|] eqn:Hd; [|done]. split_and!; [|done|by eapply accounts_update|done].
  intros k d'. cbn. rewrite lookup_insert_Some. intros [[<- <-]|[_ ?]]; [|by apply Hk]. cbn. by apply Hk.
Qed.

(** The records read in a first section still belong to their accounts. *)
Definition belongs (m : gmap str UserData) (d : UserData) : Prop := accounts m !! username d = Some (password d).

(** Both write sections. *)
Lemma commit_steady w f t :
  keyed w -> belongs (users w) f -> belongs (users w) t ->
  steady w (set_users (<[username f := f]> (<[username t := t]> (users w))) w).
Proof.
  intros Hk Hf Ht. split_and!; try done.
  - intros k d. cbn. rewrite !lookup_insert_Some. intros [[<- <-]|[_ [[<- <-]|[_ ?]]]]; [done|done|by apply Hk].
  - cbn. rewrite !accounts_insert. rewrite (insert_id _ (username t)) by done. by apply insert_id.
Qed.

Lemma request_steady from to offer i f t w :
  keyed w -> belongs (users w) f -> belongs (users w) t ->
  steady w (@call_request_commit SDP Addr _ bad from to offer (i, f, t) w).2.
Proof.
  intros Hk Hf Ht. unfold call_request_commit. destruct (users_poisoned w); [done|]. cbn.
  by apply steady_send, steady_notify, steady_notify, commit_steady.
Qed.

Lemma reject_steady from to i f t w :
  keyed w -> belongs (users w) f -> belongs (users w) t ->
  steady w (@call_reject_commit SDP Addr _ bad from to (i, f, t) w).2.
Proof.
  intros Hk Hf Ht. unfold call_reject_commit.
  pose proof (steady_notify to Available _ _ (notify_steady from Available w Hk)) as H1.
  set (w1 := notify_status_update _ to _ _) in *. destruct (users_poisoned w1); [done|]. cbn.
  apply steady_send. eapply steady_trans; [exact H1|]. destruct H1 as (Hk1 & _ & E & _).
  apply commit_steady; [done|unfold belongs; by rewrite E..].
Qed.

Lemma signup_begin_ok name passwd w w' :
  signup_begin bad name passwd w = @Ok _ (ServerResponse Addr) w' ->
  is_ok (validate_string name) = true /\ is_ok (validate_string passwd) = true /\ users w !! name = None /\
  users w' = <[name := new_user name passwd Offline]> (users w) /\
  users_poisoned w' = users_poisoned w /\ users_file w' = users_file w.
Proof.
  unfold signup_begin. destruct (is_ok (validate_string name)); [|done]. destruct (is_ok (validate_string passwd)); [|done].
  cbn. destruct (users_poisoned w) eqn:Hp; [done|]. destruct (users w !! name) eqn:Hu; [done|]. intros [= <-].
  destruct (notify_users bad name Offline (set_users (<[name := new_user name passwd Offline]> (users w)) w)) as (E & Ep & Ef).
  by rewrite E, Ep, Ef.
Qed.

Lemma belongs_read w k d st : keyed w -> users w !! k = Some d -> belongs (users w) (update_status st d).
Proof. intros Hk Hd. unfold belongs. cbn. rewrite (Hk k d Hd), accounts_lookup. by rewrite Hd. Qed.

(** ** The invariant of the shared state *)

Definition fitting (m : gmap str UserData) (ph : phase SDP) : Prop :=
  match ph with
  | Requesting _ _ _ (_, f, t) | Rejecting _ _ (_, f, t) => belongs m f /\ belongs m t
  | Appending pieces => pieces <> []
  | Ready => True
  end.

Definition sound p : Prop :=
  keyed (world p) /\ users_poisoned (world p) = false /\
  forall i h, handlers p !! i = Some h -> fitting (users (world p)) h.2.

Lemma belongs_grows m m' d : accounts m ⊆ accounts m' -> belongs m d -> belongs m' d.
Proof. unfold belongs. intros Hs Hd. by eapply lookup_weaken. Qed.

Lemma fitting_grows m m' ph : accounts m ⊆ accounts m' -> fitting m ph -> fitting m' ph.
Proof.
  intros Hs. destruct ph as [|f t o [[i df] dt]|f t [[i df] dt]|l]; cbn; [done| | |done];
    intros [??]; split; by eapply belongs_grows.
Qed.

(** Connections of the next state are those of the last, or fit it. *)
Lemma sound_next p w' hs ans :
  sound p -> keyed w' -> users_poisoned w' = users_poisoned (world p) -> accounts (users (world p)) ⊆ accounts (users w') ->
  (forall i h, hs !! i = Some h -> handlers p !! i = Some h \/ fitting (users w') h.2) -> sound (mk_process w' hs ans).
Proof.
  intros (_ & Hp & Hf) Hk Hp' Ha Hh. split_and!; [done|by rewrite <-Hp|]. intros i h Hi.
  destruct (Hh i h Hi) as [Hi'|?]; [|done]. eapply fitting_grows; [exact Ha|]. by apply (Hf i).
Qed.

(** A steady section of connection [i] that writes nothing makes no entry. *)
Lemma silent_put p w' i s0 ph0 s ph ans :
  sound p -> steady (world p) w' -> handlers p !! i = Some (s0, ph0) -> to_write ph0 = None ->
  to_write ph = None -> fitting (users w') ph ->
  let p' := mk_process w' (<[i := (s, ph)]> (handlers p)) ans in sound p' /\ ledger_step Silent (ledger_of p) (ledger_of p').
Proof.
  intros Hs (Hk & Hp & Ha & Hf) Hi H0 H1 Hph p'. split.
  - apply (sound_next p); [done..|by rewrite Ha|]. intros j h. rewrite lookup_insert_Some.
    intros [[<- <-]|[_ ?]]; [by right|by left].
  - assert (ledger_of p' = ledger_of p) as ->; [|constructor]. unfold ledger_of, p'. cbn. rewrite Ha, Hf. f_equal.
    rewrite omap_insert_None by done. apply delete_id. rewrite lookup_omap, Hi. exact H0.
Qed.

Lemma silent_drop p w' i s0 ph0 :
  sound p -> steady (world p) w' -> handlers p !! i = Some (s0, ph0) -> to_write ph0 = None ->
  let p' := mk_process w' (delete i (handlers p)) (answers p) in sound p' /\ ledger_step Silent (ledger_of p) (ledger_of p').
Proof.
  intros Hs (Hk & Hp & Ha & Hf) Hi H0 p'. split.
  - apply (sound_next p); [done..|by rewrite Ha|]. intros j h [_ ?]%lookup_delete_Some. by left.
  - assert (ledger_of p' = ledger_of p) as ->; [|constructor]. unfold ledger_of, p'. cbn. rewrite Ha, Hf. f_equal.
    rewrite omap_delete. apply delete_id. rewrite lookup_omap, Hi. exact H0.
Qed.

Lemma load_keyed content k d : load_users content !! k = Some d -> username d = k /\ status d = Offline.
Proof.
  assert (G : forall l m, (forall k d, m !! k = Some d -> username d = k /\ status d = Offline) ->
    forall k d, foldl load_line m l !! k = Some d -> username d = k /\ status d = Offline).
  { induction l as [|x l IH]; [done|]. intros m Hm. cbn [foldl]. apply IH. intros k' d'. unfold load_line.
    destruct (utf8_decode x) as [t|]; [|apply Hm]. destruct (split_once 58 t) as [[u pw]|]; [|apply Hm].
    rewrite lookup_insert_Some. intros [[<- <-]|[_ ?]]; [done|by apply Hm]. }
  apply G. intros k' d'. by rewrite lookup_empty.
Qed.

Lemma sound_boot file : sound (boot file).
Proof. split_and!; [|done|]. - intros k d Hd. by apply load_keyed in Hd as [? _]. - intros i h. cbn. by rewrite lookup_empty. Qed.

Lemma receive_refines i event s p :
  sound p -> handlers p !! i = Some (s, Ready) ->
  let p' := receive bad i event s p in
  sound p' /\ exists e, books (Receive i event : action SDP Addr) e /\ ledger_step e (ledger_of p) (ledger_of p').
Proof.
  intros Hs Hi. pose proof Hs as (Hk & Hp & _).
  assert (Hst : forall s' w' r, steady (world p) w' -> let p' := answer i r s' w' p in
    sound p' /\ exists e, books (Receive i event : action SDP Addr) e /\ ledger_step e (ledger_of p) (ledger_of p')).
  { intros s' w' r Hw. destruct (silent_put p w' i s Ready s' Ready (answers p ++ [(i, r)]) Hs Hw Hi) as [??]; [done..|].
    split; [done|]. by exists Silent. }
  assert (Hen : forall ph, to_write ph = None -> fitting (users (world p)) ph -> let p' := enter i ph s (world p) p in
    sound p' /\ exists e, books (Receive i event : action SDP Addr) e /\ ledger_step e (ledger_of p) (ledger_of p')).
  { intros ph H1 H2. destruct (silent_put p (world p) i s Ready s ph (answers p) Hs (steady_refl _ Hk) Hi) as [??]; [done..|].
    split; [done|]. by exists Silent. }
  assert (Hm : (forall u pw, event <> SignUp u pw) -> (forall t o to, event <> CallRequest t o to) ->
    (forall f t, event <> CallReject f t) ->
    let '(r, s', w') := handle_client_message bad event (mk_disk true true) s (world p) in
    sound (answer i r s' w' p) /\ exists e, books (Receive i event : action SDP Addr) e /\
      ledger_step e (ledger_of p) (ledger_of (answer i r s' w' p))).
  { intros H1 H2 H3. pose proof (message_steady event (mk_disk true true) s (world p) Hk H1 H2 H3) as Hw.
    destruct (handle_client_message _ _ _ _ _) as [[r s'] w']. by apply Hst. }
  destruct event as [|u pw|u pw|t|t o to|f t o|f t|t]; cbn -[handle_client_message user_pieces] in Hm |- *;
    try (destruct (handle_client_message _ _ _ _ _) as [[r s'] w']; by apply Hm).
  - destruct (signup_begin bad u pw (world p)) as [w'|r] eqn:E; [|by apply Hst].
    apply signup_begin_ok in E as (Vn & Vp & Hu & Eu & Ep & Ef). split.
    + apply (sound_next p); [done| |done| |].
      * intros k d. rewrite Eu, lookup_insert_Some. intros [[<- <-]|[_ ?]]; [done|by apply Hk].
      * rewrite Eu, accounts_insert. apply insert_subseteq. by rewrite accounts_lookup, Hu.
      * intros j h. rewrite lookup_insert_Some. intros [[<- <-]|[_ ?]]; [by right|by left].
    + exists (Begin i u pw). split; [done|]. unfold ledger_of. cbn -[user_pieces]. rewrite Eu, Ef, accounts_insert.
      rewrite (omap_insert_Some _ _ _ _ (user_pieces u pw)) by done.
      constructor; [done|done|by rewrite accounts_lookup, Hu|by rewrite lookup_omap, Hi].
  - destruct (call_request_read t to (world p)) as [[[j f] d]|r] eqn:E; [|by apply Hst].
    apply call_request_read_ok in E as (_ & df & dt & Hf & Ht & _ & _ & _ & -> & ->).
    apply Hen; [done|]. split; by eapply belongs_read.
  - destruct (call_reject_read f t (world p)) as [[[j f'] d]|r] eqn:E; [|by apply Hst].
    apply call_reject_read_ok in E as (_ & df & dt & Hf & Ht & _ & _ & _ & -> & ->).
    apply Hen; [done|]. split; by eapply belongs_read.
Qed.

Lemma continue_refines i wr s ph p p' :
  sound p -> handlers p !! i = Some (s, ph) -> continue bad i wr s ph p = Some p' ->
  sound p' /\ exists e, books (Continue i wr : action SDP Addr) e /\ ledger_step e (ledger_of p) (ledger_of p').
Proof.
  intros Hs Hi. pose proof Hs as (Hk & _ & Hf). specialize (Hf i _ Hi). cbn in Hf.
  assert (Hst : forall w' r, to_write ph = None -> steady (world p) w' -> let p' := answer i r s w' p in
    sound p' /\ exists e, books (Continue i wr : action SDP Addr) e /\ ledger_step e (ledger_of p) (ledger_of p')).
  { intros w' r H0 Hw. destruct (silent_put p w' i s ph s Ready (answers p ++ [(i, r)]) Hs Hw Hi) as [??]; [done..|].
    split; [done|]. by exists Silent. }
  assert (Hput : forall ph' w' ans, accounts (users w') = accounts (users (world p)) -> keyed w' ->
    users_poisoned w' = users_poisoned (world p) -> fitting (users w') ph' ->
    sound (mk_process w' (<[i := (s, ph')]> (handlers p)) ans)).
  { intros ph' w' ans Ha Hk' Hp' Hf'. apply (sound_next p); [done..|by rewrite Ha|].
    intros j h. rewrite lookup_insert_Some. intros [[<- <-]|[_ ?]]; [by right|by left]. }
  destruct ph as [|f t o [[j df] dt]|f t [[j df] dt]|[|b l]]; cbn [continue]; [done| | |done|].
  - destruct Hf as [H1 H2]. pose proof (request_steady f t o j df dt (world p) Hk H1 H2) as Hw.
    destruct (call_request_commit _ _ _ _ _ _) as [r w']. intros [= <-]. by apply Hst.
  - destruct Hf as [H1 H2]. pose proof (reject_steady f t j df dt (world p) Hk H1 H2) as Hw.
    destruct (call_reject_commit _ _ _ _ _) as [r w']. intros [= <-]. by apply Hst.
  - assert (Hq : pending (ledger_of p) !! i = Some (b :: l)) by (cbn; by rewrite lookup_omap, Hi).
    destruct wr as [[]|err].
    + intros E. assert (Hd : p' = match l with [] => answer i SignupOk s (append_file b (world p)) p
        | _ => enter i (Appending l) s (append_file b (world p)) p end) by (by destruct l; injection E as <-). subst p'.
      pose proof (ledger_write i b l (accounts (users (world p))) (users_file (world p)) _ Hq) as Hl.
      destruct l as [|b' l]; (split; [by apply Hput|]); exists (Write i); (split; [done|]); unfold ledger_of in *; cbn in Hl |- *.
      * by rewrite omap_insert_None.
      * by rewrite (omap_insert_Some _ _ _ _ (b' :: l)).
    + intros E. assert (p' = answer i (ServerResponse.Error (lit "Error loading user data: " ++ show_error err)) s (world p) p) as ->
        by (by destruct l; injection E as <-).
      split; [by apply Hput|]. exists (GiveUp i). split; [by exists err|].
      pose proof (ledger_give_up i _ (accounts (users (world p))) (users_file (world p)) _ Hq) as Hl.
      unfold ledger_of in *; cbn in Hl |- *. by rewrite omap_insert_None.
Qed.

Lemma act_refines a p p' :
  sound p -> act bad p a = Some p' ->
  sound p' /\ exists e, books a e /\ ledger_step e (ledger_of p) (ledger_of p').
Proof.
  intros Hs. pose proof Hs as (Hk & Hp & Hf). destruct a as [i addr|i event|i wr|asked r j|j|i|i|]; cbn [act].
  - destruct (handlers p !! i) eqn:Hi; [done|]. intros [= <-]. split.
    + apply (sound_next p); [done..|]. intros j h. rewrite lookup_insert_Some. intros [[<- <-]|[_ ?]]; [by right|by left].
    + exists Silent. split; [done|]. unfold ledger_of. cbn. rewrite omap_insert_None by done.
      rewrite delete_id by (by rewrite lookup_omap, Hi). constructor.
  - destruct (handlers p !! i) as [[s [|?|?|?]]|] eqn:Hi; try done. intros [= <-]. by apply receive_refines.
  - destruct (handlers p !! i) as [[s ph]|] eqn:Hi; [|done]. by apply continue_refines.
  - intros [= <-]. destruct (attach_steady asked r j (world p) Hk) as (Hk' & Hp' & Ha & Hl). split.
    + apply (sound_next p); [done..|by rewrite Ha|]. by left.
    + exists Silent. split; [done|]. unfold ledger_of. cbn. rewrite Ha, Hl. constructor.
  - intros [= <-]. split; [exact Hs|]. exists Silent. split; [done|]. constructor.
  - destruct (handlers p !! i) as [[s [|?|?|?]]|] eqn:Hi; try done.
    pose proof (offline_steady s (world p) Hk) as Hw. destruct (make_user_offline bad s (world p)) as [[r s'] w'].
    intros [= <-]. destruct (silent_drop p w' i s Ready) as [??]; [done..|]. split; [done|]. by exists Silent.
  - destruct (handlers p !! i) as [[s [|?|?|?]]|] eqn:Hi; try done. intros [= <-].
    destruct (silent_drop p (world p) i s Ready) as [??]; [done..|]. split; [done|]. by exists Silent.
  - intros [= <-]. split; [apply sound_boot|]. exists Reload. split; [done|].
    unfold ledger_of. cbn [world boot users users_file handlers]. rewrite omap_empty. constructor.
Qed.

Lemma run_refines l p p' :
  sound p -> run bad l p = Some p' ->
  sound p' /\ exists es, Forall2 books l es /\ ledger_run es (ledger_of p) (ledger_of p').
Proof.
  revert p. induction l as [|a l IH]; intros p Hs; cbn [run].
  - intros [= <-]. split; [done|]. exists []. by repeat constructor.
  - destruct (act bad p a) as [p1|] eqn:Ea; [|done]. intros Hr.
    destruct (act_refines a p p1 Hs Ea) as (Hs1 & e & Hb & Hl). destruct (IH p1 Hs1 Hr) as (Hs' & es & Hbs & Hls).
    split; [done|]. exists (e :: es). split; [by constructor|]. by econstructor.
Qed.

(** ** The books balance *)

Lemma ledger_keeps e L L' : ledger_step e L L' -> e <> Reload -> booked L ⊆ booked L'.
Proof. destruct 1; cbn; try done. intros _. by apply insert_subseteq. Qed.

Lemma ledger_run_keeps es L L' : ledger_run es L L' -> Reload ∉ es -> booked L ⊆ booked L'.
Proof.
  induction 1 as [|e es L1 L2 L3 Hs _ IH]; [done|]. rewrite not_elem_of_cons. intros [Hne Hn].
  etransitivity; [|by apply IH]. by apply (ledger_keeps e).
Qed.

(** The file says what the books say, but for the user being written. *)
Definition balanced (L : Ledger) : Prop :=
  (pending L = ∅ /\ complete (stored L) /\ accounts (load_users (stored L)) = booked L) \/
  exists i name passwd written todo f,
    pending L = {[i := todo]} /\ todo <> [] /\ written ++ todo = user_pieces name passwd /\
    stored L = f ++ List.concat written /\ complete f /\
    load_users (f ++ user_line name passwd) = <[name := new_user name passwd Offline]> (load_users f) /\
    complete (f ++ user_line name passwd) /\ booked L = <[name := passwd]> (accounts (load_users f)).

Definition in_order (L : Ledger) (e : entry) : Prop :=
  match e with
  | Begin _ name passwd => is_str name /\ is_str passwd /\ clean name /\ clean passwd /\ pending L = ∅
  | GiveUp _ => False
  | Reload => pending L = ∅
  | _ => True
  end.

Lemma books_in_order a e p : books a e -> orderly p a -> in_order (ledger_of p) e.
Proof. destruct e; cbn; [done|by intros ->|done|by intros [err ->]|by intros ->]. Qed.

Lemma ledger_balanced e L L' : ledger_step e L L' -> in_order L e -> balanced L -> balanced L' /\ booked L ⊆ booked L'.
Proof.
  intros Hs Ho Hb. destruct Hs as [L|i name passwd m f q Vn Vp Hm Hq|i b rest m f q Hq|i l m f q Hq|m f q]; cbn in Ho.
  - done.
  - destruct Ho as (Hn & Hp & Cn & Cp & ->).
    destruct Hb as [(_ & Hf & Hl)|(j & ? & ? & ? & todo & ? & E & _)]; [|by destruct (map_non_empty_singleton j todo)].
    cbn [stored booked pending] in Hf, Hl. split; [|by apply insert_subseteq]. right.
    destruct (validated_plain name Cn Vn), (validated_plain passwd Cp Vp).
    destruct (load_user_line f name passwd) as [E1 E2]; try done; [intros E; by apply Cp in E|].
    exists i, name, passwd, [], (user_pieces name passwd), f. split_and!; try done.
    + by rewrite app_nil_r.
    + cbn [booked]. by rewrite Hl.
  - destruct Hb as [[E _]|(j & name & passwd & done_ & todo & f0 & Eq & Ht & Epieces & Ef & Hf & E1 & E2 & Em)].
    { cbn in E. by rewrite E, lookup_empty in Hq. }
    cbn in Eq, Ef, Em. subst q f m. apply lookup_singleton_Some in Hq as [-> ->]. split; [|done].
    assert (Ec : (f0 ++ List.concat done_) ++ b = f0 ++ List.concat (done_ ++ [b])).
    { rewrite List.concat_app. cbn. by rewrite app_nil_r, <-app_assoc. }
    destruct rest as [|b' rest]; [left|right]; cbn [booked stored pending].
    + rewrite Ec, Epieces, pieces_line. split_and!; [apply delete_singleton_eq|done|].
      by rewrite E1, accounts_insert.
    + exists i, name, passwd, (done_ ++ [b]), (b' :: rest), f0. split_and!; try done; [apply insert_singleton_eq|].
      by rewrite <-app_assoc.
  - done.
  - subst q. destruct Hb as [(_ & Hf & Hl)|(j & ? & ? & ? & todo & ? & E & _)]; [|by destruct (map_non_empty_singleton j todo)].
    cbn [stored booked pending] in Hf, Hl. split; [by left|]. cbn [booked]. by rewrite Hl.
Qed.

Lemma life_balanced l p p' :
  sound p -> balanced (ledger_of p) -> run bad l p = Some p' -> orderly_life bad l p ->
  balanced (ledger_of p') /\ accounts (users (world p)) ⊆ accounts (users (world p')).
Proof.
  revert p. induction l as [|a l IH]; intros p Hs Hb; cbn [run orderly_life].
  - by intros [= <-].
  - destruct (act bad p a) as [p1|] eqn:Ea; [|done]. intros Hr [Ho Hl].
    destruct (act_refines a p p1 Hs Ea) as (Hs1 & e & Hbk & Hstep).
    destruct (ledger_balanced e _ _ Hstep (books_in_order a e p Hbk Ho) Hb) as [Hb1 Hk].
    destruct (IH p1 Hs1 Hb1 Hr Hl) as [Hb' Hk']. split; [done|]. by etransitivity; [exact Hk|].
Qed.

(** ** Two sign-ups at once *)

Lemma signup_begin_accepts name passwd w :
  is_ok (validate_string name) = true -> is_ok (validate_string passwd) = true ->
  users_poisoned w = false -> users w !! name = None ->
  exists w', signup_begin bad name passwd w = @Ok _ (ServerResponse Addr) w' /\
    users w' = <[name := new_user name passwd Offline]> (users w) /\
    users_poisoned w' = false /\ users_file w' = users_file w.
Proof.
  intros Vn Vp Hp Hu. destruct (signup_begin bad name passwd w) as [w'|r] eqn:E.
  - exists w'. split; [done|]. apply signup_begin_ok in E as (_ & _ & _ & -> & -> & ->). done.
  - exfalso. revert E. unfold signup_begin. by rewrite Vn, Vp, Hp, Hu.
Qed.

(** The next write of a connection that has more than one to make, and its last. *)
Lemma write_next i s b b' l p :
  handlers p !! i = Some (s, Appending (b :: b' :: l)) ->
  act bad p (Continue i (Ok tt)) = Some (enter i (Appending (b' :: l)) s (append_file b (world p)) p).
Proof. intros Hi. cbn [act]. by rewrite Hi. Qed.

Lemma write_last i s b p :
  handlers p !! i = Some (s, Appending [b]) ->
  act bad p (Continue i (Ok tt)) = Some (answer i SignupOk s (append_file b (world p)) p).
Proof. intros Hi. cbn [act]. by rewrite Hi. Qed.

(** Two connections that write in turns. *)
Definition in_turns (i j : nat) : list (action SDP Addr) :=
  List.concat (replicate 4 [Continue i (Ok tt); Continue j (Ok tt)]).

Definition mixed (a b pa pb : str) : bytes :=
  utf8_encode a ++ utf8_encode b ++ [58] ++ [58] ++ utf8_encode pa ++ utf8_encode pb ++ [10] ++ [10].

Lemma writes_mix i j s t a b pa pb p :
  i <> j -> handlers p !! i = Some (s, Appending (user_pieces a pa)) -> handlers p !! j = Some (t, Appending (user_pieces b pb)) ->
  exists p', run bad (in_turns i j) p = Some p' /\ world p' = append_file (mixed a b pa pb) (world p) /\
    handlers p' = <[i := (s, Ready)]> (<[j := (t, Ready)]> (handlers p)) /\
    answers p' = answers p ++ [(i, SignupOk); (j, SignupOk)].
Proof.
  intros Hij Hi Hj.
  assert (Htwo : forall p x x' l y y' k, handlers p !! i = Some (s, Appending (x :: x' :: l)) ->
    handlers p !! j = Some (t, Appending (y :: y' :: k)) -> exists p', forall acts,
    run bad (Continue i (Ok tt) :: Continue j (Ok tt) :: acts) p = run bad acts p' /\
    world p' = append_file (x ++ y) (world p) /\ answers p' = answers p /\
    handlers p' = <[j := (t, Appending (y' :: k))]> (<[i := (s, Appending (x' :: l))]> (handlers p))).
  { intros q x x' l y y' k Hx Hy. eexists. intros acts. cbn [run]. rewrite (write_next i s x x' l) by done.
    rewrite (write_next j t y y' k) by (cbn; by rewrite lookup_insert_ne).
    split; [reflexivity|]. cbn -[append_file]. by rewrite append_append. }
  unfold in_turns. cbn [replicate List.concat app].
  destruct (Htwo p (utf8_encode a) [58] [utf8_encode pa; [10]] (utf8_encode b) [58] [utf8_encode pb; [10]] Hi Hj) as [p1 H1].
  destruct (H1 []) as (_ & W1 & A1 & E1). rewrite (proj1 (H1 _)).
  destruct (Htwo p1 [58] (utf8_encode pa) [[10]] [58] (utf8_encode pb) [[10]]) as [p2 H2];
    [rewrite E1; by rewrite lookup_insert_ne, lookup_insert_eq|by rewrite E1, lookup_insert_eq|].
  destruct (H2 []) as (_ & W2 & A2 & E2). rewrite (proj1 (H2 _)).
  destruct (Htwo p2 (utf8_encode pa) [10] [] (utf8_encode pb) [10] []) as [p3 H3];
    [rewrite E2; by rewrite lookup_insert_ne, lookup_insert_eq|by rewrite E2, lookup_insert_eq|].
  destruct (H3 []) as (_ & W3 & A3 & E3). rewrite (proj1 (H3 _)). cbn [run].
  rewrite (write_last i s [10]) by (rewrite E3; by rewrite lookup_insert_ne, lookup_insert_eq).
  rewrite (write_last j t [10]) by (cbn; rewrite lookup_insert_ne by done; by rewrite E3, lookup_insert_eq).
  eexists. split; [reflexivity|]. cbn [world handlers answers answer]. rewrite W3, W2, W1, A3, A2, A1, E3, E2, E1.
  split_and!.
  - rewrite !append_append. unfold mixed. by rewrite <-!app_assoc.
  - rewrite (insert_insert_ne _ j i) by done. rewrite !insert_insert_eq. rewrite (insert_insert_ne _ j i) by done.
    rewrite !insert_insert_eq.
    apply map_eq. intros k. rewrite !lookup_insert. repeat case_decide; done.
  - by rewrite <-app_assoc.
Qed.

Lemma load_blank f : complete f -> load_users (f ++ [10]) = load_users f.
Proof.
  intros Hf. unfold load_users. pose proof (file_lines_snoc f [] Hf) as E. cbn [app] in E. rewrite E by apply not_elem_of_nil.
  rewrite foldl_app. reflexivity.
Qed.

Lemma load_mixed f a b pa pb :
  complete f -> is_str a -> is_str b -> is_str pa -> is_str pb -> clean a -> clean b -> clean pa -> clean pb ->
  is_ok (validate_string a) = true -> is_ok (validate_string b) = true ->
  is_ok (validate_string pa) = true -> is_ok (validate_string pb) = true ->
  load_users (f ++ mixed a b pa pb) = <[a ++ b := new_user (a ++ b) (58 :: pa ++ pb) Offline]> (load_users f).
Proof.
  intros Hf Sa Sb Spa Spb Ca Cb Cpa Cpb Va Vb Vpa Vpb.
  assert (E : mixed a b pa pb = user_line (a ++ b) (58 :: pa ++ pb) ++ [10]).
  { unfold mixed, user_line. change (58 :: pa ++ pb) with ([58] ++ pa ++ pb). rewrite !utf8_encode_app. cbn -[utf8_encode].
    by rewrite <-!app_assoc. }
  destruct (validated_plain a Ca Va), (validated_plain b Cb Vb), (validated_plain pa Cpa Vpa), (validated_plain pb Cpb Vpb).
  destruct (load_user_line f (a ++ b) (58 :: pa ++ pb)) as [El Ec]; [done|split|by rewrite elem_of_app; intros [?|?]|split| |].
  - by apply Forall_app.
  - by rewrite elem_of_app; intros [?|?].
  - constructor; [left; lia|]. by apply Forall_app.
  - rewrite elem_of_cons, elem_of_app. by intros [?|[?|?]].
  - change (58 :: pa ++ pb) with ([58] ++ pa ++ pb). rewrite !last_app.
    destruct (last pb) eqn:Eb; [intros [= ->]; by apply Cpb in Eb|]. destruct (last pa) eqn:Ea; [intros [= ->]; by apply Cpa in Ea|done].
  - by rewrite E, app_assoc, load_blank, El.
Qed.

(** ** Who is logged in where *)

(** Nobody who is online goes offline, but for the users in [out]. *)
Definition stays (out : str -> Prop) w w' : Prop :=
  forall n d, ~ out n -> users w !! n = Some d -> status d <> Offline ->
    exists d', users w' !! n = Some d' /\ status d' <> Offline.

Definition nobody (n : str) : Prop := False.

Lemma stays_same out w w' : users w' = users w -> stays out w w'.
Proof. intros E n d _ Hd Hs. rewrite E. eauto. Qed.

Lemma stays_insert out w w' k d : users w' = <[k := d]> (users w) -> (out k \/ status d <> Offline) -> stays out w w'.
Proof.
  intros E Hk n dn Hn Hd Hs. rewrite E. destruct (decide (k = n)) as [->|].
  - rewrite lookup_insert_eq. destruct Hk; [done|]. eauto.
  - rewrite lookup_insert_ne by done. eauto.
Qed.

Lemma stays_trans out w1 w2 w3 : stays out w1 w2 -> stays out w2 w3 -> stays out w1 w3.
Proof. intros H1 H2 n d Hn Hd Hs. destruct (H1 n d Hn Hd Hs) as (d' & ? & ?). by apply (H2 n d'). Qed.

Lemma notify_stays out name st w w' : stays out w w' -> stays out w (notify_status_update bad name st w').
Proof. intros Hs. eapply stays_trans; [exact Hs|]. apply stays_same, (notify_users bad name st w'). Qed.

Lemma send_stays out i msg w w' : stays out w w' -> stays out w (send_message bad i msg w').
Proof. intros Hs. eapply stays_trans; [exact Hs|]. apply stays_same, (send_users bad i msg w'). Qed.

Lemma commit_stays out w w' f t :
  users w' = <[username f := f]> (<[username t := t]> (users w)) -> status f <> Offline -> status t <> Offline -> stays out w w'.
Proof.
  intros E Hf Ht. apply (stays_trans _ _ (set_users (<[username t := t]> (users w)) w)).
  - eapply stays_insert; [done|by right].
  - eapply stays_insert; [exact E|by right].
Qed.

(** Neither record a thread is about to write is offline. *)
Definition awake (ph : phase SDP) : Prop :=
  match ph with
  | Requesting _ _ _ (_, f, t) | Rejecting _ _ (_, f, t) => status f <> Offline /\ status t <> Offline
  | _ => True
  end.

Definition online w (n : str) : Prop := exists d, users w !! n = Some d /\ status d <> Offline.

(** Every connection's user is online, and no two connections have the same. *)
Definition seated p : Prop :=
  (forall i h, handlers p !! i = Some h -> awake h.2 /\ forall n, me h.1 = Some n -> online (world p) n) /\
  (forall i j h k n, handlers p !! i = Some h -> handlers p !! j = Some k -> me h.1 = Some n -> me k.1 = Some n -> i = j).

Lemma seated_put p w' i s0 ph0 s ph ans :
  seated p -> handlers p !! i = Some (s0, ph0) -> awake ph -> stays (fun n => me s0 = Some n) (world p) w' ->
  (forall n, me s = Some n -> online w' n /\ (me s0 = Some n \/ ~ online (world p) n)) ->
  seated (mk_process w' (<[i := (s, ph)]> (handlers p)) ans).
Proof.
  intros [Ho Hu] Hi Hph Hst Hme. split.
  - intros j h. cbn. rewrite lookup_insert_Some. intros [[<- <-]|[Hij Hj]].
    + split; [done|]. intros n Hn. by apply Hme.
    + destruct (Ho j h Hj) as [? Hon]. split; [done|]. intros n Hn. destruct (Hon n Hn) as (d & Hd & Hs).
      apply (Hst n d); [|done..]. intros E. apply Hij. by apply (Hu i j (s0, ph0) h n).
  - assert (Hone : forall j h n, i <> j -> handlers p !! j = Some h -> me s = Some n -> me h.1 = Some n -> False).
    { intros j h n Hij Hj Hn Hhn. destruct (Hme n Hn) as [_ [E|E]].
      - apply Hij. by apply (Hu i j (s0, ph0) h n).
      - apply E. by apply (Ho j h Hj). }
    intros j k h h' n. cbn. rewrite !lookup_insert_Some.
    intros [[<- <-]|[Hij Hj]] [[<- <-]|[Hik Hk]] Hn Hn'; [done|exfalso; by eapply (Hone k h')|exfalso; by eapply (Hone j h)|].
    by apply (Hu j k h h' n).
Qed.

(** The common case: the connection keeps its user. *)
Lemma seated_keep p w' i s0 ph0 ph ans :
  seated p -> handlers p !! i = Some (s0, ph0) -> awake ph -> stays nobody (world p) w' ->
  seated (mk_process w' (<[i := (s0, ph)]> (handlers p)) ans).
Proof.
  intros Hs Hi Hph Hst. apply (seated_put p w' i s0 ph0); [done..| |].
  - intros n d _. apply Hst. by intros [].
  - intros n Hn. split; [|by left]. destruct (proj2 (proj1 Hs i _ Hi) n Hn) as (d & Hd & ?). apply (Hst n d); [by intros []|done..].
Qed.

Lemma seated_drop p w' i s0 ph0 ans :
  seated p -> handlers p !! i = Some (s0, ph0) -> stays (fun n => me s0 = Some n) (world p) w' ->
  seated (mk_process w' (delete i (handlers p)) ans).
Proof.
  intros [Ho Hu] Hi Hst. split.
  - intros j h. cbn [handlers]. intros [Hij Hj]%lookup_delete_Some. destruct (Ho j h Hj) as [? Hon]. split; [done|].
    intros n Hn. destruct (Hon n Hn) as (d & Hd & Hs). apply (Hst n d); [|done..].
    intros E. apply Hij. by apply (Hu i j (s0, ph0) h n).
  - intros j k h h' n. cbn [handlers]. intros [_ Hj]%lookup_delete_Some [_ Hk]%lookup_delete_Some. by apply Hu.
Qed.

(** What the operations of a connection do to who is online. *)
Lemma login_seat name passwd s w :
  users_poisoned w = false ->
  let '(_, s', w') := login_user bad name passwd s w in
  stays nobody w w' /\ (s' = s \/ me s' = Some name /\ online w' name /\ ~ online w name).
Proof.
  intros Hp. unfold login_user. rewrite Hp.
  assert (Hr : stays nobody w w) by by apply stays_same.
  destruct (users w !! name) as [d|] eqn:Hd; [|split; [done|by left]].
  destruct (negb _); [split; [done|by left]|]. destruct (status d) eqn:Es; try (split; [done|by left]). split.
  - apply notify_stays. eapply stays_insert; [done|by right].
  - right. split_and!; [done| |].
    + eexists. rewrite (proj1 (notify_users _ _ _ _)). split; [apply lookup_insert_eq|done].
    + intros (d' & Hd' & Hs). congruence.
Qed.

Lemma signup_seat name passwd w w' :
  signup_begin bad name passwd w = @Ok _ (ServerResponse Addr) w' -> stays nobody w w'.
Proof.
  intros (_ & _ & Hu & E & _)%signup_begin_ok n d _ Hd Hs. rewrite E, lookup_insert_ne by congruence. eauto.
Qed.

Lemma logout_seat token d j s w :
  users_poisoned w = false -> users w !! token = Some d -> server_client_stream d = Some j -> bad j = false ->
  let '(_, s', w') := logout_user bad token s w in stays (fun n => n = token) w w' /\ me s' = None.
Proof.
  intros Hp Hd Hj Hb. unfold logout_user. rewrite Hp, Hd, Hj, Hb. split; [|done].
  apply notify_stays. eapply stays_insert; [done|by left].
Qed.

Lemma hangup_stays user w : stays nobody w (@call_hangup SDP Addr _ bad user w).2.
Proof.
  unfold call_hangup. destruct (users_poisoned w); [by apply stays_same|].
  destruct (users w !! user) as [d|] eqn:Hd; [|by apply stays_same].
  destruct (status d); try by apply stays_same. cbn. apply notify_stays. eapply stays_insert; [done|by right].
Qed.

Lemma accept_stays from to answer w : stays nobody w (@call_accept SDP Addr bad from to answer w).2.
Proof. unfold call_accept. destruct (rbind _ _); [|by apply stays_same]. by apply send_stays, stays_same. Qed.

Lemma request_stays from to offer i f t w :
  status f <> Offline -> status t <> Offline -> stays nobody w (@call_request_commit SDP Addr _ bad from to offer (i, f, t) w).2.
Proof.
  intros Hf Ht. unfold call_request_commit. destruct (users_poisoned w); [by apply stays_same|]. cbn.
  apply send_stays, notify_stays, notify_stays. by eapply commit_stays.
Qed.

Lemma reject_stays from to i f t w :
  status f <> Offline -> status t <> Offline -> stays nobody w (@call_reject_commit SDP Addr _ bad from to (i, f, t) w).2.
Proof.
  intros Hf Ht. unfold call_reject_commit.
  assert (Hs : stays nobody w (notify_status_update bad to Available (notify_status_update bad from Available w)))
    by by apply notify_stays, notify_stays, stays_same.
  set (w1 := notify_status_update _ to _ _) in *. destruct (users_poisoned w1); [done|]. cbn.
  apply send_stays. eapply stays_trans; [exact Hs|]. by eapply commit_stays.
Qed.

Lemma offline_stays s w : let '(_, _, w') := make_user_offline bad s w in stays (fun n => me s = Some n) w w'.
Proof.
  unfold make_user_offline. destruct (me s) as [name|] eqn:Hm; [|by apply stays_same].
  destruct (users_poisoned w); [by apply stays_same|].
  destruct (users w !! name) as [d|] eqn:Hd; [|by apply stays_same].
  apply notify_stays. eapply stays_insert; [done|by left].
Qed.

Lemma attach_stays asked r i w : stays nobody w (map_stream_to_user asked r i w).
Proof.
  intros n d _ Hd Hs. unfold map_stream_to_user. destruct (negb asked); [eauto|]. destruct r as [|b|]; eauto.
  destruct (response_from_bytes b) as [[u]|]; eauto. destruct (users_poisoned w); eauto.
  destruct (users w !! u) as [du|] eqn:Hdu; eauto. cbn. destruct (decide (u = n)) as [->|].
  - rewrite lookup_insert_eq. eexists. split; [done|]. cbn. congruence.
  - rewrite lookup_insert_ne by done. eauto.
Qed.

Lemma receive_seated i event s p :
  sound p -> seated p -> handlers p !! i = Some (s, Ready) -> courteous bad p (Receive i event) ->
  seated (receive bad i event s p).
Proof.
  intros (_ & Hp & _) Hs Hi Hc.
  assert (Hkeep : forall w' ph ans, awake ph -> stays nobody (world p) w' ->
    seated (mk_process w' (<[i := (s, ph)]> (handlers p)) ans)) by (intros; by eapply seated_keep).
  assert (Hr : stays nobody (world p) (world p)) by by apply stays_same.
  destruct event as [|u pw|u pw|t|t o to|f t o|f t|t]; cbn [receive handle_client_message].
  - by apply Hkeep.
  - pose proof (login_seat u pw s (world p) Hp) as Hl. destruct (login_user _ _ _ _ _) as [[r s'] w'].
    destruct Hl as [Hst [->|(Hm & Hon & Hoff)]]; [by apply Hkeep|].
    eapply seated_put; [done..| |].
    + intros n d _. apply Hst. by intros [].
    + intros n Hn. assert (n = u) as -> by congruence. split; [done|by right].
  - destruct (signup_begin bad u pw (world p)) as [w'|r] eqn:E; [|by apply Hkeep].
    apply Hkeep; [done|by eapply signup_seat].
  - destruct Hc as (s0 & d & j & Hi' & Hm & Hd & Hj & Hb). assert (s0 = s) as -> by congruence.
    pose proof (logout_seat t d j s (world p) Hp Hd Hj Hb) as Hl. destruct (logout_user _ _ _ _) as [[r s'] w'].
    destruct Hl as [Hst Hnone]. eapply seated_put; [done..| |].
    + intros n dn Hn. apply Hst. congruence.
    + intros n Hn. congruence.
  - destruct (call_request_read t to (world p)) as [[[j f] d]|r] eqn:E; [|by apply Hkeep].
    apply call_request_read_ok in E as (_ & df & dt & _ & _ & _ & _ & _ & -> & ->). by apply Hkeep.
  - pose proof (accept_stays f t o (world p)) as Ha. destruct (call_accept _ _ _ _ _) as [r w']. by apply Hkeep.
  - destruct (call_reject_read f t (world p)) as [[[j f'] d]|r] eqn:E; [|by apply Hkeep].
    apply call_reject_read_ok in E as (_ & df & dt & _ & _ & _ & _ & _ & -> & ->). by apply Hkeep.
  - pose proof (hangup_stays t (world p)) as Ha. destruct (call_hangup _ _ _) as [r w']. by apply Hkeep.
Qed.

Lemma continue_seated i wr s ph p p' :
  seated p -> handlers p !! i = Some (s, ph) -> continue bad i wr s ph p = Some p' -> seated p'.
Proof.
  intros Hs Hi. pose proof (proj1 (proj1 Hs i _ Hi)) as Ha. cbn in Ha.
  assert (Hkeep : forall w' ph' ans, awake ph' -> stays nobody (world p) w' ->
    seated (mk_process w' (<[i := (s, ph')]> (handlers p)) ans)) by (intros; by eapply seated_keep).
  assert (Hf : forall b, stays nobody (world p) (append_file b (world p))) by (intros; by apply stays_same).
  assert (Hr : stays nobody (world p) (world p)) by by apply stays_same.
  destruct ph as [|f t o [[j df] dt]|f t [[j df] dt]|[|b l]]; cbn [continue]; [done| | |intros [= <-]; by apply Hkeep|].
  - pose proof (request_stays f t o j df dt (world p) (proj1 Ha) (proj2 Ha)) as Hst.
    destruct (call_request_commit _ _ _ _ _ _) as [r w']. intros [= <-]. by apply Hkeep.
  - pose proof (reject_stays f t j df dt (world p) (proj1 Ha) (proj2 Ha)) as Hst.
    destruct (call_reject_commit _ _ _ _ _) as [r w']. intros [= <-]. by apply Hkeep.
  - destruct wr; [destruct l|]; intros [= <-]; by apply Hkeep.
Qed.

Lemma seated_boot file : seated (boot file).
Proof. split; [intros i h|intros i j h k n]; cbn; by rewrite lookup_empty. Qed.

Lemma act_seated a p p' : sound p -> seated p -> courteous bad p a -> act bad p a = Some p' -> seated p'.
Proof.
  intros Hs Hst Hc. destruct a as [i addr|i event|i wr|asked r j|j|i|i|]; cbn [act].
  - destruct (handlers p !! i) eqn:Hi; [done|]. intros [= <-]. destruct Hst as [Ho Hu]. split.
    + intros j h. cbn. rewrite lookup_insert_Some. intros [[<- <-]|[_ Hj]]; [done|by apply (Ho j)].
    + intros j k h h' n. cbn. rewrite !lookup_insert_Some.
      intros [[<- <-]|[_ H1]] [[<- <-]|[_ H2]] Hn Hn'; [done..|by apply (Hu j k h h' n)].
  - destruct (handlers p !! i) as [[s [|?|?|?]]|] eqn:Hi; try done. intros [= <-]. by apply receive_seated.
  - destruct (handlers p !! i) as [[s ph]|] eqn:Hi; [|done]. by apply continue_seated.
  - intros [= <-]. pose proof (attach_stays asked r j (world p)) as Ha. destruct Hst as [Ho Hu]. split; [|exact Hu].
    intros i h Hi. destruct (Ho i h Hi) as [? Hon]. split; [done|]. intros n Hn. destruct (Hon n Hn) as (d & Hd & Hsd).
    apply (Ha n d); [by intros []|done..].
  - by intros [= <-].
  - destruct (handlers p !! i) as [[s [|?|?|?]]|] eqn:Hi; try done.
    pose proof (offline_stays s (world p)) as Ha. destruct (make_user_offline bad s (world p)) as [[r s'] w'].
    intros [= <-]. by eapply seated_drop.
  - destruct (handlers p !! i) as [[s [|?|?|?]]|] eqn:Hi; try done. intros [= <-].
    eapply seated_drop; [done..|by apply stays_same].
  - intros [= <-]. apply seated_boot.
Qed.

Lemma life_seated l p p' :
  sound p -> seated p -> run bad l p = Some p' -> courteous_life bad l p -> seated p'.
Proof.
  revert p. induction l as [|a l IH]; intros p Hs Hst; cbn [run courteous_life]; [by intros [= <-]|].
  destruct (act bad p a) as [p1|] eqn:Ea; [|done]. intros Hr [Hc Hl].
  destruct (act_refines a p p1 Hs Ea) as [Hs1 _]. apply (IH p1); try done. by apply (act_seated a p).
Qed.

End Facts.

(** A connection that is left alone does what the handler says.  From any
    process, receiving a message and then taking that connection's remaining
    steps, with a disk that works or not, gives the answer, the handler and the
    world of [handle_client_message]: cutting the operations at their lock
    sections has not changed them. *)
Lemma handler_alone {SDP Addr} `{Wire SDP} `{MapOrder UserData} bad i event dk (s : OperatingServer Addr)
    (p : Process SDP Addr) :
  handlers p !! i = Some (s, Ready) ->
  let '(r, s', w') := handle_client_message bad event dk s (world p) in
  exists l, Forall (fun a => exists wr, a = Continue i wr) l /\
    run bad (Receive i event :: l) p = Some (answer i r s' w' p).
Proof.
  intros Hi.
  assert (Hnow : forall r s' w', receive bad i event s p = answer i r s' w' p ->
    exists l, Forall (fun a => exists wr, a = Continue i wr) l /\ run bad (Receive i event :: l) p = Some (answer i r s' w' p)).
  { intros r s' w' E. exists []. split; [done|]. cbn [run act]. by rewrite Hi, E. }
  assert (Hnext : forall wr r s' w' ph, receive bad i event s p = enter i ph s (world p) p ->
    continue bad i wr s ph (enter i ph s (world p) p) = Some (answer i r s' w' p) ->
    exists l, Forall (fun a => exists wr, a = Continue i wr) l /\ run bad (Receive i event :: l) p = Some (answer i r s' w' p)).
  { intros wr r s' w' ph E Ec. exists [Continue i wr]. split; [repeat constructor; eauto|]. cbn [run act].
    by rewrite Hi, E, enter_lookup, Ec. }
  destruct event as [|u pw|u pw|t|t o to|f t o|f t|t];
    try (match goal with |- context [handle_client_message bad ?e dk s (world p)] =>
        assert (Ev : receive bad i e s p = let '(r, s', w') := handle_client_message bad e dk s (world p) in answer i r s' w' p)
          by reflexivity end;
      destruct (handle_client_message _ _ _ _ _) as [[r s'] w']; by apply Hnow).
  - cbn [handle_client_message]. rewrite signup_split. cbn [receive] in Hnow.
    destruct (signup_begin bad u pw (world p)) as [w1|r] eqn:E; [|by apply Hnow].
    assert (Hbad : forall err, exists l, Forall (fun a => exists wr, a = Continue i wr) l /\
      run bad (Receive i (SignUp u pw) :: l) p =
      Some (answer i (ServerResponse.Error (lit "Error loading user data: " ++ show_error err)) s w1 p)).
    { intros err. exists [Continue i (Err err)]. split; [repeat constructor; eauto|]. cbn [run act]. rewrite Hi.
      cbn [receive]. rewrite E, enter_lookup. cbn [continue user_pieces]. by rewrite answer_enter. }
    unfold load_user_data_in_disk. destruct (open_ok dk); [|by apply Hbad]. destruct (write_ok dk); [|by apply Hbad].
    cbn [negb]. exists (replicate 4 (Continue i (Ok tt))). split; [repeat constructor; eauto|].
    change (run bad (Receive i (SignUp u pw) :: ?l) p) with
      (match act bad p (Receive i (SignUp u pw)) with Some p => run bad l p | None => None end).
    cbn [act]. rewrite Hi. cbn [receive]. rewrite E. apply appending_alone.
  - cbn [handle_client_message]. unfold call_request. cbn [receive] in Hnow, Hnext.
    destruct (call_request_read t to (world p)) as [rd|r]; [|by apply Hnow].
    destruct (call_request_commit bad t to o rd (world p)) as [r w'] eqn:E.
    eapply (Hnext (Ok tt)); [done|]. cbn [continue enter world]. rewrite E. by rewrite answer_enter.
  - cbn [handle_client_message]. rewrite reject_split. cbn [receive] in Hnow, Hnext.
    destruct (call_reject_read f t (world p)) as [rd|r]; [|by apply Hnow].
    destruct (call_reject_commit bad f t rd (world p)) as [r w'] eqn:E.
    eapply (Hnext (Ok tt)); [done|]. cbn [continue enter world]. rewrite E. by rewrite answer_enter.
Qed.

(** * Properties *)

(** C14: a life refines the ledger.  However the connections interleave, what
    they do to the accounts and the file is a run of the ledger, entry by action;
    so between two restarts no account disappears and none changes its password,
    whatever is sent, and whatever outdated records are written back. *)
Theorem life_refines_ledger {SDP Addr} `{Wire SDP} `{MapOrder UserData} bad file l (p : Process SDP Addr) :
  run bad l (boot file) = Some p ->
  (exists es, Forall2 books l es /\ ledger_run es (ledger_of (boot (SDP := SDP) (Addr := Addr) file)) (ledger_of p)) /\
  (Restart ∉ l -> accounts (load_users file) ⊆ accounts (users (world p))).
Proof.
  intros Hr. destruct (run_refines bad l (boot file) p (sound_boot file) Hr) as (_ & es & Hb & Hl). split; [by exists es|].
  intros Hn. apply (ledger_run_keeps _ _ _ Hl). intros He. apply Hn. revert He. clear -Hb.
  induction Hb as [|a e l es Hb _ IH]; [by intros ?%elem_of_nil|]. rewrite !elem_of_cons. intros [<-|He].
  - by left.
  - right. by apply IH.
Qed.

(** C12: accounts are durable.  In every life in order, with any number of
    connections, messages and restarts, the users file of a process with no
    sign-up under way holds exactly the accounts the process knows, and none of
    the accounts it was started with has been lost or has another password. *)
Theorem accounts_durable {SDP Addr} `{Wire SDP} `{MapOrder UserData} bad file l (p : Process SDP Addr) :
  complete file -> run bad l (boot file) = Some p -> orderly_life bad l (boot file) -> pending (ledger_of p) = ∅ ->
  accounts (load_users (users_file (world p))) = accounts (users (world p)) /\
  accounts (load_users file) ⊆ accounts (users (world p)).
Proof.
  intros Hf Hr Ho Hq. destruct (life_balanced bad l (boot file) p (sound_boot file)) as [Hb Hk]; [|done..|].
  - left. split_and!; [|done|done]. cbn. apply omap_empty.
  - split; [|exact Hk]. destruct Hb as [(_ & _ & E)|(i & ? & ? & ? & todo & ? & E & _)]; [done|].
    rewrite Hq in E. by destruct (map_non_empty_singleton i todo).
Qed.

(** C39: two sign-ups at once can destroy each other.  The line of a new user
    is written in four pieces outside any lock; when two connections write theirs
    in turns, both are told that they are registered, but after a restart neither
    account exists, and there is one nobody asked for. *)
Theorem concurrent_signups_lost {SDP Addr} `{Wire SDP} `{MapOrder UserData} bad file a b pa pb (address : Addr) :
  complete file -> Forall is_str [a; b; pa; pb] -> Forall clean [a; b; pa; pb] ->
  Forall (fun x => is_ok (validate_string x) = true) [a; b; pa; pb] -> a <> b ->
  load_users file !! a = None -> load_users file !! b = None ->
  exists (p p' : Process SDP Addr),
    run bad ([Connect 0 address; Connect 1 address; Receive 0 (SignUp a pa); Receive 1 (SignUp b pb)] ++ in_turns 0 1) (boot file) = Some p /\
    answers p = [(0%nat, SignupOk); (1%nat, SignupOk)] /\
    accounts (users (world p)) = <[b := pb]> (<[a := pa]> (accounts (load_users file))) /\
    act bad p Restart = Some p' /\ users (world p') !! a = None /\ users (world p') !! b = None /\
    users (world p') = <[a ++ b := new_user (a ++ b) (58 :: pa ++ pb) Offline]> (load_users file).
Proof.
  rewrite !Forall_cons. intros Hf (Sa & Sb & Spa & Spb & _) (Ca & Cb & Cpa & Cpb & _) (Va & Vb & Vpa & Vpb & _) Hab Ha Hb.
  set (w0 := mk_world (SDP := SDP) (load_users file) false [] [] file).
  destruct (signup_begin_accepts (Addr := Addr) bad a pa w0 Va Vpa eq_refl Ha) as (w1 & E1 & U1 & P1 & F1).
  assert (Hb1 : users w1 !! b = None) by (rewrite U1; by rewrite lookup_insert_ne).
  destruct (signup_begin_accepts (Addr := Addr) bad b pb w1 Vb Vpb P1 Hb1) as (w2 & E2 & U2 & P2 & F2).
  set (s := mk_server address None).
  set (p4 := mk_process w2 (<[1%nat := (s, Appending (user_pieces b pb))]> (<[0%nat := (s, Appending (user_pieces a pa))]>
    (<[1%nat := (s, Ready)]> {[0%nat := (s, Ready)]}))) []).
  assert (R4 : forall l, run bad ([Connect 0 address; Connect 1 address; Receive 0 (SignUp a pa); Receive 1 (SignUp b pb)] ++ l) (boot file) = run bad l p4).
  { intros l. cbn [app run act boot handlers]. rewrite lookup_empty. cbn [handlers]. rewrite lookup_insert_ne, lookup_empty by done.
    cbn [handlers]. rewrite lookup_insert_ne, lookup_insert_eq by done. cbn [receive world]. change (world (boot file)) with w0. rewrite E1.
    cbn [handlers enter]. rewrite lookup_insert_ne, lookup_insert_eq by done. cbn [receive world enter]. by rewrite E2. }
  destruct (writes_mix bad 0 1 s s a b pa pb p4) as (p & Hr & Hw & _ & Hans);
    [done|cbn; by rewrite lookup_insert_ne, lookup_insert_eq|cbn; by rewrite lookup_insert_eq|].
  assert (Hl : load_users (users_file (world p)) = <[a ++ b := new_user (a ++ b) (58 :: pa ++ pb) Offline]> (load_users file)).
  { rewrite Hw. cbn [append_file users_file world p4]. rewrite F2, F1. apply load_mixed; done. }
  exists p, (boot (users_file (world p))). rewrite R4. split_and!; [done|done| |done| | |done].
  - rewrite Hw. cbn [append_file users world p4]. by rewrite U2, accounts_insert, U1, accounts_insert.
  - cbn [boot world users]. rewrite Hl, lookup_insert_ne; [done|]. intros E. rewrite <-(app_nil_r a) in E at 2.
    apply app_inv_head in E as ->. done.
  - cbn [boot world users]. rewrite Hl, lookup_insert_ne; [done|]. intros E. change b with ([] ++ b) in E at 2.
    apply app_inv_tail in E as ->. done.
Qed.

(** Nobody is logged in twice.  As long as clients only log themselves
    out, every connection's user is registered and online, and no two connections
    ever have the same user, however logins, calls, outdated writes, lost
    connections and restarts interleave. *)
Lemma one_connection_per_user {SDP Addr} `{Wire SDP} `{MapOrder UserData} bad file l (p : Process SDP Addr) :
  run bad l (boot file) = Some p -> courteous_life bad l (boot file) ->
  (forall i s ph n, handlers p !! i = Some (s, ph) -> me s = Some n ->
     exists d, users (world p) !! n = Some d /\ status d <> Offline) /\
  (forall i j s t ph ph' n, handlers p !! i = Some (s, ph) -> handlers p !! j = Some (t, ph') ->
     me s = Some n -> me t = Some n -> i = j).
Proof.
  intros Hr Hc. destruct (life_seated bad l (boot file) p (sound_boot file) (seated_boot file) Hr Hc) as [Ho Hu]. split.
  - intros i s ph n Hi Hn. by apply (Ho i (s, ph) Hi).
  - intros i j s t ph ph' n Hi Hj Hn Hn'. by apply (Hu i j (s, ph) (t, ph') n).
Qed.

(** * Witnesses *)

#[local] Instance demo_order : MapOrder UserData := { iter := map_to_list; iter_permutation m := Permutation_refl _ }.
#[local] Instance raw_wire : Wire str := { Wire.display := id; from_str := Some }.

Definition sound_streams (i : nat) : bool := false.

Definition demo_file : bytes := utf8_encode (lit "ann:pw") ++ [10] ++ utf8_encode (lit "bob:pw") ++ [10].

(** Ann and Bob log in on two connections and attach their inbound streams. *)
Definition both_in : list (action str nat) :=
  [Connect 0 0%nat; Connect 1 0%nat; Receive 0 (LogIn (lit "ann") (lit "pw")); Receive 1 (LogIn (lit "bob") (lit "pw"));
   Attach true (Data (response_to_bytes (Username (lit "ann")))) 0; Attach true (Data (response_to_bytes (Username (lit "bob")))) 1].

Definition signs_up : list (action str nat) :=
  [Connect 0 0%nat; Receive 0 (SignUp (lit "cyd") (lit "pw"))] ++ replicate 4 (Continue 0 (Ok tt)) ++ [Restart].

(** A record read before its user left is written back after: Bob logs out
    while Ann's request is between its sections, ends up Occupied without a
    connection, and cannot log in again. *)
Example ghost_user :
  (p ← run sound_streams (both_in ++
     [Receive 0 (CallRequest (lit "ann") (lit "v=0") (lit "bob")); Receive 1 (LogOut (lit "bob")); Close 1; Continue 0 (Ok tt);
      Connect 2 0%nat; Receive 2 (LogIn (lit "bob") (lit "pw"))]) (boot demo_file);
   Some (status <$> users (world p) !! lit "bob", last (answers p))) =
  Some (Some (Occupied (lit "ann")), Some (2%nat, LoginError (lit "User already logged in"))).
Proof. vm_compute. reflexivity. Qed.

(** A connection whose answer cannot be written ends without its user going
    offline: the user stays online without a connection. *)
Example broken_user :
  (p ← run sound_streams (both_in ++ [Break 1; Connect 2 0%nat; Receive 2 (LogIn (lit "bob") (lit "pw"))]) (boot demo_file);
   Some (last (answers p))) = Some (Some (2%nat, LoginError (lit "User already logged in"))).
Proof. vm_compute. reflexivity. Qed.

(** Clients that log others out can have one user on two connections. *)
Example two_sessions :
  (p ← run sound_streams (both_in ++ [Receive 1 (LogOut (lit "ann")); Receive 1 (LogIn (lit "ann") (lit "pw"))]) (boot demo_file);
   Some ((fun h => me h.1) <$> handlers p !! 0%nat, (fun h => me h.1) <$> handlers p !! 1%nat)) =
  Some (Some (Some (lit "ann")), Some (Some (lit "ann"))).
Proof. vm_compute. reflexivity. Qed.

Lemma life_refines_ledger_witness :
  exists p, run sound_streams signs_up (boot demo_file) = Some p /\
    exists es, Forall2 books signs_up es /\ ledger_run es (ledger_of (boot (SDP := str) (Addr := nat) demo_file)) (ledger_of p).
Proof.
  eexists. split; [vm_compute; reflexivity|]. refine (proj1 (life_refines_ledger sound_streams demo_file signs_up _ _)).
  vm_compute. reflexivity.
Defined.

(** Take the next action of a concrete life. *)
Ltac take :=
  match goal with |- context [act ?b ?p ?a] =>
    let r := eval vm_compute in (act b p a) in replace (act b p a) with r by (vm_compute; reflexivity) end; cbv iota beta.

Lemma accounts_durable_witness :
  exists p : Process str nat, run sound_streams signs_up (boot []) = Some p /\
    accounts (load_users (users_file (world p))) = accounts (users (world p)) /\
    accounts (load_users []) ⊆ accounts (users (world p)).
Proof.
  eexists. split; [vm_compute; reflexivity|]. apply (accounts_durable sound_streams [] signs_up).
  - by left.
  - vm_compute. reflexivity.
  - unfold signs_up. cbn [app replicate orderly_life]. take. split; [done|]. take. split.
    { split_and!; [apply ascii_field; reflexivity..|by split; intros c [= <-]|by split; intros c [= <-]|vm_compute; reflexivity]. }
    do 4 (take; split; [reflexivity|]). take. split; [vm_compute; reflexivity|done].
  - vm_compute. reflexivity.
Defined.

Lemma concurrent_signups_lost_witness :
  exists (p p' : Process str nat),
    answers p = [(0%nat, SignupOk); (1%nat, SignupOk)] /\ act sound_streams p Restart = Some p' /\
    users (world p') !! lit "cyd" = None /\ users (world p') !! lit "dan" = None.
Proof.
  destruct (concurrent_signups_lost (Addr := nat) sound_streams demo_file (lit "cyd") (lit "dan") (lit "pw") (lit "qw") 0%nat)
    as (p & p' & _ & Ha & _ & Hr & Hc & Hd & _).
  - right. by exists (utf8_encode (lit "ann:pw") ++ [10] ++ utf8_encode (lit "bob:pw")).
  - repeat (apply Forall_cons; split; [apply ascii_field; reflexivity|]). done.
  - repeat (apply Forall_cons; split; [split; by intros c [= <-]|]). done.
  - repeat constructor.
  - done.
  - vm_compute. reflexivity.
  - vm_compute. reflexivity.
  - by exists p, p'.
Defined.
