(* ===== verification/Presence.v ===== *)
(** Who is there: the status the server keeps and pushes against the connections
    it has (src/server/operating_server.rs, user_handler.rs, on the lives of
    Life).

    In a [calm_life] a user is online exactly while a connection is his; the
    examples at the end take the conditions of [calm] away one at a time. *)

From S2P Require Import Prelude.
From S2P Require Import Text.
From S2P Require Import Wire.
From S2P Require Import UserStatus.
From S2P Require Import ClientMessage.
From S2P Require Import ServerMessage.
From S2P Require Import ServerResponse.
From S2P Require Import OperatingServer.
From S2P Require Import UserHandler.
From S2P Require Import CentralServer.
From S2P Require Import Life.

(** * Definitions *)

Section Presence.
Context {SDP Addr : Type}.
Implicit Types (w : World SDP) (p : Process SDP Addr) (s : OperatingServer Addr).

(** The user of some connection. *)
Definition present p (n : str) : Prop := exists i h, handlers p !! i = Some h /\ me h.1 = Some n.

(** A thread has read the record of [n] and is about to write it back. *)
Definition holds (ph : phase SDP) (n : str) : Prop :=
  match ph with
  | Requesting _ _ _ (_, f, t) | Rejecting _ _ (_, f, t) => n = username f \/ n = username t
  | _ => False
  end.

Definition unheld p (n : str) : Prop := forall i h, handlers p !! i = Some h -> ~ holds h.2 n.

(** Clients that log in once per connection and log out themselves; answers that
    can be written; nobody leaves while a call request or a rejection that has
    his record is between its sections. *)
Definition calm (bad : nat -> bool) p (a : action SDP Addr) : Prop :=
  courteous bad p a /\
  match a with
  | Receive i (LogIn _ _) => forall s ph, handlers p !! i = Some (s, ph) -> me s = None
  | Receive i (LogOut token) => unheld p token
  | Close i => forall s ph n, handlers p !! i = Some (s, ph) -> me s = Some n -> unheld p n
  | Break i => forall s ph, handlers p !! i = Some (s, ph) -> me s = None
  | _ => True
  end.

Fixpoint calm_life `{Wire SDP} `{MapOrder UserData} (bad : nat -> bool) (l : list (action SDP Addr)) p : Prop :=
  match l with
  | [] => True
  | a :: l => calm bad p a /\ match act bad p a with Some p => calm_life bad l p | None => True end
  end.

(** Whoever is online is there, and so is whoever is about to be written back. *)
Definition attended p : Prop :=
  (forall n, online (world p) n -> present p n) /\
  (forall i h n, handlers p !! i = Some h -> holds h.2 n -> present p n).

(** ** Sections wake up nobody *)

Definition wakes (new : str -> Prop) w w' : Prop := forall n, online w' n -> online w n \/ new n.

End Presence.

(** * Lemmas *)

Section Facts.
Context {SDP Addr : Type} `{Wire SDP} `{Hord : MapOrder UserData} (bad : nat -> bool).
Implicit Types (w : World SDP) (p : Process SDP Addr) (s : OperatingServer Addr).

Lemma wakes_same new w w' : users w' = users w -> wakes new w w'.
Proof. intros E n (d & Hd & Hs). rewrite E in Hd. left. by exists d. Qed.

Lemma wakes_trans new w1 w2 w3 : wakes new w1 w2 -> wakes new w2 w3 -> wakes new w1 w3.
Proof. intros H1 H2 n Hn. destruct (H2 n Hn); [by apply H1|by right]. Qed.

Lemma wakes_insert (new : str -> Prop) w w' k d :
  users w' = <[k := d]> (users w) -> (status d <> Offline -> online w k \/ new k) -> wakes new w w'.
Proof.
  intros E Hk n (d' & Hd & Hs). rewrite E in Hd. apply lookup_insert_Some in Hd as [[<- <-]|[_ Hd]]; [by apply Hk|].
  left. by exists d'.
Qed.

Lemma notify_wakes new name st w w' : wakes new w w' -> wakes new w (notify_status_update bad name st w').
Proof. intros Hs. eapply wakes_trans; [exact Hs|]. apply wakes_same, (notify_users bad name st w'). Qed.

Lemma send_wakes new i msg w w' : wakes new w w' -> wakes new w (send_message bad i msg w').
Proof. intros Hs. eapply wakes_trans; [exact Hs|]. apply wakes_same, (send_users bad i msg w'). Qed.

Lemma commit_wakes w w' f t :
  users w' = <[username f := f]> (<[username t := t]> (users w)) ->
  wakes (fun n => n = username f \/ n = username t) w w'.
Proof.
  intros E n (d & Hd & Hs). rewrite E in Hd. rewrite !lookup_insert_Some in Hd.
  destruct Hd as [[<- _]|[_ [[<- _]|[_ Hd]]]]; [by right; left|by right; right|left; by exists d].
Qed.

Lemma hangup_wakes user w : wakes nobody w (@call_hangup SDP Addr _ bad user w).2.
Proof.
  unfold call_hangup. destruct (users_poisoned w); [by apply wakes_same|].
  destruct (users w !! user) as [d|] eqn:Hd; [|by apply wakes_same].
  destruct (status d) eqn:Es; try by apply wakes_same. cbn. apply notify_wakes. eapply wakes_insert; [done|].
  intros _. left. exists d. by rewrite Es.
Qed.

Lemma accept_wakes from to answer w : wakes nobody w (@call_accept SDP Addr bad from to answer w).2.
Proof. unfold call_accept. destruct (rbind _ _); [|by apply wakes_same]. by apply send_wakes, wakes_same. Qed.

Lemma request_wakes from to offer i f t w :
  wakes (fun n => n = username f \/ n = username t) w (@call_request_commit SDP Addr _ bad from to offer (i, f, t) w).2.
Proof.
  unfold call_request_commit. destruct (users_poisoned w); [by apply wakes_same|]. cbn.
  apply send_wakes, notify_wakes, notify_wakes. by apply commit_wakes.
Qed.

Lemma reject_wakes from to i f t w :
  wakes (fun n => n = username f \/ n = username t) w (@call_reject_commit SDP Addr _ bad from to (i, f, t) w).2.
Proof.
  unfold call_reject_commit.
  assert (Hs : wakes (fun n => n = username f \/ n = username t) w
    (notify_status_update bad to Available (notify_status_update bad from Available w)))
    by by apply notify_wakes, notify_wakes, wakes_same.
  set (w1 := notify_status_update _ to _ _) in *. destruct (users_poisoned w1); [done|]. cbn.
  apply send_wakes. eapply wakes_trans; [exact Hs|]. by apply commit_wakes.
Qed.

Lemma attach_wakes asked r i w : wakes nobody w (map_stream_to_user asked r i w).
Proof.
  unfold map_stream_to_user. destruct (negb asked); [by apply wakes_same|]. destruct r as [|b|]; try by apply wakes_same.
  destruct (response_from_bytes b) as [[u]|]; [|by apply wakes_same]. destruct (users_poisoned w); [by apply wakes_same|].
  destruct (users w !! u) as [d|] eqn:Hd; [|by apply wakes_same]. eapply wakes_insert; [done|]. cbn. intros Hs. left. by exists d.
Qed.

(** A user who leaves. *)
Lemma leaves w w' k d :
  users w' = <[k := update_status Offline d]> (users w) -> wakes nobody w w' /\ ~ online w' k.
Proof.
  intros E. split; [by eapply wakes_insert|]. intros (d' & Hd & Hs). rewrite E, lookup_insert_eq in Hd. by injection Hd as <-.
Qed.

Lemma login_wakes name passwd s w :
  let '(_, s', w') := login_user bad name passwd s w in
  (s' = s /\ wakes nobody w w') \/ (me s' = Some name /\ wakes (eq name) w w').
Proof.
  unfold login_user. assert (Hr : wakes nobody w w) by by apply wakes_same.
  destruct (users_poisoned w); [by left|]. destruct (users w !! name) as [d|]; [|by left].
  destruct (negb _); [by left|]. destruct (status d); try by left. right. split; [done|].
  apply notify_wakes. eapply wakes_insert; [done|]. by right.
Qed.

Lemma signup_wakes name passwd w w' :
  signup_begin bad name passwd w = @Ok _ (ServerResponse Addr) w' -> wakes nobody w w'.
Proof. intros (_ & _ & _ & E & _)%signup_begin_ok. by eapply wakes_insert. Qed.

Lemma logout_leaves token d j s w :
  users_poisoned w = false -> users w !! token = Some d -> server_client_stream d = Some j -> bad j = false ->
  let '(_, s', w') := logout_user bad token s w in me s' = None /\ wakes nobody w w' /\ ~ online w' token.
Proof.
  intros Hp Hd Hj Hb. unfold logout_user. rewrite Hp, Hd, Hj, Hb. split; [done|].
  apply (leaves _ _ token d). by rewrite (proj1 (notify_users _ _ _ _)).
Qed.

Lemma offline_leaves s w n :
  users_poisoned w = false -> me s = Some n -> online w n ->
  let '(_, s', w') := make_user_offline bad s w in wakes nobody w w' /\ ~ online w' n.
Proof.
  intros Hp Hm (d & Hd & _). unfold make_user_offline. rewrite Hm, Hp, Hd.
  apply (leaves _ _ n d). by rewrite (proj1 (notify_users _ _ _ _)).
Qed.

(** ** The invariant, step by step *)

Lemma present_insert p w' i s0 ph0 s ph ans n :
  handlers p !! i = Some (s0, ph0) -> (forall n, me s0 = Some n -> me s = Some n) ->
  present p n \/ me s = Some n -> present (mk_process w' (<[i := (s, ph)]> (handlers p)) ans) n.
Proof.
  intros Hi Hk [(j & h & Hj & Hn)|Hn].
  - destruct (decide (i = j)) as [<-|Hij].
    + exists i, (s, ph). cbn. rewrite lookup_insert_eq. split; [done|]. apply Hk. by simplify_eq.
    + exists j, h. cbn. by rewrite lookup_insert_ne.
  - exists i, (s, ph). cbn. by rewrite lookup_insert_eq.
Qed.

(** A connection goes on, possibly with a new user. *)
Lemma attended_put p w' i s0 ph0 s ph ans :
  attended p -> handlers p !! i = Some (s0, ph0) -> (forall n, me s0 = Some n -> me s = Some n) ->
  (forall n, holds ph n -> present p n) -> wakes (fun n => present p n \/ me s = Some n) (world p) w' ->
  attended (mk_process w' (<[i := (s, ph)]> (handlers p)) ans).
Proof.
  intros [Ho Hh] Hi Hk Hph Hw. split.
  - intros n Hn. eapply present_insert; [done..|]. destruct (Hw n Hn); [left; by apply Ho|done].
  - intros j h n. cbn. rewrite lookup_insert_Some.
    intros [[<- <-]|[_ Hj]] Hn; (eapply present_insert; [done..|]); left; [by apply Hph|by eapply Hh].
Qed.

Lemma attended_keep p w' i s ph0 ph ans :
  attended p -> handlers p !! i = Some (s, ph0) -> (forall n, holds ph n -> present p n) ->
  wakes (present p) (world p) w' -> attended (mk_process w' (<[i := (s, ph)]> (handlers p)) ans).
Proof. intros Ha Hi Hph Hw. eapply attended_put; [done..|]. intros n Hn. destruct (Hw n Hn); tauto. Qed.

(** The user [n0] leaves, and the others stay. *)
Lemma attended_leave p w' hs ans n0 :
  attended p -> unheld p n0 -> wakes nobody (world p) w' -> ~ online w' n0 ->
  (forall n, n <> n0 -> present p n -> present (mk_process w' hs ans) n) ->
  (forall i h, hs !! i = Some h -> handlers p !! i = Some h \/ forall n, ~ holds h.2 n) ->
  attended (mk_process w' hs ans).
Proof.
  intros [Ho Hh] Hu Hw Hn0 Hpr Hhs. split.
  - intros n Hn. apply Hpr; [by intros ->|]. destruct (Hw n Hn); [by apply Ho|done].
  - intros i h n Hi Hn. destruct (Hhs i h Hi) as [Hi'|Hno]; [|by apply Hno in Hn].
    apply Hpr; [|by eapply Hh]. intros ->. by apply (Hu i h Hi').
Qed.

Lemma present_other p w' hs ans i s0 ph0 n0 n :
  handlers p !! i = Some (s0, ph0) -> me s0 = Some n0 -> (forall j, j <> i -> hs !! j = handlers p !! j) ->
  n <> n0 -> present p n -> present (mk_process w' hs ans) n.
Proof.
  intros Hi Hm Hhs Hne (j & h & Hj & Hn). exists j, h. cbn. split; [|done]. rewrite Hhs; [done|].
  intros ->. rewrite Hi in Hj. injection Hj as <-. cbn in Hn. congruence.
Qed.

Lemma attended_drop p i s0 ph0 ans :
  attended p -> handlers p !! i = Some (s0, ph0) -> me s0 = None ->
  attended (mk_process (world p) (delete i (handlers p)) ans).
Proof.
  intros [Ho Hh] Hi Hm.
  assert (Hpr : forall n, present p n -> present (mk_process (world p) (delete i (handlers p)) ans) n).
  { intros n (k & h & Hk & Hn). exists k, h. cbn. rewrite lookup_delete_ne; [done|]. intros ->. rewrite Hi in Hk. injection Hk as <-. cbn in Hn. congruence. }
  split; [intros n Hn; by apply Hpr, Ho|]. intros k h n. cbn. intros [_ Hk]%lookup_delete_Some Hn. apply Hpr. by eapply Hh.
Qed.

Lemma receive_attended i event s p :
  sound p -> attended p -> handlers p !! i = Some (s, Ready) -> calm bad p (Receive i event) ->
  attended (receive bad i event s p).
Proof.
  intros (Hkey & Hp & _) Ha Hi [Hc Hcalm].
  assert (Hkeep : forall w' ph ans, (forall n, holds ph n -> present p n) -> wakes nobody (world p) w' ->
    attended (mk_process w' (<[i := (s, ph)]> (handlers p)) ans)).
  { intros w' ph ans Hph Hw. eapply attended_keep; [done..|]. intros n Hn. destruct (Hw n Hn) as [?|[]]. by left. }
  assert (Hr : wakes nobody (world p) (world p)) by by apply wakes_same.
  assert (Hav : forall n d, users (world p) !! n = Some d -> status d <> Offline -> present p (username d)).
  { intros n d Hd Hs. apply (proj1 Ha). rewrite (Hkey n d Hd). by exists d. }
  destruct event as [|u pw|u pw|t|t o to|f t o|f t|t]; cbn [receive handle_client_message].
  - by apply Hkeep.
  - pose proof (login_wakes u pw s (world p)) as Hl. destruct (login_user _ _ _ _ _) as [[r s'] w'].
    destruct Hl as [[-> Hw]|[Hm Hw]]; [by apply Hkeep|]. eapply attended_put; [done..| | |].
    + intros n Hn. by rewrite (Hcalm s Ready Hi) in Hn.
    + by intros n [].
    + intros n Hn. destruct (Hw n Hn) as [?|<-]; [by left|by right; right].
  - destruct (signup_begin bad u pw (world p)) as [w'|r] eqn:E; [|by apply Hkeep].
    apply Hkeep; [by intros n []|by eapply signup_wakes].
  - destruct Hc as (s0 & d & j & Hi' & Hm & Hd & Hj & Hb). assert (s0 = s) as -> by congruence.
    pose proof (logout_leaves t d j s (world p) Hp Hd Hj Hb) as Hl. destruct (logout_user _ _ _ _) as [[r s'] w'].
    destruct Hl as (_ & Hw & Hoff). apply (attended_leave p _ _ _ t); [done..| |].
    + intros n. eapply present_other; [done..|]. intros k Hk. by apply lookup_insert_ne.
    + intros k h. rewrite lookup_insert_Some. intros [[<- <-]|[_ ?]]; [by right; intros n []|by left].
  - destruct (call_request_read t to (world p)) as [[[j f] d]|r] eqn:E; [|by apply Hkeep].
    apply call_request_read_ok in E as (_ & df & dt & Hf & Ht & Sf & St & _ & -> & ->).
    apply Hkeep; [|done]. cbn. intros n [-> | ->]; (eapply Hav; [done|congruence]).
  - pose proof (accept_wakes f t o (world p)) as Hw. destruct (call_accept _ _ _ _ _) as [r w']. by apply Hkeep.
  - destruct (call_reject_read f t (world p)) as [[[j f'] d]|r] eqn:E; [|by apply Hkeep].
    apply call_reject_read_ok in E as (_ & df & dt & Hf & Ht & Sf & St & _ & -> & ->).
    apply Hkeep; [|done]. cbn. intros n [-> | ->]; (eapply Hav; [done|congruence]).
  - pose proof (hangup_wakes t (world p)) as Hw. destruct (call_hangup _ _ _) as [r w']. by apply Hkeep.
Qed.

Lemma continue_attended i wr s ph p p' :
  attended p -> handlers p !! i = Some (s, ph) -> continue bad i wr s ph p = Some p' -> attended p'.
Proof.
  intros Ha Hi.
  assert (Hkeep : forall w' ph' ans, (forall n, ~ holds ph' n) -> wakes (present p) (world p) w' ->
    attended (mk_process w' (<[i := (s, ph')]> (handlers p)) ans)).
  { intros w' ph' ans Hph Hw. eapply attended_keep; [done..| |done]. intros n Hn. by apply Hph in Hn. }
  assert (Hheld : forall w', wakes (holds ph) (world p) w' -> wakes (present p) (world p) w').
  { intros w' Hw n Hn. destruct (Hw n Hn); [by left|right; by eapply (proj2 Ha)]. }
  assert (Hf : forall b, wakes (present p) (world p) (append_file b (world p))) by (intros; by apply wakes_same).
  assert (Hr : wakes (present p) (world p) (world p)) by by apply wakes_same.
  destruct ph as [|f t o [[j df] dt]|f t [[j df] dt]|[|b l]]; cbn [continue]; [done| | |intros [= <-]; apply Hkeep; [by intros ? []|done]|].
  - pose proof (request_wakes f t o j df dt (world p)) as Hw. destruct (call_request_commit _ _ _ _ _ _) as [r w'].
    intros [= <-]. apply Hkeep; [by intros ? []|by apply Hheld].
  - pose proof (reject_wakes f t j df dt (world p)) as Hw. destruct (call_reject_commit _ _ _ _ _) as [r w'].
    intros [= <-]. apply Hkeep; [by intros ? []|by apply Hheld].
  - destruct wr; [destruct l|]; intros [= <-]; (apply Hkeep; [by intros ? []|done]).
Qed.

Lemma attended_boot file : attended (boot file : Process SDP Addr).
Proof.
  split.
  - intros n (d & Hd & Hs). by apply load_keyed in Hd as [_ ?].
  - intros i h n. cbn. by rewrite lookup_empty.
Qed.

Lemma act_attended a p p' :
  sound p -> seated p -> attended p -> calm bad p a -> act bad p a = Some p' -> attended p'.
Proof.
  intros Hs Hseat Ha Hc. destruct a as [i addr|i event|i wr|asked r j|j|i|i|]; cbn [act].
  - destruct (handlers p !! i) eqn:Hi; [done|]. intros [= <-]. destruct Ha as [Ho Hh].
    assert (Hpr : forall n, present p n -> present (mk_process (world p) (<[i := (mk_server addr None, Ready)]> (handlers p)) (answers p)) n).
    { intros n (k & h & Hk & Hn). exists k, h. cbn. rewrite lookup_insert_ne; [done|]. intros ->. congruence. }
    split; [intros n Hn; by apply Hpr, Ho|]. intros k h n. cbn. rewrite lookup_insert_Some.
    intros [[<- <-]|[_ Hk]] Hn; [done|]. apply Hpr. by eapply Hh.
  - destruct (handlers p !! i) as [[s [|?|?|?]]|] eqn:Hi; try done. intros [= <-]. by apply receive_attended.
  - destruct (handlers p !! i) as [[s ph]|] eqn:Hi; [|done]. by apply continue_attended.
  - intros [= <-]. destruct Ha as [Ho Hh]. split; [|exact Hh]. intros n Hn.
    destruct (attach_wakes asked r j (world p) n Hn) as [?|[]]. by apply Ho.
  - by intros [= <-].
  - destruct (handlers p !! i) as [[s [|?|?|?]]|] eqn:Hi; try done. destruct (me s) as [n0|] eqn:Hm.
    + pose proof (offline_leaves s (world p) n0 (proj1 (proj2 Hs)) Hm (proj2 (proj1 Hseat i _ Hi) n0 Hm)) as Hl.
      destruct (make_user_offline bad s (world p)) as [[r s'] w']. intros [= <-]. destruct Hl as [Hw Hoff].
      apply (attended_leave p _ _ _ n0); [done|by apply (proj2 Hc s Ready)|done..| |].
      * intros n. eapply present_other; [done..|]. intros k Hk. by apply lookup_delete_ne.
      * intros k h [_ ?]%lookup_delete_Some. by left.
    + unfold make_user_offline. rewrite Hm. intros [= <-]. by eapply attended_drop.
  - destruct (handlers p !! i) as [[s [|?|?|?]]|] eqn:Hi; try done. intros [= <-].
    eapply attended_drop; [done..|]. by apply (proj2 Hc s Ready).
  - intros [= <-]. apply attended_boot.
Qed.

Lemma calm_courteous l p : calm_life bad l p -> courteous_life bad l p.
Proof.
  revert p. induction l as [|a l IH]; intros p; [done|]. cbn [calm_life courteous_life]. intros [[Hc _] Hl]. split; [done|].
  destruct (act bad p a); [by apply IH|done].
Qed.

Lemma life_attended l p p' :
  sound p -> seated p -> attended p -> run bad l p = Some p' -> calm_life bad l p -> sound p' /\ seated p' /\ attended p'.
Proof.
  revert p. induction l as [|a l IH]; intros p Hs Hst Ha; cbn [run calm_life]; [by intros [= <-]|].
  destruct (act bad p a) as [p1|] eqn:Ea; [|done]. intros Hr [Hc Hl].
  destruct (act_refines bad a p p1 Hs Ea) as [Hs1 _]. apply (IH p1); try done.
  - by apply (act_seated bad a p); [| |apply Hc|].
  - by apply (act_attended a p).
Qed.
End Facts.

(** * Properties *)

(** C21: presence is exact.  In a calm life, whatever the order of logins,
    calls, outdated writes, lost connections and restarts: a user is online
    exactly while a connection is his, and only one is; what any client is told
    of the others says of each whether he has a connection; and once all the
    connections are gone, every account can log in again. *)
Theorem presence_exact {SDP Addr} `{Wire SDP} `{MapOrder UserData} bad file l (p : Process SDP Addr) :
  run bad l (boot file) = Some p -> calm_life bad l (boot file) ->
  (forall n, online (world p) n <-> present p n) /\
  (forall i j h k n, handlers p !! i = Some h -> handlers p !! j = Some k -> me h.1 = Some n -> me k.1 = Some n -> i = j) /\
  (forall user n st, get_clients_for_user user (world p) !! n = Some st -> st <> Offline <-> present p n) /\
  (handlers p = ∅ -> forall n d (s : OperatingServer Addr), users (world p) !! n = Some d ->
     exists clients, (login_user bad n (password d) s (world p)).1.1 = LoginOk n (server_client_socket_address s) clients).
Proof.
  intros Hr Hc. destruct (life_attended bad l (boot file) p (sound_boot file) (seated_boot file) (attended_boot file) Hr Hc)
    as ((_ & Hp & _) & [Hon Hu] & [Ho _]).
  assert (Hiff : forall n, online (world p) n <-> present p n).
  { intros n. split; [apply Ho|]. intros (i & h & Hi & Hn). by apply (Hon i h Hi). }
  split; [exact Hiff|]. split; [exact Hu|]. split.
  - intros user n st. unfold get_clients_for_user. rewrite Hp, lookup_fmap, fmap_Some.
    intros (d & [Hd _]%map_lookup_filter_Some & ->). rewrite <-Hiff. split; [by exists d|].
    intros (d' & Hd' & Hs). congruence.
  - intros Hh n d s Hd. destruct (login_spec bad n (password d) s (world p) Hp) as [(d' & _ & _ & _ & ->)|(msg & _ & Hm)]; [by eexists|].
    exfalso. destruct (Hm d Hd) as [?|Hs]; [done|]. destruct (Ho n) as (i & h & Hi & _); [by exists d|].
    by rewrite Hh, lookup_empty in Hi.
Qed.

(** * Witnesses *)

#[local] Instance demo_order : MapOrder UserData := { iter := map_to_list; iter_permutation m := Permutation_refl _ }.
#[local] Instance raw_wire : Wire str := { Wire.display := id; from_str := Some }.

(** Ann calls Bob, who hangs up and leaves; Ann's call is still on. *)
Definition bob_leaves : list (action str nat) :=
  both_in ++ [Receive 0 (CallRequest (lit "ann") (lit "v=0") (lit "bob")); Continue 0 (Ok tt); Receive 1 (CallHangup (lit "bob"));
    Receive 1 (LogOut (lit "bob")); Close 1].

(** Nobody's record is held when every thread waits. *)
Lemma all_ready {SDP Addr} (p : Process SDP Addr) n :
  bool_decide (map_Forall (fun _ h => match h.2 with Ready => true | _ => false end = true) (handlers p)) = true -> unheld p n.
Proof. intros Hall%bool_decide_eq_true i [s ph] Hi Hn. specialize (Hall i _ Hi). cbn in *. by destruct ph. Qed.

Lemma presence_exact_witness :
  exists p : Process str nat, run sound_streams bob_leaves (boot demo_file) = Some p /\
    forall n, online (world p) n <-> present p n.
Proof.
  eexists. split; [vm_compute; reflexivity|].
  refine (proj1 (presence_exact sound_streams demo_file bob_leaves _ _ _)).
  - vm_compute. reflexivity.
  - unfold bob_leaves, both_in. cbn [app calm_life].
    do 2 (split; [by split|]; take). do 2 (split; [split; [exact I|intros s ph E; vm_compute in E; by injection E as <- _]|]; take).
    do 5 (split; [by split|]; take). split.
    { split; [eexists _, _, _; split_and!; vm_compute; reflexivity|]. apply all_ready. vm_compute. reflexivity. }
    take. split; [|done]. split; [exact I|]. intros s ph n _ _. apply all_ready. vm_compute. reflexivity.
Defined.

(** Each condition of [calm] is needed: after these lives bob is online for the
    server, and no connection is his.  His record is held while he leaves; his
    connection breaks; the connection logs in another user. *)
Example without_calm :
  forallb (fun l => match run sound_streams (both_in ++ l) (boot demo_file) with
    | Some p => match status <$> users (world p) !! lit "bob" with
        | Some Offline | None => false
        | _ => forallb (fun h => negb (bool_decide (me h.2.1 = Some (lit "bob")))) (map_to_list (handlers p))
        end
    | None => false
    end)
    [[Receive 0 (CallRequest (lit "ann") (lit "v=0") (lit "bob")); Receive 1 (LogOut (lit "bob")); Close 1; Continue 0 (Ok tt)];
     [Break 1];
     [Close 0; Receive 1 (LogIn (lit "ann") (lit "pw"))]] = true.
Proof. vm_compute. reflexivity. Qed.
