(* ===== verification/Undisturbed.v ===== *)
(** A call lasts over the server's life, in any order its threads may take
    (src/server/operating_server.rs, on the lives of Life).

    Calls handles one message at a time; here other connections are in the middle
    of theirs.  A call whose users nobody holds an outdated record of ([engaged], which is how
    a call begins: [call_starts]) lasts until one of the two leaves, ends it or has
    it rejected in his name, or the server restarts ([call_lasts]); the examples at
    the end take the conditions away one at a time. *)

From S2P Require Import Prelude.
From S2P Require Import Text.
From S2P Require Import Wire.
From S2P Require Import UserStatus.
From S2P Require Import ClientMessage.
From S2P Require Import ServerMessage.
From S2P Require Import ServerResponse.
From S2P Require Import OperatingServer.
From S2P Require Import UserHandler.
From S2P Require Import Calls.
From S2P Require Import CentralServer.
From S2P Require Import Life.
From S2P Require Import Presence.

(** * Definitions *)

Section Undisturbed.
Context {SDP Addr : Type}.
Implicit Types (p : Process SDP Addr).

(** [k], with password [pw], is busy with [o], and no thread is about to write
    back another record of his. *)
Definition engaged p (k pw o : str) : Prop :=
  (exists d, users (world p) !! k = Some d /\ password d = pw /\ status d = Occupied o) /\ unheld p k.

(** The action leaves the call of [k] with [o] alone: it is none of the messages
    that end it, nor the end of a connection of [k], nor a restart. *)
Definition spares p (k o : str) (a : action SDP Addr) : Prop :=
  match a with
  | Receive _ event => ~ ends event k o
  | Close i => forall h, handlers p !! i = Some h -> me h.1 <> Some k
  | Restart => False
  | _ => True
  end.

Fixpoint sparing_life `{Wire SDP} `{MapOrder UserData} (bad : nat -> bool) (k o : str) (l : list (action SDP Addr)) p : Prop :=
  match l with
  | [] => True
  | a :: l => spares p k o a /\ match act bad p a with Some p => sparing_life bad k o l p | None => True end
  end.

(** The message is no announced call, or the action writes the request of a
    user other than [k], whose stream it goes to. *)
Definition calls_another p (k : str) (a : action SDP Addr) (m : nat * ServerMessage SDP) : Prop :=
  match m.2 with
  | CallIncoming from offer => exists i wr s to f t,
      a = Continue i wr /\ handlers p !! i = Some (s, Requesting from to offer (m.1, f, t)) /\ username t <> k
  | _ => True
  end.

End Undisturbed.

(** * Lemmas *)

Section Facts.
Context {SDP Addr : Type} `{Wire SDP} `{Hord : MapOrder UserData} (bad : nat -> bool).
Implicit Types (w : World SDP) (p : Process SDP Addr) (s : OperatingServer Addr).

(** What is kept of the record of [k]. *)
Definition keeps (k : str) (w w' : World SDP) : Prop :=
  forall d, users w !! k = Some d -> exists d', users w' !! k = Some d' /\ password d' = password d /\ status d' = status d.

Lemma keeps_lookup k w w' : users w' !! k = users w !! k -> keeps k w w'.
Proof. intros E d Hd. exists d. by rewrite E. Qed.

Lemma commit_keeps k w w' f t :
  users w' = <[username f := f]> (<[username t := t]> (users w)) -> ~ (k = username f \/ k = username t) -> keeps k w w'.
Proof. intros E Hk. apply keeps_lookup. rewrite E, !lookup_insert_ne; [done|..]; intros <-; tauto. Qed.

Lemma signup_keeps name passwd k d w w' :
  signup_begin bad name passwd w = @Ok _ (ServerResponse Addr) w' -> users w !! k = Some d -> keeps k w w'.
Proof. intros (_ & _ & Hn & E & _)%signup_begin_ok Hd. apply keeps_lookup. rewrite E. apply lookup_insert_ne. congruence. Qed.

Lemma request_keeps k from to offer j f t w :
  ~ (k = username f \/ k = username t) -> keeps k w (@call_request_commit SDP Addr _ bad from to offer (j, f, t) w).2.
Proof.
  intros Hk. unfold call_request_commit. destruct (users_poisoned w); [by apply keeps_lookup|]. cbn [snd].
  eapply commit_keeps; [|exact Hk].
  by rewrite (proj1 (send_users _ _ _ _)), !(proj1 (notify_users _ _ _ _)).
Qed.

Lemma reject_keeps k from to j f t w :
  ~ (k = username f \/ k = username t) -> keeps k w (@call_reject_commit SDP Addr _ bad from to (j, f, t) w).2.
Proof.
  intros Hk. unfold call_reject_commit.
  assert (E : users (notify_status_update bad to Available (notify_status_update bad from Available w)) = users w)
    by by rewrite !(proj1 (notify_users _ _ _ _)).
  set (w1 := notify_status_update _ to _ _) in *. destruct (users_poisoned w1); cbn [snd]; [apply keeps_lookup; by rewrite E|].
  eapply commit_keeps; [|exact Hk].
  rewrite (proj1 (send_users _ _ _ _)). cbn [users set_users]. by rewrite E.
Qed.

Lemma attach_keeps k asked r j w : keeps k w (map_stream_to_user asked r j w).
Proof.
  unfold map_stream_to_user. destruct (negb asked); [by apply keeps_lookup|]. destruct r as [|b|]; try by apply keeps_lookup.
  destruct (response_from_bytes b) as [[u]|]; [|by apply keeps_lookup]. destruct (users_poisoned w); [by apply keeps_lookup|].
  destruct (users w !! u) as [d|] eqn:Hu; [|by apply keeps_lookup]. intros d' Hd. cbn [users set_users].
  destruct (decide (u = k)) as [->|Hne]; [|exists d'; by rewrite lookup_insert_ne]. rewrite lookup_insert_eq.
  simplify_eq. by eexists.
Qed.

Lemma offline_keeps k s w : me s <> Some k -> keeps k w (make_user_offline bad s w).2.
Proof.
  intros Hk. unfold make_user_offline. destruct (me s) as [n|]; [|by apply keeps_lookup].
  destruct (users_poisoned w); [by apply keeps_lookup|]. destruct (users w !! n) as [d|]; [|by apply keeps_lookup].
  apply keeps_lookup. cbn [snd]. rewrite (proj1 (notify_users _ _ _ _)). apply lookup_insert_ne. congruence.
Qed.

(** ** Step by step *)

Lemma unheld_put p w' i h ans k :
  unheld p k -> ~ holds h.2 k -> unheld (mk_process w' (<[i := h]> (handlers p)) ans : Process SDP Addr) k.
Proof. intros Hu Hh j h'. cbn. intros [[_ <-]|[_ Hj]]%lookup_insert_Some; [done|by apply (Hu j)]. Qed.

Lemma engaged_put p w' i s ph ans k pw o :
  engaged p k pw o -> keeps k (world p) w' -> ~ holds ph k ->
  engaged (mk_process w' (<[i := (s, ph)]> (handlers p)) ans) k pw o.
Proof.
  intros [(d & Hd & <- & Hs) Hu] Hw Hh. split; [|by apply unheld_put].
  destruct (Hw d Hd) as (d' & Hd' & Hp & Hs'). exists d'. split_and!; [done|done|congruence].
Qed.

Lemma engaged_less p w' hs ans k pw o :
  engaged p k pw o -> keeps k (world p) w' -> hs ⊆ handlers p -> engaged (mk_process w' hs ans) k pw o.
Proof.
  intros [(d & Hd & <- & Hs) Hu] Hw Hh. split; [|intros i h Hi; apply (Hu i); by eapply lookup_weaken].
  destruct (Hw d Hd) as (d' & Hd' & Hp & Hs'). exists d'. split_and!; [done|done|congruence].
Qed.

Lemma receive_engaged i event s p k pw o :
  keyed (world p) -> engaged p k pw o -> ~ ends event k o -> engaged (receive bad i event s p) k pw o.
Proof.
  intros Hkey He Hn. pose proof He as [(d & Hd & _ & Hs) _].
  assert (Hr : keeps k (world p) (world p)) by by apply keeps_lookup.
  pose proof (event_keeps bad event (mk_disk true true) s (world p) k d o Hkey Hd Hs Hn) as Hw.
  assert (Hne : forall n dn, users (world p) !! n = Some dn -> status dn <> Occupied o -> k <> username dn).
  { intros n dn Hdn Hsn ->. rewrite (Hkey n dn Hdn) in Hd. congruence. }
  unfold receive. destruct event as [|u q|u q|t|t sdp to|f t sdp|f t|t].
  3: { destruct (signup_begin bad u q (world p)) as [w'|r] eqn:E; apply (engaged_put p); try done; try (by intros []). by eapply signup_keeps. }
  4: { destruct (call_request_read t to (world p)) as [[[j f] dt]|r] eqn:E; apply (engaged_put p); try done; try (by intros []).
       apply call_request_read_ok in E as (_ & df & dt' & Hf & Ht & Sf & St & _ & -> & ->).
       intros [E'|E']; [apply (Hne _ _ Hf) in E'|apply (Hne _ _ Ht) in E']; congruence. }
  5: { destruct (call_reject_read f t (world p)) as [[[j f'] dt]|r] eqn:E; apply (engaged_put p); try done; try (by intros []).
       apply call_reject_read_ok in E as (_ & df & dt' & Hf & Ht & Sf & St & _ & -> & ->).
       cbn. rewrite (Hkey _ _ Hf), (Hkey _ _ Ht). intros [-> | ->]; simplify_eq; apply Hn; unfold ends; rewrite Hs in *; simplify_eq; tauto. }
  all: destruct (handle_client_message _ _ _ _ _) as [[r s'] w']; apply (engaged_put p); try done;
    [apply keeps_lookup; cbn [snd] in Hw; congruence|by intros []].
Qed.

Lemma continue_engaged i wr s ph p p' k pw o :
  engaged p k pw o -> handlers p !! i = Some (s, ph) -> continue bad i wr s ph p = Some p' -> engaged p' k pw o.
Proof.
  intros He Hi. pose proof (proj2 He i _ Hi) as Hu.
  assert (Hf : forall b, keeps k (world p) (append_file b (world p))) by (intros; by apply keeps_lookup).
  assert (Hr : keeps k (world p) (world p)) by by apply keeps_lookup.
  destruct ph as [|f t sdp [[j df] dt]|f t [[j df] dt]|[|b l]]; cbn [continue]; [done| | |intros [= <-]; apply (engaged_put p); try done; by intros []|].
  - pose proof (request_keeps k f t sdp j df dt (world p) Hu) as Hw. destruct (call_request_commit _ _ _ _ _ _) as [r w'].
    intros [= <-]. apply (engaged_put p); [done|done|by intros []].
  - pose proof (reject_keeps k f t j df dt (world p) Hu) as Hw. destruct (call_reject_commit _ _ _ _ _) as [r w'].
    intros [= <-]. apply (engaged_put p); [done|done|by intros []].
  - destruct wr; [destruct l|]; intros [= <-]; (apply (engaged_put p); [done|done|by intros []]).
Qed.

Lemma act_engaged a p p' k pw o :
  sound p -> engaged p k pw o -> spares p k o a -> act bad p a = Some p' -> engaged p' k pw o.
Proof.
  intros (Hkey & _ & _) He Hs. destruct a as [i addr|i event|i wr|asked r j|j|i|i|]; cbn [act spares] in *.
  - destruct (handlers p !! i); [done|]. intros [= <-]. apply (engaged_put p); [done|by apply keeps_lookup|by intros []].
  - destruct (handlers p !! i) as [[s [|?|?|?]]|]; try done. intros [= <-]. by apply receive_engaged.
  - destruct (handlers p !! i) as [[s ph]|] eqn:Hi; [|done]. by apply continue_engaged.
  - intros [= <-]. apply (engaged_less p); [done|apply attach_keeps|done].
  - intros [= <-]. apply (engaged_less p); [done|by apply keeps_lookup|done].
  - destruct (handlers p !! i) as [[s [|?|?|?]]|] eqn:Hi; try done.
    pose proof (offline_keeps k s (world p) (Hs _ eq_refl)) as Hw. destruct (make_user_offline bad s (world p)) as [[r s'] w'].
    intros [= <-]. apply (engaged_less p); [done|done|apply delete_subseteq].
  - destruct (handlers p !! i) as [[s [|?|?|?]]|]; try done. intros [= <-]. apply (engaged_less p); [done|by apply keeps_lookup|apply delete_subseteq].
  - done.
Qed.

Lemma life_engaged l p p' k pw o :
  sound p -> engaged p k pw o -> sparing_life bad k o l p -> run bad l p = Some p' -> sound p' /\ engaged p' k pw o.
Proof.
  revert p. induction l as [|a l IH]; intros p Hs He; cbn [run sparing_life]; [by intros _ [= <-]|].
  destruct (act bad p a) as [p1|] eqn:Ea; [|done]. intros [Hc Hl] Hr.
  apply (IH p1); [by apply (act_refines bad a p p1 Hs Ea)|by apply (act_engaged a p)|done|done].
Qed.

(** ** The calls that are announced meanwhile *)

Lemma hushed_calls w w' p k a : hushed w w' -> exists new, pushed w' = pushed w ++ new /\ Forall (calls_another p k a) new.
Proof.
  intros (l & E & Hl). exists l. split; [done|]. eapply Forall_impl; [exact Hl|]. intros [i m] Hm. unfold calls_another.
  destruct m; try done. destruct Hm. by eexists _, _.
Qed.

Lemma signup_hushed name passwd w w' : signup_begin bad name passwd w = @Ok _ (ServerResponse Addr) w' -> hushed w w'.
Proof.
  unfold signup_begin. do 2 (destruct (negb _); [done|]). destruct (users_poisoned w); [done|].
  destruct (users w !! name); [done|]. intros [= <-]. by apply hushed_notify, hushed_same.
Qed.

Lemma reject_hushed from to r w : hushed w (@call_reject_commit SDP Addr _ bad from to r w).2.
Proof.
  destruct r as [[j f] t]. unfold call_reject_commit.
  assert (Hn : hushed w (notify_status_update bad to Available (notify_status_update bad from Available w)))
    by by apply hushed_notify, hushed_notify, hushed_same.
  destruct (users_poisoned _); [done|]. apply hushed_send; [done|]. eapply hushed_trans; [exact Hn|]. by apply hushed_same.
Qed.

Lemma receive_hushed i event s p : keyed (world p) -> hushed (world p) (world (receive bad i event s p)).
Proof.
  intros Hk. pose proof (hushed_same (world p) (world p) eq_refl) as Hr.
  assert (Hm : (forall t o to, event <> CallRequest t o to) ->
    hushed (world p) (handle_client_message bad event (mk_disk true true) s (world p)).2).
  { intros Hno. destruct (event_calls bad event (mk_disk true true) s (world p) Hk) as (new & E & Hnew).
    exists new. split; [done|]. apply Forall_forall. intros [j m] Hin (from & o & Em). cbn in Em. subst m.
    destruct (Hnew _ _ _ Hin) as (to & _ & E' & _). by eapply Hno. }
  unfold receive. destruct event as [|u q|u q|t|t sdp to|f t sdp|f t|t].
  3: { destruct (signup_begin bad u q (world p)) as [w'|r] eqn:E; [by eapply signup_hushed|done]. }
  4: { by destruct (call_request_read t to (world p)). }
  5: { by destruct (call_reject_read f t (world p)). }
  all: specialize (Hm ltac:(done)); by destruct (handle_client_message _ _ _ _ _) as [[r s'] w'].
Qed.

Lemma continue_calls i wr s ph p p' k :
  unheld p k -> handlers p !! i = Some (s, ph) -> continue bad i wr s ph p = Some p' ->
  exists new, pushed (world p') = pushed (world p) ++ new /\ Forall (calls_another p k (Continue i wr)) new.
Proof.
  intros Hu Hi. pose proof (Hu i _ Hi) as Hh.
  assert (G : forall w' hs ans, hushed (world p) w' -> Some (mk_process w' hs ans) = Some p' ->
    exists new, pushed (world p') = pushed (world p) ++ new /\ Forall (calls_another p k (Continue i wr)) new).
  { intros w' hs ans Hw [= <-]. by apply hushed_calls. }
  destruct ph as [|f t sdp [[j df] dt]|f t read|[|b l]]; cbn [continue]; [done| | |by apply G, hushed_same|].
  - unfold call_request_commit. destruct (users_poisoned _); [by apply G, hushed_same|]. intros [= <-]. cbn [world answer].
    set (w1 := notify_status_update bad t _ _).
    assert (Hn : hushed (world p) w1) by (apply hushed_notify, hushed_notify; by apply hushed_same).
    destruct (hushed_calls _ _ p k (Continue i wr) Hn) as (new & E & Hnew). rewrite send_message_eq.
    destruct (deaf bad w1 j); [by exists new|]. exists (new ++ [(j, CallIncoming f sdp)]). cbn. rewrite E, app_assoc. split; [done|].
    apply Forall_app. split; [done|]. apply Forall_singleton. cbn. exists i, wr, s, t, df, dt. split_and!; [done|done|].
    intros <-. apply Hh. by right.
  - pose proof (reject_hushed f t read (world p)) as Hw. destruct (call_reject_commit _ _ _ _ _) as [r w']. by apply G.
  - destruct wr; [destruct l|]; by apply G, hushed_same.
Qed.

Lemma act_calls a p p' k :
  keyed (world p) -> unheld p k -> act bad p a = Some p' -> a <> Restart ->
  exists new, pushed (world p') = pushed (world p) ++ new /\ Forall (calls_another p k a) new.
Proof.
  intros Hk Hu. destruct a as [i addr|i event|i wr|asked r j|j|i|i|]; cbn [act]; intros Ha Hr; [..|done].
  3: { destruct (handlers p !! i) as [[s ph]|] eqn:Hi; [|done]. by eapply continue_calls. }
  all: apply hushed_calls.
  - destruct (handlers p !! i); [done|]. injection Ha as <-. by apply hushed_same.
  - destruct (handlers p !! i) as [[s [|?|?|?]]|]; try done. injection Ha as <-. by apply receive_hushed.
  - injection Ha as <-. apply hushed_same. unfold map_stream_to_user. by repeat case_match.
  - injection Ha as <-. by apply hushed_same.
  - destruct (handlers p !! i) as [[s [|?|?|?]]|]; try done. revert Ha. unfold make_user_offline.
    repeat case_match; intros [= <-]; simplify_eq; try (by apply hushed_same). by apply hushed_notify, hushed_same.
  - destruct (handlers p !! i) as [[s [|?|?|?]]|]; try done. injection Ha as <-. by apply hushed_same.
Qed.

(** ** How a call begins *)

Lemma call_starts i s a b offer da db j wr p :
  sound p -> handlers p !! i = Some (s, Ready) -> unheld p a -> unheld p b ->
  users (world p) !! a = Some da -> users (world p) !! b = Some db ->
  status da = Available -> status db = Available -> server_client_stream db = Some j -> a <> b ->
  exists p', run bad [Receive i (CallRequest a offer b); Continue i wr] p = Some p' /\
    engaged p' a (password da) b /\ engaged p' b (password db) a.
Proof.
  intros (Hkey & Hp & _) Hi Hua Hub Ha Hb Sa Sb Hj Hab.
  assert (E : @call_request_read SDP Addr a b (world p) = Ok (j, update_status (Occupied b) da, update_status (Occupied a) db)).
  { apply call_request_read_ok. split; [done|]. by exists da, db. }
  cbn [run act]. rewrite Hi. unfold receive. rewrite E. cbn [act]. rewrite enter_lookup. cbn [continue].
  unfold call_request_commit. cbn [world enter]. rewrite Hp. eexists. split; [reflexivity|].
  unfold answer. cbn [handlers enter world]. rewrite insert_insert_eq.
  assert (Hus : forall w', users (send_message bad j (CallIncoming a offer) (notify_status_update bad b (Occupied a)
    (notify_status_update bad a (Occupied b) w'))) = users w').
  { intros w'. by rewrite (proj1 (send_users _ _ _ _)), !(proj1 (notify_users _ _ _ _)). }
  split; (split; [eexists; cbn [world]; rewrite Hus; cbn [users set_users update_status username]; rewrite (Hkey _ _ Ha), (Hkey _ _ Hb)
    |apply unheld_put; [done|by intros []]]).
  - rewrite lookup_insert_eq. done.
  - rewrite lookup_insert_ne, lookup_insert_eq by done. done.
Qed.
End Facts.

(** * Properties *)

(** C10: a call lasts.  While the server has two users in a call, and no thread
    holds an outdated record of either, any number of connections may come and go
    and do what they want, in any order their threads take: unless a
    message logs out one of the two, hangs up for one, or rejects one in the name
    of the other, or the server closes the connection of one, or restarts, both
    stay registered with their password and busy with each other; and meanwhile no
    thread announces a call to either. *)
Theorem call_lasts {SDP Addr} `{Wire SDP} `{MapOrder UserData} bad l a b pa pb (p p' : Process SDP Addr) :
  sound p -> engaged p a pa b -> engaged p b pb a -> run bad l p = Some p' ->
  sparing_life bad a b l p -> sparing_life bad b a l p ->
  engaged p' a pa b /\ engaged p' b pb a /\
  forall x p2, act bad p' x = Some p2 -> x <> Restart ->
    exists new, pushed (world p2) = pushed (world p') ++ new /\
      Forall (fun m => calls_another p' a x m /\ calls_another p' b x m) new.
Proof.
  intros Hs Ha Hb Hr Hla Hlb.
  destruct (life_engaged bad l p p' a pa b Hs Ha Hla Hr) as [Hs' Ha'].
  destruct (life_engaged bad l p p' b pb a Hs Hb Hlb Hr) as [_ Hb'].
  split_and!; [done|done|]. intros x p2 Hx Hn.
  destruct (act_calls bad x p' p2 a (proj1 Hs') (proj2 Ha') Hx Hn) as (new & E & Hna).
  destruct (act_calls bad x p' p2 b (proj1 Hs') (proj2 Hb') Hx Hn) as (new' & E' & Hnb).
  rewrite E in E'. apply app_inv_head in E' as <-. exists new. split; [done|]. apply Forall_and. by split.
Qed.

(** * Witnesses *)

#[local] Instance demo_order : MapOrder UserData := { iter := map_to_list; iter_permutation m := Permutation_refl _ }.
#[local] Instance raw_wire : Wire str := { Wire.display := id; from_str := Some }.

Definition four_file : bytes :=
  demo_file ++ utf8_encode (lit "cat:pw") ++ [10] ++ utf8_encode (lit "dan:pw") ++ [10].

(** Four users on four connections. *)
Definition all_in : list (action str nat) :=
  both_in ++ [Connect 2 0%nat; Connect 3 0%nat; Receive 2 (LogIn (lit "cat") (lit "pw")); Receive 3 (LogIn (lit "dan") (lit "pw"));
    Attach true (Data (response_to_bytes (Username (lit "cat")))) 2; Attach true (Data (response_to_bytes (Username (lit "dan")))) 3].

Definition ann_calls_bob : list (action str nat) :=
  [Receive 0 (CallRequest (lit "ann") (lit "v=0") (lit "bob")); Continue 0 (Ok tt)].

(** The others try to call Ann and to refuse Bob, call each other while a new
    user registers, hang up and leave; Ann's and Bob's connections break. *)
Definition others : list (action str nat) :=
  [Receive 2 (CallRequest (lit "cat") (lit "v=0") (lit "ann")); Receive 3 (CallReject (lit "dan") (lit "bob"));
   Receive 2 (CallRequest (lit "cat") (lit "v=0") (lit "dan")); Connect 4 0%nat; Receive 4 (SignUp (lit "eve") (lit "pw"));
   Continue 2 (Ok tt); Continue 4 (Ok tt); Break 0; Break 1; Receive 3 (CallHangup (lit "dan")); Close 2;
   Attach true (Data (response_to_bytes (Username (lit "bob")))) 3].

(** Whether a concrete life spares a call is computed. *)
Definition may_end (event : ClientMessage str) (a b : str) : bool :=
  match event with
  | LogOut t | CallHangup t => bool_decide (t = a)
  | CallReject f t => bool_decide (f = a /\ t = b) || bool_decide (f = b /\ t = a)
  | _ => false
  end.

Definition spared (p : Process str nat) (k o : str) (a : action str nat) : bool :=
  match a with
  | Receive _ event => negb (may_end event k o)
  | Close i => match handlers p !! i with Some h => negb (bool_decide (me h.1 = Some k)) | None => true end
  | Restart => false
  | _ => true
  end.

Fixpoint spared_life (bad : nat -> bool) (k o : str) (l : list (action str nat)) (p : Process str nat) : bool :=
  match l with
  | [] => true
  | a :: l => spared p k o a && match act bad p a with Some p => spared_life bad k o l p | None => true end
  end.

Lemma may_end_false event a b : may_end event a b = false -> ~ ends event a b.
Proof.
  unfold ends. intros Hm He.
  destruct event; cbn in Hm; rewrite ?orb_false_iff, ?bool_decide_eq_false in Hm;
    destruct He as [He|[He|[He|He]]]; simplify_eq; tauto.
Qed.

Lemma spared_life_ok bad k o l p : spared_life bad k o l p = true -> sparing_life bad k o l p.
Proof.
  revert p. induction l as [|a l IH]; intros p; [done|]. cbn [spared_life sparing_life]. intros [Hs Hl]%andb_true_iff. split.
  - destruct a; try done; cbn in *; [by apply may_end_false, negb_true_iff|]. intros h E. rewrite E in Hs.
    by apply negb_true_iff, bool_decide_eq_false in Hs.
  - destruct (act bad p a); [by apply IH|done].
Qed.

Definition in_call : Process str nat :=
  default (boot []) (run sound_streams (all_in ++ ann_calls_bob) (boot four_file)).
Definition later : Process str nat := default (boot []) (run sound_streams others in_call).

Lemma call_lasts_witness :
  run sound_streams (all_in ++ ann_calls_bob) (boot four_file) = Some in_call /\ run sound_streams others in_call = Some later /\
  engaged later (lit "ann") (lit "pw") (lit "bob") /\ engaged later (lit "bob") (lit "pw") (lit "ann").
Proof.
  assert (Hp : run sound_streams (all_in ++ ann_calls_bob) (boot four_file) = Some in_call) by (vm_compute; reflexivity).
  split; [exact Hp|]. split; [vm_compute; reflexivity|].
  destruct (call_lasts sound_streams others (lit "ann") (lit "bob") (lit "pw") (lit "pw") in_call later) as (Ha & Hb & _);
    [| | |vm_compute; reflexivity| | |split; [exact Ha|exact Hb]].
  - apply (proj1 (run_refines sound_streams _ (boot four_file) in_call (sound_boot four_file) Hp)).
  - split; [eexists; split_and!; vm_compute; reflexivity|apply all_ready; vm_compute; reflexivity].
  - split; [eexists; split_and!; vm_compute; reflexivity|apply all_ready; vm_compute; reflexivity].
  - apply spared_life_ok; vm_compute; reflexivity.
  - apply spared_life_ok; vm_compute; reflexivity.
Defined.

(** Each condition is needed: somebody else hangs up for Ann or refuses in Bob's
    name, Ann's connection closes, the server restarts; and a third user who had
    read Bob's record before the call began takes Bob out of it. *)
Example without_sparing :
  forallb (fun l => match run sound_streams l (boot four_file) with
    | Some p => match status <$> users (world p) !! lit "ann", status <$> users (world p) !! lit "bob" with
        | Some a, Some b => negb (bool_decide (a = Occupied (lit "bob")) && bool_decide (b = Occupied (lit "ann")))
        | _, _ => false
        end
    | None => false
    end)
    ([all_in ++ [Receive 0 (CallRequest (lit "ann") (lit "v=0") (lit "bob")); Receive 2 (CallRequest (lit "cat") (lit "v=0") (lit "bob"));
      Continue 0 (Ok tt); Continue 2 (Ok tt)]] ++
     map (fun l => all_in ++ ann_calls_bob ++ l)
      [[Receive 2 (CallHangup (lit "ann"))]; [Receive 2 (CallReject (lit "bob") (lit "ann")); Continue 2 (Ok tt)];
       [Close 0]; [Restart]]) = true.
Proof. vm_compute. reflexivity. Qed.
