(* ===== verification/System.v ===== *)
(** Client and server together: the controller of src/controller/control.rs
    against the server of src/server/operating_server.rs and user_handler.rs.

    [announces] is what a server operation promises about the messages it
    pushes; every operation keeps that promise, and the table a logged-in client
    keeps with the receiver thread therefore follows the server's table, over
    any sequence of operations of any handlers ([served]).  The bytes in between
    are those of the message encoders. *)

From S2P Require Import Prelude.
From S2P Require Import Audio.
From S2P Require Import Capture.
From S2P Require Import JitterBuffer.
From S2P Require Import Text.
From S2P Require Import Wire.
From S2P Require Import Config.
From S2P Require Import SdpAttribute.
From S2P Require Import Sdp.
From S2P Require Import CallSession.
From S2P Require Import Events.
From S2P Require Import UserStatus.
From S2P Require Import ClientMessage.
From S2P Require Import ServerMessage.
From S2P Require Import ServerResponse.
From S2P Require Import Controller.
From S2P Require Import OperatingServer.
From S2P Require Import UserHandler.
From S2P Require Import CentralServer.

(** * What an operation announces *)

Section Announce.
Context {SDP Addr : Type} `{Wire SDP} `{Hord : MapOrder UserData} (bad : nat -> bool).
Implicit Types w : World SDP.

(** The operation from [w] to [w'] writes only true statuses, and writes the
    status of every user it changes on each stream of the others that is usable
    and takes bytes still. *)
Definition announces w w' : Prop := exists new,
  pushed w' = pushed w ++ new /\ closed w ⊆ closed w' /\
  (forall j u s, (j, UserStatusUpdate u s) ∈ new -> status <$> users w' !! u = Some s) /\
  (forall me d i k, users w !! me = Some d -> server_client_stream d = Some i -> deaf bad w' i = false -> k <> me ->
     status <$> users w' !! k <> status <$> users w !! k -> exists s, (i, UserStatusUpdate k s) ∈ new).

(** A LogOut is announced when the user it names has a usable stream. *)
Definition audible w (event : ClientMessage SDP) : Prop :=
  match event with
  | LogOut v => forall d, users w !! v = Some d -> exists j, server_client_stream d = Some j /\ bad j = false
  | _ => True
  end.

Lemma elem_of_broadcast (mute : nat -> bool) (j : nat) (msg : ServerMessage SDP) (n : str) (s : UserStatus) (m : gmap str UserData) :
  (j, msg) ∈ @broadcast SDP _ mute n s m <->
  msg = UserStatusUpdate n s /\ mute j = false /\
  exists k d, k <> n /\ m !! k = Some d /\ server_client_stream d = Some j.
Proof.
  unfold broadcast, other_streams. rewrite list_elem_of_fmap. split.
  - intros (i & [= -> ->] & Hi). apply list_elem_of_filter in Hi as [Hb Hi].
    apply list_elem_of_omap in Hi as ([k d] & Hin & Hs). split_and!; try done.
    rewrite (iter_permutation m), elem_of_map_to_list in Hin. simpl in Hs.
    destruct (str_eqb k n) eqn:E; [done|]. exists k, d. split_and!; try done.
    intros ->. by rewrite str_eqb_refl in E.
  - intros (-> & Hb & k & d & Hne & Hk & Hs). exists j. split; [done|]. apply list_elem_of_filter. split; [done|].
    apply list_elem_of_omap. exists (k, d). rewrite (iter_permutation m), elem_of_map_to_list. split; [done|].
    simpl. destruct (str_eqb k n) eqn:E; [|done]. by apply str_eqb_spec in E.
Qed.

Lemma announces_same w w' new :
  (forall k, status <$> users w' !! k = status <$> users w !! k) -> pushed w' = pushed w ++ new -> closed w ⊆ closed w' ->
  (forall j u s, (j, UserStatusUpdate u s) ∉ new) -> announces w w'.
Proof.
  intros Hs Hp Hcl Hq. exists new. split_and!; [done|done| |].
  - intros j u s Hin. by destruct (Hq j u s).
  - intros me d i k _ _ _ _ Hne. by destruct Hne.
Qed.

Lemma announces_refl w : announces w w.
Proof. apply (announces_same w w []); [done|by rewrite app_nil_r|done|intros; apply not_elem_of_nil]. Qed.

(** One user changed and broadcast: the other entries, the others' streams and
    the rest of the message list are those of [w]. *)
Lemma announces_one w w' n d' :
  users w' = <[n := d']> (users w) ->
  pushed w' = pushed w ++ broadcast (deaf bad w') n (status d') (users w') -> closed w ⊆ closed w' -> announces w w'.
Proof.
  intros Hu Hp Hcl. exists (broadcast (deaf bad w') n (status d') (users w')). split_and!; [done|done| |].
  - intros j u s Hin. apply elem_of_broadcast in Hin as ([= -> ->] & _). by rewrite Hu, lookup_insert_eq.
  - intros me d i k Hme Hi Hb Hk Hne. rewrite Hu in Hne. destruct (decide (k = n)) as [->|Hkn].
    + exists (status d'). apply elem_of_broadcast. split_and!; try done. exists me, d.
      rewrite Hu, lookup_insert_ne by done. done.
    + by rewrite lookup_insert_ne in Hne.
Qed.

(** Two users changed, as calls do, with an extra message that is no status. *)
Lemma announces_two w w' a b da db m extra :
  users w' = <[a := da]> (<[b := db]> (users w)) ->
  pushed w' = pushed w ++ broadcast (deaf bad w') a (status da) m ++ broadcast (deaf bad w') b (status db) m ++ extra ->
  closed w ⊆ closed w' ->
  (a = b -> da = db) -> (forall j u s, (j, UserStatusUpdate u s) ∉ extra) ->
  (forall me d, users w !! me = Some d -> exists d', m !! me = Some d' /\ server_client_stream d' = server_client_stream d) ->
  announces w w'.
Proof.
  intros Hu Hp Hcl Hab Hq Hm.
  assert (La : status <$> users w' !! a = Some (status da)) by by rewrite Hu, lookup_insert_eq.
  assert (Lb : status <$> users w' !! b = Some (status db)).
  { rewrite Hu. destruct (decide (a = b)) as [->|Hne]; [rewrite lookup_insert_eq; simpl; by rewrite Hab|].
    by rewrite lookup_insert_ne, lookup_insert_eq by done. }
  eexists. split; [exact Hp|]. split; [done|]. split.
  - intros j u s. rewrite !elem_of_app. intros [Hin|[Hin|Hin]].
    + apply elem_of_broadcast in Hin as ([= -> ->] & _). done.
    + apply elem_of_broadcast in Hin as ([= -> ->] & _). done.
    + by destruct (Hq j u s).
  - intros me d i k Hme Hi Hb Hk Hne. destruct (Hm me d Hme) as (d' & Hd' & Hs').
    assert (Hbr : forall n s, n <> me -> (i, UserStatusUpdate n s) ∈ @broadcast SDP _ (deaf bad w') n s m).
    { intros n s Hn. apply elem_of_broadcast. split_and!; try done. exists me, d'. by rewrite Hs'. }
    destruct (decide (k = a)) as [->|Hka]; [exists (status da)|destruct (decide (k = b)) as [->|Hkb]; [exists (status db)|]].
    + rewrite !elem_of_app. left. by apply Hbr.
    + rewrite !elem_of_app. right; left. by apply Hbr.
    + rewrite Hu, !lookup_insert_ne in Hne by done. done.
Qed.

(** A broadcast after a change of one user. *)
Lemma announces_notify w n s d' :
  users_poisoned w = false -> s = status d' ->
  announces w (notify_status_update bad n s (set_users (<[n := d']> (users w)) w)).
Proof. intros Hp ->. rewrite notify_spec by exact Hp. by eapply announces_one. Qed.

Lemma shutdown_grows j w : closed w ⊆ closed (shutdown j w).
Proof. intros x Hx. apply elem_of_app. by left. Qed.

Lemma login_announces name passwd (s : OperatingServer Addr) w r s' w' :
  login_user bad name passwd s w = (r, s', w') -> announces w w'.
Proof.
  unfold login_user. destruct (users_poisoned w) eqn:Ep; [intros [= _ _ <-]; apply announces_refl|].
  destruct (users w !! name) as [d|]; [|intros [= _ _ <-]; apply announces_refl].
  destruct (negb _); [intros [= _ _ <-]; apply announces_refl|].
  destruct (status d); intros [= _ _ <-]; try apply announces_refl. by apply announces_notify.
Qed.

Lemma announces_file w w' b :
  announces w w' -> announces w (append_file b w').
Proof. intros (new & Hp & Hcl & Ht & Hc). by exists new. Qed.

Lemma signup_announces name passwd dk (s : OperatingServer Addr) w r s' w' :
  signup_user bad name passwd dk s w = (r, s', w') -> announces w w'.
Proof.
  unfold signup_user. do 2 (destruct (negb _); [intros [= _ _ <-]; apply announces_refl|]).
  destruct (users_poisoned w) eqn:Ep; [intros [= _ _ <-]; apply announces_refl|].
  destruct (users w !! name) as [d|]; [intros [= _ _ <-]; apply announces_refl|].
  pose proof (announces_notify w name Offline (new_user name passwd Offline) Ep eq_refl) as Hn.
  unfold load_user_data_in_disk. destruct (negb (open_ok dk)); [by intros [= _ _ <-]|].
  destruct (negb (write_ok dk)); intros [= _ _ <-]; [done|]. by apply announces_file.
Qed.

Lemma logout_announces name (s : OperatingServer Addr) w r s' w' :
  audible w (LogOut name) -> logout_user bad name s w = (r, s', w') -> announces w w'.
Proof.
  intros Ha. unfold logout_user. destruct (users_poisoned w) eqn:Ep; [intros [= _ _ <-]; apply announces_refl|].
  destruct (users w !! name) as [d|] eqn:Hd; [|intros [= _ _ <-]; apply announces_refl].
  destruct (Ha d Hd) as (j & -> & ->). intros [= _ _ <-]. rewrite notify_spec by exact Ep.
  eapply announces_one; [done|done|]. intros x Hx. apply elem_of_app. by left.
Qed.

Lemma offline_announces (s : OperatingServer Addr) w r s' w' :
  make_user_offline bad s w = (r, s', w') -> announces w w'.
Proof.
  unfold make_user_offline. destruct (me s) as [name|]; [|intros [= _ _ <-]; apply announces_refl].
  destruct (users_poisoned w) eqn:Ep; [intros [= _ _ <-]; apply announces_refl|].
  destruct (users w !! name) as [d|]; intros [= _ _ <-]; [|apply announces_refl]. by apply announces_notify.
Qed.

Lemma hangup_announces name w r w' :
  @call_hangup SDP Addr _ bad name w = (r, w') -> announces w w'.
Proof.
  unfold call_hangup. destruct (users_poisoned w) eqn:Ep; [intros [= _ <-]; apply announces_refl|].
  destruct (users w !! name) as [d|]; [|intros [= _ <-]; apply announces_refl].
  destruct (status d); intros [= _ <-]; try apply announces_refl. by apply announces_notify.
Qed.

Lemma update_streams w a b da db sa sb :
  users w !! a = Some da -> users w !! b = Some db ->
  forall k d, users w !! k = Some d -> exists d',
    <[a := update_status sa da]> (<[b := update_status sb db]> (users w)) !! k = Some d' /\
    server_client_stream d' = server_client_stream d.
Proof.
  intros Ha Hb k d Hk. destruct (decide (a = k)) as [->|]; [|destruct (decide (b = k)) as [->|]].
  - rewrite lookup_insert_eq. eexists. split; [done|]. by simplify_eq.
  - rewrite lookup_insert_ne, lookup_insert_eq by done. eexists. split; [done|]. by simplify_eq.
  - rewrite !lookup_insert_ne by done. by exists d.
Qed.

Lemma quiet_one (j : nat) (msg : ServerMessage SDP) (b : bool) :
  (forall u s, msg <> UserStatusUpdate u s) ->
  forall j' u s, (j', UserStatusUpdate u s) ∉ (if b then [] else [(j, msg)] : list (nat * ServerMessage SDP)).
Proof. intros Hq j' u s. destruct b; [apply not_elem_of_nil|]. rewrite list_elem_of_singleton. intros [= _ E]. by destruct (Hq u s). Qed.

Lemma call_request_announces a b sdp w r w' :
  keyed w -> @call_request SDP Addr _ bad a b sdp w = (r, w') -> announces w w'.
Proof.
  intros Hk. unfold call_request. destruct (call_request_read a b w) as [[[i f] t]|e] eqn:Er;
    [|intros [= _ <-]; apply announces_refl].
  apply call_request_read_ok in Er as (Ep & da & db & Ha & Hb & _ & _ & _ & -> & ->).
  rewrite call_request_does by done. intros [= _ <-].
  eapply (announces_two w _ a b (update_status (Occupied b) da) (update_status (Occupied a) db)); [reflexivity|reflexivity|done| | |].
  - intros ->. congruence.
  - by apply quiet_one.
  - by apply update_streams.
Qed.

Lemma call_reject_announces a b w r w' :
  keyed w -> @call_reject SDP Addr _ bad a b w = (r, w') -> announces w w'.
Proof.
  intros Hk. unfold call_reject. destruct (call_reject_read a b w) as [[[i f] t]|e] eqn:Er;
    [|intros [= _ <-]; apply announces_refl].
  apply call_reject_read_ok in Er as (Ep & da & db & Ha & Hb & _ & _ & _ & -> & ->).
  rewrite (notify_spec bad a) by exact Ep. rewrite (notify_spec bad b) by done. cbn -[broadcast]. rewrite ?Ep.
  rewrite (Hk _ _ Ha), (Hk _ _ Hb). intros [= _ <-].
  eapply (announces_two w _ a b (update_status Available da) (update_status Available db) (users w)
    (if deaf bad w i then [] else [(i, CallRejected)])).
  - by rewrite (proj1 (send_users _ _ _ _)).
  - rewrite (deaf_closed bad w (send_message bad i _ _)) by by rewrite send_closed.
    rewrite send_message_eq, !(deaf_closed bad w) by done. destruct (deaf bad w i); simpl; by rewrite <-!app_assoc, ?app_nil_r.
  - by rewrite send_closed.
  - intros ->. congruence.
  - by apply quiet_one.
  - eauto.
Qed.

Lemma call_accept_announces a b sdp w r w' :
  @call_accept SDP Addr bad a b sdp w = (r, w') -> announces w w'.
Proof.
  unfold call_accept. destruct (rbind _ _) as [i|e]; intros [= _ <-]; [|apply announces_refl].
  apply (announces_same w _ (if deaf bad w i then [] else [(i, CallAccepted a sdp)])).
  - intros k. by rewrite (proj1 (send_users _ _ _ _)).
  - rewrite send_message_eq. destruct (deaf bad w i); [by rewrite app_nil_r|done].
  - rewrite send_message_eq. by destruct (deaf bad w i).
  - by apply quiet_one.
Qed.

(** Every message a handler executes keeps the promise. *)
Lemma message_announces (event : ClientMessage SDP) dk (s : OperatingServer Addr) w r s' w' :
  keyed w -> audible w event -> handle_client_message bad event dk s w = (r, s', w') -> announces w w'.
Proof.
  intros Hk Ha. destruct event as [|u p|u p|t|t sdp to|f t sdp|f t|t]; simpl.
  - intros [= _ _ <-]. apply announces_refl.
  - apply login_announces.
  - apply signup_announces.
  - by apply logout_announces.
  - destruct (call_request bad t to sdp w) eqn:E. intros [= _ _ <-]. by eapply call_request_announces.
  - destruct (call_accept bad f t sdp w) eqn:E. intros [= _ _ <-]. by eapply call_accept_announces.
  - destruct (call_reject bad f t w) eqn:E. intros [= _ _ <-]. by eapply call_reject_announces.
  - destruct (call_hangup bad t w) eqn:E. intros [= _ _ <-]. by eapply hangup_announces.
Qed.

End Announce.

(** * What the client makes of it *)

Section Mirror.
Context `{SetOrder} {Addr : Type} `{Wire Addr} `{MapOrder UserStatus} `{Hord : MapOrder UserData} (bad : nat -> bool).
Abbreviation Sdp := SessionDescriptionProtocol.
Implicit Types w : World Sdp.

(** The messages pushed on one stream. *)
Definition to_stream (i : nat) (l : list (nat * ServerMessage Sdp)) : list (ServerMessage Sdp) :=
  snd <$> filter (fun p => p.1 = i) l.

(** The statuses among the messages, entered in a table. *)
Definition told (T : gmap str UserStatus) (msgs : list (ServerMessage Sdp)) : gmap str UserStatus :=
  foldl (fun T m => match m with UserStatusUpdate u s => <[u := s]> T | _ => T end) T msgs.

(** The events and the replies the messages cause. *)
Definition event_of (me : str) (m : ServerMessage Sdp) : option AppEvent :=
  match m with
  | UsernameRequest | UserStatusUpdate _ _ => None
  | ServerMessage.CallIncoming u sdp => Some (Events.CallIncoming u sdp)
  | ServerMessage.CallAccepted u sdp => Some (Events.CallAccepted sdp me u)
  | ServerMessage.CallRejected => Some Events.CallRejected
  | ServerMessage.Error e => Some (ErrorEvent e)
  end.
Definition reply_of (me : str) (m : ServerMessage Sdp) : option bytes :=
  match m with UsernameRequest => Some (response_to_bytes (Username me)) | _ => None end.

(** A message read alone, by a read into the 65535-byte buffer, while the
    application listens. *)
Definition push_buffer : nat := Z.to_nat 65535.
Definition read_alone (m : ServerMessage Sdp) : push_read :=
  mk_push_read (Ok (take push_buffer (ServerMessage.to_bytes m))) true (Ok tt) (Ok tt).
Definition deliverable (m : ServerMessage Sdp) : Prop :=
  ServerMessage.sendable m /\ (List.length (ServerMessage.to_bytes m) <= push_buffer)%nat.

(** The client's table is the server's, own entry apart. *)
Definition agrees (me : str) (T : gmap str UserStatus) w : Prop :=
  forall k, k <> me -> T !! k = status <$> users w !! k.

Lemma elem_of_to_stream i m l : m ∈ to_stream i l <-> (i, m) ∈ l.
Proof.
  unfold to_stream. rewrite list_elem_of_fmap. split.
  - intros ([j m'] & -> & Hin). apply list_elem_of_filter in Hin as [E Hin]. simpl in *. by subst.
  - intros Hin. exists (i, m). split; [done|]. by apply list_elem_of_filter.
Qed.

Lemma to_stream_app i l l' : to_stream i (l ++ l') = to_stream i l ++ to_stream i l'.
Proof. unfold to_stream. by rewrite filter_app, fmap_app. Qed.

Lemma told_app T l l' : told T (l ++ l') = told (told T l) l'.
Proof. unfold told. by rewrite foldl_app. Qed.

Lemma told_lookup T msgs k :
  (exists s, UserStatusUpdate k s ∈ msgs /\ told T msgs !! k = Some s) \/
  ((forall s, UserStatusUpdate k s ∉ msgs) /\ told T msgs !! k = T !! k).
Proof.
  induction msgs as [|m msgs IH] using rev_ind; [right; split; [intros s; apply not_elem_of_nil|done]|].
  rewrite told_app.
  assert (Hother : (forall s, m <> UserStatusUpdate k s) -> told (told T msgs) [m] !! k = told T msgs !! k ->
    (exists s, UserStatusUpdate k s ∈ msgs ++ [m] /\ told (told T msgs) [m] !! k = Some s) \/
    ((forall s, UserStatusUpdate k s ∉ msgs ++ [m]) /\ told (told T msgs) [m] !! k = T !! k)).
  { intros Hm E. rewrite E. destruct IH as [(s & Hin & Hs)|[Hno Hs]].
    - left. exists s. split; [|done]. apply elem_of_app. by left.
    - right. split; [|done]. intros s. rewrite elem_of_app, list_elem_of_singleton. intros [Hin|Hin]; [by apply (Hno s)|].
      by apply (Hm s). }
  destruct m as [| | | |u st|]; try (apply Hother; [by intros|done]).
  destruct (decide (u = k)) as [->|Hne].
  - left. exists st. split; [apply elem_of_app; right; by apply list_elem_of_singleton|]. simpl. by rewrite lookup_insert_eq.
  - apply Hother; [by intros s [=]|]. simpl. by rewrite lookup_insert_ne.
Qed.

(** One announced operation: the table follows. *)
Lemma agrees_announced me d i T w w' :
  users w !! me = Some d -> server_client_stream d = Some i -> deaf bad w' i = false ->
  announces bad w w' -> agrees me T w ->
  exists new, pushed w' = pushed w ++ new /\ agrees me (told T (to_stream i new)) w'.
Proof.
  intros Hme Hi Hb (new & Hp & _ & Ht & Hc) Hag. exists new. split; [done|]. intros k Hk.
  destruct (told_lookup T (to_stream i new) k) as [(s & Hin & ->)|[Hno ->]].
  - apply elem_of_to_stream in Hin. symmetry. by eapply Ht.
  - rewrite (Hag k Hk). destruct (decide (status <$> users w' !! k = status <$> users w !! k)) as [E|Hne]; [done|].
    destruct (Hc me d i k Hme Hi Hb Hk Hne) as (s & Hin). apply elem_of_to_stream in Hin. by destruct (Hno s).
Qed.

(** One message read alone. *)
Lemma handle_alone me t T (m : ServerMessage Sdp) (c : Controller) :
  deliverable m -> tables c !! t = Some (mk_table T false) ->
  handle_server_bytes (take push_buffer (ServerMessage.to_bytes m)) (Ok tt) (Ok tt) me t c =
  (Ok tt, option_list (reply_of me m), option_list (event_of me m),
   with_tables (<[t := mk_table (told T [m]) false]> (tables c)) c).
Proof.
  intros [Hs Hl] HT. rewrite take_ge by done. unfold handle_server_bytes.
  rewrite server_message_roundtrip by done.
  assert (E : with_tables (<[t := mk_table T false]> (tables c)) c = c) by (rewrite list_insert_id by done; by destruct c).
  destruct m; simpl; rewrite ?E; try done.
  unfold Controller.update_status. rewrite HT. done.
Qed.

Lemma read_alone_loop me t T (msgs : list (ServerMessage Sdp)) (c : Controller) :
  Forall deliverable msgs -> logged_in c = true -> tables c !! t = Some (mk_table T false) ->
  run_receiver_loop me t (read_alone <$> msgs) c =
  (omap (reply_of me) msgs, omap (event_of me) msgs, false,
   with_tables (<[t := mk_table (told T msgs) false]> (tables c)) c).
Proof.
  intros Hm. revert c T. induction Hm as [|m msgs Hd Hm IH]; intros c T Hl HT; cbn [fmap list_fmap run_receiver_loop].
  - simpl. rewrite list_insert_id by done. by destruct c.
  - rewrite Hl. cbn [negb read_alone pushed_bytes event_ok reply_ok].
    rewrite (handle_alone me t T m c) by done.
    destruct (take push_buffer (ServerMessage.to_bytes m)) as [|x b] eqn:Eb.
    { exfalso. revert Eb. rewrite take_ge by apply Hd. unfold ServerMessage.to_bytes, line. by destruct (utf8_encode _). }
    rewrite IH with (T := told T [m]).
    + change (told T (m :: msgs)) with (told (told T [m]) msgs). simpl tables. rewrite list_insert_insert_eq. simpl.
      destruct (reply_of me m), (event_of me m); done.
    + done.
    + simpl. apply list_lookup_insert_eq. by eapply lookup_lt_Some.
Qed.

(** ** Any sequence of operations *)

(** An operation of some handler or of the inbound listener, which attaches no
    other stream to [me], or the loss of some stream. *)
Inductive served_step (me : str) : World Sdp -> World Sdp -> Prop :=
| step_message event dk (s : OperatingServer Addr) r s' w w' :
    audible bad w event -> handle_client_message bad event dk s w = (r, s', w') -> served_step me w w'
| step_disconnect (s : OperatingServer Addr) r s' w w' :
    make_user_offline bad s w = (r, s', w') -> served_step me w w'
| step_attach asked rd j w :
    users (map_stream_to_user asked rd j w) !! me = users w !! me ->
    served_step me w (map_stream_to_user asked rd j w)
| step_lose j w : served_step me w (shutdown j w).

Lemma attach_spec asked rd j w :
  keyed w -> let w' := map_stream_to_user asked rd j w in
  keyed w' /\ pushed w' = pushed w /\ closed w' = closed w /\ forall k, status <$> users w' !! k = status <$> users w !! k.
Proof.
  intros Hk. unfold map_stream_to_user. destruct (negb asked); [done|]. destruct rd as [|b|]; try done.
  destruct (response_from_bytes b) as [[u]|]; [|done]. destruct (users_poisoned w); [done|].
  destruct (users w !! u) as [d|] eqn:Hd; [|done]. split_and!; [|done|done|].
  - intros k d'. simpl. rewrite lookup_insert_Some. intros [[<- <-]|[_ ?]]; [simpl|]; by apply Hk.
  - intros k. simpl. destruct (decide (u = k)) as [->|]; [by rewrite lookup_insert_eq, Hd|by rewrite lookup_insert_ne].
Qed.

Lemma served_step_spec me w w' :
  keyed w -> served_step me w w' -> keyed w' /\ announces bad w w' /\
  forall d, users w !! me = Some d -> exists d', users w' !! me = Some d' /\ server_client_stream d' = server_client_stream d.
Proof.
  intros Hk Hstep. destruct Hstep as [event dk s r s' w w' Ha E|s r s' w w' E|asked rd j w E|j w].
  - pose proof (handle_client_message_evolves bad event dk s w Hk) as Hev. rewrite E in Hev. destruct Hev as [Hk' [_ Hev]].
    split_and!; [done|by eapply message_announces|]. intros d Hd. destruct (Hev me d Hd) as (d' & ? & _ & _ & ? & _). by exists d'.
  - pose proof (make_user_offline_evolves bad s w Hk) as Hev. rewrite E in Hev. destruct Hev as [Hk' [_ Hev]].
    split_and!; [done|by eapply offline_announces|]. intros d Hd. destruct (Hev me d Hd) as (d' & ? & _ & _ & ? & _). by exists d'.
  - destruct (attach_spec asked rd j w Hk) as (Hk' & Hp & Hcl & Hs). split_and!; [done| |].
    + apply (announces_same _ _ _ []); [done|by rewrite app_nil_r|by rewrite Hcl|intros; apply not_elem_of_nil].
    + intros d Hd. exists d. by rewrite E.
  - split_and!; [done| |by intros d Hd; exists d].
    apply (announces_same _ _ _ []); [done|by rewrite app_nil_r|apply shutdown_grows|intros; apply not_elem_of_nil].
Qed.

(** Streams that are closed stay closed. *)
Lemma served_closed me w w' : keyed w -> rtc (served_step me) w w' -> closed w ⊆ closed w'.
Proof.
  intros Hk Hs. induction Hs as [|w w1 w' Hstep _ IH]; [done|].
  destruct (served_step_spec me w w1 Hk Hstep) as (Hk1 & (_ & _ & Hcl & _) & _). etrans; [exact Hcl|by apply IH].
Qed.

Lemma agrees_served me i w w' T d :
  rtc (served_step me) w w' -> keyed w -> deaf bad w' i = false -> users w !! me = Some d -> server_client_stream d = Some i ->
  agrees me T w -> exists new, pushed w' = pushed w ++ new /\ agrees me (told T (to_stream i new)) w'.
Proof.
  intros Hs. revert T d. induction Hs as [w|w w1 w' Hstep Hrest IH]; intros T d Hk Hb Hd Hi Hag.
  - exists []. by rewrite app_nil_r.
  - destruct (served_step_spec me w w1 Hk Hstep) as (Hk1 & Ha & Hst).
    assert (Hb1 : deaf bad w1 i = false).
    { apply deaf_false in Hb as [Hbi Hcl]. apply deaf_false. split; [done|]. intros Hin. apply Hcl.
      by apply (served_closed me w1 w' Hk1 Hrest). }
    destruct (agrees_announced me d i T w w1 Hd Hi Hb1 Ha Hag) as (new & Hp & Hag1).
    destruct (Hst d Hd) as (d1 & Hd1 & Hi1).
    destruct (IH (told T (to_stream i new)) d1) as (new' & Hp' & Hag'); [done|done|done|congruence|done|].
    exists (new ++ new'). rewrite Hp', Hp, <-app_assoc. split; [done|]. by rewrite to_stream_app, told_app.
Qed.

End Mirror.

(** * Requests through the server *)

Section Requests.
Context `{SetOrder} {Addr : Type} `{Wire Addr} `{MapOrder UserStatus} `{Hord : MapOrder UserData} (bad : nat -> bool).
Abbreviation Sdp := SessionDescriptionProtocol.
Implicit Types w : World Sdp.

(** The sizes of the buffers requests and answers are read into. *)
Definition request_buffer : nat := Z.to_nat 1024.

(** The server's answer to the bytes of one request, read by the client. *)
Definition server_exchange (dk : Disk) (s : OperatingServer Addr) w : exchange :=
  mk_exchange (fun _ => Ok tt)
    (fun sent =>
       match handle_client bad [UserHandler.mk_turn true (Data (take request_buffer sent)) dk true] s w with
       | (_, resp :: _, _, _) => Ok (take request_buffer (ServerResponse.to_bytes resp))
       | _ => Ok []
       end).

(** Bytes that fit one read. *)
Definition fits (b : bytes) : Prop := (List.length b <= request_buffer)%nat.

Lemma response_nonempty (r : ServerResponse Addr) : exists x b, ServerResponse.to_bytes r = x :: b.
Proof. unfold ServerResponse.to_bytes, line. destruct (utf8_encode _) as [|x b]; by eexists _, _. Qed.

(** A request that the server decodes as [event] is answered by the handler. *)
Lemma exchanged (msg event : ClientMessage Sdp) dk s w r s' w' :
  ClientMessage.from_bytes (ClientMessage.to_bytes msg) = Some event -> fits (ClientMessage.to_bytes msg) ->
  handle_client_message bad event dk s w = (r, s', w') ->
  ServerResponse.sendable r -> fits (ServerResponse.to_bytes r) ->
  Controller.send_message msg (server_exchange dk s w) = (Ok r, []).
Proof.
  intros Hdec Hfm E Hs Hfr. unfold Controller.send_message, server_exchange. cbn [written answer].
  rewrite (take_ge (ClientMessage.to_bytes msg)) by exact Hfm. cbn [handle_client turn_on turn_read turn_disk turn_sent negb].
  rewrite Hdec, E. rewrite take_ge by exact Hfr. destruct (response_nonempty r) as (x & b & Eb). rewrite Eb, <-Eb.
  by rewrite server_response_roundtrip.
Qed.

(** The decoded forms of the two messages that carry a description. *)
Lemma request_decoded t to sdp sdp' :
  field t -> field to -> tight to -> field (show_sdp sdp) -> sdp_from_str (show_sdp sdp) = Ok sdp' ->
  ClientMessage.from_bytes (ClientMessage.to_bytes (CallRequest t sdp to)) = Some (CallRequest t sdp' to).
Proof.
  intros Ht Hto Htt Hs E. unfold ClientMessage.from_bytes, ClientMessage.to_bytes. cbn [ClientMessage.message_fields].
  rewrite (parts_line _ 67 (lit "ALLREQUEST") to) by (try done; fields).
  unfold is_msg, part. simpl. by rewrite E.
Qed.

Lemma accept_decoded f t sdp sdp' :
  field f -> field t -> field (show_sdp sdp) -> tight (show_sdp sdp) -> sdp_from_str (show_sdp sdp) = Ok sdp' ->
  ClientMessage.from_bytes (ClientMessage.to_bytes (CallAccept f t sdp)) = Some (CallAccept f t sdp').
Proof.
  intros Hf Ht Hs Htt E. unfold ClientMessage.from_bytes, ClientMessage.to_bytes. cbn [ClientMessage.message_fields].
  rewrite (parts_line _ 67 (lit "ALLACCEPT") (show_sdp sdp)) by (try done; fields).
  unfold is_msg, part. simpl. by rewrite E.
Qed.

Lemma short_answer (r : ServerResponse Addr) :
  r = CallRequestOk \/ r = CallAcceptOk -> ServerResponse.sendable r /\ fits (ServerResponse.to_bytes r).
Proof. intros [-> | ->]; (split; [done|]); unfold fits, request_buffer; vm_compute (List.length _); lia. Qed.

(** A logged-in client with its receiver's table. *)
Definition online (me : str) (t : nat) (T : gmap str UserStatus) (c : Controller) : Prop :=
  token c = Some me /\ logged_in c = true /\ tables c !! t = Some (mk_table T false).

(** The event of one pushed message, the controller left as it is. *)
Lemma pushed_event me t T e (m : ServerMessage Sdp) (c : Controller) :
  online me t T c -> deliverable m -> event_of me m = Some e -> reply_of me m = None ->
  run_receiver_loop me t [read_alone m] c = ([], [e], false, c).
Proof.
  intros (_ & Hl & HT) Hm He Hr.
  change [read_alone m] with (read_alone <$> [m]). rewrite (read_alone_loop me t T) by (try done; by constructor).
  simpl. rewrite He, Hr. simpl. destruct m; try done; simpl; rewrite list_insert_id by done; by destruct c.
Qed.

End Requests.

(** Whatever a message does, it touches one table only. *)
Lemma handle_server_bytes_table `{SetOrder} {Addr} `{Wire Addr} `{MapOrder UserStatus} b ev rep name t (c c' : Controller)
    res out evs :
  handle_server_bytes b ev rep name t c = (res, out, evs, c') ->
  (forall k, k <> t -> tables c' !! k = tables c !! k) /\ users_status c' = users_status c /\ token c' = token c.
Proof.
  unfold handle_server_bytes, get_response_for_server_message, Controller.update_status.
  intros E.
  destruct (ServerMessage.from_bytes b) as [m|]; [|by simplify_eq].
  revert E. destruct m, ev, rep; cbn; try (intros E; by simplify_eq);
    (destruct (tables c !! t) as [u|]; [destruct (poisoned u)|]; cbn; intros E; simplify_eq; try done;
     cbn; (split; [|done]); intros k Hk; by rewrite list_lookup_insert_ne).
Qed.

(** A whole call, through both clients and the server.  a and b are logged
    in, Available and connected; their sessions still offer both roles and share
    codecs; the descriptions fit the buffers and the format.  Then a's request is
    granted; b's receiver thread raises the offer; accepting it sends the answer,
    which the server grants, and b goes on to its connectivity checks; a's
    receiver thread raises the answer, and a goes on to its checks.  By then the
    two sessions are negotiated (complementary DTLS roles, each other's
    fingerprint, all candidate pairs), and the server has a and b Occupied with
    each other. *)
Lemma call_end_to_end `{SetOrder} {Addr} `{Wire Addr} `{MapOrder UserStatus} `{MapOrder UserData} bad addr_error
    a b da db i j ta Ta tb Tb fpa fpb dk srv_a srv_b tr_a tr_b media_a media_b
    (w : World SessionDescriptionProtocol) (ca cb : Controller) :
  keyed w -> users_poisoned w = false -> a <> b -> field a -> field b -> tight b ->
  users w !! a = Some da -> users w !! b = Some db -> status da = Available -> status db = Available ->
  server_client_stream da = Some i -> server_client_stream db = Some j -> deaf bad w i = false -> deaf bad w j = false ->
  online a ta Ta ca -> online b tb Tb cb ->
  ready ActPass fpa (call_session ca) -> ready ActPass fpb (call_session cb) ->
  compatible (media_descriptions (sdp (call_session cb))) (media_descriptions (sdp (call_session ca))) ->
  let offer_sent := get_offer (call_session ca) in
  let offer := Sdp.new (media_descriptions offer_sent) Config.SdpConfig_default in
  field (show_sdp offer_sent) -> fits (ClientMessage.to_bytes (CallRequest a offer_sent b)) ->
  deliverable (ServerMessage.CallIncoming a offer) ->
  (forall ans s, process_offer offer (call_session cb) = (Ok ans, s) ->
     field (show_sdp ans) /\ tight (show_sdp ans) /\ fits (ClientMessage.to_bytes (CallAccept b a ans)) /\
     deliverable (ServerMessage.CallAccepted b (Sdp.new (media_descriptions ans) Config.SdpConfig_default))) ->
  exists w1 w2 ans sa sb,
    handle_client_message bad (CallRequest a offer b) dk srv_a w = (CallRequestOk, srv_a, w1) /\
    handle_client_message bad (CallAccept b a ans) dk srv_b w1 = (CallAcceptOk, srv_b, w2) /\ users_poisoned w2 = false /\
    Controller.call b (server_exchange (Addr := Addr) bad dk srv_a w) ca = (Ok tt, []) /\
    (exists others, pushed w1 = pushed w ++ others ++ [(j, ServerMessage.CallIncoming a offer)]) /\
    run_receiver_loop b tb [read_alone (ServerMessage.CallIncoming a offer)] cb =
      ([], [Events.CallIncoming a offer], false, cb) /\
    Controller.accept_call addr_error a offer (server_exchange (Addr := Addr) bad dk srv_b w1) tr_b media_b cb =
      check_and_join addr_error tr_b media_b (with_session sb cb) /\
    pushed w2 = pushed w1 ++ [(i, ServerMessage.CallAccepted b ans)] /\
    run_receiver_loop a ta [read_alone (ServerMessage.CallAccepted b ans)] ca =
      ([], [Events.CallAccepted ans a b], false, ca) /\
    Controller.get_in_call addr_error ans tr_a media_a ca = check_and_join addr_error tr_a media_a (with_session sa ca) /\
    negotiated fpa fpb (call_session ca) (call_session cb) sa sb /\
    status <$> users w2 !! a = Some (Occupied b) /\ status <$> users w2 !! b = Some (Occupied a).
Proof.
  intros Hk Hp Hab Hfa Hfb Htb Ha Hb Hsa Hsb Hi Hj Hbi Hbj Hca Hcb Hra Hrb Hcomp offer_sent offer Hof Hfit Hinc Hans.
  destruct (negotiation _ _ fpa fpb Hra Hrb Hcomp) as (Eo & ans & sa & sb & Eb & Ea & Ep & Hneg).
  destruct (Hans ans sb Eb) as (Haf & Hat & Hafit & Hacc).
  set (w1 := requested bad a b offer da db j w). set (ans' := Sdp.new (media_descriptions ans) Config.SdpConfig_default) in *.
  set (w2 := push i (ServerMessage.CallAccepted b ans') w1).
  assert (E1 : handle_client_message bad (CallRequest a offer b) dk srv_a w = (@CallRequestOk Addr, srv_a, w1)).
  { cbn [handle_client_message]. by rewrite (call_request_goes bad a b offer w da db j). }
  assert (E2 : handle_client_message bad (CallAccept b a ans') dk srv_b w1 = (@CallAcceptOk Addr, srv_b, w2)).
  { cbn [handle_client_message].
    pose proof (requested_accept (Addr := Addr) bad a b offer ans' w da db i j Hab Hi Hbi) as Eacc.
    cbv zeta in Eacc. fold w1 in Eacc. by rewrite Eacc. }
  exists w1, w2, ans', sa, sb. split; [done|]. split; [done|]. split; [done|]. split_and!.
  - unfold Controller.call, get_token. rewrite (proj1 Hca). cbn [ok_or].
    destruct (short_answer CallRequestOk ltac:(by left)) as [Hs Hf].
    rewrite (exchanged bad _ (CallRequest a offer b) dk srv_a w CallRequestOk srv_a w1); [done| |exact Hfit|exact E1|done|done].
    by apply request_decoded.
  - unfold w1. cbn [pushed requested]. rewrite Hbj. eexists (_ ++ _). by rewrite <-(app_assoc _ _ [_]).
  - by apply (pushed_event b tb Tb).
  - unfold Controller.accept_call. change (process_offer offer (call_session cb) = (Ok ans, sb)) in Eb. rewrite Eb. unfold get_token. change (token (with_session sb cb)) with (token cb).
    rewrite (proj1 Hcb). cbn [ok_or].
    destruct (short_answer CallAcceptOk ltac:(by right)) as [Hs Hf].
    rewrite (exchanged bad _ (CallAccept b a ans') dk srv_b w1 CallAcceptOk srv_b w2);
      [by destruct (check_and_join _ _ _ _) as [[? ?] ?]| |done|exact E2|done|done].
    by apply accept_decoded.
  - done.
  - by apply (pushed_event a ta Ta).
  - unfold Controller.get_in_call. by rewrite Ep.
  - done.
  - cbn [users push]. unfold w1. by rewrite (proj1 (requested_pair bad a b offer w da db j Hab)).
  - cbn [users push]. unfold w1. by rewrite (proj2 (requested_pair bad a b offer w da db j Hab)).
Qed.

(** * Properties *)

(** C4: the client's table follows the server's.  A client is logged in as
    [me] with a usable inbound stream i, and its table agrees with the server on
    all other users.  After any sequence of requests, by any handlers, of
    disconnections, of other clients attaching their streams and of streams
    lost (LogOut only of users with a usable stream), as long as stream i itself
    has been neither shut down nor lost, whatever was written on it makes the
    receiver thread, reading one message at a time, go on, raise exactly the
    events of the messages, and leave a table that agrees with the server's. *)
Theorem status_mirror `{SetOrder} {Addr} `{Wire Addr} `{MapOrder UserStatus} `{MapOrder UserData} bad me d i t T
    (w w' : World SessionDescriptionProtocol) (c : Controller) :
  keyed w -> users w !! me = Some d -> server_client_stream d = Some i -> bad i = false -> i ∉ closed w' ->
  logged_in c = true -> tables c !! t = Some (mk_table T false) -> agrees me T w ->
  rtc (served_step (Addr := Addr) bad me) w w' ->
  exists new, pushed w' = pushed w ++ new /\
    (Forall deliverable (to_stream i new) ->
     exists T', agrees me T' w' /\
       run_receiver_loop me t (read_alone <$> to_stream i new) c =
       (omap (reply_of me) (to_stream i new), omap (event_of me) (to_stream i new), false,
        with_tables (<[t := mk_table T' false]> (tables c)) c)).
Proof.
  intros Hk Hd Hi Hb Hcl Hl HT Hag Hs. assert (Hdf : deaf bad w' i = false) by by apply deaf_false.
  destruct (agrees_served bad me i w w' T d Hs Hk Hdf Hd Hi Hag) as (new & Hp & Hag').
  exists new. split; [done|]. intros Hdel. exists (told T (to_stream i new)). split; [done|].
  by apply read_alone_loop.
Qed.

(** C8: logging in, from the client's credentials to its table.  The request
    and the answer each fit one read.  A registered offline user with the right
    password becomes Available, the handler remembers it, the others are told,
    and the client holds the token, is logged in, and keeps a new table with the
    server's status of every other user, which is the one its receiver thread is
    started with.  Otherwise the client gets the server's text, and nothing
    changes on either side. *)
Theorem client_server_login `{SetOrder} {Addr} `{Wire Addr} `{MapOrder UserStatus} `{MapOrder UserData} bad
    name passwd dk s start (w : World SessionDescriptionProtocol) (c : Controller) r s' w' :
  users_poisoned w = false ->
  handle_client_message bad (LogIn name passwd) dk s w = (r, s', w') ->
  ClientMessage.sendable (LogIn name passwd : ClientMessage SessionDescriptionProtocol) ->
  fits (ClientMessage.to_bytes (LogIn name passwd : ClientMessage SessionDescriptionProtocol)) ->
  ServerResponse.sendable (r : ServerResponse Addr) -> fits (ServerResponse.to_bytes r) ->
  let '(res, evs, c') := Controller.log_in name passwd (server_exchange bad dk s w) start c in
  evs = [] /\
  ((exists d, users w !! name = Some d /\ password d = passwd /\ status d = Offline /\
      let m := <[name := OperatingServer.update_status Available d]> (users w) in
      w' = mk_world m false (pushed w ++ broadcast (deaf bad w) name Available m) (closed w) (users_file w) /\
      s' = set_me (Some name) s /\ res = start (server_client_socket_address s) /\
      token c' = Some name /\ Controller.username c' = Some name /\ logged_in c' = true /\
      call_session c' = call_session c /\
      exists T, tables c' = tables c ++ [mk_table T false] /\ users_status c' = List.length (tables c) /\
        get_users_status c' = Ok T /\ agrees name T w') \/
   (exists msg, res = Err (LogInFailed msg) /\ r = LoginError msg /\ c' = c /\ s' = s /\ w' = w /\
      forall d, users w !! name = Some d -> password d <> passwd \/ status d <> Offline)).
Proof.
  intros Hp E Hm Hfm Hr Hfr. unfold Controller.log_in.
  rewrite (exchanged bad _ (LogIn name passwd) dk s w r s' w') by (try done; by apply client_message_roundtrip).
  simpl in E.
  destruct (login_spec bad name passwd s w Hp) as [(d & Hd & Hpw & Hst & Es)|(msg & Es & Hno)]; rewrite Es in E; simplify_eq.
  - split; [done|]. left. exists d. split_and!; try done. eexists. split_and!; [done|done| |].
    + unfold get_users_status. cbn [tables users_status]. by rewrite list_lookup_middle by done.
    + intros k Hk. cbn [users]. rewrite lookup_fmap, lookup_delete_ne, lookup_insert_ne by done. done.
  - split; [done|]. right. by exists msg.
Qed.

(** The pushed stream has no framing.  When one read returns two status
    updates (the server pushes two in a row for every call), the receiver thread
    cannot decode them, reports an error and ends: the table is left as it was
    and whatever is pushed later is lost. *)
Lemma coalesced_updates `{SetOrder} {Addr} `{Wire Addr} `{MapOrder UserStatus} me t T (m1 m2 : ServerMessage SessionDescriptionProtocol)
    u1 s1 u2 s2 later (c : Controller) :
  m1 = UserStatusUpdate u1 s1 -> m2 = UserStatusUpdate u2 s2 -> ServerMessage.sendable m1 -> ServerMessage.sendable m2 ->
  online me t T c ->
  run_receiver_loop me t
    (mk_push_read (Ok (ServerMessage.to_bytes m1 ++ ServerMessage.to_bytes m2)) true (Ok tt) (Ok tt) :: later) c =
  ([], [ErrorEvent (lit "Failed to parse message")], true, c).
Proof.
  intros -> -> (Hu1 & [Hs1 Hp1] & _) (Hu2 & Hd2 & Hpl2) (_ & Hl & _).
  set (b := ServerMessage.to_bytes _ ++ ServerMessage.to_bytes _).
  set (d1 := UserStatus.display s1 ++ [10] ++ lit "USERSTATE").
  assert (Eb : b = line [lit "USERSTATE"; u1; d1; u2; UserStatus.display s2]).
  { unfold b, d1, ServerMessage.to_bytes, line. cbn [ServerMessage.message_fields join].
    rewrite !utf8_encode_app. change (utf8_encode [10]) with ([10] : bytes). by rewrite <-!app_assoc. }
  assert (Hd1 : field d1).
  { unfold d1. split.
    - apply Forall_app. split; [done|]. apply Forall_app. split; [repeat constructor; lia|].
      by apply field_lit_ascii, ascii_field.
    - rewrite !elem_of_app, list_elem_of_singleton. intros [?|[?|Hin]]; [done|done|].
      destruct (ascii_field (lit "USERSTATE") eq_refl) as [_ Hno]. by apply Hno. }
  assert (Ep : ServerMessage.from_bytes (SDP := SessionDescriptionProtocol) b = None).
  { unfold ServerMessage.from_bytes. rewrite Eb.
    rewrite (parts_line _ 85 (lit "SERSTATE") (UserStatus.display s2)) by (try done; try fields; by apply display_tight).
    reflexivity. }
  assert (Hne : exists x b', b = x :: b') by (rewrite Eb; unfold line; destruct (utf8_encode _); by eexists _, _).
  destruct Hne as (x & b' & Hb). cbn [run_receiver_loop]. rewrite Hl. cbn [negb pushed_bytes event_ok reply_ok].
  rewrite Hb. unfold handle_server_bytes. rewrite <-Hb, Ep. reflexivity.
Qed.

(** C19: every message of the protocol is decoded as it was encoded: requests,
    answers with the table of users in any iteration order, and pushed messages,
    whenever their fields contain no separator and the embedded descriptions and
    addresses survive their own Display and FromStr. *)
Theorem messages_roundtrip `{SetOrder} {Addr} `{Wire Addr} `{MapOrder UserStatus} :
  (forall m : ClientMessage SessionDescriptionProtocol, ClientMessage.sendable m ->
     ClientMessage.from_bytes (ClientMessage.to_bytes m) = Some m) /\
  (forall r : ServerResponse Addr, ServerResponse.sendable r ->
     ServerResponse.from_bytes (ServerResponse.to_bytes r) = Some r) /\
  (forall m : ServerMessage SessionDescriptionProtocol, ServerMessage.sendable m ->
     ServerMessage.from_bytes (ServerMessage.to_bytes m) = Some m) /\
  (forall name, field name -> tight name -> response_from_bytes (response_to_bytes (Username name)) = Some (Username name)).
Proof.
  split_and!; [apply client_message_roundtrip|apply server_response_roundtrip|apply server_message_roundtrip|].
  intros name Hf Ht. by apply client_response_roundtrip.
Qed.

(** Receiver threads of earlier sessions cannot disturb a later one: log_in
    and log_out put a table of their own in the controller, and a thread
    started with another table leaves the controller's table alone, whatever it
    reads. *)
Lemma stale_receiver `{SetOrder} {Addr} `{Wire Addr} `{MapOrder UserStatus} name t reads (c : Controller) :
  t <> users_status c ->
  let '(_, _, _, c') := run_receiver_loop name t reads c in
  tables c' !! users_status c' = tables c !! users_status c /\ get_users_status c' = get_users_status c /\
  token c' = token c /\ users_status c' = users_status c.
Proof.
  intros Ht. revert c Ht. induction reads as [|r reads IH]; intros c Ht; [done|]. cbn [run_receiver_loop].
  destruct (negb (logged_in c)); [done|]. destruct (pushed_bytes r) as [[|x b]|e].
  - done.
  - destruct (handle_server_bytes (x :: b) (event_ok r) (reply_ok r) name t c) as [[[res out] evs] c1] eqn:E.
    apply handle_server_bytes_table in E as (E1 & E2 & E3).
    assert (Et : tables c1 !! users_status c1 = tables c !! users_status c) by (rewrite E2; by apply E1).
    destruct res as [_|e].
    + pose proof (IH c1 ltac:(by rewrite E2)) as Hc. destruct (run_receiver_loop name t reads c1) as [[[out' evs'] d] c2].
      destruct Hc as (Hc1 & Hc2 & Hc3 & Hc4). split_and!; [congruence| |congruence|congruence].
      rewrite Hc2. unfold get_users_status. by rewrite Et.
    + unfold send_event_or_log_out. destruct (is_ok (event_ok r)); cbn [with_logged_in tables users_status token];
        unfold get_users_status; cbn [with_logged_in tables users_status]; by rewrite Et.
  - destruct (still_logged_in r); [|done]. unfold send_event_or_log_out. by destruct (is_ok (event_ok r)).
Qed.

(** * Witnesses *)

Lemma fits_read (b : bytes) (size : Z) :
  (Z.of_nat (List.length b) <=? size) = true -> (List.length b <= Z.to_nat size)%nat.
Proof. lia. Qed.

#[local] Instance demo_order {A} : MapOrder A := { iter := map_to_list; iter_permutation m := Permutation_refl _ }.
#[local] Instance raw_wire : Wire str := { Wire.display := id; from_str := Some }.
#[local] Instance set_order : SetOrder := { Sdp.order := elements; Sdp.order_perm s := Permutation_refl _ }.

(** ann is logged in, bob is not. *)
Definition two_users : World SessionDescriptionProtocol :=
  mk_world {[ lit "ann" := demo_user (lit "ann") Available 1; lit "bob" := demo_user (lit "bob") Offline 2 ]} false [] [] [].
Definition ann_client : Controller :=
  mk_controller [mk_table {[ lit "bob" := Offline ]} false] 0 (Some (lit "ann")) (Some (lit "ann")) true
    (toy "10.0.0.1" "AB:05") false 5000 new_pipeline.

Lemma two_users_keyed : keyed two_users.
Proof.
  intros k d. unfold two_users. simpl. rewrite !lookup_insert_Some, lookup_singleton_Some.
  by intros [[<- <-]|[_ [<- <-]]].
Qed.

Definition bob_logs_in :=
  handle_client_message (fun _ => false) (LogIn (lit "bob") (lit "pw")) (mk_disk true true) demo_server two_users.

Lemma status_mirror_witness :
  exists T' c', run_receiver_loop (lit "ann") 0 [read_alone (UserStatusUpdate (lit "bob") Available)] ann_client =
    ([], [], false, c') /\ get_users_status c' = Ok T' /\ T' !! lit "bob" = Some Available.
Proof.
  destruct bob_logs_in as [[r s'] w'] eqn:E.
  assert (Hw : pushed w' = [(1%nat, UserStatusUpdate (lit "bob") Available)] /\
    users w' !! lit "bob" = Some (demo_user (lit "bob") Available 2) /\ closed w' = [])
    by (revert E; vm_compute; intros [= _ _ <-]; split_and!; reflexivity).
  destruct Hw as (Hw & Hbob & Hcl).
  destruct (status_mirror (Addr := str) (fun _ => false) (lit "ann") (demo_user (lit "ann") Available 1) 1 0
    {[ lit "bob" := Offline ]} two_users w' ann_client) as (new & Hp & Hrun);
    [exact two_users_keyed|reflexivity|reflexivity|reflexivity|rewrite Hcl; apply not_elem_of_nil|reflexivity|reflexivity| | |].
  - intros k Hk. unfold two_users. cbn [users]. rewrite lookup_insert_ne by congruence.
    rewrite <-lookup_fmap, map_fmap_singleton. done.
  - apply rtc_once. eapply step_message; [|exact E]. done.
  - rewrite Hw in Hp. cbn in Hp. subst new.
    destruct Hrun as (T' & Hag & Hrun).
    { unfold to_stream. cbn. constructor; [|constructor]. split; [|apply fits_read; reflexivity].
      split_and!; try (apply ascii_field; reflexivity). done. }
    exists T'. eexists. split; [exact Hrun|]. split; [done|]. by rewrite Hag, Hbob.
Defined.

Lemma client_server_login_witness :
  exists c', Controller.log_in (lit "bob") (lit "pw") (server_exchange (fun _ => false) (mk_disk true true) demo_server two_users)
      (fun _ => Ok tt) (with_logged_in false ann_client) = (Ok tt, [], c') /\ token c' = Some (lit "bob").
Proof.
  destruct bob_logs_in as [[r s'] w'] eqn:E.
  assert (Hr : r = LoginOk (lit "bob") (lit "127.0.0.1:8081") {[ lit "ann" := Available ]})
    by (revert E; vm_compute; by intros [= <- _ _]).
  subst r.
  pose proof (client_server_login (fun _ => false) (lit "bob") (lit "pw") (mk_disk true true) demo_server (fun _ => Ok tt)
    two_users (with_logged_in false ann_client) _ s' w' eq_refl E) as Hl.
  destruct (Controller.log_in _ _ _ _ _) as [[res evs] c'].
  destruct Hl as (-> & [(d & _ & _ & _ & _ & _ & -> & Ht & _)|(msg & _ & Hm & _)]); [| | | |eauto|done].
  - split_and!; try (apply ascii_field; reflexivity). by intros ? [= <-].
  - apply fits_read. reflexivity.
  - split; [apply ascii_field; reflexivity|]. split; [split; [done|apply ascii_field; reflexivity]|].
    apply map_Forall_singleton. unfold entry_ok.
    split_and!; first [apply ascii_field; reflexivity|exact I|apply (bool_decide_unpack _); vm_compute; exact I].
  - apply fits_read. reflexivity.
Defined.

Lemma tight_text (s : str) : match last s with Some c => negb (is_ws c) | None => true end = true -> tight s.
Proof. intros Hs c E. rewrite E in Hs. by apply negb_true_iff. Qed.

Lemma wired_text (s : SessionDescriptionProtocol) :
  result_ok (sdp_from_str (show_sdp s)) = Some s -> asciib (show_sdp s) = true -> wired s.
Proof. intros Hs Ha. split; [done|by apply ascii_field]. Qed.

Lemma messages_roundtrip_witness :
  let r := LoginOk (lit "bob") (lit "127.0.0.1:8080") {[ lit "bob" := Available; lit "eve" := Offline ]} in
  ServerResponse.from_bytes (ServerResponse.to_bytes r) = Some r.
Proof.
  intros r. destruct (messages_roundtrip (Addr := str)) as (_ & Hr & _). apply (Hr r). split; [apply ascii_field; reflexivity|].
  split; [split; [done|apply ascii_field; reflexivity]|].
  apply map_Forall_insert_2; [|apply map_Forall_singleton]; unfold entry_ok;
    (split_and!; first [apply ascii_field; reflexivity|exact I|apply (bool_decide_unpack _); vm_compute; exact I]).
Defined.
