(* ===== verification/Widgets.v ===== *)
(** Drawing in immediate mode (src/ui/widget.rs): the widgets the program draws,
    as data, and the computations that draw them.

    A computation in [ui S A] is given what the user does in this frame (touch
    the k-th control, or type into it) and emits the widgets in order; drawing a
    control counts it and says whether it was touched, so that the code after it
    can act on the state at once, in the middle of the frame, the way egui's
    callers do.  Pixels, hit testing and layout are egui's: a control is known
    by its number, the width a layout leaves is part of the input.

    [offers m f] says what a computation offers: on a state [s] it draws the
    controls [f s] and does nothing but what the one touched does. *)

From S2P Require Import Prelude.
From S2P Require Import Text.
From S2P Require Import F32.
From S2P Require Import JitterBuffer.
From S2P Require Import Events.
From S2P Require Import UserStatus.

(** * Definitions *)

(** ** Widgets *)

Inductive color :=
| Rgb (r g b : Z)
| WHITE | GRAY | LIGHT_GRAY | LIGHT_BLUE | KHAKI | GREEN | RED | ORANGE | BLACK | TRANSPARENT.

(** egui's [RichText] and its builder methods. *)
Record RichText := mk_rich {
  text : str;
  text_size : option f32;
  is_strong : bool;
  is_italics : bool;
  is_heading : bool;
  text_color : option color
}.

Definition plain (t : str) : RichText := mk_rich t None false false false None.
Definition size (x : Z) (t : RichText) : RichText :=
  mk_rich (text t) (Some (of_int x)) (is_strong t) (is_italics t) (is_heading t) (text_color t).
Definition strong (t : RichText) : RichText :=
  mk_rich (text t) (text_size t) true (is_italics t) (is_heading t) (text_color t).
Definition italics (t : RichText) : RichText :=
  mk_rich (text t) (text_size t) (is_strong t) true (is_heading t) (text_color t).
Definition heading (t : RichText) : RichText :=
  mk_rich (text t) (text_size t) (is_strong t) (is_italics t) true (text_color t).
Definition colored (c : color) (t : RichText) : RichText :=
  mk_rich (text t) (text_size t) (is_strong t) (is_italics t) (is_heading t) (Some c).

Inductive layout :=
| Horizontal | Vertical | Centered | RightToLeft | Scroll
| Framed (fill : color) (margin : f32)
| Canvas
| TopPanel (id : str) | SidePanel (id : str) (width : f32)
| Grid (columns : nat) (max_width : f32).

(** What a button shows: a text, or a picture with its hover text. *)
Inductive caption := Caption (t : RichText) | Icon (asset hover : str).

Inductive widget :=
| Space (x : f32)
| Separator
| Spinner
| EndRow
| Picture (asset : str) (max_width : f32)
| Texture (w h : f32)
| Label (t : RichText)
| Circle (radius : f32) (fill : color)
| Glyph (icon : str) (font : f32) (c : color)
| Field (shown hint : str) (active : bool)
| ButtonW (c : caption) (fill : option color) (extent : option (f32 * f32)) (active : bool)
| Group (l : layout) (ws : list widget).

(** The controls of a drawing, in order: their texts, and whether they react. *)
Definition caption_text (c : caption) : str := match c with Caption t => text t | Icon _ hover => hover end.

Fixpoint controls (w : widget) : list (str * bool) :=
  match w with
  | Field _ hint active => [(hint, active)]
  | ButtonW c _ _ active => [(caption_text c, active)]
  | Group _ ws => flat_map controls ws
  | _ => []
  end.

(** What the program relies on of egui and epaint: a password field shows one and
    the same character for every letter, and [ColorImage::from_rgb] panics unless
    there are three bytes for every pixel. *)
Class Egui := {
  bullet : Z;                               (* [PASSWORD_REPLACEMENT_CHAR] *)
  ColorImage : Type;
  from_rgb : Z -> Z -> bytes -> comp ColorImage;
  from_rgb_fits w h d : Z.of_nat (List.length d) = w * h * 3 -> exists img, from_rgb w h d = Ret img;
  from_rgb_short w h d : Z.of_nat (List.length d) <> w * h * 3 -> from_rgb w h d = Panic
}.

Definition mask `{Egui} (password : bool) (s : str) : str := if password then map (fun _ => bullet) s else s.

(** ** Drawing *)

Inductive gesture := Idle | Click (k : nat) | Typed (k : nat) (s : str).

Record input := mk_input {
  touch : gesture;
  active : bool;              (* inside of [add_enabled_ui] *)
  available_width : f32;
  item_spacing : f32
}.

(** The controls drawn before, the state; the widgets, the controls drawn so
    far, the state. *)
Definition ui (S A : Type) : Type := input -> nat -> S -> A * list widget * nat * S.

Section Drawing.
Context `{Egui} {S : Type}.

Definition ret {A} (a : A) : ui S A := fun _ n s => (a, [], n, s).

Definition bind {A B} (m : ui S A) (k : A -> ui S B) : ui S B := fun i n s =>
  let '(a, ws, n, s) := m i n s in
  let '(b, ws', n, s) := k a i n s in (b, ws ++ ws', n, s).

Definition get : ui S S := fun _ n s => (s, [], n, s).
Definition modify (f : S -> S) : ui S unit := fun _ n s => (tt, [], n, f s).
Definition perform {A} (f : S -> A * S) : ui S A := fun _ n s => let '(a, s) := f s in (a, [], n, s).
Definition ask : ui S input := fun i n s => (i, [], n, s).
Definition draw (w : widget) : ui S unit := fun _ n s => (tt, [w], n, s).

(** A nested layout, and a part that may be greyed out. *)
Definition inside {A} (l : layout) (m : ui S A) : ui S A := fun i n s =>
  let '(a, ws, n, s) := m i n s in (a, [Group l ws], n, s).

Definition add_enabled_ui {A} (on : bool) (m : ui S A) : ui S A := fun i =>
  m (mk_input (touch i) (active i && on) (available_width i) (item_spacing i)).

(** A button: was it clicked? *)
Definition button (c : caption) (fill : option color) (extent : option (f32 * f32)) : ui S bool := fun i n s =>
  let hit := match touch i with Click k => (k =? n)%nat | _ => false end in
  (hit && active i, [ButtonW c fill extent (active i)], (1 + n)%nat, s).

(** The field's value after the frame's typing, and the drawing of that. *)
Definition field (value hint : str) (password : bool) : ui S str := fun i n s =>
  let value := match touch i with Typed k t => if active i && (k =? n)%nat then t else value | _ => value end in
  (value, [Field (mask password value) hint (active i)], (1 + n)%nat, s).
End Drawing.

Notation "x <-- m ;; k" := (bind m (fun x => k)) (at level 100, m at next level, right associativity) : room_scope.
Notation "m ;;; k" := (bind m (fun _ => k)) (at level 100, right associativity) : room_scope.

(** [if response.clicked() { f }] *)
Definition clicked {S} (m : ui S bool) (f : S -> S) : ui S unit := b <-- m ;; if b then modify f else ret tt.

(** [for x in l { draw x }] *)
Fixpoint each {S A} (f : A -> ui S unit) (l : list A) : ui S unit :=
  match l with [] => ret tt | x :: l => f x ;;; each f l end.

(** ** The program's widgets *)

Definition px (x : Z) : f32 := of_int x.

Section Library.
Context `{Egui} {S : Type}.
Implicit Types (m : ui S unit).

Definition add_space (x : f32) : ui S unit := draw (Space x).
Definition label (t : RichText) : ui S unit := draw (Label t).

Definition logo (width : f32) : ui S unit := draw (Picture (lit "assets/logo.png") width).

Definition title (t : str) : ui S unit := label (colored WHITE (strong (size 32 (plain t)))).

(** The field writes through its [&mut String], here a pair of accessors. *)
Definition text_input (read : S -> str) (write : str -> S -> S) (hint : str) (password : bool) : ui S unit :=
  s <-- get ;; value <-- field (read s) hint password ;; modify (write value).

Definition primary_button (t : str) (w h : f32) : ui S bool :=
  button (Caption (colored WHITE (strong (size 18 (plain t))))) (Some (Rgb 45 120 255)) (Some (w, h)).
Definition neutral_button (t : str) (w h : f32) : ui S bool :=
  button (Caption (colored LIGHT_GRAY (size 16 (plain t)))) (Some (Rgb 60 60 60)) (Some (w, h)).
Definition danger_button (t : str) (w h : f32) : ui S bool :=
  button (Caption (colored WHITE (strong (size 18 (plain t))))) (Some (Rgb 180 50 50)) (Some (w, h)).

Definition centered_and_sized_buttons (button_width : f32) (n_buttons : nat) (add_contents : ui S unit) : ui S unit :=
  i <-- ask ;;
  let total_width := fadd (fmul button_width (of_int (Z.of_nat n_buttons)))
                          (fmul (item_spacing i) (of_int (Z.of_nat (n_buttons - 1)))) in
  let x_offset := fdiv (fsub (available_width i) total_width) (of_int 2) in
  inside Horizontal (add_space x_offset ;;; add_contents).

Definition user_profile_header (username : str) (on_logout : S -> S) : ui S unit :=
  inside Horizontal (
    label (size 22 (plain [128100])) ;;;
    label (colored WHITE (size 18 (strong (plain username)))) ;;;
    inside RightToLeft (
      clicked (button (Icon (lit "assets/exit_logo.png") (lit "Log Out")) (Some TRANSPARENT) (Some (px 40, px 40))) on_logout)).

Definition status_indicator (status : UserStatus) : ui S unit :=
  let color := match status with
    | Available => Rgb 50 200 50
    | Offline => Rgb 60 60 60
    | Occupied _ => Rgb 200 50 50
    end in
  draw (Circle (px 6) color) ;;; add_space (px 5).

Definition contact_info (username : str) (status : UserStatus) : ui S unit :=
  status_indicator status ;;;
  inside Vertical (
    label (size 16 (colored WHITE (strong (plain username)))) ;;;
    let status_label_text := match split 58 (display status) with s :: _ => s | [] => [] end in
    label (colored GRAY (size 11 (plain status_label_text)))).

Definition call_action_button (t : str) : ui S bool :=
  button (Caption (strong (colored WHITE (plain t)))) (Some (Rgb 0 122 255)) (Some (px 70, px 28)).

Definition contact_actions (status : UserStatus) (on_call : S -> S) : ui S unit :=
  match status with
  | Available => clicked (call_action_button (lit "Call")) on_call
  | Occupied peer => label (colored GRAY (italics (size 12 (plain (lit "In call with " ++ peer)))))
  | Offline => ret tt
  end.

Definition contact_card (username : str) (status : UserStatus) (on_call : S -> S) : ui S unit :=
  inside (Framed (Rgb 20 20 20) (px 8)) (inside Horizontal (
    contact_info username status ;;;
    inside RightToLeft (contact_actions status on_call))).

Definition big_avatar (icon : str) (size : f32) : ui S unit :=
  draw (Circle (fdiv size (of_int 2)) (Rgb 30 30 30)) ;;; draw (Glyph icon (fmul size half) LIGHT_GRAY).

Definition status_label (t : str) (c : color) : ui S unit := label (colored c (size 20 (plain t))).

Definition call_button (t : str) (c : color) : ui S bool :=
  button (Caption (colored WHITE (strong (size 18 (plain t))))) (Some c) (Some (px 130, px 60)).
Definition call_action_btn (t : str) (c : color) (width : f32) : ui S bool :=
  button (Caption (colored WHITE (strong (plain t)))) (Some c) (Some (width, px 45)).

Definition network_stats_panel (stats : CallStats) : ui S unit :=
  inside (Framed (Rgb 25 25 25) (px 12)) (
    label (colored (Rgb 0 150 255) (strong (size 12 (plain ([128202] ++ lit " NETWORK DIAGNOSTICS"))))) ;;;
    add_space (px 8) ;;;
    inside (Grid 2 (px 400)) (
      label (colored GRAY (plain (lit "Jitter:"))) ;;;
      label (plain (show (jitter (remote_receiver stats)) ++ lit " ms")) ;;;
      draw EndRow ;;;
      label (colored GRAY (plain (lit "Packets Lost:"))) ;;;
      let color := if 0 <? packets_lost (remote_receiver stats) then KHAKI else GREEN in
      label (colored color (plain (show (packets_lost (remote_receiver stats))))) ;;;
      draw EndRow ;;;
      label (colored GRAY (plain (lit "Sent / Received:"))) ;;;
      label (plain (show (packets_sent (local_sender stats)) ++ lit " / " ++ show (packets_received (local_receiver stats)))) ;;;
      draw EndRow)).

Definition file_card (name : str) (bytes : Z) (content : ui S unit) : ui S unit :=
  inside (Framed (Rgb 35 35 35) (px 8)) (
    label (colored WHITE (strong (plain name))) ;;;
    label (colored GRAY (size 11 (plain (show bytes ++ lit " B")))) ;;;
    add_space (px 4) ;;;
    content) ;;;
  add_space (px 8).
End Library.

(** ** What a computation offers *)

Record control (S : Type) := mk_control {
  c_label : str;
  c_on : bool;
  c_press : S -> S;
  c_type : str -> S -> S
}.
Arguments mk_control {S}.
Arguments c_label {S}.
Arguments c_on {S}.
Arguments c_press {S}.
Arguments c_type {S}.

Definition disable {S} (on : bool) (c : control S) : control S :=
  mk_control (c_label c) (on && c_on c) (c_press c) (c_type c).
Definition a_button {S} (label : str) (f : S -> S) : control S := mk_control label true f (fun _ s => s).
Definition a_field {S} (label : str) (write : str -> S -> S) : control S := mk_control label true id write.

(** Writing back what was read changes nothing. *)
Class Accessors {S} (read : S -> str) (write : str -> S -> S) : Prop := write_read : forall s, write (read s) s = s.

Definition target (g : gesture) : option nat :=
  match g with Idle => None | Click k | Typed k _ => Some k end.

(** The element of [cs], numbered from [n], that the gesture is aimed at. *)
Definition aim {A} (g : gesture) (n : nat) (cs : list A) : option A :=
  match target g with
  | Some k => if (n <=? k)%nat then cs !! (k - n)%nat else None
  | None => None
  end.

Definition fire {S} (g : gesture) (c : control S) (s : S) : S :=
  if c_on c then match g with Click _ => c_press c s | Typed _ t => c_type c t s | Idle => s end else s.

Definition drawn {S} (cs : list (control S)) : list (str * bool) := map (fun c => (c_label c, c_on c)) cs.

Class Offers {S A} (m : ui S A) (f : S -> list (control S)) : Prop :=
  offers : forall i n s,
    let '(_, ws, n', s') := m i n s in
    let cs := map (disable (active i)) (f s) in
    match aim (touch i) n cs with
    | None => s' = s /\ n' = (n + List.length cs)%nat /\ flat_map controls ws = drawn cs
    | Some c => s' = fire (touch i) c s /\ from_option (fun k => (k < n')%nat) True (target (touch i))
    end.
#[global] Hint Mode Offers - - ! - : typeclass_instances.

(** * Lemmas *)

Section Offering.
Context `{Egui} {S : Type}.
Implicit Types (f h : S -> list (control S)).

Lemma aim_past {A} g n (cs : list A) k : target g = Some k -> (k < n)%nat -> aim g n cs = None.
Proof. intros E Hk. unfold aim. rewrite E. by destruct (Nat.leb_spec n k); [lia|]. Qed.

Lemma aim_nil {A} g n : aim g n ([] : list A) = None.
Proof. unfold aim. destruct (target g); [|done]. by destruct (_ <=? _)%nat. Qed.

(** Aiming at what comes later, or at what is there. *)
Lemma aim_app {A} g n (l r : list A) :
  aim g n (l ++ r) = match aim g n l with Some c => Some c | None => aim g (n + List.length l) r end.
Proof.
  unfold aim. destruct (target g) as [k|]; [|done]. destruct (Nat.leb_spec n k).
  - destruct (l !! (k - n)%nat) as [c|] eqn:E; [by rewrite lookup_app, E|].
    rewrite lookup_app, E. apply lookup_ge_None in E. destruct (Nat.leb_spec (n + List.length l) k); [f_equal|]; lia.
  - destruct (Nat.leb_spec (n + List.length l) k); [lia|done].
Qed.

Lemma aim_map {A B} (h : A -> B) g n l : aim g n (map h l) = h <$> aim g n l.
Proof. unfold aim. destruct (target g); [|done]. destruct (_ <=? _)%nat; [|done]. apply list_lookup_fmap. Qed.

Lemma disable_true (c : control S) : disable true c = c.
Proof. by destruct c. Qed.

Lemma disable_disable b b' (c : control S) : disable b (disable b' c) = disable (b && b') c.
Proof. destruct c. unfold disable. cbn. by rewrite andb_assoc. Qed.

Lemma offers_ext {A} (m : ui S A) f h : (forall s, f s = h s) -> Offers m f -> Offers m h.
Proof. intros E Hm i n s. specialize (Hm i n s). by rewrite E in Hm. Qed.

#[global] Instance offers_ret {A} (a : A) : Offers (S := S) (ret a) (fun _ => []).
Proof. intros i n s. cbn. rewrite aim_nil. split; [done|]. split; [cbn; lia|done]. Qed.

#[global] Instance offers_bind {A B} (m : ui S A) (k : A -> ui S B) f h :
  Offers m f -> (forall a, Offers (k a) h) -> Offers (bind m k) (fun s => f s ++ h s) | 10.
Proof.
  intros Hm Hk i n s. unfold bind. specialize (Hm i n s). destruct (m i n s) as [[[a ws] n1] s1].
  specialize (Hk a i n1 s1). destruct (k a i n1 s1) as [[[b ws'] n2] s2]. cbv zeta in *.
  rewrite map_app, aim_app. destruct (aim (touch i) n (map _ (f s))) as [c|] eqn:E.
  - destruct Hm as [-> Hlt]. unfold aim in E. destruct (target (touch i)) as [t|] eqn:Et; [|done]. cbn in *.
    rewrite (aim_past _ n1 _ t Et Hlt) in Hk. destruct Hk as (-> & -> & _). split; [done|lia].
  - destruct Hm as (-> & -> & Ew). destruct (aim (touch i) (n + _) (map _ (h s))) as [c|] eqn:E'; [done|].
    destruct Hk as (-> & -> & Ew'). split; [done|]. rewrite length_app. split; [lia|].
    rewrite flat_map_app, Ew, Ew'. unfold drawn. by rewrite map_app.
Qed.

(** Reading the state or the input first. *)
#[global] Instance offers_get {A} (k : S -> ui S A) (f : S -> S -> list (control S)) :
  (forall s, Offers (k s) (f s)) -> Offers (bind get k) (fun s => f s s) | 1.
Proof. intros Hk i n s. unfold bind, get. specialize (Hk s i n s). by destruct (k s i n s) as [[[b ws'] n2] s2]. Qed.

#[global] Instance offers_ask {A} (k : input -> ui S A) f :
  (forall i, Offers (k i) f) -> Offers (bind ask k) f | 1.
Proof. intros Hk i n s. unfold bind, ask. specialize (Hk i i n s). by destruct (k i i n s) as [[[b ws'] n2] s2]. Qed.

Lemma offers_draw (w : widget) : controls w = [] -> Offers (S := S) (draw w) (fun _ => []).
Proof. intros E i n s. cbn. rewrite aim_nil, E. split; [done|]. split; [cbn; lia|done]. Qed.

#[global] Instance offers_inside {A} l (m : ui S A) f : Offers m f -> Offers (inside l m) f.
Proof.
  intros Hm i n s. unfold inside. specialize (Hm i n s). destruct (m i n s) as [[[a ws] n1] s1]. cbv zeta in *.
  destruct (aim _ _ _); [done|]. destruct Hm as (-> & -> & E). cbn. by rewrite app_nil_r.
Qed.

#[global] Instance offers_enabled {A} on (m : ui S A) f :
  Offers m f -> Offers (add_enabled_ui on m) (fun s => map (disable on) (f s)).
Proof.
  intros Hm i n s. unfold add_enabled_ui. specialize (Hm (mk_input (touch i) (active i && on) (available_width i) (item_spacing i)) n s).
  destruct (m _ n s) as [[[a ws] n1] s1]. cbn [touch active] in Hm. cbv zeta in *. rewrite List.map_map.
  rewrite (map_ext _ _ (disable_disable (active i) on)). done.
Qed.

#[global] Instance offers_clicked c fill extent (g : S -> S) :
  Offers (clicked (button c fill extent) g) (fun _ => [a_button (caption_text c) g]) | 1.
Proof.
  intros i n s. unfold clicked, bind, button. destruct (touch i) as [|k|k t] eqn:Et; cbn; unfold aim; cbn.
  - repeat split; try done; [lia|by rewrite andb_true_r].
  - destruct (Nat.leb_spec n k) as [Hk|Hk].
    + destruct (k - n)%nat as [|d] eqn:Ed.
      * replace k with n by lia. rewrite Nat.eqb_refl. cbn. unfold fire. cbn.
        destruct (active i); cbn; (split; [done|lia]).
      * destruct (Nat.eqb_spec k n); [lia|]. cbn. rewrite andb_true_r. repeat split; lia.
    + destruct (Nat.eqb_spec k n); [lia|]. cbn. rewrite andb_true_r. repeat split; lia.
  - destruct (Nat.leb_spec n k) as [Hk|Hk].
    + destruct (k - n)%nat as [|d] eqn:Ed; cbn.
      * unfold fire. cbn. split; [by destruct (_ && _)|lia].
      * rewrite andb_true_r. repeat split; lia.
    + rewrite andb_true_r. repeat split; lia.
Qed.

#[global] Instance offers_text_input read write hint password :
  Accessors read write -> Offers (S := S) (text_input read write hint password) (fun _ => [a_field hint write]).
Proof.
  intros Hrw i n s. unfold text_input, bind, get, field, modify. cbn. rewrite andb_true_r.
  destruct (touch i) as [|k|k t] eqn:Et; unfold aim; cbn.
  - rewrite write_read. repeat split; lia.
  - destruct (Nat.leb_spec n k) as [Hk|Hk]; [|rewrite write_read; repeat split; lia].
    destruct (k - n)%nat as [|d] eqn:Ed; cbn; rewrite write_read; [|repeat split; lia].
    unfold fire. cbn. split; [by destruct (_ && _)|lia].
  - destruct (Nat.leb_spec n k) as [Hk|Hk].
    + destruct (k - n)%nat as [|d] eqn:Ed; cbn.
      * replace k with n by lia. rewrite Nat.eqb_refl. unfold fire. cbn. rewrite !andb_true_r.
        split; [|lia]. destruct (active i); [done|by rewrite write_read].
      * destruct (Nat.eqb_spec k n); [lia|]. rewrite andb_false_r, write_read. repeat split; lia.
    + destruct (Nat.eqb_spec k n); [lia|]. rewrite andb_false_r, write_read. repeat split; lia.
Qed.

#[global] Instance offers_each {A} (d : A -> ui S unit) (g : A -> S -> list (control S)) l :
  (forall x, Offers (d x) (g x)) -> Offers (each d l) (fun s => flat_map (fun x => g x s) l).
Proof. intros Hd. induction l as [|x l IH]; cbn [each flat_map]; apply _. Qed.

#[global] Instance offers_label t : Offers (S := S) (label t) (fun _ => []).
Proof. by apply offers_draw. Qed.
#[global] Instance offers_space x : Offers (S := S) (add_space x) (fun _ => []).
Proof. by apply offers_draw. Qed.
#[global] Instance offers_separator : Offers (S := S) (draw Separator) (fun _ => []).
Proof. by apply offers_draw. Qed.
#[global] Instance offers_spinner : Offers (S := S) (draw Spinner) (fun _ => []).
Proof. by apply offers_draw. Qed.
#[global] Instance offers_logo w : Offers (S := S) (logo w) (fun _ => []).
Proof. by apply offers_draw. Qed.
#[global] Instance offers_title t : Offers (S := S) (title t) (fun _ => []).
Proof. by apply offers_draw. Qed.
#[global] Instance offers_status t c : Offers (S := S) (status_label t c) (fun _ => []).
Proof. by apply offers_draw. Qed.

(** Drawing without controls. *)
Definition quiet {A} (m : ui S A) : Prop := Offers m (fun _ => []).

Lemma quiet_bind {A B} (m : ui S A) (k : A -> ui S B) : quiet m -> (forall a, quiet (k a)) -> quiet (bind m k).
Proof. intros Hm Hk. by apply (offers_bind m k (fun _ => []) (fun _ => [])). Qed.

Lemma quiet_inside {A} l (m : ui S A) : quiet m -> quiet (inside l m).
Proof. intros Hm. by apply offers_inside. Qed.

Lemma quiet_draw w : controls w = [] -> quiet (draw w).
Proof. apply offers_draw. Qed.

Lemma quiet_label t : quiet (label t).
Proof. apply offers_label. Qed.
End Offering.

Create HintDb quiet.
#[export] Hint Resolve quiet_bind quiet_inside quiet_label : quiet.
#[export] Hint Extern 1 (quiet (draw _)) => by apply quiet_draw : quiet.
#[export] Hint Extern 1 (quiet (add_space _)) => by apply quiet_draw : quiet.

Section LibraryOffers.
Context {S : Type}.

Lemma quiet_offers {A} (m : ui S A) : quiet m -> Offers m (fun _ => []).
Proof. done. Qed.

#[global] Instance offers_avatar icon d : Offers (S := S) (big_avatar icon d) (fun _ => []).
Proof. apply quiet_offers. unfold big_avatar. auto with quiet. Qed.

#[global] Instance offers_stats stats : Offers (S := S) (network_stats_panel stats) (fun _ => []).
Proof. apply quiet_offers. unfold network_stats_panel. cbv zeta. auto 30 with quiet. Qed.

#[global] Instance offers_info name status : Offers (S := S) (contact_info name status) (fun _ => []).
Proof. apply quiet_offers. unfold contact_info, status_indicator. cbv zeta. auto 20 with quiet. Qed.

(** The buttons of a row are those inside of it. *)
#[global] Instance offers_row w k (m : ui S unit) f : Offers m f -> Offers (centered_and_sized_buttons w k m) f.
Proof. intros Hm. unfold centered_and_sized_buttons. eapply offers_ext; [|apply _]. done. Qed.

#[global] Instance offers_card name size (m : ui S unit) f : Offers m f -> Offers (file_card name size m) f.
Proof. intros Hm. unfold file_card. eapply offers_ext; [|apply _]. intros s. cbn. by rewrite app_nil_r. Qed.

#[global] Instance offers_header name (g : S -> S) : Offers (user_profile_header name g) (fun _ => [a_button (lit "Log Out") g]).
Proof. unfold user_profile_header. eapply offers_ext; [|apply _]. done. Qed.

(** A contact has a call button exactly when it is available. *)
#[global] Instance offers_contact name status (g : S -> S) :
  Offers (contact_card name status g) (fun _ => match status with Available => [a_button (lit "Call") g] | _ => [] end).
Proof.
  unfold contact_card, contact_actions, call_action_button. destruct status; (eapply offers_ext; [|apply _]); done.
Qed.
End LibraryOffers.

(** ** Computations that draw the same *)

(** When nothing is touched: the same widgets, from states that are related to
    states that are. *)
Definition alike {S A} (R : S -> S -> Prop) (m m' : ui S A) : Prop :=
  forall i n s s', touch i = Idle -> R s s' ->
    let '(a, ws, n1, s1) := m i n s in
    let '(a', ws', n1', s1') := m' i n s' in
    a = a' /\ ws = ws' /\ n1 = n1' /\ R s1 s1'.

Section Alike.
Context `{Egui} {S : Type} (R : S -> S -> Prop).

Lemma alike_ret {A} (a : A) : alike R (ret a) (ret a).
Proof. done. Qed.

Lemma alike_draw w : alike R (draw w) (draw w).
Proof. done. Qed.

Lemma alike_bind {A B} (m m' : ui S A) (k k' : A -> ui S B) :
  alike R m m' -> (forall a, alike R (k a) (k' a)) -> alike R (bind m k) (bind m' k').
Proof.
  intros Hm Hk i n s s' Hi Hs. unfold bind. specialize (Hm i n s s' Hi Hs).
  destruct (m i n s) as [[[a ws] n1] s1], (m' i n s') as [[[a' ws'] n1'] s1']. destruct Hm as (<- & <- & <- & Hs1).
  specialize (Hk a i n1 s1 s1' Hi Hs1).
  destruct (k a i n1 s1) as [[[b wk] n2] s2], (k' a i n1 s1') as [[[b' wk'] n2'] s2']. by destruct Hk as (<- & <- & <- & Hs2).
Qed.

Lemma alike_get {A} (k k' : S -> ui S A) :
  (forall s s', R s s' -> alike R (k s) (k' s')) -> alike R (bind get k) (bind get k').
Proof.
  intros Hk i n s s' Hi Hs. unfold bind, get. specialize (Hk s s' Hs i n s s' Hi Hs).
  destruct (k s i n s) as [[[b wk] n2] s2], (k' s' i n s') as [[[b' wk'] n2'] s2']. by destruct Hk as (<- & <- & <- & Hs2).
Qed.

Lemma alike_ask {A} (k k' : input -> ui S A) : (forall i, alike R (k i) (k' i)) -> alike R (bind ask k) (bind ask k').
Proof.
  intros Hk i n s s' Hi Hs. unfold bind, ask. specialize (Hk i i n s s' Hi Hs).
  destruct (k i i n s) as [[[b wk] n2] s2], (k' i i n s') as [[[b' wk'] n2'] s2']. by destruct Hk as (<- & <- & <- & Hs2).
Qed.

Lemma alike_inside {A} l (m m' : ui S A) : alike R m m' -> alike R (inside l m) (inside l m').
Proof.
  intros Hm i n s s' Hi Hs. unfold inside. specialize (Hm i n s s' Hi Hs).
  destruct (m i n s) as [[[a ws] n1] s1], (m' i n s') as [[[a' ws'] n1'] s1']. by destruct Hm as (<- & <- & <- & Hs1).
Qed.

Lemma alike_enabled {A} on (m m' : ui S A) : alike R m m' -> alike R (add_enabled_ui on m) (add_enabled_ui on m').
Proof. intros Hm i n s s' Hi Hs. by apply Hm. Qed.

Lemma alike_clicked c fill extent f f' : alike R (clicked (button c fill extent) f) (clicked (button c fill extent) f').
Proof. intros i n s s' Hi Hs. unfold clicked, bind, button. by rewrite Hi. Qed.

Lemma alike_modify f f' : (forall s s', R s s' -> R (f s) (f' s')) -> alike R (modify f) (modify f').
Proof. intros Hf i n s s' Hi Hs. cbn. auto. Qed.

Lemma alike_perform {A} (f f' : S -> A * S) :
  (forall s s', R s s' -> (f s).1 = (f' s').1 /\ R (f s).2 (f' s').2) -> alike R (perform f) (perform f').
Proof.
  intros Hf i n s s' Hi Hs. unfold perform. destruct (Hf s s' Hs) as [E1 E2].
  by destruct (f s), (f' s').
Qed.

Lemma alike_field v v' hint password (k k' : str -> ui S unit) :
  mask password v = mask password v' -> alike R (k v) (k' v') ->
  alike R (bind (field v hint password) k) (bind (field v' hint password) k').
Proof.
  intros Hv Hk i n s s' Hi Hs. unfold bind, field. rewrite Hi, Hv. specialize (Hk i (1 + n)%nat s s' Hi Hs).
  destruct (k v i _ s) as [[[b wk] n2] s2], (k' v' i _ s') as [[[b' wk'] n2'] s2']. by destruct Hk as (<- & <- & <- & Hs2).
Qed.

Lemma alike_each {A} (d d' : A -> ui S unit) l : (forall x, alike R (d x) (d' x)) -> alike R (each d l) (each d' l).
Proof. intros Hd. induction l as [|x l IH]; cbn; [apply alike_ret|]. apply alike_bind; auto. Qed.

Lemma alike_row w k (m m' : ui S unit) : alike R m m' ->
  alike R (centered_and_sized_buttons w k m) (centered_and_sized_buttons w k m').
Proof.
  intros Hm. unfold centered_and_sized_buttons. apply alike_ask. intros i. apply alike_inside, alike_bind; [apply alike_draw|done].
Qed.

Lemma alike_avatar icon d : alike R (big_avatar icon d) (big_avatar icon d).
Proof. unfold big_avatar. apply alike_bind; intros; apply alike_draw. Qed.
End Alike.

(** Lemmas on larger parts are hints; what is composed is taken apart, up to
    where the state is read and to loops. *)
Create HintDb alike discriminated.

Ltac alike :=
  repeat lazymatch goal with
  | |- alike _ (bind get _) _ => fail
  | |- alike _ (bind ask _) _ => apply alike_ask; intros
  | |- alike _ (bind _ _) _ => apply alike_bind; [|intros]
  | |- alike _ (inside _ _) _ => apply alike_inside
  | |- alike _ (add_enabled_ui _ _) _ => apply alike_enabled
  | |- alike _ (centered_and_sized_buttons _ _ _) _ => apply alike_row
  | |- alike _ (big_avatar _ _) _ => apply alike_avatar
  | |- alike _ (each _ _) _ => fail
  | |- alike _ (ret _) _ => apply alike_ret
  | |- alike _ (clicked _ _) _ => apply alike_clicked
  | |- alike _ (draw _) _ => apply alike_draw
  | |- alike _ (label _) _ => apply alike_draw
  | |- alike _ (add_space _) _ => apply alike_draw
  | |- alike _ (logo _) _ => apply alike_draw
  | |- alike _ (title _) _ => apply alike_draw
  | |- alike _ (status_label _ _) _ => apply alike_draw
  | |- alike _ _ _ => solve [auto with alike nocore]
  end.
