(* ===== verification/Ui.v ===== *)
(** The application's state machine (src/ui/interface.rs, views.rs, error.rs):
    the views, what every event of the worker threads does to them, and what
    every button does.

    The drawing is in Screen, which proves it to act as this file says: here a
    button is a step, and a file dialog's answer an argument.  The controller is the model of Controller; what its calls meet
    outside (the exchange with the server, the traffic of the checks, the media)
    is the argument [outside].  The locks of the two file tables are never
    shared with another thread, so they are plain maps. *)

From S2P Require Import Prelude.
From S2P Require Import Audio.
From S2P Require Import Capture.
From S2P Require Import JitterBuffer.
From S2P Require Import Text.
From S2P Require Import Wire.
From S2P Require Import Sdp.
From S2P Require Import CallSession.
From S2P Require Import Events.
From S2P Require Import UserStatus.
From S2P Require Import ClientMessage.
From S2P Require Import ServerResponse.
From S2P Require Import Controller.

(** * Definitions *)

Inductive View :=
| Welcome
| SignUpView                               (* [SignUp] *)
| LogInView                                (* [LogIn] *)
| CallHub
| Calling (peer : str)
| CallIncomingView (peer : str) (sdp : SessionDescriptionProtocol)   (* [CallIncoming] *)
| CallEndedView                            (* [CallEnded] *)
| Call (name peer : str)
| ErrorView                                (* [Error] *)
| FatalErrorView                           (* [FatalError] *)
| FullServer.

Inductive GUIError :=
| GuiError (e : str)                       (* [MapError] *)
| EmptyReceiver
| ControllerDisconnected.

Definition show_gui_error (e : GUIError) : str :=
  match e with
  | GuiError e => lit "Error: " ++ [34] ++ e ++ [34]
  | EmptyReceiver => quoted "Receiver not started"
  | ControllerDisconnected => quoted "Controller disconnected"
  end.

Section App.
Context `{SetOrder} {Addr : Type} `{Wire Addr} `{MapOrder UserStatus} (addr_error : str -> str).

(** The receivers of frames are there or not; the time is in milliseconds. *)
Record RoomRTCApp := mk_app {
  view : View;
  controller : Controller;
  local_frame_rx : bool;
  remote_frame_rx : bool;
  username_buff : str;
  password_buff : str;
  error_msg : option str;
  warning_msg : option str;
  last_stats : option CallStats;
  time_call_incoming : option Z;
  file_offers : gmap Z FileMetadata;
  file_downloads : gmap Z FileMetadata;
  file_send_rx : bool;
  file_save_rx : bool;
  is_muted : bool
}.

Definition with_view (v : View) (a : RoomRTCApp) : RoomRTCApp :=
  mk_app v (controller a) (local_frame_rx a) (remote_frame_rx a) (username_buff a) (password_buff a) (error_msg a)
    (warning_msg a) (last_stats a) (time_call_incoming a) (file_offers a) (file_downloads a) (file_send_rx a)
    (file_save_rx a) (is_muted a).
Definition with_controller (c : Controller) (a : RoomRTCApp) : RoomRTCApp :=
  mk_app (view a) c (local_frame_rx a) (remote_frame_rx a) (username_buff a) (password_buff a) (error_msg a)
    (warning_msg a) (last_stats a) (time_call_incoming a) (file_offers a) (file_downloads a) (file_send_rx a)
    (file_save_rx a) (is_muted a).
Definition with_frames (b : bool) (a : RoomRTCApp) : RoomRTCApp :=
  mk_app (view a) (controller a) b b (username_buff a) (password_buff a) (error_msg a)
    (warning_msg a) (last_stats a) (time_call_incoming a) (file_offers a) (file_downloads a) (file_send_rx a)
    (file_save_rx a) (is_muted a).
Definition with_buffers (u p : str) (a : RoomRTCApp) : RoomRTCApp :=
  mk_app (view a) (controller a) (local_frame_rx a) (remote_frame_rx a) u p (error_msg a)
    (warning_msg a) (last_stats a) (time_call_incoming a) (file_offers a) (file_downloads a) (file_send_rx a)
    (file_save_rx a) (is_muted a).
Definition with_messages (e w : option str) (a : RoomRTCApp) : RoomRTCApp :=
  mk_app (view a) (controller a) (local_frame_rx a) (remote_frame_rx a) (username_buff a) (password_buff a) e
    w (last_stats a) (time_call_incoming a) (file_offers a) (file_downloads a) (file_send_rx a)
    (file_save_rx a) (is_muted a).
Definition with_warning (w : str) (a : RoomRTCApp) : RoomRTCApp := with_messages (error_msg a) (Some w) a.
Definition with_stats (s : CallStats) (a : RoomRTCApp) : RoomRTCApp :=
  mk_app (view a) (controller a) (local_frame_rx a) (remote_frame_rx a) (username_buff a) (password_buff a) (error_msg a)
    (warning_msg a) (Some s) (time_call_incoming a) (file_offers a) (file_downloads a) (file_send_rx a)
    (file_save_rx a) (is_muted a).
Definition with_timer (t : option Z) (a : RoomRTCApp) : RoomRTCApp :=
  mk_app (view a) (controller a) (local_frame_rx a) (remote_frame_rx a) (username_buff a) (password_buff a) (error_msg a)
    (warning_msg a) (last_stats a) t (file_offers a) (file_downloads a) (file_send_rx a)
    (file_save_rx a) (is_muted a).
Definition with_files (offers downloads : gmap Z FileMetadata) (a : RoomRTCApp) : RoomRTCApp :=
  mk_app (view a) (controller a) (local_frame_rx a) (remote_frame_rx a) (username_buff a) (password_buff a) (error_msg a)
    (warning_msg a) (last_stats a) (time_call_incoming a) offers downloads (file_send_rx a)
    (file_save_rx a) (is_muted a).
Definition with_dialogs (send save : bool) (a : RoomRTCApp) : RoomRTCApp :=
  mk_app (view a) (controller a) (local_frame_rx a) (remote_frame_rx a) (username_buff a) (password_buff a) (error_msg a)
    (warning_msg a) (last_stats a) (time_call_incoming a) (file_offers a) (file_downloads a) send
    save (is_muted a).
Definition with_muted (b : bool) (a : RoomRTCApp) : RoomRTCApp :=
  mk_app (view a) (controller a) (local_frame_rx a) (remote_frame_rx a) (username_buff a) (password_buff a) (error_msg a)
    (warning_msg a) (last_stats a) (time_call_incoming a) (file_offers a) (file_downloads a) (file_send_rx a)
    (file_save_rx a) b.

(** [RoomRTCApp::new] on the controller [init_controller] made. *)
Definition new_app (c : Controller) : RoomRTCApp :=
  mk_app Welcome c false false [] [] None None None None ∅ ∅ false false false.

(** What the controller's calls meet. *)
Record outside := mk_outside {
  o_exchange : exchange;
  o_renewal : renewal;
  o_ice : ice_traffic;
  o_media : call_media (Addr := Addr);
  o_receiver : Addr -> result unit ControllerError;   (* start_server_receiver *)
  o_transfer : result unit str;                       (* the file transferer *)
  o_event_ok : bool                                   (* the event channel *)
}.

Definition reset_after_call (a : RoomRTCApp) : RoomRTCApp :=
  with_muted false (with_files ∅ ∅ (with_timer None (with_frames false a))).

(** [update_video_textures]: it takes the receivers and cannot fail. *)
Definition update_video_textures (a : RoomRTCApp) : result unit GUIError * RoomRTCApp := (Ok tt, with_frames false a).

(** [if self.controller.hang_up().is_err() { FatalError } else { .. }] *)
Definition end_call (o : outside) (on_ok : RoomRTCApp -> RoomRTCApp) (a : RoomRTCApp) : RoomRTCApp * list AppEvent :=
  let '(r, evs, c) := hang_up (o_exchange o) (o_renewal o) (controller a) in
  let a := with_controller c a in
  (if is_ok r then on_ok a else with_view FatalErrorView a, evs).

(** The shared end of an accepted call: the frames, the view, the textures. *)
Definition enter_call (name peer : str) (o : outside) (a : RoomRTCApp) : RoomRTCApp * list AppEvent :=
  let a := with_view (Call name peer) (with_frames true a) in
  let '(r, a) := update_video_textures a in
  match r with
  | Ok _ => (a, [])
  | Err e => end_call o (fun a => with_view CallHub (reset_after_call a)) (with_warning (show_gui_error e) a)
  end.

(** [handle_event]: the new state, and the events the controller's calls sent. *)
Definition handle_event (event : AppEvent) (o : outside) (a : RoomRTCApp) : RoomRTCApp * list AppEvent :=
  match event with
  | FullServerError => (with_view FullServer a, [])
  | CallIncoming peer offer_sdp => (with_view (CallIncomingView peer offer_sdp) a, [])
  | CallEnded => let '(a, evs) := end_call o (with_view CallEndedView) a in (reset_after_call a, evs)
  | ErrorEvent e =>
      let '(a, evs) := end_call o (fun a => with_view CallEndedView (with_warning e a)) a in (reset_after_call a, evs)
  | FatalError =>
      let '(_, c) := stop_media_components (o_renewal o) (controller a) in (with_view FatalErrorView (with_controller c a), [])
  | CallAccepted answer_sdp username peer_username =>
      let '(r, evs, c) := get_in_call addr_error answer_sdp (o_ice o) (o_media o) (controller a) in
      let a := with_controller c a in
      match r with
      | Ok _ => let '(a, evs') := enter_call username peer_username o a in (a, evs ++ evs')
      | Err e => (with_view CallHub (with_warning (show_controller_error e) a), evs)
      end
  | CallRejected => (with_view CallHub a, [])
  | LocalStatsUpdate s =>
      (with_stats (match last_stats a with
                   | Some t => mk_call_stats (local_sender s) (local_receiver s) (remote_sender t) (remote_receiver t)
                   | None => s end) a, [])
  | RemoteStatsUpdate s =>
      (with_stats (match last_stats a with
                   | Some t => mk_call_stats (local_sender t) (local_receiver t) (remote_sender s) (remote_receiver s)
                   | None => s end) a, [])
  | RemoteFileOffer id metadata => (with_files (<[id := metadata]> (file_offers a)) (file_downloads a) a, [])
  | FileDownloadCompleted id => (with_files (file_offers a) (delete id (file_downloads a)) a, [])
  end.

(** [run_app_event_loop] on the events waiting; [closed]: the channel is
    disconnected once they are read. *)
Fixpoint run_app_event_loop (events : list (AppEvent * outside)) (closed : bool) (a : RoomRTCApp) :
    RoomRTCApp * list AppEvent :=
  match events with
  | [] => (if closed then with_view FatalErrorView a else a, [])
  | (event, o) :: events =>
      let '(a, evs) := handle_event event o a in
      let '(a, evs') := run_app_event_loop events closed a in (a, evs ++ evs')
  end.

(** ** Buttons *)

Definition clear_auth_buffers (a : RoomRTCApp) : RoomRTCApp := with_buffers [] [] a.

Definition handle_signup_action (o : outside) (a : RoomRTCApp) : RoomRTCApp * list AppEvent :=
  let '(r, evs) := sign_up (Addr := Addr) (username_buff a) (password_buff a) (o_exchange o) in
  (clear_auth_buffers (match r with
     | Ok _ => with_view LogInView a
     | Err e => with_warning (show_controller_error e) a
     end), evs).

Definition handle_login_action (o : outside) (a : RoomRTCApp) : RoomRTCApp * list AppEvent :=
  let '(r, evs, c) := log_in (username_buff a) (password_buff a) (o_exchange o) (o_receiver o) (controller a) in
  let a := with_controller c a in
  (clear_auth_buffers (match r with
     | Ok _ => with_view CallHub a
     | Err e => with_warning (show_controller_error e) a
     end), evs).

(** The log-out button of the hub, and a contact's call button. *)
Definition log_out_action (o : outside) (a : RoomRTCApp) : RoomRTCApp * list AppEvent :=
  let '(r, evs, c) := log_out (Addr := Addr) (o_exchange o) (controller a) in
  let a := with_controller c a in (if is_ok r then with_view Welcome a else a, evs).

Definition call_action (peer : str) (o : outside) (a : RoomRTCApp) : RoomRTCApp * list AppEvent :=
  let '(r, evs) := call (Addr := Addr) peer (o_exchange o) (controller a) in
  (if is_ok r then with_view (Calling peer) a else a, evs).

Definition handle_accept_logic (peer : str) (sdp : SessionDescriptionProtocol) (o : outside) (a : RoomRTCApp) :
    RoomRTCApp * list AppEvent :=
  let '(r, evs, c) := accept_call addr_error peer sdp (o_exchange o) (o_ice o) (o_media o) (controller a) in
  let a := with_controller c a in
  match r with
  | Ok _ =>
      match get_username (controller a) with
      | Ok username => let '(a, evs') := enter_call username peer o a in (a, evs ++ evs')
      | Err _ => (a, evs)
      end
  | Err e => (with_view CallHub (with_warning (show_controller_error e) a), evs)
  end.

Definition handle_decline_logic (peer : str) (o : outside) (a : RoomRTCApp) : RoomRTCApp * list AppEvent :=
  let '(r, evs, c) := reject_call (Addr := Addr) peer (o_exchange o) (o_event_ok o) (controller a) in
  let a := with_controller c a in
  let a := match r with Ok _ => a | Err e => with_warning (show_controller_error e) a end in
  (with_timer None (with_view CallHub a), evs).

(** [call_timeout] at the time [now]: whether the call was given up. *)
Definition call_timeout (peer : str) (now : Z) (o : outside) (a : RoomRTCApp) : bool * RoomRTCApp * list AppEvent :=
  let start := match time_call_incoming a with Some t => t | None => now end in
  let a := with_timer (Some start) a in
  if 15 <=? (now - start) / 1000 then
    let a := with_warning (lit "Time to accept call expired") a in
    let '(_, evs, c) := reject_call (Addr := Addr) peer (o_exchange o) (o_event_ok o) (controller a) in
    (true, with_view CallHub (with_timer None (with_controller c a)), evs)
  else (false, a, []).

(** [handle_call_video_update] *)
Definition handle_call_video_update (o : outside) (a : RoomRTCApp) : bool * RoomRTCApp * list AppEvent :=
  let '(r, a) := update_video_textures a in
  match r with
  | Ok _ => (true, a, [])
  | Err e =>
      let '(a, evs) := end_call o (fun a => with_view CallHub (reset_after_call a)) (with_warning (show_gui_error e) a) in
      (false, a, evs)
  end.

Definition end_call_action (o : outside) (a : RoomRTCApp) : RoomRTCApp * list AppEvent :=
  end_call o (fun a => with_view CallHub (reset_after_call a)) a.

(** ** Files *)

Definition remove_file_from_offers (id : Z) (a : RoomRTCApp) : RoomRTCApp :=
  with_files (delete id (file_offers a)) (file_downloads a) a.

(** The answers of the two dialogs: to save an offer, to choose a file. *)
Definition save_answered (id : Z) (metadata : FileMetadata) (path : bool) (o : outside) (a : RoomRTCApp) : RoomRTCApp :=
  let a :=
    if path then
      let a := match accept_file (o_transfer o) (controller a) with
               | Ok _ => a
               | Err e => with_warning (lit "Failed to accept file: " ++ show_controller_error e) a end in
      with_files (delete id (file_offers a)) (<[id := metadata]> (file_downloads a)) a
    else a in
  with_dialogs (file_send_rx a) false a.

Definition send_answered (o : outside) (a : RoomRTCApp) : RoomRTCApp :=
  let a := match send_file (o_transfer o) (controller a) with
           | Ok _ => a
           | Err e => with_warning (show_controller_error e) a end in
  with_dialogs false (file_save_rx a) a.

(** [manage_files]: what the two dialogs' channels hold, if they are open. *)
Definition manage_files (saved : option (Z * FileMetadata * bool)) (picked : option bool) (o : outside) (a : RoomRTCApp) :
    RoomRTCApp :=
  let a := match saved with
           | Some (id, metadata, path) => if file_save_rx a then save_answered id metadata path o a else a
           | None => a end in
  match picked with
  | Some true => if file_send_rx a then send_answered o a else a
  | _ => a
  end.

(** The reject button of an offer, with the removal that follows it. *)
Definition reject_offer_action (id : Z) (o : outside) (a : RoomRTCApp) : RoomRTCApp :=
  let a := match reject_file (o_transfer o) (controller a) with
           | Ok _ => a
           | Err e => with_warning (lit "Failed to reject file: " ++ show_controller_error e) a end in
  if file_save_rx a then a else remove_file_from_offers id a.

(** ** One frame *)

(** What the user does in a frame: at most one button, or typing. *)
Inductive action :=
| Nothing
| ToSignUp | ToLogIn | Back
| Type_ (name passwd : str)
| ClickSignUp | ClickLogIn | ClickLogOut
| ClickCall (peer : str)
| ClickAccept | ClickDecline | ClickEndCall | ClickMute | ClickSendFile
| ClickSave (id : Z) | ClickReject (id : Z)
| BackToHub | ErrorOk.

Definition non_empty (s : str) : bool := match s with [] => false | _ => true end.

(** [contact_actions]: the contacts that have a call button. *)
Definition can_call (s : option UserStatus) : bool := match s with Some Available => true | _ => false end.

(** The buttons of each view. *)
Definition show_welcome (act : action) (a : RoomRTCApp) : RoomRTCApp :=
  match act with
  | ToSignUp => with_view SignUpView a
  | ToLogIn => with_view LogInView a
  | _ => a
  end.

Definition show_sign_up (act : action) (o : outside) (a : RoomRTCApp) : RoomRTCApp * list AppEvent :=
  match act with
  | Type_ u p => (with_buffers u p a, [])
  | ClickSignUp => if non_empty (username_buff a) && non_empty (password_buff a) then handle_signup_action o a else (a, [])
  | Back => (with_view Welcome (clear_auth_buffers a), [])
  | _ => (a, [])
  end.

Definition show_log_in (act : action) (o : outside) (a : RoomRTCApp) : RoomRTCApp * list AppEvent :=
  match act with
  | Type_ u p => (with_buffers u p a, [])
  | ClickLogIn => if non_empty (username_buff a) && non_empty (password_buff a) then handle_login_action o a else (a, [])
  | Back => (with_view Welcome (clear_auth_buffers a), [])
  | _ => (a, [])
  end.

(** [render_contacts_list], inside the hub. *)
Definition render_contacts_list (peer : str) (o : outside) (a : RoomRTCApp) : RoomRTCApp * list AppEvent :=
  match get_users_status (controller a) with
  | Ok users => if can_call (users !! peer) then call_action peer o a else (a, [])
  | Err _ => (a, [])
  end.

Definition show_call_hub (act : action) (o : outside) (a : RoomRTCApp) : RoomRTCApp * list AppEvent :=
  match act with
  | ClickLogOut => log_out_action o a
  | ClickCall peer => render_contacts_list peer o a
  | _ => (a, [])
  end.

Definition show_call_incoming (peer : str) (sdp : SessionDescriptionProtocol) (act : action) (now : Z) (o : outside)
    (a : RoomRTCApp) : RoomRTCApp * list AppEvent :=
  let '(expired, a, evs) := call_timeout peer now o a in
  if expired then (a, evs) else
  match act with
  | ClickAccept => handle_accept_logic peer sdp o a
  | ClickDecline => handle_decline_logic peer o a
  | _ => (a, [])
  end.

(** [show_file_offers] and the removal in [show_side_panel]. *)
Definition show_side_panel (act : action) (o : outside) (a : RoomRTCApp) : RoomRTCApp :=
  match act with
  | ClickSave id => if bool_decide (is_Some (file_offers a !! id)) then with_dialogs (file_send_rx a) true a else a
  | ClickReject id => if bool_decide (is_Some (file_offers a !! id)) then reject_offer_action id o a else a
  | _ => a
  end.

Definition show_bottom_toolbar (act : action) (o : outside) (a : RoomRTCApp) : RoomRTCApp * list AppEvent :=
  match act with
  | ClickMute => (with_muted (negb (is_muted a)) (with_controller (toggle_audio (controller a)) a), [])
  | ClickEndCall => end_call_action o a
  | ClickSendFile => (with_dialogs true (file_save_rx a) a, [])
  | _ => (a, [])
  end.

Definition show_call (act : action) (o : outside) (a : RoomRTCApp) : RoomRTCApp * list AppEvent :=
  let a := show_side_panel act o a in
  let '(ok, a, evs) := handle_call_video_update o a in
  if negb ok then (a, evs) else show_bottom_toolbar act o a.

Definition show_call_ended (act : action) (a : RoomRTCApp) : RoomRTCApp :=
  match act with BackToHub => with_view CallHub a | _ => a end.

Definition show_error (act : action) (a : RoomRTCApp) : RoomRTCApp :=
  match act with
  | ErrorOk => with_view CallHub (reset_after_call (with_messages None (warning_msg a) a))
  | _ => a
  end.

(** [render_current_view] at the time [now]; leaving the fatal error and the
    full server ends the process. *)
Definition render_current_view (act : action) (now : Z) (o : outside) (a : RoomRTCApp) : RoomRTCApp * list AppEvent :=
  match view a with
  | Welcome => (show_welcome act a, [])
  | SignUpView => show_sign_up act o a
  | LogInView => show_log_in act o a
  | Calling _ => (a, [])
  | CallIncomingView peer sdp => show_call_incoming peer sdp act now o a
  | CallHub => show_call_hub act o a
  | Call _ _ => show_call act o a
  | CallEndedView => (show_call_ended act a, [])
  | ErrorView => (show_error act a, [])
  | FatalErrorView | FullServer => (a, [])
  end.

(** [update]: the events, the dialogs, the warning's button, the view. *)
Record frame := mk_ui_frame {
  f_events : list (AppEvent * outside);
  f_closed : bool;
  f_saved : option (Z * FileMetadata * bool);
  f_picked : option bool;
  f_dismiss : bool;
  f_action : action;
  f_now : Z;
  f_outside : outside
}.

Definition show_warning_popup (dismiss : bool) (a : RoomRTCApp) : RoomRTCApp :=
  match warning_msg a with
  | None => a
  | Some _ => if dismiss then with_messages (error_msg a) None a else a
  end.

Definition update (f : frame) (a : RoomRTCApp) : RoomRTCApp * list AppEvent :=
  let '(a, evs) := run_app_event_loop (f_events f) (f_closed f) a in
  let a := manage_files (f_saved f) (f_picked f) (f_outside f) a in
  let a := show_warning_popup (f_dismiss f) a in
  let '(a, evs') := render_current_view (f_action f) (f_now f) (f_outside f) a in
  (a, evs ++ evs').

(** * Lemmas *)

(** A call's components: the file transfer, the camera, the microphone. *)
Definition call_up (c : Controller) : Prop :=
  file_transferer c = true /\ cam_running (camera (media_pipeline c)) = true /\
  forall m, audio (media_pipeline c) = Some m -> capturing m = true.

(** The call view is only shown while they run; the error view is never shown. *)
Definition view_ok (v : View) (c : Controller) : Prop :=
  match v with Call _ _ => call_up c | ErrorView => False | _ => True end.
Definition app_ok (a : RoomRTCApp) : Prop := view_ok (view a) (controller a).

(** A view outside of a call. *)
Definition idle (v : View) : Prop := forall c, view_ok v c.

Lemma mic_start_up io m m' : mic_start io m = (Ok tt, m') -> capturing m' = true.
Proof. unfold mic_start. destruct (rbind _ _) as [[]|e]; by intros [= <-]. Qed.

Lemma audio_start_up io m m' : audio_start io m = (Ok tt, m') -> capturing m' = true.
Proof.
  unfold audio_start, start_audio_sender_pipeline. destruct (mic_start io m) as [r m1] eqn:Em.
  destruct r as [[]|e]; cbn; [|by intros [= ? ?]]. intros [= _ <-]. by eapply mic_start_up.
Qed.

(** A start that succeeds has the camera and the microphone running. *)
Lemma pipeline_start_up io p p' evs :
  pipeline_start io p = (Ok tt, evs, p') ->
  cam_running (camera p') = true /\ forall m, audio p' = Some m -> capturing m = true.
Proof.
  unfold pipeline_start, start_local_frame_pipeline, start_encoded_sender_thread. destruct (h264_encoder io); [|done].
  destruct (start_internal (device io) [] (camera p)) as [[l b] c] eqn:Es.
  assert (Hc : cam_running c = true) by (unfold start_internal in Es; by destruct (device io); injection Es as <- <- <-).
  unfold start_remote_frame_pipeline. destruct (h264_decoder io); [|done]. cbn [audio]. destruct (audio p) as [m|].
  - destruct (audio_start (audio_devices io) m) as [[[]|e] m'] eqn:Ea; [|done]. intros [= _ <-]. split; [done|].
    intros m0 [= <-]. by eapply audio_start_up.
  - intros [= _ <-]. by split.
Qed.

Lemma join_call_up m (c c' : Controller) evs : join_call addr_error m c = (Ok tt, evs, c') -> call_up c'.
Proof.
  unfold join_call, setup_file_transferer. destruct (rbind _ _) as [[[[rtp rtcp] sctp] f]|e]; [|done].
  destruct (transport_start _ _ _ _ _); [|done]. destruct (transferer_new _ _ _ _ _); [|done].
  destruct (pipeline_start _ _) as [[[[]|e] ev] p] eqn:Ep; [|done]. intros [= _ <-].
  apply pipeline_start_up in Ep as [Hc Hm]. by split_and!.
Qed.

Lemma check_and_join_up t m (c c' : Controller) evs : check_and_join addr_error t m c = (Ok tt, evs, c') -> call_up c'.
Proof.
  unfold check_and_join. destruct (start_ice_checks _ _ _) as [[u|e] s]; [|done]. apply join_call_up.
Qed.

Lemma get_in_call_up sdp t m (c c' : Controller) evs : get_in_call addr_error sdp t m c = (Ok tt, evs, c') -> call_up c'.
Proof. unfold get_in_call. destruct (process_answer _ _) as [[u|e] s]; [|done]. apply check_and_join_up. Qed.

Lemma accept_call_up peer sdp ex t m (c c' : Controller) evs :
  accept_call (Addr := Addr) addr_error peer sdp ex t m c = (Ok tt, evs, c') -> call_up c'.
Proof.
  unfold accept_call. destruct (process_offer _ _) as [[ans|e] s]; [|done].
  destruct (get_token _) as [tk|e]; [|done]. destruct (Controller.send_message _ _) as [[r|e] ev]; [|done].
  destruct r; try done. destruct (check_and_join _ _ _ _) as [[r evs'] c1] eqn:E. intros [= -> _ <-].
  by eapply check_and_join_up.
Qed.

Lemma toggle_up (c : Controller) : call_up c -> call_up (toggle_audio c).
Proof.
  intros (Hf & Hc & Hm). split_and!; [done..|]. intros m. cbn. destruct (audio (media_pipeline c)) as [m0|] eqn:E; [|done].
  intros [= <-]. by apply (Hm m0).
Qed.

Lemma end_call_ok o on_ok a :
  (forall a, idle (view (on_ok a))) -> idle (view (end_call o on_ok a).1).
Proof.
  intros Hi. unfold end_call. destruct (hang_up _ _ _) as [[r evs] c]. cbn. by destruct (is_ok r).
Qed.

Lemma app_ok_idle a : idle (view a) -> app_ok a.
Proof. intros Hi. apply Hi. Qed.

Lemma reset_view a : view (reset_after_call a) = view a.
Proof. done. Qed.

Lemma handle_event_ok e o a : app_ok a -> app_ok (handle_event e o a).1.
Proof.
  intros Ha. destruct e; try done; cbn [handle_event].
  - destruct (get_in_call _ _ _ _ _) as [[[[]|e] evs] c] eqn:E; cbn; [|done]. unfold app_ok. cbn.
    by eapply get_in_call_up.
  - pose proof (end_call_ok o (with_view CallEndedView) a ltac:(done)) as Hi.
    destruct (end_call _ _ _) as [a' evs]. by apply app_ok_idle.
  - pose proof (end_call_ok o (fun a => with_view CallEndedView (with_warning e a)) a ltac:(done)) as Hi.
    destruct (end_call _ _ _) as [a' evs]. by apply app_ok_idle.
Qed.

Lemma event_loop_ok l closed a : app_ok a -> app_ok (run_app_event_loop l closed a).1.
Proof.
  revert a. induction l as [|[e o] l IH]; intros a Ha; cbn [run_app_event_loop]; [by destruct closed|].
  pose proof (handle_event_ok e o a Ha) as H'. destruct (handle_event e o a) as [a1 evs].
  pose proof (IH a1 H') as H''. by destruct (run_app_event_loop l closed a1).
Qed.

Lemma manage_files_view saved picked o a :
  view (manage_files saved picked o a) = view a /\ controller (manage_files saved picked o a) = controller a.
Proof.
  unfold manage_files, save_answered, send_answered.
  destruct saved as [[[id m] path]|], picked as [[]|]; repeat case_match; done.
Qed.

Lemma log_out_action_ok o a : idle (view a) -> app_ok (log_out_action o a).1.
Proof.
  intros Hi. unfold log_out_action. destruct (log_out _ _) as [[r evs] c]. destruct (is_ok r); [done|]. apply Hi.
Qed.

Lemma call_action_ok peer o a : idle (view a) -> app_ok (call_action peer o a).1.
Proof. intros Hi. unfold call_action. destruct (call _ _ _) as [r evs]. destruct (is_ok r); [done|]. apply Hi. Qed.

Lemma signup_action_ok o a : idle (view a) -> app_ok (handle_signup_action o a).1.
Proof. intros Hi. unfold handle_signup_action. destruct (sign_up _ _ _) as [[u|e] evs]; [done|]. apply Hi. Qed.

Lemma login_action_ok o a : idle (view a) -> app_ok (handle_login_action o a).1.
Proof. intros Hi. unfold handle_login_action. destruct (log_in _ _ _ _ _) as [[[u|e] evs] c]; [done|]. apply Hi. Qed.

Lemma accept_ok peer sdp o a : idle (view a) -> app_ok (handle_accept_logic peer sdp o a).1.
Proof.
  intros Hi. unfold handle_accept_logic.
  destruct (accept_call _ _ _ _ _ _ _) as [[[[]|e] evs] c] eqn:E; [|done].
  cbn [controller with_controller]. destruct (get_username c); cbn; [|apply Hi].
  unfold app_ok. cbn. by eapply accept_call_up.
Qed.

Lemma timeout_ok peer now o a : app_ok a -> app_ok (call_timeout peer now o a).1.2.
Proof.
  intros Ha. unfold call_timeout. destruct (15 <=? _); [|done]. by destruct (reject_call _ _ _ _) as [[r evs] c].
Qed.

Lemma reject_offer_ok id o a : app_ok a -> app_ok (reject_offer_action id o a).
Proof. intros Ha. unfold reject_offer_action. repeat case_match; done. Qed.

Lemma render_ok act now o a : app_ok a -> app_ok (render_current_view act now o a).1.
Proof.
  intros Ha. assert (Hi : view a = Welcome \/ view a = SignUpView \/ view a = LogInView \/ view a = CallHub -> idle (view a))
    by by intros [-> | [-> | [-> | ->]]].
  unfold render_current_view, show_welcome, show_sign_up, show_log_in, show_call_hub, render_contacts_list,
    show_call_incoming, show_call, show_side_panel, show_bottom_toolbar, show_call_ended.
  destruct (view a) as [| | | |peer|peer sdp| |name peer| | |] eqn:Ev; cbn zeta.
  - by destruct act.
  - destruct act; try done. destruct (_ && _); [|done]. apply signup_action_ok. by rewrite Ev.
  - destruct act; try done. destruct (_ && _); [|done]. apply login_action_ok. by rewrite Ev.
  - destruct act; try done; [apply log_out_action_ok; by rewrite Ev|].
    destruct (get_users_status _); [|done]. destruct (can_call _); [|done]. apply call_action_ok. by rewrite Ev.
  - done.
  - pose proof (timeout_ok peer now o a Ha) as Ht. unfold call_timeout in *. destruct (15 <=? _).
    { by destruct (reject_call _ _ _ _) as [[r evs] c]. }
    destruct act; try done.
    + apply accept_ok. cbn. by rewrite Ev.
    + unfold handle_decline_logic. destruct (reject_call _ _ _ _) as [[r evs] c]. by destruct r.
  - by destruct act.
  - cbn [handle_call_video_update update_video_textures negb].
    destruct act; try done.
    + cbn. pose proof (end_call_ok o (fun a => with_view CallHub (reset_after_call a)) (with_frames false a) ltac:(done)) as He.
      apply app_ok_idle. exact He.
    + unfold app_ok in *. cbn [fst view controller with_muted with_controller with_frames]. rewrite Ev in *. by apply toggle_up.
    + case_bool_decide; done.
    + case_bool_decide; [|done]. by apply (reject_offer_ok id o a).
  - unfold app_ok in Ha. by rewrite Ev in Ha.
  - done.
  - done.
Qed.

Lemma update_ok f a : app_ok a -> app_ok (update f a).1.
Proof.
  intros Ha. unfold update. pose proof (event_loop_ok (f_events f) (f_closed f) a Ha) as H'.
  destruct (run_app_event_loop _ _ a) as [a1 evs]. cbn in H'.
  destruct (manage_files_view (f_saved f) (f_picked f) (f_outside f) a1) as [Hv Hc].
  set (a2 := manage_files _ _ _ a1) in *.
  assert (Hp : app_ok (show_warning_popup (f_dismiss f) a2)).
  { unfold app_ok, show_warning_popup. destruct (warning_msg a2); [destruct (f_dismiss f)|]; cbn; by rewrite Hv, Hc. }
  pose proof (render_ok (f_action f) (f_now f) (f_outside f) _ Hp) as Hr.
  by destruct (render_current_view _ _ _ _).
Qed.

End App.

(** * Every run *)

(** What the user sees.  From the start, whatever events arrive, whatever
    the user does and however the calls to the server, the checks and the media
    go, the call view is only shown while the call's components are up, and the
    error view is never shown. *)
Lemma call_view_sound `{SetOrder} {Addr} `{Wire Addr} `{MapOrder UserStatus} addr_error (frames : list (frame (Addr := Addr))) (c : Controller) :
  let a := foldl (fun a f => (update addr_error f a).1) (new_app c) frames in
  view a <> ErrorView /\ forall name peer, view a = Call name peer -> call_up (controller a).
Proof.
  cbv zeta. assert (Ha : app_ok (foldl (fun a f => (update addr_error f a).1) (new_app c) frames)).
  { assert (H' : app_ok (new_app c)) by done. revert H'. generalize (new_app c).
    induction frames as [|f frames IH]; intros a Ha; [done|]. apply IH. by apply update_ok. }
  unfold app_ok in Ha. destruct (view _); split; try done; by intros ? ? [= -> ->] || done.
Qed.

(** The ringing timer survives a failed accept.  When accepting a ringing
    call fails, the view goes back to the hub but the time the call came in is
    kept; the next incoming call, if it is drawn fifteen seconds after the first
    one or later, is declined in its first frame whatever the user does in it. *)
Lemma stale_timer `{SetOrder} {Addr} `{Wire Addr} `{MapOrder UserStatus} addr_error (a : RoomRTCApp) p sdp t0 now o e evs c
    q sdp' now' act o' :
  view a = CallIncomingView p sdp -> time_call_incoming a = Some t0 -> (now - t0) / 1000 < 15 ->
  accept_call (Addr := Addr) addr_error p sdp (o_exchange o) (o_ice o) (o_media o) (controller a) = (Err e, evs, c) ->
  15 <= (now' - t0) / 1000 ->
  let a1 := (render_current_view addr_error ClickAccept now o a).1 in
  let a2 := (handle_event addr_error (CallIncoming q sdp') o' a1).1 in
  let a3 := (render_current_view addr_error act now' o' a2).1 in
  view a1 = CallHub /\ view a2 = CallIncomingView q sdp' /\
  view a3 = CallHub /\ warning_msg a3 = Some (lit "Time to accept call expired").
Proof.
  intros Hv Ht Hnow Hacc Hnow' a1 a2 a3.
  assert (E1 : view a1 = CallHub /\ time_call_incoming a1 = Some t0).
  { unfold a1, render_current_view. rewrite Hv. unfold show_call_incoming, call_timeout. rewrite Ht.
    destruct (Z.leb_spec 15 ((now - t0) / 1000)); [lia|]. unfold handle_accept_logic. cbn [controller with_timer].
    by rewrite Hacc. }
  destruct E1 as [V1 T1]. split; [done|]. split; [done|].
  unfold a3, render_current_view, a2. cbn [handle_event fst view with_view]. unfold show_call_incoming, call_timeout.
  cbn [time_call_incoming with_view]. rewrite T1. destruct (Z.leb_spec 15 ((now' - t0) / 1000)); [|lia].
  destruct (reject_call _ _ _ _) as [[r evs'] c']. done.
Qed.

(** * Witnesses *)

#[local] Instance demo_order {A} : MapOrder A := { iter := map_to_list; iter_permutation m := Permutation_refl _ }.
#[local] Instance raw_wire : Wire str := { Wire.display := id; from_str := Some }.
#[local] Instance set_order : SetOrder := { Sdp.order := elements; Sdp.order_perm s := Permutation_refl _ }.

(** Nothing outside works. *)
Definition offline_world : outside (Addr := str) :=
  mk_outside (mk_exchange (fun _ => Err (lit "broken pipe")) (fun _ => Ok []))
    (mk_renewal (Ok tt) (Ok 5000) (Ok tt) (Ok (toy "10.0.0.1" "AB:05")))
    (mk_ice_traffic true (fun _ => [])) (mk_call_media (fun _ _ _ _ => Ok tt) (fun _ _ _ _ => Ok tt) working_devices)
    (fun _ => Ok tt) (Ok tt) true.

(** ann, called by bob at time 0. *)
Definition rung : RoomRTCApp :=
  with_timer (Some 0) (with_view (CallIncomingView (lit "bob") (get_offer (toy "10.0.0.2" "CD:06")))
    (new_app (mk_controller [mk_table ∅ false] 0 (Some (lit "ann")) (Some (lit "ann")) true (toy "10.0.0.1" "AB:05") false 5000 new_pipeline))).
