(* ===== verification/Screen.v ===== *)
(** What every view draws, and what its controls do (the drawing half of
    src/ui/interface.rs): one frame of [RoomRTCApp::update] as a computation of
    Widgets over the application of Ui.

    A frame runs top to bottom: the events, the dialogs, the warning, the view;
    a control touched on the way acts on the application at once.  [offered] is
    the short description of a view - its controls with the action each stands
    for - and the drawing is proved to implement the state machine of Ui through
    it.  Textures are known by their size, the thread that fills them is
    [texture_thread]; the locks of the file tables are never poisoned. *)

From S2P Require Import Prelude.
From S2P Require Import Audio.
From S2P Require Import Capture.
From S2P Require Import JitterBuffer.
From S2P Require Import Text.
From S2P Require Import F32.
From S2P Require Import Wire.
From S2P Require Import Sdp.
From S2P Require Import CallSession.
From S2P Require Import Media.
From S2P Require Import Events.
From S2P Require Import UserStatus.
From S2P Require Import ClientMessage.
From S2P Require Import ServerResponse.
From S2P Require Import Controller.
From S2P Require Import Widgets.
From S2P Require Import Ui.

(** * Definitions *)

(** The order in which a table of files is walked through. *)
Class FileOrder := {
  files_iter : gmap Z FileMetadata -> list (Z * FileMetadata);
  files_iter_permutation m : files_iter m ≡ₚ map_to_list m
}.

(** Leaving the program: the window's close command, [process::exit]. *)
Inductive exit := CloseWindow | ExitProcess.

Section Screen.
Context `{SetOrder} {Addr : Type} `{Wire Addr} `{MapOrder UserStatus} `{FileOrder} `{Egui} (addr_error : str -> str).

(** What a frame changes: the application, the events its calls sent, whether
    the program is left; [to_remove] is the local variable of
    [show_file_offers] that the buttons' closures write. *)
Record world := mk_world {
  app : RoomRTCApp;
  sent : list AppEvent;
  closing : option exit;
  to_remove : option Z
}.

Definition acting (f : RoomRTCApp -> RoomRTCApp * list AppEvent) (w : world) : world :=
  let '(a, evs) := f (app w) in mk_world a (sent w ++ evs) (closing w) (to_remove w).
Definition on_app (f : RoomRTCApp -> RoomRTCApp) : world -> world := acting (fun a => (f a, [])).
Definition leave (e : exit) (w : world) : world := mk_world (app w) (sent w) (Some e) (to_remove w).
Definition set_removal (r : option Z) (w : world) : world := mk_world (app w) (sent w) (closing w) r.

(** What the drawing reads beside the application: the time of the ringing
    timer and of the clock, the two textures' sizes (or the poisoned lock). *)
Record surroundings := mk_surroundings {
  e_now : Z;
  e_clock : Z;
  e_outside : outside (Addr := Addr);
  e_local : result (option (Z * Z)) str;
  e_remote : result (option (Z * Z)) str
}.
Implicit Types (e : surroundings).

Abbreviation drawing := (ui world unit).

Definition username_field (hint : str) (password : bool) : drawing :=
  text_input (fun w => username_buff (app w)) (fun t w => on_app (fun a => with_buffers t (password_buff a) a) w) hint password.
Definition password_field (hint : str) (password : bool) : drawing :=
  text_input (fun w => password_buff (app w)) (fun t w => on_app (fun a => with_buffers (username_buff a) t a) w) hint password.

(** ** The views *)

Definition show_welcome : drawing :=
  inside Centered (
    add_space (px 20) ;;;
    logo (px 300) ;;;
    add_space (px 30) ;;;
    centered_and_sized_buttons (px 120) 2 (
      clicked (primary_button (lit "Sign Up") (px 120) (px 40)) (on_app (with_view SignUpView)) ;;;
      clicked (primary_button (lit "Log In") (px 120) (px 40)) (on_app (with_view LogInView))) ;;;
    add_space (px 20) ;;;
    clicked (danger_button (lit "Quit") (px 120) (px 40)) (leave CloseWindow)).

Definition back_to_welcome : world -> world := on_app (fun a => with_view Welcome (clear_auth_buffers a)).

Definition can_submit (a : RoomRTCApp) : bool := non_empty (username_buff a) && non_empty (password_buff a).

Definition show_sign_up e : drawing :=
  inside Centered (
    add_space (px 20) ;;;
    logo (px 80) ;;;
    add_space (px 10) ;;;
    title (lit "SIGN UP") ;;;
    add_space (px 30) ;;;
    username_field (lit "Username") false ;;;
    add_space (px 15) ;;;
    password_field (lit "Password") true ;;;
    add_space (px 40) ;;;
    w <-- get ;;
    let can_sign_up := can_submit (app w) in
    centered_and_sized_buttons (px 120) 2 (
      add_enabled_ui can_sign_up (
        clicked (primary_button (lit "Sign Up") (px 120) (px 40)) (acting (handle_signup_action (e_outside e)))) ;;;
      clicked (neutral_button (lit "Back") (px 120) (px 40)) back_to_welcome)).

Definition show_log_in e : drawing :=
  inside Centered (
    add_space (px 20) ;;;
    logo (px 80) ;;;
    add_space (px 10) ;;;
    title (lit "LOG IN") ;;;
    add_space (px 30) ;;;
    username_field (lit "Username") false ;;;
    add_space (px 15) ;;;
    password_field (lit "Password") true ;;;
    add_space (px 40) ;;;
    w <-- get ;;
    let can_log_in := can_submit (app w) in
    centered_and_sized_buttons (px 120) 2 (
      add_enabled_ui can_log_in (
        clicked (primary_button (lit "Log In") (px 120) (px 40)) (acting (handle_login_action (e_outside e)))) ;;;
      clicked (neutral_button (lit "Back") (px 120) (px 40)) back_to_welcome)).

Definition render_contacts_list e : drawing :=
  w <-- get ;;
  match get_users_status (controller (app w)) with
  | Err _ => ret tt
  | Ok users_status =>
      inside Scroll (
        add_space (px 5) ;;;
        each (fun '(username, status) =>
          contact_card username status (acting (call_action username (e_outside e))) ;;;
          add_space (px 4)) (ServerResponse.iter users_status))
  end.

(** [get_username().unwrap_or_default()] *)
Definition shown_username (c : Controller) : str := match get_username c with Ok u => u | Err _ => [] end.

Definition show_call_hub e : drawing :=
  inside Vertical (
    inside Centered (logo (px 150)) ;;;
    add_space (fdiv (px 15) (px 2)) ;;;
    w <-- get ;;
    let username := shown_username (controller (app w)) in
    user_profile_header username (acting (log_out_action (e_outside e))) ;;;
    add_space (px 10) ;;;
    draw Separator ;;;
    add_space (px 10) ;;;
    label (strong (size 13 (colored GRAY (plain (lit " CONTACTS"))))) ;;;
    add_space (px 15) ;;;
    render_contacts_list e).

Definition peer_label (peer : str) : drawing := label (colored WHITE (strong (size 40 (plain peer)))).

Definition show_calling (peer_username : str) : drawing :=
  inside Centered (
    add_space (px 60) ;;;
    big_avatar [128100] (px 150) ;;;
    add_space (px 30) ;;;
    peer_label peer_username ;;;
    add_space (px 10) ;;;
    status_label (lit "Calling...") (Rgb 0 122 255) ;;;
    add_space (px 80)).

(** The part drawn while the call can still be answered. *)
Definition draw_call_incoming (peer : str) (sdp : SessionDescriptionProtocol) e : drawing :=
  inside Centered (
    add_space (px 60) ;;;
    big_avatar [128100] (px 150) ;;;
    add_space (px 30) ;;;
    peer_label peer ;;;
    status_label (lit "Incoming call...") (Rgb 0 122 255) ;;;
    add_space (px 60) ;;;
    centered_and_sized_buttons (px 130) 2 (
      clicked (call_button (lit "Accept") (Rgb 50 180 50)) (acting (handle_accept_logic addr_error peer sdp (e_outside e))) ;;;
      add_space (px 32) ;;;
      clicked (call_button (lit "Decline") (Rgb 220 50 50)) (acting (handle_decline_logic peer (e_outside e))))).

Definition show_call_incoming (peer : str) (sdp : SessionDescriptionProtocol) e : drawing :=
  expired <-- perform (fun w =>
    let '(expired, a, evs) := call_timeout peer (e_now e) (e_outside e) (app w) in
    (expired, mk_world a (sent w ++ evs) (closing w) (to_remove w))) ;;
  if expired : bool then ret tt else draw_call_incoming peer sdp e.

(** ** The call view *)

(** [show_local_camera], [show_remote_camera]: a poisoned lock draws nothing. *)
Definition show_camera (waiting : str) (texture : result (option (Z * Z)) str) : drawing :=
  match texture with
  | Err _ => ret tt
  | Ok (Some (w, h)) =>
      let aspect_ratio := fdiv (of_int w) (of_int h) in
      let desired_height := px 240 in
      let desired_width := fmul desired_height aspect_ratio in
      draw (Texture desired_width desired_height)
  | Ok None => label (plain waiting)
  end.
Definition show_local_camera e : drawing := show_camera (lit "Waiting for local camera...") (e_local e).
Definition show_remote_camera e : drawing := show_camera (lit "Waiting for remote camera...") (e_remote e).

Definition show_video_layout (username peer : str) e : drawing :=
  inside Horizontal (
    inside Vertical (
      label (colored GRAY (size 14 (plain (lit "YOU (" ++ username ++ lit ")")))) ;;;
      add_space (px 5) ;;;
      inside Canvas (show_local_camera e)) ;;;
    inside Vertical (
      label (colored WHITE (strong (size 14 (plain peer)))) ;;;
      add_space (px 5) ;;;
      inside Canvas (show_remote_camera e))).

(** [".".repeat(((now / 1000) % 4))] *)
Definition dots (now : Z) : str := repeat 46 (Z.to_nat ((now / 1000) mod 4)).

Definition show_downloading_files e : drawing :=
  w <-- get ;;
  each (fun '(_, meta) =>
    file_card (file_name meta) (file_size meta)
      (label (colored LIGHT_BLUE (italics (plain (lit "Downloading" ++ dots (e_clock e)))))))
    (files_iter (file_downloads (app w))).

Definition open_save_dialog : world -> world := on_app (fun a => with_dialogs (file_send_rx a) true a).

Definition reject_clicked (id : Z) e (w : world) : world :=
  set_removal (Some id) (on_app (fun a =>
    match reject_file (o_transfer (e_outside e)) (controller a) with
    | Ok _ => a
    | Err err => with_warning (lit "Failed to reject file: " ++ show_controller_error err) a
    end) w).

Definition offer_card e '((id, offer) : Z * FileMetadata) : drawing :=
  file_card (file_name offer) (file_size offer) (inside Horizontal (
    clicked (button (Caption (colored GREEN (plain [10004]))) None None) open_save_dialog ;;;
    clicked (button (Caption (colored RED (plain [10006]))) None None) (reject_clicked id e))).

Definition show_file_offers e : drawing :=
  w <-- get ;;
  let offers := file_offers (app w) in
  (if bool_decide (offers = ∅) && bool_decide (file_downloads (app w) = ∅)
   then inside Centered (label (colored GRAY (italics (plain (lit "No pending files")))))
   else ret tt) ;;;
  each (offer_card e) (files_iter offers).

(** What is drawn of the side panel, and what is left to do after it. *)
Definition draw_side_panel e : drawing :=
  inside (SidePanel (lit "files_panel") (px 200)) (
    inside Centered (
      add_space (px 10) ;;;
      label (colored WHITE (strong (heading (plain (lit "FILES"))))) ;;;
      draw Separator) ;;;
    inside Scroll (
      add_space (px 5) ;;;
      show_downloading_files e ;;;
      show_file_offers e)).

Definition remove_offer (w : world) : world :=
  match to_remove w with
  | Some id => set_removal None (on_app (fun a => if file_save_rx a then a else remove_file_from_offers id a) w)
  | None => w
  end.

Definition show_side_panel e : drawing := draw_side_panel e ;;; modify remove_offer.

Definition show_bottom_toolbar e : drawing :=
  inside Horizontal (
    w <-- get ;;
    let '(text, color) := if is_muted (app w) then ([128263] ++ lit " Unmute", Rgb 200 100 0)
                          else ([127908] ++ lit " Mute", Rgb 60 60 60) in
    clicked (call_action_btn text color (px 150))
      (on_app (fun a => with_muted (negb (is_muted a)) (with_controller (toggle_audio (controller a)) a))) ;;;
    add_space (px 20) ;;;
    clicked (call_action_btn (lit "End Call") (Rgb 200 40 40) (px 180)) (acting (end_call_action (e_outside e))) ;;;
    add_space (px 20) ;;;
    clicked (call_action_btn (lit "Send file") ORANGE (px 180)) (on_app (fun a => with_dialogs true (file_save_rx a) a))).

Definition show_last_stats : drawing :=
  w <-- get ;;
  match last_stats (app w) with
  | Some stats => network_stats_panel stats
  | None =>
      add_space (px 10) ;;;
      draw Spinner ;;;
      label (colored GRAY (italics (plain (lit "Waiting for RTCP reports..."))))
  end.

Definition draw_call (username peer_username : str) e : drawing :=
  inside Centered (
    add_space (px 10) ;;;
    show_video_layout username peer_username e ;;;
    add_space (px 25) ;;;
    show_bottom_toolbar e ;;;
    add_space (px 20) ;;;
    draw Separator ;;;
    add_space (px 10) ;;;
    show_last_stats).

Definition show_call (username peer_username : str) e : drawing :=
  show_side_panel e ;;;
  ok <-- perform (fun w =>
    let '(ok, a, evs) := handle_call_video_update (e_outside e) (app w) in
    (ok, mk_world a (sent w ++ evs) (closing w) (to_remove w))) ;;
  if negb ok then ret tt else draw_call username peer_username e.

(** ** The ends of a call, errors *)

Definition show_call_ended : drawing :=
  inside Centered (
    add_space (px 80) ;;;
    big_avatar [128245] (px 150) ;;;
    add_space (px 30) ;;;
    title (lit "Call Ended") ;;;
    add_space (px 10) ;;;
    label (colored (Rgb 140 140 140) (size 18 (plain (lit "The other user has disconnected.")))) ;;;
    add_space (px 80) ;;;
    centered_and_sized_buttons (px 240) 1 (
      clicked (primary_button (lit "Back to hub") (px 240) (px 60)) (on_app (with_view CallHub))) ;;;
    add_space (px 40)).

Definition show_full_server : drawing :=
  inside Centered (
    add_space (px 80) ;;;
    big_avatar [128683] (px 150) ;;;
    add_space (px 30) ;;;
    title (lit "Server Full") ;;;
    add_space (px 10) ;;;
    label (colored (Rgb 160 160 160) (size 18 (plain
      (lit "Maximum capacity reached." ++ [10] ++ lit "Please try again in a few minutes.")))) ;;;
    add_space (px 80) ;;;
    centered_and_sized_buttons (px 240) 1 (
      clicked (neutral_button (lit "Close Application") (px 240) (px 60)) (leave CloseWindow)) ;;;
    add_space (px 40)).

Definition show_error : drawing :=
  inside Centered (
    add_space (px 50) ;;;
    w <-- get ;;
    let error_text := match error_msg (app w) with Some t => t | None => lit "An unknown error occurred" end in
    label (size 24 (colored RED (plain error_text))) ;;;
    add_space (px 20) ;;;
    clicked (button (Caption (plain (lit "Ok"))) None (Some (px 200, px 40)))
      (on_app (fun a => with_view CallHub (reset_after_call (with_messages None (warning_msg a) a))))).

Definition show_fatal_error : drawing :=
  inside Centered (
    add_space (px 80) ;;;
    big_avatar [9888] (px 150) ;;;
    add_space (px 30) ;;;
    title (lit "Fatal Error") ;;;
    add_space (px 10) ;;;
    label (colored (Rgb 180 150 150) (size 18 (plain
      (lit "An unexpected error occurred and the" ++ [10] ++ lit "application needs to close.")))) ;;;
    add_space (px 80) ;;;
    centered_and_sized_buttons (px 240) 1 (
      clicked (danger_button (lit "Exit Application") (px 240) (px 60)) (leave ExitProcess)) ;;;
    add_space (px 40)).

Definition show_warning_popup : drawing :=
  w <-- get ;;
  match warning_msg (app w) with
  | None => ret tt
  | Some msg =>
      inside (TopPanel (lit "error_popup")) (
        label (colored WHITE (plain [])) ;;;
        inside Horizontal (
          label (strong (colored WHITE (plain msg))) ;;;
          inside RightToLeft (
            clicked (button (Caption (plain [10006])) None None) (on_app (fun a => with_messages (error_msg a) None a)))) ;;;
        add_space (px 4))
  end.

(** ** One frame *)

Definition show_view e (v : View) : drawing :=
  match v with
  | Welcome => show_welcome
  | SignUpView => show_sign_up e
  | LogInView => show_log_in e
  | Calling peer_username => show_calling peer_username
  | CallIncomingView peer_username sdp_offer => show_call_incoming peer_username sdp_offer e
  | CallHub => show_call_hub e
  | Call username peer_username => show_call username peer_username e
  | CallEndedView => show_call_ended
  | ErrorView => show_error
  | FatalErrorView => show_fatal_error
  | FullServer => show_full_server
  end.

Definition render_current_view e : drawing := w <-- get ;; show_view e (view (app w)).

(** What reached the application since the last frame. *)
Record arrivals := mk_arrivals {
  r_events : list (AppEvent * outside (Addr := Addr));
  r_closed : bool;
  r_saved : option (Z * FileMetadata * bool);
  r_picked : option bool
}.

Definition update (r : arrivals) e : drawing :=
  add_space (px 40) ;;;
  modify (acting (run_app_event_loop addr_error (r_events r) (r_closed r))) ;;;
  modify (on_app (manage_files (r_saved r) (r_picked r) (e_outside e))) ;;;
  show_warning_popup ;;;
  render_current_view e.

(** ** Textures *)

(** [spawn_texture_thread]: at every waking one frame that was waited for, those
    that were there as well, and whether the texture's lock was sound; it ends
    with the channel, or with a poisoned lock.  A new texture and a changed one
    hold the same picture. *)
Fixpoint texture_thread (wakings : list (Frame * list Frame * bool)) (texture : option ColorImage) :
    comp (option ColorImage) :=
  match wakings with
  | [] => Ret texture
  | (frame, more_recent, locked) :: wakings =>
      let last_frame := List.last more_recent frame in
      let! color_img := from_rgb (width last_frame) (height last_frame) (data last_frame) in
      if negb locked then Ret texture else texture_thread wakings (Some color_img)
  end.

(** ** The start *)

(** [init_controller] on the outcome of [Controller::new]: the events are
    already in the channel when the first frame is drawn. *)
Definition init_controller (created : result Controller ControllerError) (ex : exchange) (event_sent : result unit str) :
    result Controller GUIError * list AppEvent :=
  match map_err (fun err => GuiError (show_controller_error err)) created with
  | Err err => (Err err, [])
  | Ok controller =>
      let '(r, evs) := initial_handshake (Addr := Addr) ex event_sent in
      (let? _ := map_err (fun err => GuiError (show_controller_error err)) r in Ok controller, evs)
  end.

(** [RoomRTCApp::new]: without a controller the process exits with code 1. *)
Definition new (created : result Controller ControllerError) (ex : exchange) (event_sent : result unit str) :
    (RoomRTCApp * list AppEvent) + Z :=
  match init_controller created ex event_sent with
  | (Ok c, evs) => inl (new_app c, evs)
  | (Err _, _) => inr 1
  end.

(** ** The views in short *)

(** What a control stands for. *)
Inductive choice := Do (act : action) | EditName | EditPassword | Leave (x : exit).

Definition live (label : str) (c : choice) : str * bool * choice := (label, true, c).

Definition auth_form (submit : str) (act : action) (a : RoomRTCApp) : list (str * bool * choice) :=
  [live (lit "Username") EditName; live (lit "Password") EditPassword;
   (submit, can_submit a, Do act); live (lit "Back") (Do Back)].

Definition contacts (users : gmap str UserStatus) : list (str * bool * choice) :=
  flat_map (fun '(u, s) => match s with Available => [live (lit "Call") (Do (ClickCall u))] | _ => [] end)
           (ServerResponse.iter users).

Definition ringing_for (now : Z) (a : RoomRTCApp) : Z :=
  (now - match time_call_incoming a with Some t => t | None => now end) / 1000.

Definition offered (now : Z) (a : RoomRTCApp) : list (str * bool * choice) :=
  match view a with
  | Welcome => [live (lit "Sign Up") (Do ToSignUp); live (lit "Log In") (Do ToLogIn); live (lit "Quit") (Leave CloseWindow)]
  | SignUpView => auth_form (lit "Sign Up") ClickSignUp a
  | LogInView => auth_form (lit "Log In") ClickLogIn a
  | CallHub => live (lit "Log Out") (Do ClickLogOut) ::
      match get_users_status (controller a) with Ok users => contacts users | Err _ => [] end
  | Calling _ => []
  | CallIncomingView _ _ =>
      if 15 <=? ringing_for now a then [] else [live (lit "Accept") (Do ClickAccept); live (lit "Decline") (Do ClickDecline)]
  | Call _ _ =>
      flat_map (fun '(id, _) => [live [10004] (Do (ClickSave id)); live [10006] (Do (ClickReject id))]) (files_iter (file_offers a)) ++
      [live (if is_muted a then [128263] ++ lit " Unmute" else [127908] ++ lit " Mute") (Do ClickMute);
       live (lit "End Call") (Do ClickEndCall); live (lit "Send file") (Do ClickSendFile)]
  | CallEndedView => [live (lit "Back to hub") (Do BackToHub)]
  | ErrorView => [live (lit "Ok") (Do ErrorOk)]
  | FatalErrorView => [live (lit "Exit Application") (Leave ExitProcess)]
  | FullServer => [live (lit "Close Application") (Leave CloseWindow)]
  end.

(** The action a gesture on a control means, and whether it leaves the program. *)
Definition meaning (g : gesture) (c : option (str * bool * choice)) (a : RoomRTCApp) : action * option exit :=
  match c with
  | Some (_, true, c) =>
      match g, c with
      | Click _, Do act => (act, None)
      | Click _, Leave x => (Nothing, Some x)
      | Typed _ t, EditName => (Type_ t (password_buff a), None)
      | Typed _ t, EditPassword => (Type_ (username_buff a) t, None)
      | _, _ => (Nothing, None)
      end
  | _ => (Nothing, None)
  end.

Definition step e '((act, x) : action * option exit) (w : world) : world :=
  let w := acting (Ui.render_current_view addr_error act (e_now e) (e_outside e)) w in
  match x with Some x => leave x w | None => w end.

(** * Lemmas *)

Definition agrees e (c : control world) (x : str * bool * choice) (w : world) : Prop :=
  (c_label c, c_on c) = x.1 /\
  forall g, target g <> None -> fire g c w = step e (meaning g (Some x) (app w)) w.

Definition at_rest e (a : RoomRTCApp) : Prop :=
  Ui.render_current_view addr_error Nothing (e_now e) (e_outside e) a = (a, []).

Lemma step_rest e w : at_rest e (app w) -> step e (Nothing, None) w = w.
Proof. intros Hr. unfold step, acting. rewrite Hr. destruct w. cbn. by rewrite app_nil_r. Qed.

(** A computation does what its controls stand for. *)
Definition means {A} e (m : ui world A) (n : nat) (i : input) (w : world) : Prop :=
  let '(_, ws, n', w') := m i n w in
  let l := offered (e_now e) (app w) in
  w' = step e (meaning (touch i) (aim (touch i) n l) (app w)) w /\
  (aim (touch i) n l = None -> n' = (n + List.length l)%nat /\ flat_map controls ws = map fst l).

Lemma aim_Forall2 {A B} (R : A -> B -> Prop) g n l k :
  Forall2 R l k -> option_Forall2 R (aim g n l) (aim g n k).
Proof.
  intros Hl. unfold aim. destruct (target g) as [t|]; [|constructor]. destruct (_ <=? _)%nat; [|constructor].
  by apply Forall2_lookup.
Qed.

Lemma drawn_offered (P : control world -> str * bool * choice -> Prop) cs l :
  Forall2 (fun c x => (c_label c, c_on c) = x.1 /\ P c x) cs l -> drawn cs = map fst l /\ List.length cs = List.length l.
Proof. induction 1 as [|c x cs l [E _] _ [Ed El]]; [done|]. cbn. rewrite E. split; [f_equal; exact Ed|by rewrite El]. Qed.

Lemma means_offers {A} e (m : ui world A) f n i w :
  Offers m f -> active i = true -> at_rest e (app w) ->
  Forall2 (fun c x => agrees e c x w) (f w) (offered (e_now e) (app w)) -> means e m n i w.
Proof.
  intros Hm Hi Hr Hl. unfold means. specialize (Hm i n w). destruct (m i n w) as [[[a ws] n'] w']. cbv zeta in *.
  rewrite Hi, (map_ext _ id), List.map_id in Hm by apply disable_true.
  pose proof (aim_Forall2 _ (touch i) n _ _ Hl) as Ha. pose proof (drawn_offered _ _ _ Hl) as [Ed El].
  assert (Hg : aim (touch i) n (f w) <> None -> target (touch i) <> None) by (unfold aim; by destruct (target (touch i))).
  destruct Ha as [c x Hcx|].
  - destruct Hcx as [_ Hf], Hm as [-> Ht]. split; [|done]. apply Hf. by apply Hg.
  - destruct Hm as (-> & -> & Ew). split; [|by rewrite El, Ew, Ed]. unfold meaning. by rewrite step_rest.
Qed.

(** Comparing a control with its description, on a known view. *)
Ltac agree Hv :=
  split; [reflexivity|]; intros [|?|? ?] Hg; [done| |];
  unfold fire, step, acting, leave, on_app, Ui.render_current_view; cbn; rewrite ?Hv; cbn;
  try (match goal with Hs : can_submit _ = _ |- _ => unfold can_submit in Hs; rewrite Hs end);
  unfold acting; cbn; rewrite ?app_nil_r; try done.

(** ... and all of them; the states are records. *)
Ltac all_agree w Hv :=
  unfold offered, auth_form; rewrite Hv; destruct w as [? ? ? ?]; cbn in Hv |- *;
  try (destruct (can_submit _) eqn:Hs); cbn;
  repeat lazymatch goal with
  | |- Forall2 _ (_ :: _) _ => constructor; [agree Hv|]
  | |- Forall2 _ [] _ => constructor
  end.

Lemma welcome_means e n i w : view (app w) = Welcome -> active i = true -> means e show_welcome n i w.
Proof.
  intros Hv Hi. eapply means_offers; [unfold show_welcome; apply _|done| |].
  - unfold at_rest, Ui.render_current_view. by rewrite Hv.
  - all_agree w Hv.
Qed.

#[local] Instance username_accessors :
  Accessors (fun w => username_buff (app w)) (fun t w => on_app (fun a => with_buffers t (password_buff a) a) w).
Proof. intros [a evs x r]. unfold on_app, acting. cbn. rewrite app_nil_r. by destruct a. Qed.

#[local] Instance password_accessors :
  Accessors (fun w => password_buff (app w)) (fun t w => on_app (fun a => with_buffers (username_buff a) t a) w).
Proof. intros [a evs x r]. unfold on_app, acting. cbn. rewrite app_nil_r. by destruct a. Qed.

Ltac rests Hv := unfold at_rest, Ui.render_current_view; rewrite Hv; done.

Lemma sign_up_means e n i w : view (app w) = SignUpView -> active i = true -> means e (show_sign_up e) n i w.
Proof.
  intros Hv Hi. eapply means_offers; [unfold show_sign_up, username_field, password_field; apply _|done|rests Hv|].
  all_agree w Hv.
Qed.

Lemma log_in_means e n i w : view (app w) = LogInView -> active i = true -> means e (show_log_in e) n i w.
Proof.
  intros Hv Hi. eapply means_offers; [unfold show_log_in, username_field, password_field; apply _|done|rests Hv|].
  all_agree w Hv.
Qed.

Lemma Forall2_flat_map {A B C} (R : B -> C -> Prop) (f : A -> list B) (g : A -> list C) l :
  (forall x, x ∈ l -> Forall2 R (f x) (g x)) -> Forall2 R (flat_map f l) (flat_map g l).
Proof.
  induction l as [|x l IH]; intros Hx; cbn; [constructor|]. apply Forall2_app; [apply Hx; left|].
  apply IH. intros y Hy. apply Hx. by right.
Qed.

#[local] Instance offers_contacts e : Offers (render_contacts_list e) (fun w =>
  match get_users_status (controller (app w)) with
  | Ok users => flat_map (fun '(u, s) =>
      match s with Available => [a_button (lit "Call") (acting (call_action u (e_outside e)))] | _ => [] end) (ServerResponse.iter users)
  | Err _ => []
  end).
Proof.
  apply (offers_get _ (fun w _ => match get_users_status (controller (app w)) with Ok users => _ | Err _ => _ end)).
  intros w. destruct (get_users_status _) as [users|err]; [|apply _].
  eapply offers_ext; [|apply offers_inside, offers_bind; [apply _|intros _; apply (offers_each _ (fun '(u, s) _ =>
    match s with Available => [a_button (lit "Call") (acting (call_action u (e_outside e)))] | _ => [] end))]].
  - intros s. cbn. apply flat_map_ext. by intros [u st].
  - intros [u s]. eapply offers_ext; [|apply _]. intros w'. cbn. by rewrite app_nil_r.
Qed.

Lemma hub_means e n i w : view (app w) = CallHub -> active i = true -> means e (show_call_hub e) n i w.
Proof.
  intros Hv Hi. eapply means_offers; [unfold show_call_hub; apply _|done|rests Hv|].
  unfold offered. rewrite Hv. destruct w as [a evs x r]. cbn [app] in Hv |- *. cbn [List.app]. constructor; [agree Hv|].
  destruct (get_users_status (controller a)) as [users|err] eqn:Eu; [|constructor].
  apply Forall2_flat_map. intros [u s] Hus. destruct s; try constructor; [|constructor].
  assert (Es : users !! u = Some Available).
  { apply elem_of_map_to_list. by rewrite <-(ServerResponse.iter_permutation users). }
  split; [done|]. intros [|k|k t] Hg; [done| |]; unfold fire, step, acting, Ui.render_current_view; cbn; rewrite Hv; cbn.
  - unfold Ui.render_contacts_list. rewrite Eu, Es. cbn. by destruct (call_action _ _ _).
  - by rewrite app_nil_r.
Qed.

Lemma calling_means e peer n i w : view (app w) = Calling peer -> active i = true -> means e (show_calling peer) n i w.
Proof.
  intros Hv Hi. eapply means_offers; [unfold show_calling, peer_label; apply _|done|rests Hv|]. all_agree w Hv.
Qed.

Lemma ended_means e n i w : view (app w) = CallEndedView -> active i = true -> means e show_call_ended n i w.
Proof. intros Hv Hi. eapply means_offers; [unfold show_call_ended; apply _|done|rests Hv|]. all_agree w Hv. Qed.

Lemma full_means e n i w : view (app w) = FullServer -> active i = true -> means e show_full_server n i w.
Proof. intros Hv Hi. eapply means_offers; [unfold show_full_server; apply _|done|rests Hv|]. all_agree w Hv. Qed.

Lemma error_means e n i w : view (app w) = ErrorView -> active i = true -> means e show_error n i w.
Proof. intros Hv Hi. eapply means_offers; [unfold show_error; apply _|done|rests Hv|]. all_agree w Hv. Qed.

Lemma fatal_means e n i w : view (app w) = FatalErrorView -> active i = true -> means e show_fatal_error n i w.
Proof. intros Hv Hi. eapply means_offers; [unfold show_fatal_error; apply _|done|rests Hv|]. all_agree w Hv. Qed.

(** ** The ringing view *)

Definition settle e (a : RoomRTCApp) : RoomRTCApp :=
  with_timer (Some (match time_call_incoming a with Some t => t | None => e_now e end)) a.

Lemma settled peer sdp e a : view a = CallIncomingView peer sdp -> (15 <=? ringing_for (e_now e) a) = false ->
  offered (e_now e) (settle e a) = offered (e_now e) a /\
  forall act, Ui.render_current_view addr_error act (e_now e) (e_outside e) (settle e a) =
              Ui.render_current_view addr_error act (e_now e) (e_outside e) a.
Proof.
  intros Hv Hr. unfold settle. split; [unfold offered, ringing_for; cbn [view with_timer time_call_incoming]; rewrite Hv; by destruct (time_call_incoming a)|].
  intros act. unfold Ui.render_current_view. cbn [view with_timer]. rewrite Hv.
  unfold Ui.show_call_incoming, call_timeout. cbn [time_call_incoming with_timer]. unfold ringing_for in Hr.
  cbv zeta. rewrite Hr. reflexivity.
Qed.

Lemma draw_incoming_means peer sdp e n i w :
  view (app w) = CallIncomingView peer sdp -> (15 <=? ringing_for (e_now e) (app w)) = false ->
  app w = settle e (app w) -> active i = true -> means e (draw_call_incoming peer sdp e) n i w.
Proof.
  intros Hv Hr Hs Hi.
  assert (Hstep : forall act, Ui.render_current_view addr_error act (e_now e) (e_outside e) (app w) =
    match act with
    | ClickAccept => handle_accept_logic addr_error peer sdp (e_outside e) (app w)
    | ClickDecline => handle_decline_logic peer (e_outside e) (app w)
    | _ => (app w, []) end).
  { intros act. unfold Ui.render_current_view. rewrite Hv. unfold Ui.show_call_incoming, call_timeout. cbv zeta.
    unfold ringing_for in Hr. rewrite Hr. fold (settle e (app w)). by rewrite <-Hs. }
  eapply means_offers; [unfold draw_call_incoming, peer_label; apply _|done|apply Hstep|].
  unfold offered. rewrite Hv, Hr. cbn [List.app]. destruct w as [a evs x r]. cbn [app] in *.
  repeat constructor; intros [|k|k t] Hg; try done; unfold fire, step, acting; cbn; rewrite Hstep; try done; by rewrite app_nil_r.
Qed.

Lemma incoming_means peer sdp e n i w :
  view (app w) = CallIncomingView peer sdp -> active i = true -> means e (show_call_incoming peer sdp e) n i w.
Proof.
  intros Hv Hi. unfold means, show_call_incoming, bind, perform. destruct (15 <=? ringing_for (e_now e) (app w)) eqn:Hr.
  - assert (Ho : offered (e_now e) (app w) = []) by (unfold offered; by rewrite Hv, Hr).
    rewrite Ho, aim_nil. unfold meaning, step, acting, Ui.render_current_view. rewrite Hv.
    unfold Ui.show_call_incoming, call_timeout. cbv zeta. unfold ringing_for in Hr. rewrite Hr.
    destruct (reject_call _ _ _ _) as [[r evs] c]. split; [done|]. intros _. split; [cbn; lia|done].
  - destruct (settled peer sdp e (app w) Hv Hr) as [Ho Hs].
    unfold call_timeout. cbv zeta. unfold ringing_for in Hr. rewrite Hr. fold (settle e (app w)).
    pose proof (draw_incoming_means peer sdp e n i (mk_world (settle e (app w)) (sent w ++ []) (closing w) (to_remove w)) Hv Hr eq_refl Hi) as Hm.
    unfold means in Hm. cbn [app] in Hm. destruct (draw_call_incoming _ _ _ _ _ _) as [[[u ws] n'] w']. cbv zeta in Hm.
    rewrite Ho in Hm. destruct Hm as [-> Hn]. split; [|done].
    replace (meaning (touch i) (aim (touch i) n (offered (e_now e) (app w))) (settle e (app w)))
      with (meaning (touch i) (aim (touch i) n (offered (e_now e) (app w))) (app w)) by done.
    destruct (meaning _ _ _) as [act y]. unfold step, acting. cbn [app sent closing to_remove]. by rewrite Hs, app_nil_r.
Qed.

(** ** The call view *)

Definition panel_controls e (w : world) : list (control world) :=
  flat_map (fun '(id, _) => [a_button [10004] open_save_dialog; a_button [10006] (reject_clicked id e)])
           (files_iter (file_offers (app w))).

Definition toolbar_controls e (w : world) : list (control world) :=
  [a_button (if is_muted (app w) then [128263] ++ lit " Unmute" else [127908] ++ lit " Mute")
     (on_app (fun a => with_muted (negb (is_muted a)) (with_controller (toggle_audio (controller a)) a)));
   a_button (lit "End Call") (acting (end_call_action (e_outside e)));
   a_button (lit "Send file") (on_app (fun a => with_dialogs true (file_save_rx a) a))].

#[local] Instance offers_downloads e : Offers (show_downloading_files e) (fun _ => []).
Proof.
  apply (offers_get _ (fun _ _ => [])). intros w. eapply offers_ext; [|apply (offers_each _ (fun _ _ => []))].
  - intros s. cbn. by induction (files_iter (file_downloads (app w))).
  - intros [id meta]. apply _.
Qed.

#[local] Instance offers_side_panel e : Offers (draw_side_panel e) (panel_controls e).
Proof.
  assert (Ho : Offers (show_file_offers e) (panel_controls e)).
  { apply (offers_get _ (fun w _ => panel_controls e w)). intros w.
    eapply (offers_ext _ (fun _ => [] ++ panel_controls e w)); [done|]. apply offers_bind.
    - destruct (_ && _); apply _.
    - intros _. eapply offers_ext; [|apply (offers_each _ (fun '(id, _) _ =>
        [a_button [10004] open_save_dialog; a_button [10006] (reject_clicked id e)]))].
      + intros s. apply flat_map_ext. by intros [id meta].
      + intros [id meta]. unfold offer_card. eapply offers_ext; [|apply _]. done. }
  unfold draw_side_panel. eapply offers_ext; [|apply _]. done.
Qed.

Lemma offers_camera t texture : Offers (show_camera t texture) (fun _ => []).
Proof. unfold show_camera. destruct texture as [[[w h]|]|err]; [by apply offers_draw|apply _|apply _]. Qed.

#[local] Instance offers_call name peer e : Offers (draw_call name peer e) (toolbar_controls e).
Proof.
  assert (Hs : Offers show_last_stats (fun _ => [])).
  { apply (offers_get _ (fun _ _ => [])). intros w. destruct (last_stats (app w)); (eapply offers_ext; [|apply _]); done. }
  assert (Hl : Offers (show_video_layout name peer e) (fun _ => [])).
  { pose proof offers_camera as Hc. unfold show_video_layout, show_local_camera, show_remote_camera.
    eapply offers_ext; [|apply _]. done. }
  assert (Ht : Offers (show_bottom_toolbar e) (toolbar_controls e)).
  { apply offers_inside. apply (offers_get _ (fun w _ => toolbar_controls e w)). intros w.
    unfold toolbar_controls. destruct (is_muted (app w)); unfold call_action_btn; (eapply offers_ext; [|apply _]); done. }
  unfold draw_call. eapply offers_ext; [|apply _]. intros s. cbn. by rewrite ?app_nil_r.
Qed.

(** What [show_call] does between the panel and the toolbar. *)
Definition between (w : world) : world := on_app (with_frames false) (remove_offer w).

Lemma between_rest w : to_remove w = None -> between w = mk_world (with_frames false (app w)) (sent w) (closing w) None.
Proof. destruct w as [a evs x r]. cbn. intros ->. unfold between, on_app, acting. cbn. by rewrite app_nil_r. Qed.

Lemma offered_ids id meta (a : RoomRTCApp) : (id, meta) ∈ files_iter (file_offers a) -> file_offers a !! id = Some meta.
Proof. rewrite files_iter_permutation. apply elem_of_map_to_list. Qed.

Lemma panel_means name peer e w : view (app w) = Call name peer -> to_remove w = None ->
  Forall2 (fun c x => (c_label c, c_on c) = x.1 /\
      forall g, target g <> None -> between (fire g c w) = step e (meaning g (Some x) (app w)) w)
    (panel_controls e w)
    (flat_map (fun '(id, _) => [live [10004] (Do (ClickSave id)); live [10006] (Do (ClickReject id))]) (files_iter (file_offers (app w)))).
Proof.
  intros Hv Hn. apply Forall2_flat_map. intros [id meta] Hid. apply offered_ids in Hid.
  assert (Hsome : bool_decide (is_Some (file_offers (app w) !! id)) = true) by (rewrite Hid; by apply bool_decide_eq_true).
  destruct w as [a evs x r]. cbn [app to_remove] in *. subst r.
  assert (Hrest : forall act, act = Nothing \/ act = ClickSave id \/ act = ClickReject id ->
    Ui.render_current_view addr_error act (e_now e) (e_outside e) a = (with_frames false (Ui.show_side_panel act (e_outside e) a), [])).
  { intros act Hact. unfold Ui.render_current_view. rewrite Hv. unfold Ui.show_call, handle_call_video_update, update_video_textures.
    by destruct Hact as [->|[-> | ->]]. }
  constructor; [|constructor; [|constructor]]; split; try done; intros [|k|k t] Hg; try done; unfold fire, step, acting, between; cbn -[Ui.show_side_panel];
    rewrite Hrest by tauto; unfold Ui.show_side_panel; rewrite ?Hsome; unfold on_app, acting; cbn; rewrite ?app_nil_r; try done.
Qed.

Lemma toolbar_means name peer e w : view (app w) = Call name peer -> to_remove w = None ->
  Forall2 (fun c x => (c_label c, c_on c) = x.1 /\
      forall g, target g <> None -> fire g c (between w) = step e (meaning g (Some x) (app w)) w)
    (toolbar_controls e (between w))
    [live (if is_muted (app w) then [128263] ++ lit " Unmute" else [127908] ++ lit " Mute") (Do ClickMute);
     live (lit "End Call") (Do ClickEndCall); live (lit "Send file") (Do ClickSendFile)].
Proof.
  intros Hv Hn. rewrite between_rest by done. destruct w as [a evs x r]. cbn [app to_remove sent closing] in *. subst r.
  assert (Hrest : forall act, Ui.render_current_view addr_error act (e_now e) (e_outside e) a =
    Ui.show_bottom_toolbar act (e_outside e) (with_frames false (Ui.show_side_panel act (e_outside e) a))).
  { intros act. unfold Ui.render_current_view. by rewrite Hv. }
  constructor; [|constructor; [|constructor; [|constructor]]];
    (split; [done|]); intros [|k|k t] Hg; try done; unfold fire, step, acting; cbn -[Ui.show_bottom_toolbar];
    rewrite Hrest; cbn; rewrite ?app_nil_r; done.
Qed.

Lemma call_means name peer e n i w :
  view (app w) = Call name peer -> to_remove w = None -> active i = true -> means e (show_call name peer e) n i w.
Proof.
  intros Hv Hn Hi. pose proof (panel_means name peer e w Hv Hn) as Hp. pose proof (toolbar_means name peer e w Hv Hn) as Ht.
  pose proof (offers_side_panel e i n w) as Ho.
  unfold means, show_call, show_side_panel, bind, modify, perform. unfold offered. rewrite Hv.
  destruct (draw_side_panel e i n w) as [[[u ws] n1] w1]. cbv zeta in Ho.
  rewrite Hi, (map_ext _ id), List.map_id in Ho by apply disable_true.
  unfold handle_call_video_update, update_video_textures. cbn [negb].
  assert (Eb : forall w1, mk_world (with_frames false (app (remove_offer w1))) (sent (remove_offer w1) ++ [])
    (closing (remove_offer w1)) (to_remove (remove_offer w1)) = between w1) by done.
  rewrite Eb. clear Eb. pose proof (offers_call name peer e i n1 (between w1)) as Hc.
  destruct (draw_call name peer e i n1 (between w1)) as [[[u' ws'] n2] w2]. cbv zeta in Hc.
  rewrite Hi, (map_ext _ id), List.map_id in Hc by apply disable_true. rewrite aim_app, <-(Forall2_length _ _ _ Hp).
  pose proof (aim_Forall2 _ (touch i) n _ _ Hp) as Ha.
  destruct (aim (touch i) n (panel_controls e w)) as [c|] eqn:E; inversion Ha as [? x Hcx E1 E2|E1 E2]; clear Ha.
  - destruct Ho as [-> Hlt]. unfold aim in E. destruct (target (touch i)) as [k|] eqn:Et; [|done]. cbn in Hlt.
    rewrite (aim_past _ n1 _ k Et Hlt) in Hc. destruct Hc as (-> & _ & _). split; [|done]. apply Hcx. congruence.
  - destruct Ho as (-> & -> & Ew).
    pose proof (aim_Forall2 _ (touch i) (n + List.length (panel_controls e w)) _ _ Ht) as Ha.
    assert (Hg : aim (touch i) (n + List.length (panel_controls e w)) (toolbar_controls e (between w)) <> None ->
      target (touch i) <> None) by (unfold aim; by destruct (target (touch i))).
    destruct Ha as [c x Hcx|].
    + destruct Hc as [-> _]. split; [|done]. apply Hcx. by apply Hg.
    + destruct Hc as (-> & -> & Ew'). split.
      * unfold meaning, step, acting. rewrite between_rest by done. unfold Ui.render_current_view. rewrite Hv.
        cbn. by rewrite Hn, app_nil_r.
      * intros _. split; [rewrite length_app; cbn; pose proof (Forall2_length _ _ _ Hp); lia|].
        rewrite flat_map_app, map_app, app_nil_r. f_equal; [rewrite Ew; apply (drawn_offered _ _ _ Hp)|].
        change ([] ++ ws') with ws'. rewrite Ew'. apply (drawn_offered _ _ _ Ht).
Qed.

(** ** Every view, and a whole frame *)

Lemma render_means e n i w : to_remove w = None -> active i = true -> means e (render_current_view e) n i w.
Proof.
  intros Hn Hi. assert (Hm : forall m : ui world unit, means e m n i w -> means e (bind get (fun _ => m)) n i w).
  { intros m Hm. unfold means, bind, get in *. by destruct (m i n w) as [[[u ws] n'] w']. }
  unfold render_current_view, show_view, means, bind, get.
  destruct (view (app w)) as [| | | |peer|peer sdp| |name peer| | |] eqn:Hv.
  - refine (Hm show_welcome _). by apply welcome_means.
  - refine (Hm (show_sign_up e) _). by apply sign_up_means.
  - refine (Hm (show_log_in e) _). by apply log_in_means.
  - refine (Hm (show_call_hub e) _). by apply hub_means.
  - refine (Hm (show_calling peer) _). by apply calling_means.
  - refine (Hm (show_call_incoming peer sdp e) _). by apply incoming_means.
  - refine (Hm show_call_ended _). by apply ended_means.
  - refine (Hm (show_call name peer e) _). by apply call_means.
  - refine (Hm show_error _). by apply error_means.
  - refine (Hm show_fatal_error _). by apply fatal_means.
  - refine (Hm show_full_server _). by apply full_means.
Qed.

Definition dismisses (g : gesture) : bool := match g with Click O => true | _ => false end.

Definition cross (a : RoomRTCApp) : list (str * bool) := match warning_msg a with Some _ => [([10006], true)] | None => [] end.

Lemma popup_draws i w : active i = true ->
  let '(_, ws, n, w') := show_warning_popup i 0%nat w in
  w' = on_app (Ui.show_warning_popup (dismisses (touch i))) w /\ n = List.length (cross (app w)) /\ flat_map controls ws = cross (app w).
Proof.
  intros Hi. unfold show_warning_popup, bind, get, cross, on_app, acting, Ui.show_warning_popup.
  destruct w as [a evs x r]. cbn [app sent closing to_remove]. destruct (warning_msg a) as [msg|]; cbn.
  - unfold inside, label, add_space, clicked, bind, button, modify, ret, draw, on_app, acting. destruct (touch i) as [|[|k]|k t]; cbn; rewrite ?Hi; cbn; by rewrite ?app_nil_r.
  - by rewrite app_nil_r.
Qed.

(** ** What the screen shows of the password *)

Definition screen e (i : input) (a : RoomRTCApp) : list widget :=
  let '(_, ws, _, _) := render_current_view e i 0%nat (mk_world a [] None None) in ws.

Definition with_password (p : str) (a : RoomRTCApp) : RoomRTCApp := with_buffers (username_buff a) p a.

(** The contents of the fields. *)
Fixpoint fields (w : widget) : list str :=
  match w with
  | Field shown _ _ => [shown]
  | Group _ ws => flat_map fields ws
  | _ => []
  end.

Definition auth_view (v : View) : bool := match v with SignUpView | LogInView => true | _ => false end.

Lemma mask_length p q : mask true p = mask true q <-> List.length p = List.length q.
Proof.
  unfold mask. split; [intros E%(f_equal (@List.length Z)); by rewrite !length_map in E|].
  revert q. induction p as [|c p IH]; intros [|d q] E; try done. cbn. f_equal. apply IH. by injection E.
Qed.

Lemma non_empty_length p q : List.length p = List.length q -> non_empty p = non_empty q.
Proof. by destruct p, q. Qed.

Lemma auth_fields e i a : touch i = Idle -> auth_view (view a) = true ->
  flat_map fields (screen e i a) = [username_buff a; mask true (password_buff a)].
Proof.
  destruct i as [g on aw sp]. cbn [touch]. intros -> Hv. unfold screen, render_current_view, bind at 1, get at 1, show_view. cbn [app].
  destruct (view a); try done; reflexivity.
Qed.

Definition veiled (same_length : bool) (w w' : world) : Prop :=
  exists q, w' = mk_world (with_password q (app w)) (sent w) (closing w) (to_remove w) /\
    (same_length = true -> List.length q = List.length (password_buff (app w))).

Ltac lift :=
  let q := fresh "q" in intros ? ? (q & -> & ?); cbn [app controller with_password with_buffers last_stats is_muted
    file_offers file_downloads warning_msg error_msg].

Lemma username_alike hint : alike (veiled true) (username_field hint false) (username_field hint false).
Proof.
  apply alike_get. intros w w' (q & -> & Hq). apply alike_field; [done|]. apply alike_modify.
  intros v v' (q' & -> & Hq'). exists q'. split; [|exact Hq']. unfold on_app, acting. cbn. done.
Qed.

Lemma password_alike hint : alike (veiled true) (password_field hint true) (password_field hint true).
Proof.
  apply alike_get. intros w w' (q & -> & Hq). apply alike_field; [apply mask_length; symmetry; by apply Hq|]. apply alike_modify.
  intros v v' (q' & -> & Hq'). exists q. split; [|exact Hq]. unfold on_app, acting. cbn. done.
Qed.

#[local] Hint Resolve username_alike password_alike : alike.

(** Reading the state. *)
Ltac reads := apply alike_get; lift.

Lemma auth_alike e : alike (veiled true) (show_sign_up e) (show_sign_up e) /\ alike (veiled true) (show_log_in e) (show_log_in e).
Proof.
  assert (Hc : forall w w', veiled true w w' -> can_submit (app w') = can_submit (app w)).
  { intros w w' (q & -> & Hq). unfold can_submit. cbn. f_equal. apply non_empty_length. by apply Hq. }
  split; unfold show_sign_up, show_log_in; alike; apply alike_get; intros w w' Hw; rewrite (Hc w w' Hw);
    unfold primary_button, neutral_button; alike.
Qed.

Lemma hub_alike b e : alike (veiled b) (show_call_hub e) (show_call_hub e).
Proof.
  unfold show_call_hub, render_contacts_list, user_profile_header. alike. reads. alike. reads.
  destruct (get_users_status _); alike. apply alike_each. intros [u st].
  unfold contact_card, contact_info, status_indicator, contact_actions, call_action_button. destruct st; alike.
Qed.

Lemma incoming_alike b peer sdp e : alike (veiled b) (show_call_incoming peer sdp e) (show_call_incoming peer sdp e).
Proof.
  unfold show_call_incoming. apply alike_bind.
  - apply alike_perform. intros w w' (q & -> & Hq). unfold call_timeout. cbn. destruct (15 <=? _).
    + destruct (reject_call _ _ _ _) as [[r evs] c]. split; [done|]. by exists q.
    + split; [done|]. by exists q.
  - intros [|]; unfold draw_call_incoming, peer_label, call_button; alike.
Qed.

Lemma panel_alike b e : alike (veiled b) (show_side_panel e) (show_side_panel e).
Proof.
  unfold show_side_panel, draw_side_panel, show_downloading_files, show_file_offers. apply alike_bind; [alike|intros _].
  - reads. apply alike_each. intros [id meta]. unfold file_card. alike.
  - reads. alike; [by destruct (_ && _); alike|]. apply alike_each. intros [id meta]. unfold offer_card, file_card. alike.
  - apply alike_modify. intros w w' (q & -> & Hq). unfold remove_offer. cbn [to_remove].
    destruct (to_remove w) eqn:Er; [|exists q; by rewrite Er].
    exists q. unfold on_app, acting, set_removal. cbn. by destruct (file_save_rx (app w)).
Qed.

Lemma camera_alike b t texture : alike (veiled b) (show_camera t texture) (show_camera t texture).
Proof. unfold show_camera. destruct texture as [[[w h]|]|err]; alike. Qed.
#[local] Hint Resolve camera_alike : alike.

Lemma call_alike b name peer e : alike (veiled b) (show_call name peer e) (show_call name peer e).
Proof.
  unfold show_call. apply alike_bind; [apply panel_alike|intros _]. apply alike_bind.
  - apply alike_perform. intros w w' (q & -> & Hq). split; [done|]. by exists q.
  - intros [|]; [|apply alike_ret]. cbn [negb].
    unfold draw_call, show_video_layout, show_local_camera, show_remote_camera, show_bottom_toolbar, show_last_stats. alike.
    + reads. unfold call_action_btn. destruct (is_muted _); alike.
    + reads. unfold network_stats_panel. destruct (last_stats _); cbv zeta; alike.
Qed.

Lemma view_alike e v : alike (veiled (auth_view v)) (show_view e v) (show_view e v).
Proof.
  destruct v; cbn [auth_view show_view].
  - unfold show_welcome, primary_button, danger_button. alike.
  - exact (proj1 (auth_alike e)).
  - exact (proj2 (auth_alike e)).
  - apply hub_alike.
  - unfold show_calling, peer_label. alike.
  - apply incoming_alike.
  - unfold show_call_ended, primary_button. alike.
  - apply call_alike.
  - unfold show_error. alike. reads. alike.
  - unfold show_fatal_error, danger_button. alike.
  - unfold show_full_server, neutral_button. alike.
Qed.

Lemma screen_alike e on aw sp a q : (auth_view (view a) = true -> List.length q = List.length (password_buff a)) ->
  screen e (mk_input Idle on aw sp) (with_password q a) = screen e (mk_input Idle on aw sp) a.
Proof.
  intros Hq. set (i := mk_input Idle on aw sp). unfold screen, render_current_view, bind, get. cbn [app view with_password with_buffers].
  pose proof (view_alike e (view a) i 0%nat (mk_world a [] None None) (mk_world (with_password q a) [] None None) eq_refl
    (ex_intro _ q (conj eq_refl Hq))) as Hr.
  destruct (show_view e (view a) i 0%nat (mk_world a [] None None)) as [[[u ws] n1] s1].
  destruct (show_view e (view a) i 0%nat (mk_world (with_password q a) [] None None)) as [[[u' ws'] n1'] s1'].
  by destruct Hr as (_ & -> & _).
Qed.
End Screen.

(** A server that is full is announced in the very first frame. *)
Lemma full_server_start `{SetOrder} {Addr} `{Wire Addr} `{MapOrder UserStatus} addr_error c ex :
  initial_handshake (Addr := Addr) ex (Ok tt) = (Ok tt, [Events.FullServerError]) ->
  new (Ok c) ex (Ok tt) = inl (new_app c, [Events.FullServerError]) /\
  forall o, view (run_app_event_loop (Addr := Addr) addr_error [(Events.FullServerError, o)] false (new_app c)).1 = FullServer.
Proof. intros E. unfold new, init_controller. cbn. by rewrite E. Qed.

Lemma last_of_batch {A} (f : A) more : exists l, f :: more = l ++ [List.last more f].
Proof.
  exists (List.removelast (f :: more)). rewrite (List.app_removelast_last f (l := f :: more)) at 1 by done. by destruct more.
Qed.

(** * Properties *)

(** C17: drawing implements the state machine.  Whatever arrived and whatever is
    touched or typed, a frame drawn top to bottom leaves the application - its
    state, the events its calls sent, the decision to quit - as the abstract step
    of the control aimed at does; and when no control is hit the controls drawn
    are the warning's cross and exactly those the view offers, with their texts,
    in order, the greyed ones greyed: a call button per available contact, two
    answers while a call rings in time, the files' buttons in the call. *)
Theorem drawing_refines `{SetOrder} {Addr} `{Wire Addr} `{MapOrder UserStatus} `{FileOrder} `{Egui} addr_error
    (r : arrivals (Addr := Addr)) e (i : input) (a : RoomRTCApp) :
  active i = true ->
  let '(_, ws, _, w) := update addr_error r e i 0%nat (mk_world a [] None None) in
  let a1 := manage_files (r_saved r) (r_picked r) (e_outside e) (run_app_event_loop addr_error (r_events r) (r_closed r) a).1 in
  let a2 := Ui.show_warning_popup (dismisses (touch i)) a1 in
  let c := aim (touch i) (List.length (cross a1)) (offered (e_now e) a2) in
  let '(act, x) := meaning (touch i) c a2 in
  (app w, sent w) = Ui.update addr_error (mk_ui_frame (r_events r) (r_closed r) (r_saved r) (r_picked r)
                      (dismisses (touch i)) act (e_now e) (e_outside e)) a /\
  closing w = x /\
  (c = None -> flat_map controls ws = cross a1 ++ map fst (offered (e_now e) a2)).
Proof.
  intros Hi. unfold update, Ui.update. cbn [f_events f_closed f_saved f_picked f_dismiss f_action f_now f_outside].
  unfold bind at 1 2 3, add_space, draw, modify. unfold acting at 1. cbn [app sent closing to_remove].
  destruct (run_app_event_loop addr_error (r_events r) (r_closed r) a) as [a0 evs]. cbn [fst].
  unfold on_app at 1, acting at 1. cbn [app sent closing to_remove].
  set (a1 := manage_files _ _ _ a0). set (w1 := mk_world a1 _ None None).
  unfold bind. pose proof (popup_draws i w1 Hi) as Hp. destruct (show_warning_popup i 0%nat w1) as [[[u ws1] n1] w2].
  destruct Hp as (-> & -> & E1). change (app w1) with a1 in *. set (a2 := Ui.show_warning_popup (dismisses (touch i)) a1).
  assert (E2 : on_app (Ui.show_warning_popup (dismisses (touch i))) w1 = mk_world a2 evs None None).
  { unfold on_app, acting, w1. cbn [app sent closing to_remove]. by rewrite !app_nil_r. }
  rewrite E2. pose proof (render_means addr_error e (List.length (cross a1)) i (mk_world a2 evs None None) eq_refl Hi) as Hr.
  unfold means in Hr. cbn [app] in Hr. destruct (render_current_view _ _ _ _ _) as [[[u' ws2] n2] w']. cbv zeta in *.
  destruct Hr as [-> Hd]. destruct (meaning _ _ _) as [act x]. unfold step, acting. cbn [app sent closing to_remove].
  destruct (Ui.render_current_view _ _ _ _ _) as [a3 evs']. split; [by destruct x|]. split; [by destruct x|].
  intros Hc. destruct (Hd Hc) as [_ E3]. rewrite <-E1, <-E3. cbn. by rewrite flat_map_app.
Qed.

(** C29: the screen shows of the password its length and nothing else, and shows
    even that only in the two forms that ask for it: two applications that
    differ in the password alone are drawn the same exactly when the passwords
    are equally long, or no form is shown. *)
Theorem password_hidden `{SetOrder} {Addr} `{Wire Addr} `{MapOrder UserStatus} `{FileOrder} `{Egui} addr_error
    (e : surroundings (Addr := Addr)) on aw sp (a : RoomRTCApp) p q :
  screen addr_error e (mk_input Idle on aw sp) (with_password p a) =
  screen addr_error e (mk_input Idle on aw sp) (with_password q a) <->
  (auth_view (view a) = true -> List.length p = List.length q).
Proof.
  split.
  - intros E%(f_equal (flat_map fields)) Hv. rewrite !auth_fields in E by done. injection E as E. by apply mask_length in E.
  - intros Hl. apply (screen_alike addr_error e on aw sp (with_password q a) p). exact Hl.
Qed.

(** A video picture is the last frame received.  However the frames of a
    call are spread over the wakings of the thread that draws them, as long as
    each holds three bytes for every pixel the thread does not panic, and once it
    has taken all of them the texture shows the last; one shorter frame that is
    the last of its batch ends the thread. *)
Lemma texture_shows_last `{Egui} (wakings : list (Frame * list Frame * bool)) (t : option ColorImage) :
  Forall (fun '(f, more, locked) => locked = true /\
    Forall (fun f => Z.of_nat (List.length (data f)) = width f * height f * 3) (f :: more)) wakings ->
  (exists t', texture_thread wakings t = Ret t' /\
     match List.rev (List.concat (map (fun '(f, more, _) => f :: more) wakings)) with
     | f :: _ => exists img, t' = Some img /\ from_rgb (width f) (height f) (data f) = Ret img
     | [] => t' = t end) /\
  forall f more bad rest, Z.of_nat (List.length (data bad)) <> width bad * height bad * 3 -> List.last more f = bad ->
    texture_thread (wakings ++ (f, more, true) :: rest) t = Panic.
Proof.
  revert t. induction wakings as [|[[f more] locked] wakings IH]; intros t Hw.
  { split; [by exists t|]. intros f more bad rest Hb Hl. cbn. by rewrite Hl, from_rgb_short. }
  apply Forall_cons in Hw as [[-> Hf] Hw]. cbn [texture_thread negb map List.concat]. destruct (last_of_batch f more) as [l El].
  assert (Hl : Z.of_nat (List.length (data (List.last more f))) = width (List.last more f) * height (List.last more f) * 3).
  { rewrite Forall_forall in Hf. apply Hf. rewrite El. set_solver. }
  destruct (from_rgb_fits _ _ _ Hl) as [img Ei]. destruct (IH (Some img) Hw) as [(t' & Et & Hr) Hp]. split.
  - exists t'. rewrite Ei. split; [exact Et|]. rewrite rev_app_distr.
    destruct (List.rev (List.concat _)) as [|g k]; [|exact Hr]. cbn [List.app]. rewrite El, rev_app_distr. by exists img.
  - intros f' more' bad rest Hb Hl'. cbn [List.app texture_thread]. rewrite Ei. cbn [cbind negb]. by apply (Hp f' more' bad).
Qed.

(** * Witnesses *)

#[local] Instance demo_order {A} : MapOrder A := { iter := map_to_list; iter_permutation m := Permutation_refl _ }.
#[local] Instance demo_files : FileOrder := { files_iter := map_to_list; files_iter_permutation m := Permutation_refl _ }.
#[local] Instance raw_wire : Wire str := { Wire.display := id; from_str := Some }.
#[local] Instance set_order : SetOrder := { Sdp.order := elements; Sdp.order_perm s := Permutation_refl _ }.

#[local] Program Instance demo_egui : Egui := {
  bullet := 8226;
  ColorImage := (Z * Z * bytes)%type;
  from_rgb w h d := if Z.of_nat (List.length d) =? w * h * 3 then Ret (w, h, d) else Panic
}.
Next Obligation. intros w h d E. cbn. rewrite E, Z.eqb_refl. by eexists. Qed.
Next Obligation. intros w h d E. cbn. by destruct (Z.eqb_spec (Z.of_nat (List.length d)) (w * h * 3)). Qed.

Definition demo_surroundings : surroundings (Addr := str) := mk_surroundings 0 0 offline_world (Ok None) (Ok None).

(** Touching the second control of the first view. *)
Lemma drawing_refines_witness :
  let '(_, _, _, w) := update id (mk_arrivals [] false None None) demo_surroundings (mk_input (Click 1) true one one) 0%nat
    (mk_world (new_app (controller rung)) [] None None) in view (app w) = LogInView.
Proof.
  pose proof (drawing_refines id (mk_arrivals [] false None None) demo_surroundings (mk_input (Click 1) true one one)
    (new_app (controller rung)) eq_refl) as H.
  destruct (update _ _ _ _ _ _) as [[[u ws] n] w]. cbv zeta in H.
  destruct H as [H _]. apply (f_equal fst) in H. cbn [fst] in H. rewrite H. reflexivity.
Defined.

Definition pixel (c : Z) : Frame := mk_frame [c; c; c] 1 1 0.

Example last_pixel :
  texture_thread [(pixel 1, [pixel 2], true); (pixel 3, [], true)] None = Ret (Some (1, 1, [3; 3; 3])).
Proof. reflexivity. Qed.
