(* ===== verification/Devices.v ===== *)
(** What the devices do while the user looks at the views: the camera and the
    microphone of Capture under the state machine of Ui (src/ui/interface.rs,
    src/controller/control.rs, src/media/).

    [truthful] says what the user is told: the camera and the microphone run
    exactly in the call view, and the mute button shows the microphone's own flag.
    [shown] is the invariant behind it; it holds along every run whose frames are
    [smooth_frame]s, and section Breaks shows that during a call every event that
    is not smooth breaks it. *)

From S2P Require Import Prelude.
From S2P Require Import Audio.
From S2P Require Import Ice.
From S2P Require Import Capture.
From S2P Require Import Text.
From S2P Require Import Wire.
From S2P Require Import Sdp.
From S2P Require Import CallSession.
From S2P Require Import Events.
From S2P Require Import UserStatus.
From S2P Require Import ClientMessage.
From S2P Require Import ServerResponse.
From S2P Require Import Controller.
From S2P Require Import Ui.

(** * Definitions *)

Section Devices.
Context `{SetOrder} {Addr : Type} `{Wire Addr} `{MapOrder UserStatus} (addr_error : str -> str).
Implicit Types (a : RoomRTCApp) (o : outside (Addr := Addr)) (c : Controller).

Definition in_call (v : View) : bool := match v with Call _ _ => true | _ => false end.
Definition camera_on (a : RoomRTCApp) : bool := cam_running (camera (media_pipeline (controller a))).

(** The microphone's three flags, as the screen suggests them. *)
Definition mic_shown (c : Controller) (mute on : bool) : Prop :=
  forall m, audio (media_pipeline c) = Some m -> m = mk_microphone mute on false.

Definition shown (a : RoomRTCApp) : Prop :=
  camera_on a = in_call (view a) /\ mic_shown (controller a) (is_muted a) (in_call (view a)) /\
  (in_call (view a) = false -> is_muted a = false).

(** What the user is told: the camera and the microphone run exactly while the
    call view is shown, and the mute button says what the microphone does. *)
Definition truthful (a : RoomRTCApp) : Prop :=
  camera_on a = in_call (view a) /\
  forall m, audio (media_pipeline (controller a)) = Some m -> capturing m = in_call (view a) /\ muted m = is_muted a.

(** A call is joined, or given up before the devices are touched. *)
Definition joins {E} (r : result unit E) (c c' : Controller) : Prop :=
  is_ok r = true \/ media_pipeline c' = media_pipeline c.

(** The server grants the hang-up. *)
Definition granted (ex : exchange) c : bool :=
  match get_token c with
  | Ok token => match (Controller.send_message (Addr := Addr) (CallHangup token) ex).1 with Ok CallHangUpOk => true | _ => false end
  | Err _ => false
  end.

(** What may come from the event channel.  The end of a call and an error may
    come at any time, if the server grants the hang-up that a call in progress
    makes the application ask for.  An incoming call, a rejection and the news
    of a full server come outside of a call.  An answer leads into the call, or
    comes outside of a call and is given up before the devices are touched.  A
    fatal error may come at any time but while the microphone is muted. *)
Definition smooth_event (event : AppEvent) (o : outside (Addr := Addr)) (a : RoomRTCApp) : Prop :=
  match event with
  | CallEnded | ErrorEvent _ => in_call (view a) = true -> granted (o_exchange o) (controller a) = true
  | CallIncoming _ _ | CallRejected | FullServerError => in_call (view a) = false
  | CallAccepted answer_sdp _ _ =>
      let '(r, _, c) := get_in_call addr_error answer_sdp (o_ice o) (o_media o) (controller a) in
      is_ok r = true \/ (in_call (view a) = false /\ media_pipeline c = media_pipeline (controller a))
  | FatalError => is_muted a = false
  | _ => True
  end.

Fixpoint smooth_events (events : list (AppEvent * outside (Addr := Addr))) (a : RoomRTCApp) : Prop :=
  match events with
  | [] => True
  | (event, o) :: events => smooth_event event o a /\ smooth_events events (handle_event addr_error event o a).1
  end.

(** What the buttons may meet: the button that ends the call needs the server's
    grant, and, while the microphone is muted, the whole hang-up to succeed; an
    accepted call is joined or given up before the devices are touched.  The other
    buttons may meet anything. *)
Definition smooth_action (act : action) (o : outside (Addr := Addr)) (a : RoomRTCApp) : Prop :=
  match view a, act with
  | Call _ _, ClickEndCall =>
      granted (o_exchange o) (controller a) = true /\
      (is_ok (hang_up (o_exchange o) (o_renewal o) (controller a)).1.1 = true \/ is_muted a = false)
  | CallIncomingView peer sdp, ClickAccept =>
      let '(r, _, c) := accept_call addr_error peer sdp (o_exchange o) (o_ice o) (o_media o) (controller a) in
      joins r (controller a) c
  | _, _ => True
  end.

(** A frame: its events one after the other, the event channel, which is not
    closed while the call view is shown, and the button. *)
Definition smooth_frame (f : frame (Addr := Addr)) (a : RoomRTCApp) : Prop :=
  smooth_events (f_events f) a /\
  (f_closed f = true -> in_call (view (run_app_event_loop addr_error (f_events f) false a).1) = false) /\
  smooth_action (f_action f) (f_outside f)
    (show_warning_popup (f_dismiss f) (manage_files (f_saved f) (f_picked f) (f_outside f)
       (run_app_event_loop addr_error (f_events f) (f_closed f) a).1)).

Fixpoint smooth_run (frames : list (frame (Addr := Addr))) (a : RoomRTCApp) : Prop :=
  match frames with
  | [] => True
  | f :: frames => smooth_frame f a /\ smooth_run frames (update addr_error f a).1
  end.

(** * Lemmas *)

(** ** The controller's operations and the devices *)

Lemma join_call_pipeline m c :
  let '(r, _, c') := join_call addr_error m c in
  (is_ok r = true -> pipeline_start (devices m) (media_pipeline c) = (Ok tt, (pipeline_start (devices m) (media_pipeline c)).1.2, media_pipeline c')) /\
  token c' = token c.
Proof.
  unfold join_call, setup_file_transferer. destruct (rbind _ _) as [[[[rtp rtcp] sctp] f]|e]; [|by split].
  destruct (transport_start _ _ _ _ _); [|by split]. destruct (transferer_new _ _ _ _ _); [|by split].
  cbn [media_pipeline with_transferer]. destruct (pipeline_start _ _) as [[[[]|e] ev] p]; cbn; by split.
Qed.

(** Starting on a microphone with a sound lock keeps its mute flag. *)
Lemma pipeline_start_shown io p p' evs :
  pipeline_start io p = (Ok tt, evs, p') ->
  cam_running (camera p') = true /\
  forall m', audio p' = Some m' -> exists m, audio p = Some m /\ m' = mk_microphone (muted m) true false.
Proof.
  intros E. pose proof (pipeline_start_up io p p' evs E) as [Hc _]. split; [done|]. revert E.
  unfold pipeline_start, start_local_frame_pipeline, start_encoded_sender_thread, start_remote_frame_pipeline.
  destruct (h264_encoder io); [|done]. destruct (start_internal (device io) [] (camera p)) as [[l b] c].
  destruct (h264_decoder io); [|done]. cbn [audio]. destruct (audio p) as [m|].
  - unfold audio_start, start_audio_sender_pipeline, mic_start. destruct (rbind _ _) as [[]|e]; cbn; [|done].
    destruct (map_err _ _) as [[]|e]; [|done]. intros [= _ <-] m' [= <-]. by exists m.
  - by intros [= _ <-].
Qed.

(** A hang-up stops the devices when it is granted, and only then. *)
Lemma hang_up_pipeline ex n c :
  let '(r, _, c') := hang_up (Addr := Addr) ex n c in
  (exists text, media_pipeline c' = if granted ex c then pipeline_stop text (media_pipeline c) else media_pipeline c) /\
  (is_ok r = true -> granted ex c = true).
Proof.
  unfold hang_up, granted. destruct (get_token c); [|split; [by exists []|done]].
  destruct (Controller.send_message _ _) as [[resp|e] evs]; cbn [fst]; [|split; [by exists []|done]].
  destruct resp; try (split; [by exists []|done]). unfold stop_media_components.
  destruct (map_err _ (transport_stop n)); [|split; [by eexists|done]].
  destruct (map_err _ (new_transport n)); [|split; [by eexists|done]]. destruct (rbind _ _); (split; [by eexists|done]).
Qed.

Lemma reject_call_pipeline peer ex sent c :
  let '(_, _, c') := reject_call (Addr := Addr) peer ex sent c in media_pipeline c' = media_pipeline c.
Proof.
  unfold reject_call. destruct (get_token c); [|done]. destruct (Controller.send_message _ _) as [[resp|e] evs]; [|done].
  destruct resp; try done. unfold send_event_or_log_out. by destruct sent.
Qed.

Lemma log_in_pipeline name passwd ex start c :
  let '(_, _, c') := log_in (Addr := Addr) name passwd ex start c in media_pipeline c' = media_pipeline c.
Proof. unfold log_in. destruct (Controller.send_message _ _) as [[resp|e] evs]; [|done]. by destruct resp. Qed.

Lemma log_out_pipeline ex c : let '(_, _, c') := log_out (Addr := Addr) ex c in media_pipeline c' = media_pipeline c.
Proof.
  unfold log_out. destruct (get_token c); [|done]. destruct (Controller.send_message _ _) as [[resp|e] evs]; [|done].
  by destruct resp.
Qed.

Lemma check_and_join_pipeline t m c :
  let '(r, _, c') := check_and_join addr_error t m c in
  (is_ok r = true -> exists evs, pipeline_start (devices m) (media_pipeline c) = (Ok tt, evs, media_pipeline c')) /\
  token c' = token c.
Proof.
  unfold check_and_join. destruct (start_ice_checks _ _ _) as [[u|e] s]; [|by split].
  pose proof (join_call_pipeline m (with_session s c)) as Hj. destruct (join_call _ _ _) as [[r evs] c'].
  destruct Hj as [Hj Ht]. split; [|done]. intros Hr. eexists. by apply Hj.
Qed.

Lemma get_in_call_pipeline sdp t m c :
  let '(r, _, c') := get_in_call addr_error sdp t m c in
  is_ok r = true -> exists evs, pipeline_start (devices m) (media_pipeline c) = (Ok tt, evs, media_pipeline c').
Proof.
  unfold get_in_call. destruct (process_answer _ _) as [[u|e] s]; [|done].
  pose proof (check_and_join_pipeline t m (with_session s c)) as Hj. destruct (check_and_join _ _ _ _) as [[r evs] c']. apply Hj.
Qed.

Lemma accept_call_pipeline peer sdp ex t m c :
  let '(r, _, c') := accept_call (Addr := Addr) addr_error peer sdp ex t m c in
  is_ok r = true -> (exists evs, pipeline_start (devices m) (media_pipeline c) = (Ok tt, evs, media_pipeline c')) /\
    exists name, get_username c' = Ok name.
Proof.
  unfold accept_call. destruct (process_offer _ _) as [[ans|e] s]; [|done].
  destruct (get_token _) as [tk|e] eqn:Et; [|done]. destruct (Controller.send_message _ _) as [[resp|e] evs]; [|done].
  destruct resp; try done. pose proof (check_and_join_pipeline t m (with_session s c)) as Hj.
  destruct (check_and_join _ _ _ _) as [[r evs'] c']. destruct Hj as [Hj Ht]. intros Hr. split; [by apply Hj|].
  exists tk. unfold get_username, get_token in *. by rewrite Ht.
Qed.

(** ** Keeping the screen truthful *)

Lemma shown_joined a name peer io evs p b c :
  shown a -> pipeline_start io (media_pipeline (controller a)) = (Ok tt, evs, p) ->
  media_pipeline c = p -> shown (with_frames b (with_view (Call name peer) (with_controller c a))).
Proof.
  intros (_ & Hm & _) E Ep. apply pipeline_start_shown in E as [Hc Hs]. split_and!; [| |done].
  - unfold camera_on. cbn. by rewrite Ep.
  - intros m'. cbn [controller with_frames with_view with_controller]. rewrite Ep. intros Hm'.
    destruct (Hs m' Hm') as (m & Em & ->). by rewrite (Hm m Em).
Qed.

(** Changing neither the devices nor the side of the view. *)
Lemma shown_same a a' :
  media_pipeline (controller a') = media_pipeline (controller a) -> in_call (view a') = in_call (view a) ->
  is_muted a' = is_muted a -> shown a -> shown a'.
Proof. unfold shown, camera_on, mic_shown. by intros -> -> ->. Qed.

Lemma stopped_shown text c :
  (exists b on, mic_shown c b on) -> forall c', media_pipeline c' = pipeline_stop text (media_pipeline c) ->
  cam_running (camera (media_pipeline c')) = false /\ mic_shown c' false false.
Proof.
  intros (b & on & Hm) c' E'. unfold mic_shown at 1. rewrite E'. split; [done|]. clear E'. intros m. cbn. destruct (audio (media_pipeline c)) as [m0|] eqn:E; [|done].
  intros [= <-]. specialize (Hm m0 E). subst m0. done.
Qed.

(** The devices after a hang-up that is granted, or asked for outside of a call. *)
Lemma hung_up_shown ex n a :
  shown a -> (in_call (view a) = true -> granted ex (controller a) = true) ->
  let '(_, _, c) := hang_up (Addr := Addr) ex n (controller a) in
  cam_running (camera (media_pipeline c)) = false /\ mic_shown c false false.
Proof.
  intros (Hc & Hm & Hmu) Hg. pose proof (hang_up_pipeline ex n (controller a)) as Hp. destruct (hang_up _ _ _) as [[r evs] c].
  destruct Hp as [(text & Ep) _]. destruct (granted ex (controller a)).
  - apply (stopped_shown text (controller a)); [by eauto|done].
  - destruct (in_call (view a)); [by specialize (Hg eq_refl)|]. rewrite Hmu in Hm by done. unfold camera_on in Hc. unfold mic_shown in *.
    by rewrite Ep.
Qed.

Lemma end_call_shown o on_ok a :
  shown a -> (in_call (view a) = true -> granted (o_exchange o) (controller a) = true) ->
  (forall a, controller (on_ok a) = controller a /\ in_call (view (on_ok a)) = false) ->
  shown (reset_after_call (end_call o on_ok a).1).
Proof.
  intros Hs Hh Hon. pose proof (hung_up_shown _ (o_renewal o) a Hs Hh) as Hp. unfold end_call.
  destruct (hang_up _ _ _) as [[r evs] c]. cbn [fst]. destruct (Hon (with_controller c a)) as [Ec Ev].
  unfold shown, camera_on. cbn [controller view is_muted reset_after_call with_muted with_files with_timer with_frames].
  destruct (is_ok r); [rewrite Ev, Ec|]; by destruct Hp.
Qed.

Lemma event_shown e o a : shown a -> smooth_event e o a -> shown (handle_event addr_error e o a).1.
Proof.
  intros Hs He. destruct e as [|peer sdp|sdp name peer| | |err| |st|st|id meta|id]; cbn [handle_event smooth_event] in *.
  - by apply (shown_same a).
  - by apply (shown_same a).
  - pose proof (get_in_call_pipeline sdp (o_ice o) (o_media o) (controller a)) as Hp.
    destruct (get_in_call _ _ _ _ _) as [[r evs] c]. destruct r as [u|e].
    + destruct (Hp eq_refl) as (ev & E). cbn. by eapply shown_joined.
    + cbn. destruct He as [|[Hv Hj]]; [done|]. by apply (shown_same a).
  - by apply (shown_same a).
  - pose proof (end_call_shown o (with_view CallEndedView) a Hs He ltac:(done)) as Hr. by destruct (end_call _ _ _).
  - pose proof (end_call_shown o (fun a => with_view CallEndedView (with_warning err a)) a Hs He ltac:(done)) as Hr.
    by destruct (end_call _ _ _).
  - destruct Hs as (_ & Hm & _). unfold stop_media_components. cbn.
    destruct (stopped_shown (lit "poisoned lock: another task failed inside") (controller a) ltac:(eauto)
      (stop_media_components (o_renewal o) (controller a)).2 eq_refl) as [Hc' Hs'].
    unfold shown, camera_on. cbn. rewrite He. by split.
  - by apply (shown_same a).
  - by apply (shown_same a).
  - by apply (shown_same a).
  - by apply (shown_same a).
Qed.

Lemma events_shown l closed a :
  shown a -> smooth_events l a ->
  (closed = true -> in_call (view (run_app_event_loop addr_error l false a).1) = false) ->
  shown (run_app_event_loop addr_error l closed a).1.
Proof.
  revert a. induction l as [|[e o] l IH]; intros a Hs; cbn [smooth_events run_app_event_loop].
  - intros _ Hc. destruct closed; [|done]. apply (shown_same a); [done| |done|done]. cbn. symmetry. by apply Hc.
  - intros [He Hl]. pose proof (event_shown e o a Hs He) as Hs1. destruct (handle_event addr_error e o a) as [a1 evs].
    intros Hc. cbn [fst] in *. specialize (IH a1 Hs1 Hl).
    destruct (run_app_event_loop addr_error l closed a1) as [a2 evs2]. cbn [fst] in *. apply IH.
    intros Hcl. specialize (Hc Hcl). by destruct (run_app_event_loop addr_error l false a1).
Qed.

Lemma manage_files_muted saved picked o a : is_muted (manage_files saved picked o a) = is_muted a.
Proof. unfold manage_files, save_answered, send_answered. destruct saved as [[[id m] path]|], picked as [[]|]; repeat case_match; done. Qed.

Lemma auth_shown o a : in_call (view a) = false -> shown a -> shown (handle_login_action o a).1 /\ shown (handle_signup_action o a).1.
Proof.
  intros Hv Hs. split.
  - unfold handle_login_action. pose proof (log_in_pipeline (username_buff a) (password_buff a) (o_exchange o) (o_receiver o) (controller a)) as Hp.
    destruct (log_in _ _ _ _ _) as [[r evs] c]. destruct r; by apply (shown_same a).
  - unfold handle_signup_action. destruct (sign_up _ _ _) as [[u|e] evs]; by apply (shown_same a).
Qed.

Lemma hub_shown act o a : in_call (view a) = false -> shown a -> shown (show_call_hub act o a).1.
Proof.
  intros Hv Hs. unfold show_call_hub. destruct act; try done.
  - unfold log_out_action. pose proof (log_out_pipeline (o_exchange o) (controller a)) as Hp.
    destruct (log_out _ _) as [[r evs] c]. destruct (is_ok r); by apply (shown_same a).
  - unfold render_contacts_list, call_action. destruct (get_users_status _); [|done]. destruct (can_call _); [|done].
    destruct (call _ _ _) as [r evs]. destruct (is_ok r); by apply (shown_same a).
Qed.

Lemma incoming_shown peer sdp act now o a :
  view a = CallIncomingView peer sdp -> smooth_action act o a -> shown a ->
  shown (show_call_incoming addr_error peer sdp act now o a).1.
Proof.
  intros Hv Ha Hs. assert (Hi : in_call (view a) = false) by by rewrite Hv.
  unfold show_call_incoming, call_timeout. cbn zeta. destruct (15 <=? _).
  { pose proof (reject_call_pipeline peer (o_exchange o) (o_event_ok o) (controller a)) as Hp.
    cbn [controller with_warning with_messages with_timer].
    destruct (reject_call _ _ _ _) as [[r evs] c]. by apply (shown_same a). }
  destruct act; try (by apply (shown_same a)).
  - unfold smooth_action in Ha. rewrite Hv in Ha. unfold handle_accept_logic. cbn [controller with_timer].
    pose proof (accept_call_pipeline peer sdp (o_exchange o) (o_ice o) (o_media o) (controller a)) as Hp.
    destruct (accept_call _ _ _ _ _ _ _) as [[r evs] c]. destruct r as [u|e].
    + destruct (Hp eq_refl) as [(ev & E) (name & En)]. cbn [controller with_controller]. rewrite En. cbn.
      by apply (shown_joined (with_timer (Some (match time_call_incoming a with Some t => t | None => now end)) a) name peer (devices (o_media o)) ev (media_pipeline c) false c).
    + destruct Ha as [|Ha]; [done|]. by apply (shown_same a).
  - unfold handle_decline_logic. cbn [controller with_timer].
    pose proof (reject_call_pipeline peer (o_exchange o) (o_event_ok o) (controller a)) as Hp.
    destruct (reject_call _ _ _ _) as [[[u|e] evs] c]; by apply (shown_same a).
Qed.

Lemma toggle_shown c b on : mic_shown c b on -> mic_shown (toggle_audio c) (negb b) on.
Proof.
  intros Hm m. cbn. destruct (audio (media_pipeline c)) as [m0|] eqn:E; [|done]. intros [= <-]. by rewrite (Hm m0 E).
Qed.

Lemma call_shown name peer act o a :
  view a = Call name peer -> smooth_action act o a -> shown a -> shown (show_call act o a).1.
Proof.
  intros Hv Ha Hs. assert (Hp : forall a', media_pipeline (controller a') = media_pipeline (controller a) ->
    view a' = view a -> is_muted a' = is_muted a -> shown (with_frames false a')).
  { intros a' E1 E2 E3. apply (shown_same a); [done| |done|done]. cbn. by rewrite E2. }
  unfold show_call, handle_call_video_update, update_video_textures. cbn [negb].
  destruct act; cbn [show_side_panel show_bottom_toolbar fst]; try (by apply Hp).
  - unfold smooth_action in Ha. rewrite Hv in Ha. destruct Ha as [Hg Hok]. unfold end_call_action, end_call.
    pose proof (hung_up_shown (o_exchange o) (o_renewal o) a Hs (fun _ => Hg)) as Hh. cbn [controller with_frames].
    destruct (hang_up _ _ _) as [[r evs] c]. destruct Hh as [Hcam Hmic]. cbn [fst] in Hok. unfold shown, camera_on.
    destruct (is_ok r); [by split_and!|]. destruct Hok as [|Hmu]; [done|]. cbn. rewrite Hmu. by split_and!.
  - destruct (Hp a eq_refl eq_refl eq_refl) as (Hc & Hm & _). split_and!; [exact Hc|by apply (toggle_shown _ _ _ Hm)|].
    cbn. by rewrite Hv.
  - apply Hp; by case_bool_decide.
  - apply Hp; (case_bool_decide; [|done]); unfold reject_offer_action; repeat case_match; done.
Qed.

Lemma render_shown act now o a : app_ok a -> shown a -> smooth_action act o a -> shown (render_current_view addr_error act now o a).1.
Proof.
  intros Hok Hs Ha. unfold render_current_view. destruct (view a) as [| | | |peer|peer sdp| |name peer| | |] eqn:Ev.
  - unfold show_welcome. destruct act; try done; apply (shown_same a); by rewrite ?Ev.
  - unfold show_sign_up. destruct act; try done; try (apply (shown_same a); by rewrite ?Ev).
    destruct (_ && _); [|done]. apply auth_shown; [by rewrite Ev|done].
  - unfold show_log_in. destruct act; try done; try (apply (shown_same a); by rewrite ?Ev).
    destruct (_ && _); [|done]. apply auth_shown; [by rewrite Ev|done].
  - apply hub_shown; [by rewrite Ev|done].
  - done.
  - by apply incoming_shown.
  - unfold show_call_ended. destruct act; try done. apply (shown_same a); by rewrite ?Ev.
  - by apply (call_shown name peer).
  - unfold app_ok in Hok. by rewrite Ev in Hok.
  - done.
  - done.
Qed.

Lemma update_shown f a : app_ok a -> shown a -> smooth_frame f a -> shown (update addr_error f a).1.
Proof.
  intros Hok Hs (He & Hc & Ha). unfold update. pose proof (event_loop_ok addr_error (f_events f) (f_closed f) a Hok) as Hok1.
  pose proof (events_shown (f_events f) (f_closed f) a Hs He Hc) as Hs1.
  destruct (run_app_event_loop addr_error (f_events f) (f_closed f) a) as [a1 evs]. cbn [fst] in *.
  destruct (manage_files_view (f_saved f) (f_picked f) (f_outside f) a1) as [Ev Ec].
  pose proof (manage_files_muted (f_saved f) (f_picked f) (f_outside f) a1) as Em.
  set (a2 := manage_files _ _ _ a1) in *. set (a3 := show_warning_popup (f_dismiss f) a2) in *.
  assert (H3 : view a3 = view a1 /\ controller a3 = controller a1 /\ is_muted a3 = is_muted a1).
  { unfold a3, show_warning_popup. destruct (warning_msg a2); [destruct (f_dismiss f)|]; cbn; by rewrite ?Ev, ?Ec, ?Em. }
  destruct H3 as (V3 & C3 & M3).
  pose proof (render_shown (f_action f) (f_now f) (f_outside f) a3) as Hr.
  destruct (render_current_view _ _ _ _ a3) as [a4 evs']. apply Hr; [|apply (shown_same a1); by rewrite ?V3, ?C3|done].
  unfold app_ok. by rewrite V3, C3.
Qed.

End Devices.

(** ** What breaks it *)

Section Breaks.
Context `{SetOrder} {Addr : Type} `{Wire Addr} `{MapOrder UserStatus} (addr_error : str -> str).
Implicit Types (a : RoomRTCApp) (o : outside (Addr := Addr)) (c : Controller).

Lemma pipeline_start_camera io p : cam_running (camera p) = true -> cam_running (camera (pipeline_start io p).2) = true.
Proof.
  intros Hc. unfold pipeline_start, start_local_frame_pipeline, start_encoded_sender_thread. destruct (h264_encoder io); [|done].
  assert (cam_running (start_internal (device io) [] (camera p)).2 = true) by (unfold start_internal; by destruct (device io)).
  destruct (start_internal (device io) [] (camera p)) as [[l b] c]. unfold start_remote_frame_pipeline.
  destruct (h264_decoder io); [|done]. cbn [audio]. destruct (audio p) as [m|]; [|done]. by destruct (audio_start _ m).
Qed.

Lemma get_in_call_camera sdp t m c :
  cam_running (camera (media_pipeline c)) = true ->
  cam_running (camera (media_pipeline (get_in_call addr_error sdp t m c).2)) = true.
Proof.
  intros Hc. unfold get_in_call. destruct (process_answer _ _) as [[u|e] s]; [|done]. unfold check_and_join.
  destruct (start_ice_checks _ _ _) as [[u'|e] s']; [|done]. unfold join_call, setup_file_transferer.
  destruct (rbind _ _) as [[[[rtp rtcp] sctp] f]|e]; [|done].
  destruct (transport_start _ _ _ _ _); [|done]. destruct (transferer_new _ _ _ _ _); [|done].
  pose proof (pipeline_start_camera (devices m) (media_pipeline c) Hc) as Hp. cbn [media_pipeline with_transferer with_session] in *.
  by destruct (pipeline_start _ _) as [[r ev] p].
Qed.

(** The camera runs and the call is not on the screen. *)
Lemma camera_left a : camera_on a = true -> in_call (view a) = false -> ~ truthful a.
Proof. intros Hc Hv [Ht _]. congruence. Qed.

Lemma refused_camera o on_ok a :
  camera_on a = true -> granted (o_exchange o) (controller a) = false ->
  view (end_call o on_ok a).1 = FatalErrorView /\ camera_on (end_call o on_ok a).1 = true.
Proof.
  intros Hc Hg. pose proof (hang_up_pipeline (o_exchange o) (o_renewal o) (controller a)) as Hp. unfold end_call, camera_on in *.
  destruct (hang_up _ _ _) as [[r evs] c]. rewrite Hg in Hp. destruct Hp as [[_ Ep] Hr]. cbn [fst].
  destruct (is_ok r); [by specialize (Hr eq_refl)|]. cbn. by rewrite Ep.
Qed.

(** Stopping the microphone clears the mute flag, or (its lock poisoned) leaves it running. *)
Lemma stop_lies text m : capturing m = true -> ~ (capturing (mic_stop text m).2 = false /\ muted (mic_stop text m).2 = true).
Proof. unfold mic_stop. destruct (mic_poisoned m); cbn; intros ? [? ?]; congruence. Qed.

Lemma event_breaks event o a m :
  truthful a -> in_call (view a) = true -> audio (media_pipeline (controller a)) = Some m ->
  ~ smooth_event addr_error event o a -> ~ truthful (handle_event addr_error event o a).1.
Proof.
  intros [Hcam Hmic] Hv Hm Hn. rewrite Hv in Hcam.
  assert (Hg : forall b : bool, ~ (in_call (view a) = true -> b = true) -> b = false) by (intros [] Hb; [by destruct Hb|done]).
  destruct event as [|peer sdp|sdp name peer| | |err| |st|st|id meta|id]; cbn [handle_event smooth_event] in *;
    try (by apply camera_left); try (by destruct Hn).
  - pose proof (get_in_call_camera sdp (o_ice o) (o_media o) (controller a) Hcam) as Hk.
    destruct (get_in_call _ _ _ _ _) as [[[u|e] evs] c]; [by destruct Hn; left|]. apply camera_left; [exact Hk|done].
  - apply Hg in Hn. destruct (refused_camera o (with_view CallEndedView) a Hcam Hn) as [V C].
    destruct (end_call _ _ _) as [a' evs]. cbn [fst] in *. apply camera_left; [exact C|]. cbn. by rewrite V.
  - apply Hg in Hn. destruct (refused_camera o (fun a => with_view CallEndedView (with_warning err a)) a Hcam Hn) as [V C].
    destruct (end_call _ _ _) as [a' evs]. cbn [fst] in *. apply camera_left; [exact C|]. cbn. by rewrite V.
  - assert (Hmu : is_muted a = true) by (destruct (is_muted a); [done|by destruct Hn]).
    intros [_ Ht]. cbn [fst stop_media_components view is_muted controller with_view with_controller media_pipeline with_pipeline pipeline_stop audio] in Ht.
    rewrite Hm in Ht. specialize (Ht _ eq_refl). rewrite Hmu in Ht. revert Ht. apply stop_lies. rewrite <-Hv. by apply Hmic.
Qed.

Lemma end_click_breaks o now a m :
  truthful a -> in_call (view a) = true -> audio (media_pipeline (controller a)) = Some m ->
  ~ smooth_action addr_error ClickEndCall o a ->
  ~ truthful (render_current_view addr_error ClickEndCall now o a).1.
Proof.
  intros [Hcam Hmic] Hv Hm Hn. rewrite Hv in Hcam. unfold smooth_action in Hn. unfold render_current_view.
  destruct (view a) as [| | | |peer|peer sdp| |name peer| | |] eqn:Ev; try done.
  unfold show_call, handle_call_video_update, update_video_textures. cbn [negb show_side_panel show_bottom_toolbar]. unfold end_call_action.
  destruct (granted (o_exchange o) (controller a)) eqn:Hg.
  - pose proof (hang_up_pipeline (o_exchange o) (o_renewal o) (controller a)) as Hp. unfold end_call. cbn [controller with_frames].
    destruct (hang_up _ _ _) as [[r evs] c]. rewrite Hg in Hp. destruct Hp as [[text Ep] _]. cbn [fst] in Hn.
    destruct (is_ok r); [by destruct Hn; split; [|left]|]. destruct (is_muted a) eqn:Hmu; [|by destruct Hn; split; [|right]].
    intros [_ Ht]. cbn [fst view is_muted controller with_view with_controller with_frames] in Ht. rewrite Ep in Ht.
    cbn [audio pipeline_stop] in Ht. rewrite Hm in Ht. specialize (Ht _ eq_refl). rewrite Hmu in Ht. revert Ht. apply stop_lies.
    rewrite <-Hv. by apply Hmic.
  - destruct (refused_camera o (fun a => with_view CallHub (reset_after_call a)) (with_frames false a) Hcam Hg) as [V C].
    destruct (end_call _ _ _) as [a' evs]. cbn [fst] in *. apply camera_left; [exact C|by rewrite V].
Qed.

End Breaks.

(** A join that fails once the encoder is there leaves the camera running. *)
Lemma failed_join_keeps_camera `{SetOrder} {Addr} `{Wire Addr} addr_error m (c : Controller) rtp rtcp sctp f :
  get_remote_addresses (Addr := Addr) addr_error c = Ok (rtp, rtcp, sctp) -> remote_fingerprint (call_session c) = Some f ->
  transport_start m rtp rtcp (local_setup_role (call_session c)) f = Ok tt ->
  transferer_new m (wrap 16 (rtp_port c + 2)) sctp (local_setup_role (call_session c)) f = Ok tt ->
  h264_encoder (devices m) = true -> is_ok (pipeline_start (devices m) (media_pipeline c)).1.1 = false ->
  let '(r, _, c') := join_call addr_error m c in is_ok r = false /\ cam_running (camera (media_pipeline c')) = true.
Proof.
  intros Ha Hf Ht Hx He Hp. unfold join_call, setup_file_transferer. rewrite Ha, Hf. cbn [map_err ok_or rbind].
  rewrite Ht, Hx. cbn [media_pipeline with_transferer].
  pose proof (failed_start_keeps_camera (devices m) (media_pipeline c) He Hp) as Hc.
  destruct (pipeline_start _ _) as [[[u|e] evs] p]; [done|]. by split.
Qed.

(** * Properties *)

(** C11: the screen is truthful, and what breaks it.  Along every run of the
    application that meets these conditions, the camera and the microphone run
    exactly while the call view is shown, and the mute button says what the
    microphone does.  The conditions ([smooth_frame]): no incoming call, no
    rejection and no news of a full server arrives while the call view is shown;
    an answer leads into the call, or arrives outside of a call and is given up
    before the devices are touched; a fatal error does not arrive while the
    microphone is muted; the event channel is not closed while the call view is
    shown; when a call in progress ends, by an event or by the button, the server
    grants the hang-up (and if the button is pressed while muted, the rest of the
    hang-up succeeds too); a call that is accepted is joined or given up before
    the devices are touched.  During a call none of them is idle: from any
    truthful state with the call view shown, an event, an end of the channel or a
    press of the button that is not smooth leaves an untruthful screen. *)
Theorem screen_truthful `{SetOrder} {Addr} `{Wire Addr} `{MapOrder UserStatus} addr_error :
  (forall (frames : list (frame (Addr := Addr))) (c : Controller),
     media_pipeline c = new_pipeline -> smooth_run addr_error frames (new_app c) ->
     truthful (foldl (fun a f => (update addr_error f a).1) (new_app c) frames)) /\
  (forall (a : RoomRTCApp) m,
     truthful a -> in_call (view a) = true -> audio (media_pipeline (controller a)) = Some m ->
     (forall event (o : outside (Addr := Addr)), ~ smooth_event addr_error event o a ->
        ~ truthful (handle_event addr_error event o a).1) /\
     ~ truthful (run_app_event_loop (Addr := Addr) addr_error [] true a).1 /\
     (forall (o : outside (Addr := Addr)) now, ~ smooth_action addr_error ClickEndCall o a ->
        ~ truthful (render_current_view addr_error ClickEndCall now o a).1)).
Proof.
  split.
  - intros frames c Hc Hr. assert (Hs : shown (new_app c)).
    { split_and!; unfold camera_on; cbn; [by rewrite Hc| |done]. intros m. cbn. rewrite Hc. by intros [= <-]. }
    assert (Hok : app_ok (new_app c)) by done.
    revert Hs Hok Hr. generalize (new_app c). induction frames as [|f frames IH]; intros a Hs Hok.
    + intros _. destruct Hs as (Hcam & Hm & _). split; [done|]. intros m Em. by rewrite (Hm m Em).
    + cbn [smooth_run foldl]. intros [Hf Hr]. apply IH; [by apply update_shown|by apply update_ok|done].
  - intros a m Ht Hv Hm. split_and!.
    + intros event o. by apply (event_breaks addr_error event o a m).
    + destruct Ht as [Hcam _]. apply camera_left; [cbn; by rewrite <-Hv|done].
    + intros o now. by apply (end_click_breaks addr_error o now a m).
Qed.

(** A second call can hide the first.  When a call is offered to a user who
    is in a call (two requests at once make the server do it), the call view is
    replaced; declining, or letting it ring, leads back to the contacts with the
    camera still running, and nothing the user can do there stops it, logging out
    included. *)
Lemma camera_unseen `{SetOrder} {Addr} `{Wire Addr} `{MapOrder UserStatus} addr_error name peer q sdp o o' now (a : RoomRTCApp) :
  view a = Call name peer -> camera_on a = true ->
  let a1 := (handle_event (Addr := Addr) addr_error (CallIncoming q sdp) o a).1 in
  let a2 := (render_current_view (Addr := Addr) addr_error ClickDecline now o' a1).1 in
  view a1 = CallIncomingView q sdp /\ view a2 = CallHub /\ camera_on a2 = true /\
  forall act now' o'', camera_on (render_current_view (Addr := Addr) addr_error act now' o'' a2).1 = true.
Proof.
  intros Hv Hcam a1 a2.
  assert (H2 : view a2 = CallHub /\ media_pipeline (controller a2) = media_pipeline (controller a)).
  { unfold a2, a1, render_current_view. cbn [handle_event fst view with_view]. unfold show_call_incoming, call_timeout. cbn zeta.
    destruct (15 <=? _); [|unfold handle_decline_logic];
      cbn [controller with_warning with_messages with_timer with_view];
      pose proof (reject_call_pipeline q (o_exchange o') (o_event_ok o') (controller a)) as Hp;
      destruct (reject_call _ _ _ _) as [[[u|e] evs] c]; by split. }
  destruct H2 as [V2 M2]. unfold camera_on in *. split; [done|]. split; [done|]. split; [by rewrite M2|].
  intros act now' o''. unfold render_current_view. rewrite V2. rewrite <-M2 in Hcam.
  unfold show_call_hub, log_out_action, render_contacts_list, call_action. destruct act; try done.
  - pose proof (log_out_pipeline (o_exchange o'') (controller a2)) as Hp. destruct (log_out _ _) as [[r evs] c].
    destruct (is_ok r); cbn; by rewrite Hp.
  - destruct (get_users_status _); [|done]. destruct (can_call _); [|done]. destruct (call _ _ _) as [r evs]. by destruct (is_ok r).
Qed.

(** After a hang-up that the server refuses, the mute button can lie: the
    microphone stays muted while the state of the button is reset. *)
Lemma mute_forgotten `{SetOrder} {Addr} `{Wire Addr} `{MapOrder UserStatus} addr_error o (a : RoomRTCApp) e evs m :
  hang_up (o_exchange (Addr := Addr) o) (o_renewal o) (controller a) = (Err e, evs, controller a) ->
  audio (media_pipeline (controller a)) = Some m -> muted m = true ->
  let a' := (handle_event addr_error CallEnded o a).1 in
  view a' = FatalErrorView /\ is_muted a' = false /\ audio (media_pipeline (controller a')) = Some m.
Proof. intros E Hm Hmu. cbn [handle_event]. unfold end_call. by rewrite E. Qed.

(** * Witnesses *)

#[local] Instance demo_order {A} : MapOrder A := { iter := map_to_list; iter_permutation m := Permutation_refl _ }.
#[local] Instance raw_wire : Wire str := { Wire.display := id; from_str := Some }.
#[local] Instance set_order : SetOrder := { Sdp.order := elements; Sdp.order_perm s := Permutation_refl _ }.

(** bob's application: ann is at the server, which grants everything; ann's
    candidates answer. *)
Definition ann_offer : SessionDescriptionProtocol := get_offer (toy "10.0.0.1" "AB:05").
Definition bob_at_server : Controller :=
  mk_controller [mk_table {[ lit "ann" := Available ]} false] 0 (Some (lit "bob")) (Some (lit "bob")) true
    (toy "10.0.0.2" "CD:06") false 5000 new_pipeline.
Definition granting (r : ServerResponse str) : outside (Addr := str) :=
  mk_outside (mk_exchange (fun _ => Ok tt) (fun _ => Ok (ServerResponse.to_bytes r)))
    (mk_renewal (Ok tt) (Ok 5006) (Ok tt) (Ok (toy "10.0.0.2" "CD:06")))
    (mk_ice_traffic true (fun _ => [Received PONG (lit "10.0.0.1")]))
    (mk_call_media (fun _ _ _ _ => Ok tt) (fun _ _ _ _ => Ok tt) working_devices) (fun _ => Ok tt) (Ok tt) true.

(** ann calls, bob accepts and mutes his microphone; then ann hangs up. *)
Definition call_frames : list (frame (Addr := str)) :=
  [mk_ui_frame [(CallIncoming (lit "ann") ann_offer, offline_world)] false None None false Nothing 0 offline_world;
   mk_ui_frame [] false None None false ClickAccept 1000 (granting CallAcceptOk);
   mk_ui_frame [] false None None false ClickMute 2000 offline_world].
Definition ending_frames : list (frame (Addr := str)) :=
  [mk_ui_frame [(CallEnded, granting CallHangUpOk)] false None None false Nothing 3000 offline_world].

Lemma screen_truthful_witness :
  let a := foldl (fun a f => (update id f a).1) (new_app bob_at_server) call_frames in
  let a' := foldl (fun a f => (update id f a).1) (new_app bob_at_server) (call_frames ++ ending_frames) in
  view a = Call (lit "bob") (lit "ann") /\ is_muted a = true /\ truthful a /\ camera_on a = true /\
  ~ truthful (handle_event id CallRejected offline_world a).1 /\ truthful a' /\ camera_on a' = false.
Proof.
  assert (Hs : smooth_run id (call_frames ++ ending_frames) (new_app bob_at_server)) by (vm_compute; intuition discriminate).
  assert (Hs1 : smooth_run id call_frames (new_app bob_at_server)) by (vm_compute; intuition discriminate).
  intros a a'. assert (Ha : truthful a) by exact (proj1 (screen_truthful id) call_frames bob_at_server eq_refl Hs1).
  split_and!; [vm_compute; reflexivity..|exact Ha|vm_compute; reflexivity| | |vm_compute; reflexivity].
  - assert (Hv : in_call (view a) = true) by (vm_compute; reflexivity).
    destruct (audio (media_pipeline (controller a))) as [m|] eqn:Em; [|exfalso; revert Em; vm_compute; discriminate].
    clearbody a. refine (proj1 (proj2 (screen_truthful id) a m Ha Hv Em) CallRejected offline_world _). cbn [smooth_event]. by rewrite Hv.
  - exact (proj1 (screen_truthful id) (call_frames ++ ending_frames) bob_at_server eq_refl Hs).
Defined.
