(* ===== verification/Startup.v ===== *)
(** The two programs (src/bin/client/main.rs, src/bin/server/main.rs): what has to
    be in place before the application or the server runs, in which order it is
    tried, what is printed on failure, and the exit codes.

    The crypto provider, the command line, the files and the network are the
    outcomes of what the programs ask of them. *)

From S2P Require Import Prelude.
From S2P Require Import Text.
From S2P Require Import Wire.
From S2P Require Import Config.
From S2P Require Import Sdp.
From S2P Require Import CallSession.
From S2P Require Import Events.
From S2P Require Import Logger.
From S2P Require Import UserStatus.
From S2P Require Import ServerResponse.
From S2P Require Import OperatingServer.
From S2P Require Import Controller.
From S2P Require Import Ui.
From S2P Require Import Screen.
From S2P Require Import Server.

(** * Definitions *)

(** What a program printed on its two streams, its log, and how it goes on. *)
Record process (A : Type) := mk_process {
  out : list str;
  err : list str;
  logged : option log;
  state : A
}.
Arguments mk_process {A}.
Arguments out {A}. Arguments err {A}. Arguments logged {A}. Arguments state {A}.

Section Programs.
Context {F64 F32 : Type} (parse_f64 : str -> option F64) (parse_f32 : str -> option F32).
Context `{SetOrder} {Addr : Type} `{Wire Addr} `{MapOrder UserStatus}.

(** What both programs ask of the system. *)
Record system := mk_system {
  provider_installed : bool;
  args : list str;
  ini_at : str -> option ini;              (* the parsed file at a path *)
  show_load_error : LoadError -> str;
  log_opened : result bytes str;
  now : str                                (* of the first entry *)
}.

(** The common part: the arguments, the configuration, the log with its first
    entry; [None]: the exit with code 1. *)
Definition prepare {A} (s : system) (count : nat) (check : list str -> option A) (first : str) :
    process (option (A * Config F64 F32 * Logger)) :=
  if negb (provider_installed s) then mk_process [lit "error initializing client"] [] None None else
  if negb (List.length (args s) =? count)%nat then mk_process [] [] None None else
  match check (args s) with
  | None => mk_process [] [] None None
  | Some a =>
      let config_path := nth 1 (args s) [] in
      match load parse_f64 parse_f32 (ini_at s config_path) with
      | Err e => mk_process [] [lit "Failed to load config from " ++ config_path ++ lit ": " ++ show_load_error s e] None None
      | Ok config =>
          match Logger.new (log_opened s) with
          | Err e => mk_process [] [lit "Failed to initialize logger: " ++ e] None None
          | Ok (logger, l) => mk_process [] [] (Some (info first (now s) logger l)) (Some (a, config, logger))
          end
      end
  end.

(** [bin/client/main.rs]: the window's first application, or the exit code;
    [created] is [Controller::new] on the configuration and the address. *)
Definition client_main (s : system) (parse_addr : str -> option Addr)
    (created : Config F64 F32 -> Addr -> result Controller ControllerError) (ex : exchange) (event_sent : result unit str) :
    process ((RoomRTCApp * list AppEvent) + Z) :=
  let p := prepare s 3 (fun args => parse_addr (nth 2 args [])) (lit "Application starting...") in
  mk_process (out p) (err p) (logged p)
    (match state p with
     | None => inr 1
     | Some (addr, config, _) => Screen.new (created config addr) ex event_sent
     end).

(** [bin/server/main.rs]: [None] while the server runs, else the exit code. *)
Definition server_main (s : system) {Cert Key Tls : Type}
    (created : Config F64 F32 -> result (CentralServer Tls Addr) ServerError) (bound : bool) (lines : list (option nat)) :
    process (option Z) :=
  let p := prepare s 2 (fun _ => Some tt) (lit "Central Server starting up...") in
  match state p with
  | None => mk_process (out p) (err p) (logged p) (Some 1)
  | Some (_, config, _) =>
      match created config with
      | Err _ => mk_process [lit "Failed to initialize Central Server"] (err p) (logged p) (Some 1)
      | Ok sv =>
          mk_process (out p) (err p) (logged p)
            (match (start bound lines sv).1 with
             | None => None
             | Some (Err _) => Some 1
             | Some (Ok _) => Some 0
             end)
      end
  end.
End Programs.

(** * Lemmas *)

Section Facts.
Context {F64 F32 : Type} (parse_f64 : str -> option F64) (parse_f32 : str -> option F32).
Context `{SetOrder} {Addr : Type} `{Wire Addr} `{MapOrder UserStatus}.

(** What has to be in place. *)
Definition in_place {A} (s : system) (count : nat) (check : list str -> option A) (a : A) (config : Config F64 F32) : Prop :=
  provider_installed s = true /\ List.length (args s) = count /\ check (args s) = Some a /\
  load parse_f64 parse_f32 (ini_at s (nth 1 (args s) [])) = Ok config /\ exists old, log_opened s = Ok old.

Lemma prepared {A} (s : system) count (check : list str -> option A) first :
  let p := prepare parse_f64 parse_f32 s count check first in
  match state p with
  | Some (a, config, g) => in_place s count check a config /\ g = new_logger /\ out p = [] /\ err p = [] /\
      exists old, log_opened s = Ok old /\ logged p = Some (mk_log [mk_message Info first [] (now s)] old true)
  | None => (forall a config, ~ in_place s count check a config) /\ logged p = None
  end.
Proof.
  unfold prepare, in_place, Logger.new. destruct (provider_installed s); cbn; [|split; [by intros ? ? [? _]|done]].
  destruct (Nat.eqb_spec (List.length (args s)) count); cbn; [|split; [by intros ? ? (_ & ? & _)|done]].
  destruct (check (args s)) as [a|]; cbn; [|split; [by intros ? ? (_ & _ & ? & _)|done]].
  destruct (load _ _ _) as [config|?]; cbn; [|split; [by intros ? ? (_ & _ & _ & ? & _)|done]].
  destruct (log_opened s) as [old|?]; cbn; [|split; [intros ? ? (_ & _ & _ & _ & ? & ?); done|done]].
  split; [by eauto 10|]. repeat split. by exists old.
Qed.

(** The application's window opens exactly when everything is in place and the
    server answered the first request; else the exit code is 1. *)
Lemma client_starts s parse_addr created ex event_sent :
  match state (client_main parse_f64 parse_f32 s parse_addr created ex event_sent) with
  | inl (a, evs) => exists addr config c,
      in_place s 3 (fun args => parse_addr (nth 2 args [])) addr config /\ created config addr = Ok c /\
      initial_handshake (Addr := Addr) ex event_sent = (Ok tt, evs) /\ a = new_app c
  | inr code => code = 1 /\ forall addr config c evs,
      in_place s 3 (fun args => parse_addr (nth 2 args [])) addr config -> created config addr = Ok c ->
      initial_handshake (Addr := Addr) ex event_sent <> (Ok tt, evs)
  end.
Proof.
  unfold client_main. cbn [state]. pose proof (prepared s 3 (fun args => parse_addr (nth 2 args [])) (lit "Application starting...")) as Hp.
  cbv zeta in Hp. destruct (state (prepare _ _ _ _ _ _)) as [[[addr config] g]|].
  - destruct Hp as (Hi & _). unfold Screen.new, init_controller. destruct (created config addr) as [c|e] eqn:Ec; cbn.
    + destruct (initial_handshake ex event_sent) as [[u|e] evs] eqn:Eh; cbn.
      * destruct u. by exists addr, config, c.
      * split; [done|]. by intros.
    + split; [done|]. intros addr' config' c evs Hi' Ec'.
      destruct Hi as (_ & _ & E1 & E2 & _), Hi' as (_ & _ & E1' & E2' & _). congruence.
  - split; [done|]. intros addr config c evs Hi. by destruct (proj1 Hp addr config).
Qed.

(** The server's exit code: 0 once its input has ended, 1 when something was not
    in place; whether the listeners could bind makes no difference. *)
Lemma server_exits s {Cert Key Tls} created bound lines :
  let code := state (server_main parse_f64 parse_f32 (Addr := Addr) s (Cert := Cert) (Key := Key) (Tls := Tls) created bound lines) in
  (code = Some 1 \/ exists config sv, in_place s 2 (fun _ => Some tt) tt config /\ created config = Ok sv /\
     code = match await_end lines with None => None | Some _ => Some 0 end) /\
  (code = Some 1 <-> ~ exists config sv, in_place s 2 (fun _ => Some tt) tt config /\ created config = Ok sv).
Proof.
  cbv zeta. unfold server_main. pose proof (prepared s 2 (fun _ => Some tt) (lit "Central Server starting up...")) as Hp. cbv zeta in Hp.
  destruct (state (prepare _ _ _ _ _ _)) as [[[[] config] g]|].
  - destruct Hp as (Hi & _). destruct (created config) as [sv|e] eqn:Ec; cbn.
    + unfold start. split; [|split; [|intros Hn; destruct Hn; by eauto]].
      * right. exists config, sv. by destruct (await_end lines).
      * by destruct (await_end lines).
    + split; [by left|]. split; [|done]. intros _ (config' & sv & Hi' & Ec').
      destruct Hi as (_ & _ & _ & E & _), Hi' as (_ & _ & _ & E' & _). congruence.
  - cbn. split; [by left|]. split; [|done]. intros _ (config & sv & Hi & _). by destruct (proj1 Hp tt config).
Qed.
End Facts.
