(* ===== verification/Application.v ===== *)
(** The whole application: the views of src/ui/interface.rs on top of the
    controller, against the server.  How a call ends for the user, and what a
    failure of the receiver thread does to a user who is not in a call. *)

From S2P Require Import Prelude.
From S2P Require Import Audio.
From S2P Require Import Capture.
From S2P Require Import JitterBuffer.
From S2P Require Import Text.
From S2P Require Import Wire.
From S2P Require Import Config.
From S2P Require Import SdpAttribute.
From S2P Require Import Sdp.
From S2P Require Import CallSession.
From S2P Require Import Events.
From S2P Require Import UserStatus.
From S2P Require Import ClientMessage.
From S2P Require Import ServerMessage.
From S2P Require Import ServerResponse.
From S2P Require Import Controller.
From S2P Require Import OperatingServer.
From S2P Require Import UserHandler.
From S2P Require Import CentralServer.
From S2P Require Import System.
From S2P Require Import Ui.

(** * Lemmas *)

Section Hangup.
Context `{SetOrder} {Addr : Type} `{Wire Addr} `{MapOrder UserStatus} `{Hord : MapOrder UserData} (bad : nat -> bool).
Implicit Types w : World SessionDescriptionProtocol.

(** The request a hang-up sends, short enough for one read. *)
Definition nameable (me : str) : Prop :=
  field me /\ tight me /\ System.fits (ClientMessage.to_bytes (CallHangup me : ClientMessage SessionDescriptionProtocol)).

Lemma hangup_answered me dk srv w r w' :
  nameable me -> @call_hangup SessionDescriptionProtocol Addr _ bad me w = (r, w') ->
  ServerResponse.sendable r -> System.fits (ServerResponse.to_bytes r) ->
  Controller.send_message (CallHangup me) (server_exchange (Addr := Addr) bad dk srv w) = (Ok r, []).
Proof.
  intros (Hf & Ht & Hl) E Hs Hr. apply (exchanged bad _ (CallHangup me) dk srv w r srv w'); [|exact Hl| |done|done].
  - apply client_message_roundtrip. done.
  - cbn [handle_client_message]. by rewrite E.
Qed.

(** The user's state after a hang-up. *)
Definition hung_up (me : str) (d : UserData) w : World SessionDescriptionProtocol :=
  let m := <[me := OperatingServer.update_status Available d]> (users w) in
  mk_world m false (pushed w ++ broadcast (deaf bad w) me Available m) (closed w) (users_file w).

Lemma hangup_occupied me d peer w :
  users_poisoned w = false -> users w !! me = Some d -> status d = Occupied peer ->
  @call_hangup SessionDescriptionProtocol Addr _ bad me w = (CallHangUpOk, hung_up me d w).
Proof. intros Hp Hd Hs. unfold call_hangup. rewrite Hp, Hd, Hs, notify_spec by exact Hp. unfold hung_up. cbn -[broadcast]. by rewrite Hp. Qed.

Lemma hangup_available me d w :
  users_poisoned w = false -> users w !! me = Some d -> status d = Available ->
  @call_hangup SessionDescriptionProtocol Addr _ bad me w = (CallHangUpError (lit "Unexpected user status"), w).
Proof. intros Hp Hd Hs. unfold call_hangup. by rewrite Hp, Hd, Hs. Qed.

Lemma hangup_answers (r : ServerResponse Addr) :
  r = CallHangUpOk \/ r = CallHangUpError (lit "Unexpected user status") ->
  ServerResponse.sendable r /\ System.fits (ServerResponse.to_bytes r).
Proof.
  intros [-> | ->]; (split; [|apply fits_read; reflexivity]); [done|].
  split; [apply ascii_field; reflexivity|apply tight_text; reflexivity].
Qed.

(** Hanging up while the server has the user Available is refused. *)
Lemma refused_hang_up me d dk srv w n (c : Controller) :
  nameable me -> users_poisoned w = false -> users w !! me = Some d -> status d = Available -> token c = Some me ->
  hang_up (server_exchange (Addr := Addr) bad dk srv w) n c = (Err (CallError (lit "Unexpected user status")), [], c).
Proof.
  intros Hn Hp Hd Hs Ht. unfold hang_up, get_token. rewrite Ht. cbn [ok_or].
  destruct (hangup_answers (CallHangUpError (lit "Unexpected user status")) ltac:(by right)) as [Hse Hf].
  by rewrite (hangup_answered me dk srv w _ w Hn (hangup_available me d w Hp Hd Hs) Hse Hf).
Qed.

(** Hanging up during a call, everything new being made. *)
Lemma granted_hang_up me d peer dk srv w n port s (c : Controller) :
  nameable me -> users_poisoned w = false -> users w !! me = Some d -> status d = Occupied peer -> token c = Some me ->
  transport_stop n = Ok tt -> new_transport n = Ok port -> socket_clone n = Ok tt -> new_session n = Ok s ->
  hang_up (server_exchange (Addr := Addr) bad dk srv w) n c =
  (Ok tt, [], with_session s (with_port port (with_transferer false (stop_media_components n c).2))).
Proof.
  intros Hn Hp Hd Hs Ht R1 R2 R3 R4. unfold hang_up, get_token. rewrite Ht. cbn [ok_or].
  destruct (hangup_answers CallHangUpOk ltac:(by left)) as [Hse Hf].
  rewrite (hangup_answered me dk srv w _ _ Hn (hangup_occupied me d peer w Hp Hd Hs) Hse Hf).
  unfold stop_media_components. rewrite R1. cbn. rewrite R2. cbn. by rewrite R3, R4.
Qed.

End Hangup.

(** * Properties *)

(** C25: how a call ends.  The user is in a call, Occupied for the server, and
    the application gets [CallEnded]: the server makes the user Available and
    tells the others, the media and the file transfer are gone, a new session
    and transport are ready, the per-call state is reset and the end of the call
    is shown.  A second [CallEnded], which the worker threads may well send, is
    fatal: the server refuses the hang-up and the application shows the fatal
    error, from which there is no way back. *)
Theorem call_ended_twice `{SetOrder} {Addr} `{Wire Addr} `{MapOrder UserStatus} `{MapOrder UserData} bad addr_error
    me d peer dk srv (w : World SessionDescriptionProtocol) (o : outside (Addr := Addr)) port s (a : RoomRTCApp) o2 act now o3 :
  nameable me -> users_poisoned w = false -> users w !! me = Some d -> status d = Occupied peer ->
  token (controller a) = Some me -> o_exchange o = server_exchange (Addr := Addr) bad dk srv w ->
  transport_stop (o_renewal o) = Ok tt -> new_transport (o_renewal o) = Ok port ->
  socket_clone (o_renewal o) = Ok tt -> new_session (o_renewal o) = Ok s ->
  o_exchange o2 = server_exchange (Addr := Addr) bad dk srv (hung_up bad me d w) ->
  let '(a1, evs1) := handle_event addr_error CallEnded o a in
  let '(a2, evs2) := handle_event addr_error CallEnded o2 a1 in
  @call_hangup _ Addr _ bad me w = (CallHangUpOk, hung_up bad me d w) /\
  evs1 = [] /\ view a1 = CallEndedView /\ call_session (controller a1) = s /\ file_transferer (controller a1) = false /\
  cam_running (camera (media_pipeline (controller a1))) = false /\
  file_offers a1 = ∅ /\ time_call_incoming a1 = None /\ is_muted a1 = false /\
  (render_current_view addr_error BackToHub now o3 a1).1 = with_view CallHub a1 /\
  evs2 = [] /\ view a2 = FatalErrorView /\ (render_current_view addr_error act now o3 a2).1 = a2.
Proof.
  intros Hn Hp Hd Hs Ht Eo R1 R2 R3 R4 Eo2. cbn [handle_event]. unfold end_call. rewrite Eo.
  rewrite (granted_hang_up bad me d peer dk srv w (o_renewal o) port s (controller a) Hn Hp Hd Hs Ht R1 R2 R3 R4).
  cbn [is_ok]. set (a1 := reset_after_call _). rewrite Eo2.
  rewrite (refused_hang_up bad me (OperatingServer.update_status Available d) dk srv (hung_up bad me d w)).
  - split_and!; try reflexivity. by apply (hangup_occupied bad me d peer).
  - done.
  - done.
  - apply lookup_insert_eq.
  - done.
  - done.
Qed.

(** Two pushed messages in one read take down the application of a user
    who is not even in a call.  The receiver thread cannot decode them and
    reports an error (the documentation calls it recoverable); the application
    answers by hanging up; the server refuses, since the user is Available; and
    the fatal error is shown, from which there is no way back. *)
Lemma coalesced_is_fatal `{SetOrder} {Addr} `{Wire Addr} `{MapOrder UserStatus} `{MapOrder UserData} bad addr_error
    me d t T dk srv (w : World SessionDescriptionProtocol) u1 s1 u2 s2 later (o : outside (Addr := Addr)) (a : RoomRTCApp) act now o2 :
  let m1 := UserStatusUpdate u1 s1 : ServerMessage SessionDescriptionProtocol in
  let m2 := UserStatusUpdate u2 s2 : ServerMessage SessionDescriptionProtocol in
  nameable me -> users_poisoned w = false -> users w !! me = Some d -> status d = Available ->
  online me t T (controller a) -> ServerMessage.sendable m1 -> ServerMessage.sendable m2 ->
  o_exchange o = server_exchange (Addr := Addr) bad dk srv w ->
  let '(replies, events, ended, c) := run_receiver_loop me t
    (mk_push_read (Ok (ServerMessage.to_bytes m1 ++ ServerMessage.to_bytes m2)) true (Ok tt) (Ok tt) :: later) (controller a) in
  let '(a1, evs) := run_app_event_loop addr_error ((fun e => (e, o)) <$> events) false (with_controller c a) in
  ended = true /\ replies = [] /\ evs = [] /\ view a1 = FatalErrorView /\
  (render_current_view addr_error act now o2 a1).1 = a1.
Proof.
  intros m1 m2 Hn Hp Hd Hs Hon Hm1 Hm2 Eo.
  rewrite (coalesced_updates (Addr := Addr) me t T m1 m2 u1 s1 u2 s2 later (controller a) eq_refl eq_refl Hm1 Hm2 Hon).
  cbn [fmap list_fmap run_app_event_loop handle_event]. unfold end_call. rewrite Eo.
  change (controller (with_controller (controller a) a)) with (controller a).
  rewrite (refused_hang_up bad me d dk srv w (o_renewal o) (controller a) Hn Hp Hd Hs (proj1 Hon)). done.
Qed.

(** * Witnesses *)

#[local] Instance demo_order {A} : MapOrder A := { iter := map_to_list; iter_permutation m := Permutation_refl _ }.
#[local] Instance raw_wire : Wire str := { Wire.display := id; from_str := Some }.
#[local] Instance set_order : SetOrder := { Sdp.order := elements; Sdp.order_perm s := Permutation_refl _ }.

Lemma ann_nameable : nameable (lit "ann").
Proof.
  split; [apply ascii_field; reflexivity|]. split; [apply tight_text; reflexivity|]. apply fits_read. reflexivity.
Qed.

(** The outside of an application connected to the server in state [w]. *)
Definition online_world (w : World SessionDescriptionProtocol) : outside (Addr := str) :=
  mk_outside (server_exchange (fun _ => false) (mk_disk true true) demo_server w)
    (mk_renewal (Ok tt) (Ok 5000) (Ok tt) (Ok (toy "10.0.0.1" "AB:05")))
    (mk_ice_traffic true (fun _ => [])) (mk_call_media (fun _ _ _ _ => Ok tt) (fun _ _ _ _ => Ok tt) working_devices)
    (fun _ => Ok tt) (Ok tt) true.

Definition ann_busy : UserData := demo_user (lit "ann") (Occupied (lit "bob")) 1.
Definition in_call : World SessionDescriptionProtocol :=
  mk_world {[ lit "ann" := ann_busy; lit "bob" := demo_user (lit "bob") (Occupied (lit "ann")) 2 ]} false [] [] [].

Lemma call_ended_twice_witness :
  let '(a1, _) := handle_event id CallEnded (online_world in_call) (with_view (Call (lit "ann") (lit "bob")) (new_app ann_client)) in
  let '(a2, _) := handle_event id CallEnded (online_world (hung_up (fun _ => false) (lit "ann") ann_busy in_call)) a1 in
  view a1 = CallEndedView /\ view a2 = FatalErrorView.
Proof.
  pose proof (call_ended_twice (fun _ => false) id (lit "ann") ann_busy (lit "bob") (mk_disk true true) demo_server in_call
    (online_world in_call) 5000 (toy "10.0.0.1" "AB:05") (with_view (Call (lit "ann") (lit "bob")) (new_app ann_client))
    (online_world (hung_up (fun _ => false) (lit "ann") ann_busy in_call)) Nothing 0 (online_world in_call)
    ann_nameable eq_refl eq_refl eq_refl eq_refl eq_refl eq_refl eq_refl eq_refl eq_refl eq_refl) as Hc.
  destruct (handle_event id CallEnded (online_world in_call) _) as [a1 evs1].
  destruct (handle_event id CallEnded _ a1) as [a2 evs2]. split; apply Hc.
Defined.
