(* ===== verification/CallLife.v ===== *)
(** A call, from the click that makes it to the click that ends it: the
    applications of two users (Ui) with their receiver threads (Controller), the
    server (UserHandler, OperatingServer), their sessions (CallSession, Ice) and
    their cameras (Capture).

    The parts of the outside that do not depend on the server are an [outside];
    [facing] puts the server in front of it.  [party] is a user who can make or
    take a call, [carries] a network on which one pair of candidates gets
    through, [comes_up] media that start for the negotiated role and
    certificate. *)

From S2P Require Import Prelude.
From S2P Require Import Audio.
From S2P Require Import Capture.
From S2P Require Import Text.
From S2P Require Import Wire.
From S2P Require Import Config.
From S2P Require Import Ice.
From S2P Require Import SdpAttribute.
From S2P Require Import Sdp.
From S2P Require Import CallSession.
From S2P Require Import Events.
From S2P Require Import UserStatus.
From S2P Require Import ClientMessage.
From S2P Require Import ServerMessage.
From S2P Require Import ServerResponse.
From S2P Require Import Controller.
From S2P Require Import OperatingServer.
From S2P Require Import UserHandler.
From S2P Require Import System.
From S2P Require Import Ui.
From S2P Require Import Devices.
From S2P Require Import Application.

(** * Definitions *)

Section Life.
Context `{SetOrder} {Addr : Type} `{Wire Addr} `{MapOrder UserStatus} `{Hord : MapOrder UserData}.
Context (bad : nat -> bool) (addr_error : str -> str).
Implicit Types (w : World SessionDescriptionProtocol) (o : outside (Addr := Addr)) (app : RoomRTCApp) (c : Controller).

(** The outside with the server in the state [w]. *)
Definition facing (dk : Disk) (srv : OperatingServer Addr) w o : outside :=
  mk_outside (server_exchange bad dk srv w) (o_renewal o) (o_ice o) (o_media o) (o_receiver o) (o_transfer o) (o_event_ok o).

(** A frame in which the user clicks, and one in which events have arrived. *)
Definition click (act : action) (now : Z) o : frame := mk_ui_frame [] false None None false act now o.
Definition arrive (evs : list AppEvent) (now : Z) o : frame :=
  mk_ui_frame ((fun e => (e, o)) <$> evs) false None None false Nothing now o.
Definition next (f : frame) app : RoomRTCApp := (update addr_error f app).1.

(** What the receiver thread makes of one pushed message, and the application of
    the events it raised. *)
Definition receives (me : str) (t : nat) (m : ServerMessage SessionDescriptionProtocol) (now : Z) o app : RoomRTCApp :=
  let '(_, evs, _, c) := run_receiver_loop me t [read_alone m] (controller app) in
  next (arrive evs now o) (with_controller c app).

(** A user in the hub, logged in, Available and reachable at the server, with a
    fresh session; the next one is [s']. *)
Record party (me : str) (d : UserData) (i t : nat) (T : gmap str UserStatus) (fp : Fingerprint) (s' : CallSession) w o app : Prop := mk_party {
  p_name : nameable me;
  p_user : users w !! me = Some d;
  p_status : status d = Available;
  p_stream : server_client_stream d = Some i;
  p_writable : deaf bad w i = false;
  p_view : view app = CallHub;
  p_online : online me t T (controller app);
  p_ready : ready ActPass fp (call_session (controller app));
  p_stop : transport_stop (o_renewal o) = Ok tt;
  p_transport : is_ok (new_transport (o_renewal o)) = true;
  p_socket : socket_clone (o_renewal o) = Ok tt;
  p_session : new_session (o_renewal o) = Ok s'
}.

(** The checks are answered from [there] when they are made from [here], and
    whatever answers has addresses that can be connected to. *)
Definition carries (t : ice_traffic) (here there : Candidate) : Prop :=
  timeout_set t = true /\
  (forall i p, local p = here -> remote p = there -> reachable (traffic t) i p = true) /\
  (forall i p k, reachable (traffic t) i p = true -> is_Some (from_str (Wire := _ : Wire Addr) (address (remote p) ++ lit ":" ++ show (wrap 16 (port (remote p) + k))))).

Definition comes_up (m : call_media (Addr := Addr)) (role : DtlsSetupRole) (fp : Fingerprint) c : Prop :=
  (forall rtp rtcp, transport_start m rtp rtcp role fp = Ok tt) /\
  (forall local sctp, transferer_new m local sctp role fp = Ok tt) /\
  is_ok (pipeline_start (devices m) (media_pipeline c)).1.1 = true.

(** What a user who is in the call with [peer] has. *)
Definition talking (me peer : str) w app : Prop :=
  view app = Call me peer /\ call_up (controller app) /\ status <$> users w !! me = Some (Occupied peer).

(** ... and what is left when the call is over. *)
Definition back (me : str) (t : nat) (T : gmap str UserStatus) (s' : CallSession) w app : Prop :=
  online me t T (controller app) /\ call_session (controller app) = s' /\
  file_transferer (controller app) = false /\ cam_running (camera (media_pipeline (controller app))) = false /\
  status <$> users w !! me = Some Available.

(** * Lemmas *)

(** ** Joining *)

Lemma checks_succeed tr (a : IceAgent) p :
  p ∈ candidate_pairs a -> (forall i, reachable tr i p = true) ->
  exists i q, (start_connectivity_checks true tr a).1 = Ok tt /\ reachable tr i q = true /\
    selected_pair (start_connectivity_checks true tr a).2 = Some (with_state Succeeded q).
Proof.
  intros Hp Hr. unfold start_connectivity_checks.
  assert (Hs : p ∈ sort_pairs (candidate_pairs a)) by (by rewrite sort_pairs_perm).
  destruct (candidate_pairs a) as [|p0 ps]; [by apply elem_of_nil in Hp|]. cbn [negb].
  destruct (check_pairs tr 0 _) as [out sel] eqn:E. apply check_pairs_spec in E. destruct sel as [j|].
  - destruct E as (i & q & -> & Hq & Hrq & -> & _). exists (0 + i)%nat, q. split; [done|]. split; [done|]. cbn [selected_pair snd].
    rewrite lookup_app_r by (rewrite length_map, length_take; lia).
    rewrite length_map, length_take_le by (apply lookup_lt_Some in Hq; lia). by rewrite Nat.sub_diag.
  - destruct E as [_ Hall]. apply list_elem_of_lookup in Hs as [i Hi]. specialize (Hall i p Hi). by rewrite Hr in Hall.
Qed.

Lemma join_ok t m c here there p role fp :
  carries t here there -> p ∈ candidate_pairs (ice_agent (call_session c)) -> local p = here -> remote p = there ->
  local_setup_role (call_session c) = role -> remote_fingerprint (call_session c) = Some fp -> comes_up m role fp c ->
  exists evs s p', check_and_join addr_error t m c = (Ok tt, evs, with_pipeline p' (with_transferer true (with_session s c))).
Proof.
  intros (Ht & Hr & Ha) Hp Hh Hth Hrole Hfp (Htr & Hft & Hpipe). unfold check_and_join, start_ice_checks. rewrite Ht.
  destruct (checks_succeed (traffic t) (ice_agent (call_session c)) p Hp) as (i & q & E & Hq & Es).
  { intros i. by apply Hr. }
  destruct (start_connectivity_checks _ _ _) as [r ag]. cbn [fst snd] in E, Es. subst r. cbn [map_err].
  unfold join_call. unfold get_remote_addresses, session_selected_pair, get_selected_pair.
  cbn [call_session with_session ice_agent with_agent]. rewrite Es. cbn [ok_or map_err rbind].
  unfold remote_address. change (remote (with_state Succeeded q)) with (remote q).
  destruct (Ha i q 0 Hq) as [x0 E0]. destruct (Ha i q 1 Hq) as [x1 E1]. destruct (Ha i q 2 Hq) as [x2 E2].
  rewrite E0, E1, E2. cbn [ok_or rbind map_err]. cbn [remote_fingerprint local_setup_role with_agent]. rewrite Hfp. cbn [ok_or rbind]. rewrite Hrole, Htr.
  unfold setup_file_transferer. rewrite Hft. cbn [media_pipeline with_transferer with_session].
  destruct (pipeline_start _ _) as [[[[]|e] evs] p']; [|done]. by exists evs, (with_agent ag (call_session c)), p'.
Qed.

(** ** Frames *)

Lemma next_click act now o app : next (click act now o) app = (render_current_view addr_error act now o app).1.
Proof.
  unfold next, update, click. cbn -[render_current_view]. unfold show_warning_popup.
  assert (E : match warning_msg app with None => app | Some _ => app end = app) by (by destruct (warning_msg app)).
  rewrite E. by destruct (render_current_view _ _ _ _).
Qed.

Lemma next_arrive e now o app :
  next (arrive [e] now o) app = (render_current_view addr_error Nothing now o (handle_event addr_error e o app).1).1.
Proof.
  unfold next, update, arrive. cbn -[render_current_view handle_event]. destruct (handle_event _ _ _ _) as [a1 evs].
  cbn -[render_current_view]. unfold show_warning_popup.
  assert (E : match warning_msg a1 with None => a1 | Some _ => a1 end = a1) by (by destruct (warning_msg a1)).
  rewrite E. by destruct (render_current_view _ _ _ _).
Qed.

Lemma receives_event me t m e now o app :
  run_receiver_loop me t [read_alone m] (controller app) = ([], [e], false, controller app) ->
  receives me t m now o app = (render_current_view addr_error Nothing now o (handle_event addr_error e o app).1).1.
Proof. intros E. unfold receives. rewrite E, next_arrive. by destruct app. Qed.

(** A frame of the call view in which nothing is touched. *)
Lemma call_frame name peer now o app :
  (render_current_view addr_error Nothing now o (with_view (Call name peer) app)).1 = with_frames false (with_view (Call name peer) app).
Proof. reflexivity. Qed.

(** A ringing frame in which nothing is touched, or the call is accepted in time. *)
Lemma ringing peer sdp act now start o app :
  time_call_incoming app = Some start \/ (time_call_incoming app = None /\ now = start) -> now - start < 15000 ->
  render_current_view addr_error act now o (with_view (CallIncomingView peer sdp) app) =
  match act with
  | ClickAccept => handle_accept_logic addr_error peer sdp o (with_timer (Some start) (with_view (CallIncomingView peer sdp) app))
  | ClickDecline => handle_decline_logic peer o (with_timer (Some start) (with_view (CallIncomingView peer sdp) app))
  | _ => (with_timer (Some start) (with_view (CallIncomingView peer sdp) app), [])
  end.
Proof.
  intros Ht Hn. cbn [render_current_view view with_view]. unfold show_call_incoming, call_timeout.
  assert (E : match time_call_incoming (with_view (CallIncomingView peer sdp) app) with Some t => t | None => now end = start).
  { cbn [time_call_incoming with_view]. by destruct Ht as [-> |[-> ->]]. }
  rewrite E, (proj2 (Z.leb_gt _ _)); [done|]. apply Z.div_lt_upper_bound; lia.
Qed.

(** ** The four turns of the two applications *)

Lemma rings me t peer offer now o app :
  run_receiver_loop me t [read_alone (ServerMessage.CallIncoming peer offer)] (controller app) =
    ([], [Events.CallIncoming peer offer], false, controller app) ->
  time_call_incoming app = None ->
  receives me t (ServerMessage.CallIncoming peer offer) now o app = with_timer (Some now) (with_view (CallIncomingView peer offer) app).
Proof.
  intros E Ht. rewrite (receives_event _ _ _ _ _ _ _ E). cbn [handle_event fst].
  rewrite (ringing peer offer Nothing now now); [done|by right|lia].
Qed.

Lemma dials me peer t T dk srv w now o app :
  view app = CallHub -> online me t T (controller app) -> users_status (controller app) = t -> T !! peer = Some Available ->
  Controller.call peer (server_exchange (Addr := Addr) bad dk srv w) (controller app) = (Ok tt, []) ->
  next (click (ClickCall peer) now (facing dk srv w o)) app = with_view (Calling peer) app.
Proof.
  intros Ev (_ & _ & HT) Et Hs E. rewrite next_click. unfold render_current_view. rewrite Ev. unfold show_call_hub, render_contacts_list, get_users_status.
  rewrite Et, HT. cbn [poisoned entries]. rewrite Hs. cbn [can_call]. unfold call_action. cbn [o_exchange facing]. by rewrite E.
Qed.

Lemma callee_in me peer offer start now o app evs c' :
  now - start < 15000 -> token c' = Some me ->
  accept_call addr_error peer offer (o_exchange o) (o_ice o) (o_media o) (controller app) = (Ok tt, evs, c') ->
  let app' := next (click ClickAccept now o) (with_timer (Some start) (with_view (CallIncomingView peer offer) app)) in
  view app' = Call me peer /\ controller app' = c'.
Proof.
  intros Hn Ht E. cbv zeta. rewrite next_click.
  change (with_timer (Some start) (with_view (CallIncomingView peer offer) app))
    with (with_view (CallIncomingView peer offer) (with_timer (Some start) app)).
  rewrite (ringing peer offer ClickAccept now start); [|by left|done]. unfold handle_accept_logic.
  cbn [controller with_timer with_view]. rewrite E. cbn [controller with_controller]. unfold get_username, get_token. by rewrite Ht.
Qed.

Lemma caller_in me peer ans t now o app evs c' :
  run_receiver_loop me t [read_alone (ServerMessage.CallAccepted peer ans)] (controller app) =
    ([], [Events.CallAccepted ans me peer], false, controller app) ->
  get_in_call addr_error ans (o_ice o) (o_media o) (controller app) = (Ok tt, evs, c') ->
  let app' := receives me t (ServerMessage.CallAccepted peer ans) now o app in view app' = Call me peer /\ controller app' = c'.
Proof.
  intros E E'. cbv zeta. rewrite (receives_event _ _ _ _ _ _ _ E). cbn [handle_event]. by rewrite E'.
Qed.

Lemma caller_out me peer now o app evs c' :
  view app = Call me peer -> hang_up (o_exchange o) (o_renewal o) (controller app) = (Ok tt, evs, c') ->
  let app' := next (click ClickEndCall now o) app in view app' = CallHub /\ controller app' = c'.
Proof.
  intros Ev E. cbv zeta. rewrite next_click. unfold render_current_view. rewrite Ev. unfold show_call, show_side_panel, handle_call_video_update.
  cbn [update_video_textures negb show_bottom_toolbar]. unfold end_call_action, end_call. cbn [controller with_frames]. by rewrite E.
Qed.

Lemma callee_out now o app evs c' :
  hang_up (o_exchange o) (o_renewal o) (controller app) = (Ok tt, evs, c') ->
  let app' := next (arrive [CallEnded] now o) app in view app' = CallEndedView /\ controller app' = c'.
Proof.
  intros E. cbv zeta. rewrite next_arrive. cbn [handle_event]. unfold end_call. by rewrite E.
Qed.

(** ** The end *)

(** A granted hang-up, at the server and in the controller. *)
Lemma hang_up_back me d peer t T s' dk srv w o c :
  nameable me -> users_poisoned w = false -> users w !! me = Some d -> status d = Occupied peer -> online me t T c ->
  transport_stop (o_renewal o) = Ok tt -> is_ok (new_transport (o_renewal o)) = true ->
  socket_clone (o_renewal o) = Ok tt -> new_session (o_renewal o) = Ok s' ->
  handle_client_message bad (CallHangup me) dk srv w = (@CallHangUpOk Addr, srv, hung_up bad me d w) /\
  exists c', hang_up (o_exchange (facing dk srv w o)) (o_renewal o) c = (Ok tt, [], c') /\
    online me t T c' /\ call_session c' = s' /\ file_transferer c' = false /\ cam_running (camera (media_pipeline c')) = false.
Proof.
  intros Hn Hp Hd Hs Hon R1 R2 R3 R4. split.
  - cbn [handle_client_message]. by rewrite (hangup_occupied bad me d peer w Hp Hd Hs).
  - destruct (new_transport (o_renewal o)) as [port|e] eqn:R2'; [|done]. eexists. split.
    + exact (granted_hang_up bad me d peer dk srv w _ port s' c Hn Hp Hd Hs (proj1 Hon) R1 R2' R3 R4).
    + split; [exact Hon|done].
Qed.

End Life.
Arguments p_name {_ Addr bad me d i t T fp s' w o app} _.
Arguments p_view {_ Addr bad me d i t T fp s' w o app} _.
Arguments p_online {_ Addr bad me d i t T fp s' w o app} _.

(** * Properties *)

(** C2: the life of a call.  Two users are in the hub; the caller's list shows
    the other one Available; their sessions share codecs, one pair of candidates
    gets through, and the media start when they are given the negotiated role and
    the other's certificate.  The caller clicks on the contact and sees the call
    being made; the receiver thread of the other rings; accepted within fifteen
    seconds, the call is on at both ends: each application shows it, camera,
    microphone and file transfer are up, and the server has the users Occupied
    with each other.  The caller ends it, which brings back the hub; the other
    application, told by its media that the call is over, shows so; everything is
    stopped at both ends, both users are Available again and hold fresh
    sessions. *)
Theorem call_life `{SetOrder} {Addr} `{Wire Addr} `{MapOrder UserStatus} `{MapOrder UserData} bad addr_error
    a b da db i j ta Ta tb Tb fpa fpb sa' sb' ka kb dk srv_a srv_b (w : World SessionDescriptionProtocol)
    (oa ob : outside (Addr := Addr)) A B t0 t1 t2 :
  keyed w -> users_poisoned w = false -> a <> b ->
  party bad a da i ta Ta fpa sa' w oa A -> party bad b db j tb Tb fpb sb' w ob B ->
  users_status (controller A) = ta -> Ta !! b = Some Available ->
  time_call_incoming B = None -> t1 - t0 < 15000 ->
  compatible (media_descriptions (sdp (call_session (controller B)))) (media_descriptions (sdp (call_session (controller A)))) ->
  ka ∈ local_candidates (ice_agent (call_session (controller A))) ->
  kb ∈ local_candidates (ice_agent (call_session (controller B))) ->
  carries (o_ice oa) ka kb -> carries (o_ice ob) kb ka ->
  comes_up (o_media oa) Passive fpb (controller A) -> comes_up (o_media ob) Active fpa (controller B) ->
  let offer_sent := get_offer (call_session (controller A)) in
  let offer := Sdp.new (media_descriptions offer_sent) Config.SdpConfig_default in
  field (show_sdp offer_sent) -> System.fits (ClientMessage.to_bytes (CallRequest a offer_sent b)) ->
  deliverable (ServerMessage.CallIncoming a offer) ->
  (forall ans s, process_offer offer (call_session (controller B)) = (Ok ans, s) ->
     field (show_sdp ans) /\ tight (show_sdp ans) /\ System.fits (ClientMessage.to_bytes (CallAccept b a ans)) /\
     deliverable (ServerMessage.CallAccepted b (Sdp.new (media_descriptions ans) Config.SdpConfig_default))) ->
  exists ans w1 w2 w3 w4,
    handle_client_message bad (CallRequest a offer b) dk srv_a w = (CallRequestOk, srv_a, w1) /\
    (exists others, pushed w1 = pushed w ++ others ++ [(j, ServerMessage.CallIncoming a offer)]) /\
    handle_client_message bad (CallAccept b a ans) dk srv_b w1 = (CallAcceptOk, srv_b, w2) /\
    pushed w2 = pushed w1 ++ [(i, ServerMessage.CallAccepted b ans)] /\
    handle_client_message bad (CallHangup a) dk srv_a w2 = (CallHangUpOk, srv_a, w3) /\
    handle_client_message bad (CallHangup b) dk srv_b w3 = (CallHangUpOk, srv_b, w4) /\
    let A1 := next addr_error (click (ClickCall b) t0 (facing bad dk srv_a w oa)) A in
    let B1 := receives addr_error b tb (ServerMessage.CallIncoming a offer) t0 ob B in
    let B2 := next addr_error (click ClickAccept t1 (facing bad dk srv_b w1 ob)) B1 in
    let A2 := receives addr_error a ta (ServerMessage.CallAccepted b ans) t1 oa A1 in
    let A3 := next addr_error (click ClickEndCall t2 (facing bad dk srv_a w2 oa)) A2 in
    let B3 := next addr_error (arrive [CallEnded] t2 (facing bad dk srv_b w3 ob)) B2 in
    view A1 = Calling b /\ view B1 = CallIncomingView a offer /\
    talking a b w2 A2 /\ talking b a w2 B2 /\
    view A3 = CallHub /\ back a ta Ta sa' w4 A3 /\ view B3 = CallEndedView /\ back b tb Tb sb' w4 B3.
Proof.
  intros Hk Hp Hab PA PB Hta Hsee Htimer Hin Hcomp Hka Hkb Nab Nba Mab Mba offer_sent offer Hof Hfit Hinc Hans.
  destruct (call_end_to_end bad addr_error a b da db i j ta Ta tb Tb fpa fpb dk srv_a srv_b (o_ice oa) (o_ice ob)
    (o_media oa) (o_media ob) w (controller A) (controller B)) as (w1 & w2 & ans & sa & sb & E1 & E2 & Hp2 & C1 & P1 & R1 & C2 & P2 & R2 & C3 & Hneg & Sa & Sb);
    try done; try apply PA; try apply PB.
  destruct Hneg as (Rb & Ra & _ & _ & Fa & Fb & Hpairs).
  destruct (Hpairs ka kb Hka Hkb) as [(pa & Ia & La & Ma) (pb & Ib & Lb & Mb)].
  destruct (join_ok addr_error _ _ (with_session sa (controller A)) ka kb pa _ _ Nab Ia La Ma Ra Fa Mab) as (eva & sa2 & ppa & Ja).
  destruct (join_ok addr_error _ _ (with_session sb (controller B)) kb ka pb _ _ Nba Ib Lb Mb Rb Fb Mba) as (evb & sb2 & ppb & Jb).
  set (ca2 := with_pipeline ppa _) in Ja. set (cb2 := with_pipeline ppb _) in Jb.
  destruct (users w2 !! a) as [da2|] eqn:Ua; [|done]. destruct (users w2 !! b) as [db2|] eqn:Ub; [|done].
  injection Sa as Sa. injection Sb as Sb.
  destruct (hang_up_back bad a da2 b ta Ta sa' dk srv_a w2 oa ca2 PA.(p_name) Hp2 Ua Sa
    PA.(p_online)) as (E3 & ca3 & G3 & Ba); try apply PA.
  destruct (hang_up_back bad b db2 a tb Tb sb' dk srv_b (hung_up bad a da2 w2) ob cb2 PB.(p_name) eq_refl
    (eq_trans (lookup_insert_ne _ _ _ _ Hab) Ub) Sb
    PB.(p_online)) as (E4 & cb3 & G4 & Bb); try apply PB.
  exists ans, w1, w2, (hung_up bad a da2 w2), (hung_up bad b db2 (hung_up bad a da2 w2)).
  do 6 (split; [done|]). cbv zeta.
  rewrite (dials bad addr_error a b ta Ta dk srv_a w t0 oa A PA.(p_view) PA.(p_online) Hta Hsee C1).
  rewrite (rings addr_error b tb a offer t0 ob B R1 Htimer).
  destruct (caller_in addr_error a b ans ta t1 oa (with_view (Calling b) A) eva _ R2 (eq_trans C3 Ja)) as [VA CA].
  destruct (callee_in addr_error b a offer t0 t1 (facing bad dk srv_b w1 ob) B evb cb2 Hin
    (proj1 PB.(p_online)) (eq_trans C2 Jb)) as [VB CB].
  rewrite <-CA in G3. rewrite <-CB in G4.
  destruct (caller_out addr_error a b t2 (facing bad dk srv_a w2 oa) _ _ _ VA G3) as [VA3 CA3].
  destruct (callee_out addr_error t2 (facing bad dk srv_b (hung_up bad a da2 w2) ob) _ _ _ G4) as [VB3 CB3].
  split; [done|]. split; [done|]. unfold talking, back. rewrite VA, CA, VB, CB, VA3, CA3, VB3, CB3, Ua, Ub.
  apply check_and_join_up in Ja, Jb. cbn [fmap option_fmap option_map]. rewrite Sa, Sb.
  cbn [users hung_up]. rewrite lookup_insert_eq, (lookup_insert_ne _ b a) by congruence. rewrite lookup_insert_eq.
  split_and!; try done; try apply Ba; apply Bb.
Qed.

(** * Witnesses *)

#[local] Instance demo_order {A} : MapOrder A := { iter := map_to_list; iter_permutation m := Permutation_refl _ }.
#[local] Instance raw_wire : Wire str := { Wire.display := id; from_str := Some }.
#[local] Instance set_order : SetOrder := { Sdp.order := elements; Sdp.order_perm s := Permutation_refl _ }.

Definition both_available : World SessionDescriptionProtocol :=
  mk_world {[ lit "ann" := demo_user (lit "ann") Available 1; lit "bob" := demo_user (lit "bob") Available 2 ]} false [] [] [].

(** A user in the hub who sees [peer] Available. *)
Definition in_hub (me peer ip cert : string) : RoomRTCApp :=
  with_view CallHub (new_app (mk_controller [mk_table {[ lit peer := Available ]} false] 0 (Some (lit me)) (Some (lit me)) true
    (toy ip cert) false 5000 new_pipeline)).

(** A network on which the other's address answers, and working media. *)
Definition good_outside (there ip cert : string) : outside (Addr := str) :=
  mk_outside (mk_exchange (fun _ => Ok tt) (fun _ => Ok []))
    (mk_renewal (Ok tt) (Ok 5006) (Ok tt) (Ok (toy ip cert)))
    (mk_ice_traffic true (fun _ => [Received PONG (lit there)]))
    (mk_call_media (fun _ _ _ _ => Ok tt) (fun _ _ _ _ => Ok tt) working_devices) (fun _ => Ok tt) (Ok tt) true.

Definition the_candidate (s : CallSession) : Candidate :=
  match local_candidates (ice_agent s) with k :: _ => k | [] => mk_candidate Host 0 [] 0 0 [] [] end.

Definition ann_app : RoomRTCApp := in_hub "ann" "bob" "10.0.0.1" "AB:05".
Definition bob_app : RoomRTCApp := in_hub "bob" "ann" "10.0.0.2" "CD:06".
Definition demo_offer : SessionDescriptionProtocol :=
  Sdp.new (media_descriptions (get_offer (call_session (controller ann_app)))) Config.SdpConfig_default.
Definition demo_answer : SessionDescriptionProtocol :=
  match (process_offer demo_offer (call_session (controller bob_app))).1 with Ok a => a | Err _ => demo_offer end.

Lemma demo_carries here there ip :
  candidate_type here = Host -> candidate_type there = Host ->
  contains (lit ip) (address there ++ lit ":" ++ show (port there)) = true ->
  carries (Addr := str) (mk_ice_traffic true (fun _ => [Received PONG (lit ip)])) here there.
Proof.
  intros Hh Ht Hc. split; [done|]. split; [|by eexists].
  intros i p Hl Hr. unfold reachable, eligible, is_srflx, target_of. rewrite Hl, Hr, Hh, Ht. cbn [traffic verify_candidate_pair].
  by rewrite Hc.
Qed.

Lemma demo_party me peer ip cert d i there s fp w :
  nameable (lit me) -> users w !! lit me = Some d -> status d = Available -> server_client_stream d = Some i ->
  closed w = [] -> ready ActPass fp (toy ip cert) -> s = toy ip cert ->
  party (fun _ => false) (lit me) d i 0 {[ lit peer := Available ]} fp s w (good_outside there ip cert) (in_hub me peer ip cert).
Proof. intros Hn Hu Hs Hi Hc Hr ->. split; try done. apply deaf_false. rewrite Hc. split; [done|apply not_elem_of_nil]. Qed.

Lemma call_life_witness : exists ans w2,
  let A1 := next id (click (ClickCall (lit "bob")) 0 (facing (fun _ => false) (mk_disk true true) demo_server both_available
    (good_outside "10.0.0.2" "10.0.0.1" "AB:05"))) ann_app in
  let A2 := receives id (lit "ann") 0 (ServerMessage.CallAccepted (lit "bob") ans) 7000 (good_outside "10.0.0.2" "10.0.0.1" "AB:05") A1 in
  talking (lit "ann") (lit "bob") w2 A2.
Proof.
  destruct (toy_ready "10.0.0.1" "AB:05") as (fpa & Ha); [apply word_ok; reflexivity|vm_compute; reflexivity|done|].
  destruct (toy_ready "10.0.0.2" "CD:06") as (fpb & Hb); [apply word_ok; reflexivity|vm_compute; reflexivity|done|].
  destruct (call_life (Addr := str) (fun _ => false) id (lit "ann") (lit "bob")
    (demo_user (lit "ann") Available 1) (demo_user (lit "bob") Available 2) 1 2 0 {[ lit "bob" := Available ]}
    0 {[ lit "ann" := Available ]} fpa fpb (toy "10.0.0.1" "AB:05") (toy "10.0.0.2" "CD:06")
    (the_candidate (toy "10.0.0.1" "AB:05")) (the_candidate (toy "10.0.0.2" "CD:06")) (mk_disk true true) demo_server demo_server
    both_available (good_outside "10.0.0.2" "10.0.0.1" "AB:05") (good_outside "10.0.0.1" "10.0.0.2" "CD:06") ann_app bob_app 0 7000 60000)
    as (ans & w1 & w2 & w3 & w4 & _ & _ & _ & _ & _ & _ & _ & _ & Ht & _);
    try lazymatch goal with
      |- @eq _ _ _ => reflexivity | |- _ <> _ => done | |- _ < _ => lia | |- comes_up _ _ _ _ => done
    | |- carries _ _ _ => apply demo_carries; vm_compute; reflexivity
    | |- party _ _ _ _ _ _ _ _ _ _ _ => apply demo_party; try reflexivity; try assumption
    end.
  - intros k d. unfold both_available. simpl. rewrite !lookup_insert_Some, lookup_singleton_Some.
    by intros [[<- <-]|[_ [<- <-]]].
  - exact ann_nameable.
  - split; [apply ascii_field; reflexivity|]. split; [apply tight_text; reflexivity|]. apply fits_read. reflexivity.
  - apply compatibleb_ok. vm_compute. reflexivity.
  - apply (bool_decide_unpack _). vm_compute. exact I.
  - apply (bool_decide_unpack _). vm_compute. exact I.
  - apply ascii_field. vm_compute. reflexivity.
  - apply fits_read. vm_compute. reflexivity.
  - split; [|apply fits_read; vm_compute; reflexivity].
    split; [apply ascii_field; reflexivity|]. split; [apply wired_text; vm_compute; reflexivity|apply tight_text; vm_compute; reflexivity].
  - intros a s E. change (process_offer demo_offer (call_session (controller bob_app)) = (Ok a, s)) in E.
    assert (a = demo_answer) as -> by (unfold demo_answer; by rewrite E).
    split; [apply ascii_field; vm_compute; reflexivity|]. split; [apply tight_text; vm_compute; reflexivity|].
    split; [apply fits_read; vm_compute; reflexivity|]. split; [|apply fits_read; vm_compute; reflexivity].
    split; [apply ascii_field; reflexivity|]. split; [apply wired_text; vm_compute; reflexivity|apply tight_text; vm_compute; reflexivity].
  - exists ans, w2. exact Ht.
Defined.
