(* ===== verification/FileLife.v ===== *)
(** A file, from the click that sends it to the end of the download: the
    applications of the two users (Ui) and their transferers (FileTransfer) on a
    channel that keeps what is sent on it, in order.

    [transferring] gives a button the outcome of the transferer's method; the
    frames are those of CallLife. *)

From S2P Require Import Prelude.
From S2P Require Import JitterBuffer.
From S2P Require Import Text.
From S2P Require Import Wire.
From S2P Require Import Sdp.
From S2P Require Import Events.
From S2P Require Import UserStatus.
From S2P Require Import ServerResponse.
From S2P Require Import Controller.
From S2P Require Import Ui.
From S2P Require Import CallLife.
From S2P Require Import FileTransfer.

(** * Definitions *)

Section Life.
Context `{SetOrder} {Addr : Type} `{Wire Addr} `{MapOrder UserStatus} (addr_error : str -> str).
Implicit Types (o : outside (Addr := Addr)) (app : RoomRTCApp).

(** The outside whose transferer answers [r]. *)
Definition transferring {A} (r : result A FileTransfererError) o : outside :=
  mk_outside (o_exchange o) (o_renewal o) (o_ice o) (o_media o) (o_receiver o)
    (match r with Ok _ => Ok tt | Err e => Err (show_transfer_error e) end) (o_event_ok o).

(** A frame in which a dialog was answered: the file to send was chosen, or the
    place of the offer [id]. *)
Definition picked (now : Z) o : frame := mk_ui_frame [] false None (Some true) false Nothing now o.
Definition saved (id : Z) (m : FileMetadata) (now : Z) o : frame :=
  mk_ui_frame [] false (Some (id, m, true)) None false Nothing now o.

(** The turns of a worker that reads the pieces [ps] of a file to its end. *)
Definition reads (ps : list bytes) : list send_turn :=
  map (fun p => mk_send_turn true (Ok p) (Ok tt)) ps ++ [mk_send_turn true (Ok []) (Ok tt)].

(** A user in a call, whose transferer is up. *)
Definition connected app : Prop := (exists me peer, view app = Call me peer) /\ file_transferer (controller app) = true.

(** * Lemmas *)

Lemma next_dialog f_saved f_picked now o app :
  connected app ->
  next addr_error (mk_ui_frame [] false f_saved f_picked false Nothing now o) app =
  with_frames false (manage_files f_saved f_picked o app).
Proof.
  intros ((me & peer & Hv) & _). unfold next, update. cbn -[render_current_view manage_files].
  destruct (manage_files_view f_saved f_picked o app) as [Hv' _]. set (a := manage_files _ _ _ _) in *.
  unfold show_warning_popup. assert (E : match warning_msg a with None => a | Some _ => a end = a) by (by destruct (warning_msg a)).
  rewrite E. unfold render_current_view. by rewrite Hv', Hv.
Qed.

Lemma next_event e now o app app' :
  (handle_event addr_error e o app).1 = app' -> connected app' -> next addr_error (arrive [e] now o) app = with_frames false app'.
Proof. intros E ((me & peer & Hv) & _). rewrite next_arrive, E. unfold render_current_view. by rewrite Hv. Qed.

Lemma click_in_call act now o app :
  connected app ->
  next addr_error (click act now o) app = (show_bottom_toolbar act o (with_frames false (show_side_panel act o app))).1.
Proof. intros ((me & peer & Hv) & _). rewrite next_click. unfold render_current_view. by rewrite Hv. Qed.

(** The whole file, chunk by chunk, and the end. *)
Lemma reads_sent ps : Forall (fun p => p <> []) ps ->
  send_accepted (reads ps) (Ok tt) = map (fun p => to_bytes (FileChunk p)) ps ++ [to_bytes EndOfFile].
Proof.
  intros Hps. unfold send_accepted.
  assert (E : send_loop (reads ps) = (map (fun p => to_bytes (FileChunk p)) ps, true)).
  { unfold reads. induction Hps as [|p ps Hp _ IH]; [done|]. cbn [map app send_loop sender_connected read chunk_sent].
    destruct p; [done|]. by rewrite IH. }
  by rewrite E.
Qed.

Lemma reads_received id ps :
  Forall (fun p => p <> [] /\ (List.length p <= FILE_CHUNK_SIZE)%nat) ps ->
  recv_file id (map delivered (send_accepted (reads ps) (Ok tt))) = (List.concat ps, [FileDownloadCompleted id], Stopped).
Proof.
  intros Hps. rewrite reads_sent by (eapply Forall_impl; [exact Hps|by intros ? [? _]]).
  rewrite map_app, recv_file_chunks by (eapply Forall_impl; [exact Hps|by intros ? [_ ?]]). cbn. by rewrite app_nil_r.
Qed.

(** The turns of the application. *)
Lemma chooses {A} (r : A) now o app :
  connected app ->
  let app' := next addr_error (picked now (transferring (Ok r) o)) (next addr_error (click ClickSendFile now o) app) in
  connected app' /\ warning_msg app' = warning_msg app /\ file_send_rx app' = false.
Proof.
  intros Hc. cbv zeta. rewrite click_in_call by done. unfold picked. rewrite next_dialog by exact Hc.
  unfold manage_files, send_answered, Controller.send_file. cbn. destruct Hc as [Hv Hf]. rewrite Hf. by split.
Qed.

Lemma is_offered id m now o app :
  connected app ->
  let app' := next addr_error (arrive [RemoteFileOffer id m] now o) app in
  connected app' /\ file_offers app' = <[id := m]> (file_offers app) /\ file_downloads app' = file_downloads app /\
  warning_msg app' = warning_msg app.
Proof. intros Hc. cbv zeta. erewrite next_event; [|reflexivity|exact Hc]. by split. Qed.

Lemma saves (r : result unit FileTransfererError) id m now o app :
  connected app -> file_offers app !! id = Some m ->
  let app' := next addr_error (saved id m now (transferring r o)) (next addr_error (click (ClickSave id) now o) app) in
  connected app' /\ file_offers app' = delete id (file_offers app) /\ file_downloads app' = <[id := m]> (file_downloads app) /\
  warning_msg app' = match r with
    | Ok _ => warning_msg app
    | Err e => Some (lit "Failed to accept file: " ++ show_controller_error (Mapped (show_transfer_error e)))
    end.
Proof.
  intros Hc Ho. cbv zeta. rewrite click_in_call by done. unfold show_side_panel.
  rewrite bool_decide_true by (rewrite Ho; by eexists). cbn [show_bottom_toolbar fst].
  unfold saved. rewrite next_dialog by exact Hc. unfold manage_files, save_answered, Controller.accept_file.
  cbn. destruct Hc as [Hv Hf]. rewrite Hf. by destruct r.
Qed.

Lemma completes id now o app :
  connected app ->
  let app' := next addr_error (arrive [FileDownloadCompleted id] now o) app in
  connected app' /\ file_offers app' = file_offers app /\ file_downloads app' = delete id (file_downloads app).
Proof. intros Hc. cbv zeta. erewrite next_event; [|reflexivity|exact Hc]. by split. Qed.
End Life.

(** An accepted file that cannot be created.  The sender has its answer and will
    send the whole file; the receiver is warned, but the file is listed among the
    downloads, and nothing will ever complete it. *)
Lemma failed_accept_downloads `{SetOrder} {Addr} `{Wire Addr} `{MapOrder UserStatus} addr_error {D} text id m (dc : D) e
    (s : FileTransferer D) now (o : outside (Addr := Addr)) app :
  connected app -> file_offers app !! id = Some m -> pending_poisoned s = false -> pending_data_channels s !! id = Some dc ->
  let '(r, answer, _) := accept_file_offer text id (fun _ => Ok tt) (Err e) s in
  let app' := next addr_error (saved id m now (transferring r o)) (next addr_error (click (ClickSave id) now o) app) in
  r = Err (FileCreateError e) /\ answer = Some (dc, to_bytes AcceptFile) /\
  (file_offer_accepted id m (Ok tt) [Ok (to_bytes AcceptFile)]).1 = Some (Ret (Ok true)) /\
  is_Some (warning_msg app') /\ file_downloads app' !! id = Some m.
Proof.
  intros Hc Ho Hp Hd. unfold accept_file_offer, take_pending. rewrite Hp, Hd. cbn [ok_or map_err].
  destruct (saves addr_error (Err (FileCreateError e)) id m now o app Hc Ho) as (_ & _ & Hdl & Hw).
  split; [done|]. split; [done|]. split; [done|]. rewrite Hw, Hdl. split; [by eexists|]. apply lookup_insert_eq.
Qed.

(** * Properties *)

(** C24: the life of a file.  Two users are in a call.  One clicks on Send file
    and chooses one; the offer goes to the other's transferer, whatever else its
    channel brings first, and appears among the offers of that application.
    Saved there, it moves to the downloads, the channel leaves the table of
    pending offers, and the answer, whatever comes before it, starts the sending
    worker.  The file is read to its end in pieces that fit a chunk; the
    receiving worker writes exactly its bytes, and its completion takes the file
    off the list of downloads: nothing of the offer is left on either side. *)
Theorem file_life `{SetOrder} {Addr} `{Wire Addr} `{MapOrder UserStatus} addr_error {DA DB : Type} text m (dcA : DA) (dcB : DB)
    noise noise' ps (sA : FileTransferer DA) (sB : FileTransferer DB) now (oA oB : outside (Addr := Addr)) A B :
  connected A -> connected B -> metadata_fits m -> fits 32 (next_offer_id sA) -> pending_poisoned sB = false ->
  Forall not_offer noise -> Forall not_answer noise' ->
  Forall (fun p => p <> [] /\ (List.length p <= FILE_CHUNK_SIZE)%nat) ps ->
  let id := next_offer_id sA in
  let '(rA, sA1) := FileTransfer.send_file (Ok tt) (Ok m) (fun _ => Ok dcA) sA in
  let A1 := next addr_error (picked now (transferring rA oA)) (next addr_error (click ClickSendFile now oA) A) in
  let offer := (file_offer_accepted id m (Ok tt) []).2 in
  let '(_, evs, sB1) := FileTransfer.handle_incoming text dcB (Ok tt) (map Ok (noise ++ offer)) sB in
  let B1 := next addr_error (arrive evs now oB) B in
  let '(rB, answer, sB2) := accept_file_offer text id (fun _ => Ok tt) (Ok tt) sB1 in
  let B2 := next addr_error (saved id m now (transferring rB oB)) (next addr_error (click (ClickSave id) now oB) B1) in
  let '(file, evs', ended) := recv_file id (map delivered (send_accepted (reads ps) (Ok tt))) in
  let B3 := next addr_error (arrive evs' now oB) B2 in
  warning_msg A1 = warning_msg A /\ file_send_rx A1 = false /\ next_offer_id sA1 = wrap 32 (id + 1) /\
  file_offers B1 = <[id := m]> (file_offers B) /\ warning_msg B2 = warning_msg B /\
  file_offers B2 = delete id (file_offers B) /\ file_downloads B2 = <[id := m]> (file_downloads B) /\
  pending_data_channels sB2 = delete id (pending_data_channels sB) /\
  (exists d, answer = Some (dcB, d) /\ await_answer (map Ok (noise' ++ [d])) = Some (Ret (Ok true))) /\
  file = List.concat ps /\ ended = Stopped /\
  file_offers B3 = delete id (file_offers B) /\ file_downloads B3 = delete id (file_downloads B).
Proof.
  intros HA HB Hm Hid Hp Hn Hn' Hps id. rewrite reads_received by done.
  destruct (FileTransfer.send_file (Ok tt) (Ok m) (fun _ => Ok dcA) sA) as [rA sA1] eqn:Es. pose proof Es as [= Er _]. subst rA.
  destruct (offer_flow text dcB noise noise' sA sB m dcA id sA1 Hm Hid Hp Hn Hn' Es) as (En & sB1 & Ei & _ & Hans).
  cbv zeta. rewrite Ei.
  destruct (chooses addr_error (next_offer_id sA, m, dcA) now oA A HA) as (_ & WA & DA1).
  destruct (is_offered addr_error id m now oB B HB) as (HB1 & O1 & D1 & W1). set (B1 := next _ (arrive [_] _ _) _) in *.
  destruct (Hans true (Ok tt)) as (sB2 & d & Ea & Ep & Eans & _). cbn [map_err] in Ea. rewrite Ea.
  destruct (saves addr_error (Ok tt) id m now oB B1 HB1) as (HB2 & O2 & D2 & W2); [by rewrite O1, lookup_insert_eq|].
  set (B2 := next _ (saved _ _ _ _) _) in *.
  destruct (completes addr_error id now oB B2 HB2) as (_ & O3 & D3).
  rewrite WA, DA1, O3, D3, W2, O2, D2, O1, D1, W1, !delete_insert_eq. split_and!; try done.
  by exists d.
Qed.

(** * Witnesses *)

#[local] Instance demo_order {A} : MapOrder A := { iter := map_to_list; iter_permutation m := Permutation_refl _ }.
#[local] Instance raw_wire : Wire str := { Wire.display := id; from_str := Some }.
#[local] Instance set_order : SetOrder := { Sdp.order := elements; Sdp.order_perm s := Permutation_refl _ }.


Definition demo_meta : FileMetadata := mk_metadata 12345 (lit "example.txt").
Definition demo_transferer : FileTransferer Z := mk_transferer ∅ false 7.

(** A user in a call, with a transferer. *)
Definition in_call_with (peer : string) (app : RoomRTCApp) : RoomRTCApp :=
  with_view (Call (lit "me") (lit peer)) (with_controller (with_transferer true (controller app)) app).
Definition some_outside : outside (Addr := str) := good_outside "10.0.0.2" "10.0.0.1" "AB:05".

(** Five bytes in two pieces; other messages come before the offer and the answer. *)
Lemma file_life_witness :
  let '(_, evs, sB1) := FileTransfer.handle_incoming (lit "poisoned") 40 (Ok tt)
    (map Ok ([[]; [9; 9]] ++ (file_offer_accepted 7 demo_meta (Ok tt) []).2)) (demo_transferer : FileTransferer Z) in
  let '(_, answer, _) := accept_file_offer (lit "poisoned") 7 (fun _ => Ok tt) (Ok tt) sB1 in
  let B1 := next id (arrive evs 0 some_outside) (in_call_with "ann" bob_app) in
  file_offers B1 = {[ 7 := demo_meta ]} /\
  (exists d, answer = Some (40, d) /\ await_answer (map Ok ([[0]] ++ [d])) = Some (Ret (Ok true))) /\
  (recv_file 7 (map delivered (send_accepted (reads [[1; 2; 3]; [4; 5]]) (Ok tt)))).1.1 = [1; 2; 3; 4; 5].
Proof.
  pose proof (file_life (Addr := str) id (lit "poisoned") demo_meta (41 : Z) (40 : Z) [[]; [9; 9]] [[0]] [[1; 2; 3]; [4; 5]]
    demo_transferer demo_transferer 0 some_outside some_outside (in_call_with "bob" ann_app) (in_call_with "ann" bob_app)) as H.
  cbv zeta in H. change (next_offer_id demo_transferer) with 7 in H.
  destruct (FileTransfer.send_file _ _ _ _) as [rA sA1]. destruct (FileTransfer.handle_incoming _ _ _ _ _) as [[ri evs] sB1].
  destruct (accept_file_offer _ _ _ _ _) as [[rB answer] sB2]. destruct (recv_file _ _) as [[file evs'] ended].
  destruct H as (_ & _ & _ & Ho & _ & _ & _ & _ & Ha & Hf & _).
  - split; [by eexists _, _|done].
  - split; [by eexists _, _|done].
  - split; [split; [discriminate|reflexivity]|]. split; [apply (bool_decide_unpack _); vm_compute; exact I|].
    vm_compute. lia.
  - split; [discriminate|reflexivity].
  - reflexivity.
  - repeat apply Forall_cons_2; try apply Forall_nil_2; intros ? ?; discriminate.
  - apply Forall_cons_2; [split; discriminate|apply Forall_nil_2].
  - repeat apply Forall_cons_2; try apply Forall_nil_2; (split; [done|unfold FILE_CHUNK_SIZE; cbn; lia]).
  - split; [rewrite Ho; reflexivity|]. split; [exact Ha|exact Hf].
Defined.
