(* ===== verification/Replay.v ===== *)
(** The repository's own unit tests, run on the model: what a test is here.

    Every Replay file takes the test modules of some source files and translates
    their functions, assertion by assertion; the examples at its end run them.  A
    test is a [bool], or a [result] when it uses the question mark operator.  Tests
    that need what the model takes as an argument (sockets, threads, the libraries)
    are given a concrete instance of it, or left out. *)

From S2P Require Import Prelude.

(** * Definitions *)

Declare Scope replay_scope.
Delimit Scope replay_scope with replay.

(** [assert_eq!] and [assert!(matches!(..))] *)
Notation "a === b" := (bool_decide (a = b)) (at level 70, no associativity) : replay_scope.
Notation "a '=/=' b" := (negb (bool_decide (a = b))) (at level 70, no associativity) : replay_scope.
Notation "'matches!' ( x , p )" := (match x with p => true | _ => false end) (at level 0, x at level 200, p pattern at level 200) : replay_scope.

(** A test that returns a [Result], and one whose code may panic. *)
Definition passes {E} (r : result bool E) : bool := match r with Ok b => b | Err _ => false end.
Definition returns (c : comp bool) : bool := match c with Ret b => b | Panic => false end.

Definition is_err {A E} (r : result A E) : bool := negb (is_ok r).

(** [run_tests]: all of them pass. *)
Definition run_tests (l : list bool) : bool := forallb id l.
