(* ===== verification/ReplaySession.v ===== *)
(** The unit tests of src/session/: attribute.rs, media_description.rs,
    session_description.rs, candidate.rs, candidate_pair.rs, candidate_type.rs,
    connectivity_state.rs, ice_agent.rs and stun_client.rs.

    The tests of the agent meet the network of the machine: the interfaces, the
    STUN answer and the traffic of the checks are their arguments.  One of them
    only passes on a machine with a network ([gather_needs_network]). *)

From S2P Require Import Prelude.
From S2P Require Import Text.
From S2P Require Import Wire.
From S2P Require Import Config.
From S2P Require Import Ice.
From S2P Require Import Stun.
From S2P Require Import SdpAttribute.
From S2P Require Import Sdp.
From S2P Require Import Replay.

#[local] Open Scope replay_scope.

(** * Definitions *)

#[local] Instance SdpError_eq_dec : EqDecision SdpError.
Proof. solve_decision. Defined.
#[local] Instance IceError_eq_dec : EqDecision IceError.
Proof. solve_decision. Defined.
#[local] Instance ConnectivityState_eq_dec : EqDecision ConnectivityState.
Proof. solve_decision. Defined.

(** ** Attributes *)

Definition test_rtpmap_from_str_valid_basic : result bool SdpError :=
  let line := lit "rtpmap:96 opus/48000/2" in
  let? attr := attribute_from_str line in
  Ok (match attr with
      | RTPMap fmt enc rate params => (fmt === 96) && (enc === lit "opus") && (rate === 48000) && (params === Some (lit "2"))
      | _ => false
      end).

Definition test_rtpmap_from_str_valid_no_params : result bool SdpError :=
  let line := lit "rtpmap:97 PCMU/8000" in
  let? attr := attribute_from_str line in
  Ok (match attr with
      | RTPMap fmt enc rate params => (fmt === 97) && (enc === lit "PCMU") && (rate === 8000) && (params === None)
      | _ => false
      end).

Definition test_rtpmap_from_str_invalid_format : bool :=
  matches!(attribute_from_str (lit "rtpmap:"), Err InvalidRtpMapFormatError).
Definition test_rtpmap_from_str_missing_encoding : bool :=
  matches!(attribute_from_str (lit "rtpmap:96 /48000/2"), Err MissingEncodingNameError).
Definition test_rtpmap_from_str_missing_clock_rate : bool :=
  matches!(attribute_from_str (lit "rtpmap:96 opus"), Err MissingClockRateError).
Definition test_invalid_rtpmap_extra_fields : bool :=
  matches!(attribute_from_str (lit "rtpmap:96 opus/48000/2/extra"), Err ExtraRtpFieldsError).

Definition test_display_rtpmap : bool :=
  let attr := RTPMap 96 (lit "opus") 48000 (Some (lit "2")) in
  let attr_no_params := RTPMap 97 (lit "PCMU") 8000 None in
  (show_attribute attr === lit "a=rtpmap:96 opus/48000/2") && (show_attribute attr_no_params === lit "a=rtpmap:97 PCMU/8000").

Definition test_candidate_from_str_valid : result bool SdpError :=
  let line := lit "candidate:1 1 udp 2122252543 192.168.1.5 54400 typ host" in
  let? attr := attribute_from_str line in
  Ok (match attr with
      | CandidateAttr cand =>
          (Ice.foundation cand === lit "1") && (Ice.component_id cand === 1) && (Ice.transport cand === lit "udp") &&
          (priority cand === 2122252543) && (address cand === lit "192.168.1.5") && (Ice.port cand === 54400) &&
          matches!(candidate_type cand, Host)
      | _ => false
      end).

Definition test_candidate_from_str_invalid_format : bool :=
  forallb (fun line => is_err (attribute_from_str line))
    [lit "candidate:1 1 udp 2122252543 192.168.1.5 typ host";
     lit "candidate:1 1 udp 2122252543 192.168.1.5 54400";
     lit "candidate:1 1 udp x 192.168.1.5 54400 typ host";
     lit "candidate:1 1 udp 2122252543 192.168.1.5 x typ host"].

Definition test_candidate_from_str_invalid_format_missing_fields : bool :=
  matches!(attribute_from_str (lit "candidate:1 1 udp 2122252543 192.168.1.5 typ host"), Err InvalidLineFormatError).
Definition test_candidate_from_str_invalid_format_missing_typ : bool :=
  matches!(attribute_from_str (lit "candidate:1 1 udp 2122252543 192.168.1.5 54400 host typ"), Err InvalidCandidateFormatError).
Definition test_candidate_from_str_invalid_candidate_type : bool :=
  matches!(attribute_from_str (lit "candidate:1 1 udp 2122252543 192.168.1.5 54400 typ Guest"), Err InvalidCandidateTypeError).
Definition test_candidate_from_str_invalid_priority : bool :=
  matches!(attribute_from_str (lit "candidate:1 1 udp priority 192.168.1.5 54400 typ host"), Err InvalidPriorityError).
Definition test_candidate_from_str_invalid_port : bool :=
  matches!(attribute_from_str (lit "candidate:1 1 udp 2122252543 192.168.1.5 port typ host"), Err InvalidPortError).
Definition test_candidate_from_str_invalid_component_id : bool :=
  matches!(attribute_from_str (lit "candidate:1 id udp 2122252543 192.168.1.5 54400 typ host"), Err InvalidComponentIdError).

Definition test_display_candidate : bool :=
  let candidate := mk_candidate Host 2122252543 (lit "192.168.1.5") 54400 1 (lit "1") (lit "udp") in
  show_attribute (CandidateAttr candidate) === lit "a=candidate:1 1 udp 2122252543 192.168.1.5 54400 typ host".

Definition test_fingerprint_attribute_roundtrip : result bool SdpError :=
  let? attr := attribute_from_str (lit "fingerprint:sha-256 AA:BB:CC:DD") in
  let? fp := from_hash_string (lit "sha-1") (lit "01:02") in
  Ok (match attr with
      | FingerprintAttr fp => (algorithm fp === lit "sha-256") && (hex_value fp === lit "AA:BB:CC:DD")
      | _ => false
      end &&
      (show_attribute (FingerprintAttr fp) === lit "a=fingerprint:sha-1 01:02")).

Definition test_setup_attribute_roundtrip : result bool SdpError :=
  let? attr := attribute_from_str (lit "setup:active") in
  Ok (matches!(attr, Setup Active) && (show_attribute (Setup Passive) === lit "a=setup:passive")).

Definition test_invalid_fingerprint_format : bool :=
  matches!(attribute_from_str (lit "fingerprint:sha-256 invalid"), Err InvalidFingerprintFormatError).

(** ** Media sections *)

Definition test_from_str_valid_media_description : result bool SdpError :=
  let? md := md_from_str (lit "microphone 5004 RTP/AVP 96 97") in
  Ok ((media_type md === lit "microphone") && (md_port md === 5004) && (protocol md === lit "RTP/AVP") &&
      bool_decide (96 ∈ fmts md) && bool_decide (97 ∈ fmts md)).

Definition test_from_str_invalid_format_missing_fields : bool :=
  matches!(md_from_str (lit "microphone 5004 RTP/AVP"), Err InvalidMediaDescriptionFormatError).
Definition test_from_str_invalid_port : bool :=
  matches!(md_from_str (lit "microphone notaport RTP/AVP 96"), Err InvalidPortError).
Definition test_from_str_invalid_fmt : bool :=
  matches!(md_from_str (lit "microphone 5004 RTP/AVP x"), Err InvalidFmtError).

Definition test_add_attribute_valid : bool :=
  let md := new_md (lit "microphone") 5004 (lit "RTP/AVP") {[96]} in
  match add_attribute md (RTPMap 96 (lit "opus") 48000 (Some (lit "2"))) with
  | Ok md => List.length (md_attributes md) === 1%nat
  | Err _ => false
  end.

Definition test_add_attribute_invalid_fmt : bool :=
  let md := new_md (lit "microphone") 5004 (lit "RTP/AVP") {[97]} in
  matches!(add_attribute md (RTPMap 96 (lit "opus") 48000 (Some (lit "2"))), Err UnmatchingMediaDescriptionAndAttributeError).

(** ** Session descriptions *)

Definition make_test_sdp_config : SdpConfig :=
  Config.mk_sdp 0 0 (lit "-") (lit "0 0") (lit "IN") (lit "IP4") (lit "0.0.0.0").

Definition make_test_media_description : result MediaDescription SdpError :=
  let md := new_md (lit "microphone") 5004 (lit "RTP/AVP") {[96]} in
  add_attribute md (RTPMap 96 (lit "opus") 48000 (Some (lit "2"))).

(** The lines after the first keep the indentation of the literal. *)
Definition indented (l : list string) : str :=
  match map lit l with [] => [] | x :: l => join [10] (x :: map (fun y => lit "            " ++ y) l) end.

Definition is_rtpmap (a : Attribute) : bool := matches!(a, RTPMap _ _ _ _).

Definition test_from_str_generates_valid_session_description : result bool SdpError :=
  let sdp_line := indented ["v=0"; "o=0"; "s=-"; "t=0 0"; "c=IN IP4 127.0.0.1"; "m=microphone 5004 RTP/AVP 96";
    "a=rtpmap:96 opus/48000/2"]%string in
  let? sdp := sdp_from_str sdp_line in
  let? md := ok_or (head (media_descriptions sdp)) MissingMediaDescriptionError in
  Ok ((Sdp.version sdp === 0) && (Sdp.origin_id sdp === 0) && (Sdp.session_name sdp === lit "-") && (Sdp.timing sdp === lit "0 0") &&
      (connection_data sdp === lit "IN IP4 0.0.0.0") && (List.length (media_descriptions sdp) === 1%nat) &&
      (media_type md === lit "microphone") && (protocol md === lit "RTP/AVP") && (md_port md === 5004) &&
      existsb is_rtpmap (md_attributes md)).

Definition test_from_str_with_invalid_sdp_line : bool :=
  let sdp_line := indented ["v=0"; "o=0"; "s=-"; "t=0 0"; "c IN IP4 127.0.0.1"; "m=microphone 5004 RTP/AVP 96";
    "a=rtpmap:96 opus/48000/2"]%string in
  match sdp_from_str sdp_line with
  | Err err => matches!(err, InvalidMediaDescriptionFormatError)
  | Ok _ => false
  end.

Definition test_display_formats_sdp_correctly `{SetOrder} : result bool SdpError :=
  let? md := make_test_media_description in
  let sdp := Sdp.new [md] make_test_sdp_config in
  let out := show_sdp sdp in
  Ok (contains (lit "v=0") out && contains (lit "m=microphone") out && contains (lit "a=rtpmap:96 opus/48000/2") out).

Definition test_set_connection_data_updates_value : result bool SdpError :=
  let? md := make_test_media_description in
  let sdp := Sdp.new [md] make_test_sdp_config in
  let before := connection_data sdp === lit "IN IP4 0.0.0.0" in
  let sdp := set_connection_data (lit "IN") (lit "IP4") (lit "127.0.0.1") sdp in
  Ok (before && (connection_data sdp === lit "IN IP4 127.0.0.1")).

Definition test_set_connection_data_changes_value : bool :=
  let sdp := Sdp.new [] make_test_sdp_config in
  let sdp := set_connection_data (lit "IN") (lit "IP4") (lit "192.168.0.5") sdp in
  connection_data sdp === lit "IN IP4 192.168.0.5".

Definition test_create_answer_filters_incompatible_formats : result bool SdpError :=
  let? local_md := make_test_media_description in
  let local_sdp := Sdp.new [local_md] make_test_sdp_config in
  let remote_md := new_md (lit "microphone") 6000 (lit "RTP/AVP") {[97]} in
  let? remote_md := add_attribute remote_md (RTPMap 97 (lit "vp8") 90000 (Some (lit "1"))) in
  let remote_sdp := Sdp.new [remote_md] make_test_sdp_config in
  let? answer := create_answer local_sdp remote_sdp in
  Ok (match media_descriptions answer with
      | [answer_md] => fmts answer_md === ∅
      | _ => false
      end).

Definition test_create_answer_preserves_compatible_formats : result bool SdpError :=
  let? local_md := make_test_media_description in
  let local_sdp := Sdp.new [local_md] make_test_sdp_config in
  let offer_md := new_md (lit "microphone") 6000 (lit "RTP/AVP") {[96]} in
  let? offer_md := add_attribute offer_md (RTPMap 96 (lit "opus") 48000 (Some (lit "2"))) in
  let offer_sdp := Sdp.new [offer_md] make_test_sdp_config in
  let? answer := create_answer local_sdp offer_sdp in
  Ok (match media_descriptions answer with
      | [answer_md] => bool_decide (96 ∈ fmts answer_md) && existsb is_rtpmap (md_attributes answer_md)
      | _ => false
      end).

(** ** Candidates and pairs *)

Definition test_ice_config : IceConfig := Config.mk_ice (lit "1") (lit "UDP") 1 126 100 65535.

Definition new_candidate_fields_set_correctly : bool :=
  let candidate := mk_candidate ServerReflexive 123456 (lit "10.0.0.5") 3478 1 (lit "foundation-xyz") (lit "TCP") in
  (candidate_type candidate === ServerReflexive) && (priority candidate === 123456) && (address candidate === lit "10.0.0.5") &&
  (Ice.port candidate === 3478) && (Ice.component_id candidate === 1) && (Ice.foundation candidate === lit "foundation-xyz") &&
  (Ice.transport candidate === lit "TCP").

Definition expected_host_priority : Z := Z.lor (Z.lor (Z.shiftl 126 24) (Z.shiftl 65535 8)) (256 - 1).

Definition new_host_sets_correct_values : bool :=
  let candidate := new_host (lit "192.168.0.10") 2 test_ice_config in
  (candidate_type candidate === Host) && (address candidate === lit "192.168.0.10") && (Ice.port candidate === 0) &&
  (Ice.component_id candidate === 2) && (Ice.foundation candidate === lit "1") && (Ice.transport candidate === lit "UDP") &&
  (priority candidate === expected_host_priority).

Definition calculate_priority_for_host : bool :=
  priority (new_host (lit "1.1.1.1") 1 test_ice_config) === expected_host_priority.

Definition display_format : bool :=
  let display := show_candidate (mk_candidate Host 999999 (lit "8.8.8.8") 1234 1 (lit "test") (lit "UDP")) in
  contains (lit "8.8.8.8") display && contains (lit "1234") display && contains (lit "host") display &&
  contains (lit "999999") display.

Definition build_candidate (prio : Z) : Candidate :=
  mk_candidate Host prio (lit "127.0.0.1") 5000 1 (lit "foundation") (lit "udp").

Definition test_candidate_pair_new_initialization : bool :=
  let pair := new_pair (build_candidate 100) (build_candidate 200) in
  (priority (local pair) === 100) && (priority (remote pair) === 200) && (state pair === Waiting).

Definition test_candidate_pair_priority_calculation : bool :=
  let pair := new_pair (build_candidate 300) (build_candidate 100) in
  pair_priority pair === Z.shiftl 1 32 * 100 + 2 * 300 + 1.

Definition test_candidate_pair_display : bool :=
  let display := show_pair (new_pair (build_candidate 123) (build_candidate 456)) in
  contains (lit "<->") display && contains (lit "priority") display && contains (lit "Waiting") display &&
  contains (lit "127.0.0.1:5000") display.

Definition test_candidate_type_priority : bool := (type_priority Host === 126) && (type_priority ServerReflexive === 100).
Definition test_candidate_type_display : bool :=
  (show_type Host === lit "host") && (show_type ServerReflexive === lit "srflx").
Definition test_candidate_type_from_str : result bool IceError :=
  let? h := type_from_str (lit "host") in
  let? s := type_from_str (lit "srflx") in
  Ok ((h === Host) && (s === ServerReflexive) && is_err (type_from_str (lit "invalid"))).

Definition test_connectivity_state_display : bool :=
  (show_state Waiting === lit "Waiting") && (show_state InProgress === lit "In Progress") &&
  (show_state Succeeded === lit "Succeeded") && (show_state Failed === lit "Failed").

(** ** The agent: [interfaces] and [public] are the machine's, the port is the
    one the test's socket was given *)

Definition build_remote_candidate (ip : str) (p : Z) : Candidate := mk_candidate Host 126 ip p 1 (lit "1") (lit "udp").

Definition test_new_agent_is_empty : bool :=
  let agent := Ice.new in
  (local_candidates agent === []) && (remote_candidates agent === []) && matches!(candidate_pairs agent, []) &&
  is_err (get_selected_pair agent).

Definition test_gather_candidates_adds_local_candidate (interfaces : option (list (bool * option str))) (public : result str str)
    (assigned_port : Z) : bool :=
  let '(result, agent) := gather_candidates interfaces (Some assigned_port) public test_ice_config Ice.new in
  if matches!(result, Err NetworkInterfaceError) || matches!(result, Err NoNetworkInterfaceFound) then true else
  is_ok result && negb (local_candidates agent === []) &&
  match List.find (fun c => candidate_type c === Host) (local_candidates agent) with
  | Some host_candidate => Ice.port host_candidate === assigned_port
  | None => false
  end.

Definition test_add_remote_candidate_creates_pairs (interfaces : option (list (bool * option str))) (public : result str str)
    (assigned_port : Z) : bool :=
  let '(result, agent) := gather_candidates interfaces (Some assigned_port) public test_ice_config Ice.new in
  is_ok result &&
  let remote := build_remote_candidate (lit "127.0.0.1") 9000 in
  let '(result, agent) := add_remote_candidate remote agent in
  is_ok result && (List.length (remote_candidates agent) === 1%nat) &&
  match candidate_pairs agent, local_candidates agent with
  | p0 :: _, l :: _ => (address (local p0) === address l) && (address (Ice.remote p0) === address remote)
  | _, _ => false
  end.

(** The responder passes over every other datagram, so the second PING is
    answered. *)
Definition responder (i : nat) : list turn := [RecvError; Received PONG (lit "127.0.0.1")].

Definition test_start_connectivity_checks_selects_pair (interfaces : option (list (bool * option str))) (public : result str str)
    (assigned_port remote_port : Z) : bool :=
  let '(result, agent) := gather_candidates interfaces (Some assigned_port) public test_ice_config Ice.new in
  let remote_candidate := build_remote_candidate (lit "127.0.0.1") remote_port in
  let '(result', agent) := add_remote_candidate remote_candidate agent in
  let '(result'', agent) := start_connectivity_checks true responder agent in
  is_ok result && is_ok result' && is_ok result'' &&
  match get_selected_pair agent with
  | Ok selected => (state selected === Succeeded) && (Ice.port (Ice.remote selected) === remote_port)
  | Err _ => false
  end.

Definition test_error_when_starting_checks_without_pairs : bool :=
  matches!((start_connectivity_checks true (fun _ => []) Ice.new).1, Err NoCandidatePairs).

(** ** The STUN client *)

Definition MAGIC_COOKIE : Z := 554869826.            (* 0x2112_A442 *)

(** The two builders of the tests. *)
Definition add_stun_attribute (attr_type : Z) (value : bytes) (attributes : bytes) : bytes :=
  let attributes := attributes ++ to_be 2 attr_type ++ to_be 2 (wrap 16 (Z.of_nat (List.length value))) ++ value in
  let padding := ((4 - List.length value mod 4) mod 4)%nat in
  attributes ++ repeat 0 padding.

(** Four bytes, zeros where the text does not give them, exclusive-or the cookie. *)
Definition xor_ip (ip : str) : bytes :=
  let ip_parts := omap (parse_uint 8) (split (c! ".") ip) in
  let ip_bytes := take 4 (ip_parts ++ repeat 0 4) in
  to_be 4 (Z.lxor (from_be ip_bytes) MAGIC_COOKIE).

Definition xor_port (port : Z) : bytes := to_be 2 (Z.lxor port (Z.shiftr MAGIC_COOKIE 16)).

Definition add_xor_address (ip : str) (port : Z) (attributes : bytes) : bytes :=
  add_stun_attribute 32 ([0; 1] ++ xor_port port ++ xor_ip ip) attributes.

Definition build_stun (attributes : bytes) : bytes :=
  let packet := [1; 1; 0; 0; 33; 18; 164; 66] ++ repeat 170 12 ++ attributes in
  let len := wrap 16 (Z.of_nat (List.length packet - 20)) in
  <[3%nat := Z.land len 255]> (<[2%nat := wrap 8 (Z.shiftr len 8)]> packet).

Definition build_fake_stun_response (public_ip : str) (public_port : Z) : bytes :=
  [1; 1; 0; 12; 33; 18; 164; 66] ++ repeat 0 12 ++ to_be 2 32 ++ to_be 2 8 ++ [0] ++ [1] ++ xor_port public_port ++ xor_ip public_ip.

Definition test_parse_stun_response_correctly_decodes_xor_mapped_address : bool :=
  let packet := build_fake_stun_response (lit "200.100.50.25") 8888 in
  parse_stun_response packet === Some (Ret (Ok (lit "200.100.50.25" ++ lit ":" ++ show 8888))).

Definition test_parse_stun_response_invalid_cookie : bool :=
  let packet := <[4%nat := 0]> (build_fake_stun_response (lit "1.2.3.4") 5555) in
  parse_stun_response packet === Some (Ret (Err (lit "Invalid STUN response: Magic Cookie mismatch"))).

Definition test_parse_stun_response_too_short : bool :=
  matches!(parse_stun_response [0; 1], Some (Ret (Err _))).

Definition test_robustness_attributes_before_target : bool :=
  let packet := build_stun (add_xor_address (lit "192.168.1.50") 12345 (add_stun_attribute 32802 (lit "STUN Server v1.0") [])) in
  parse_stun_response packet === Some (Ret (Ok (lit "192.168.1.50:12345"))).

Definition test_robustness_padding_calculation : bool :=
  let packet := build_stun (add_xor_address (lit "10.0.0.1") 8080 (add_stun_attribute 1 [1; 2; 3; 4; 5] [])) in
  parse_stun_response packet === Some (Ret (Ok (lit "10.0.0.1:8080"))).

Definition test_robustness_boundary_values : bool :=
  let packet := build_stun (add_xor_address (lit "255.255.255.255") 65535 []) in
  parse_stun_response packet === Some (Ret (Ok (lit "255.255.255.255:65535"))).

Definition test_robustness_ignores_ipv6 : bool :=
  let value := [0; 2] ++ repeat 255 18 in
  let packet := build_stun (add_stun_attribute 32 value []) in
  match parse_stun_response packet with
  | Some (Ret (Err e)) => contains (lit "not found") e
  | _ => false
  end.

(** It only has to return. *)
Definition test_robustness_malformed_length : bool :=
  let packet := <[3%nat := 255]> (build_stun (add_xor_address (lit "1.2.3.4") 5000 [])) in
  matches!(parse_stun_response packet, Some (Ret _)).

(** * The tests pass *)

Example attribute_tests :
  run_tests [passes test_rtpmap_from_str_valid_basic; passes test_rtpmap_from_str_valid_no_params;
    test_rtpmap_from_str_invalid_format; test_rtpmap_from_str_missing_encoding; test_rtpmap_from_str_missing_clock_rate;
    test_invalid_rtpmap_extra_fields; test_display_rtpmap; passes test_candidate_from_str_valid;
    test_candidate_from_str_invalid_format; test_candidate_from_str_invalid_format_missing_fields;
    test_candidate_from_str_invalid_format_missing_typ; test_candidate_from_str_invalid_candidate_type;
    test_candidate_from_str_invalid_priority; test_candidate_from_str_invalid_port; test_candidate_from_str_invalid_component_id;
    test_display_candidate; passes test_fingerprint_attribute_roundtrip; passes test_setup_attribute_roundtrip;
    test_invalid_fingerprint_format] = true.
Proof. vm_compute. reflexivity. Qed.

Example description_tests :
  run_tests [passes test_from_str_valid_media_description; test_from_str_invalid_format_missing_fields; test_from_str_invalid_port;
    test_from_str_invalid_fmt; test_add_attribute_valid; test_add_attribute_invalid_fmt;
    passes test_from_str_generates_valid_session_description; test_from_str_with_invalid_sdp_line;
    passes test_set_connection_data_updates_value; test_set_connection_data_changes_value;
    passes test_create_answer_filters_incompatible_formats; passes test_create_answer_preserves_compatible_formats] = true.
Proof. vm_compute. reflexivity. Qed.

(** In whatever order the formats are walked. *)
Lemma display_test `{SetOrder} : passes test_display_formats_sdp_correctly = true.
Proof.
  assert (E : order {[96]} = [96]).
  { pose proof (order_perm {[96]}) as Hp. rewrite elements_singleton in Hp. by apply Permutation_singleton_r in Hp. }
  unfold test_display_formats_sdp_correctly.
  assert (Em : make_test_media_description = Ok (mk_md (lit "microphone") 5004 (lit "RTP/AVP") {[96]}
    [RTPMap 96 (lit "opus") 48000 (Some (lit "2"))])) by (vm_compute; reflexivity).
  rewrite Em. cbn [rbind passes]. unfold show_sdp. cbn [media_descriptions Sdp.new foldl]. unfold show_md. cbn [fmts]. rewrite E.
  vm_compute. reflexivity.
Qed.

Example candidate_tests :
  run_tests [new_candidate_fields_set_correctly; new_host_sets_correct_values; calculate_priority_for_host; display_format;
    test_candidate_pair_new_initialization; test_candidate_pair_priority_calculation; test_candidate_pair_display;
    test_candidate_type_priority; test_candidate_type_display; passes test_candidate_type_from_str;
    test_connectivity_state_display; test_new_agent_is_empty; test_error_when_starting_checks_without_pairs] = true.
Proof. vm_compute. reflexivity. Qed.

Example stun_tests :
  run_tests [test_parse_stun_response_correctly_decodes_xor_mapped_address; test_parse_stun_response_invalid_cookie;
    test_parse_stun_response_too_short; test_robustness_attributes_before_target; test_robustness_padding_calculation;
    test_robustness_boundary_values; test_robustness_ignores_ipv6; test_robustness_malformed_length] = true.
Proof. vm_compute. reflexivity. Qed.

(** A machine with an interface and no way to the STUN server. *)
Definition lan : option (list (bool * option str)) := Some [(true, Some (lit "127.0.0.1")); (false, Some (lit "192.168.1.5"))].

Example agent_tests :
  run_tests [test_gather_candidates_adds_local_candidate lan (Err []) 40000; test_add_remote_candidate_creates_pairs lan (Err []) 40000;
    test_start_connectivity_checks_selects_pair lan (Err []) 40000 40001] = true.
Proof. vm_compute. reflexivity. Qed.

(** [gather_candidates] never fails, so the test's way out for a machine without
    a network is never taken: there, without a STUN answer, the test fails. *)
Lemma gather_needs_network interfaces assigned_port :
  test_gather_candidates_adds_local_candidate interfaces (Err []) assigned_port = is_ok (get_local_ip interfaces).
Proof.
  unfold test_gather_candidates_adds_local_candidate, gather_candidates.
  destruct (get_local_ip interfaces) as [ip|e]; [|reflexivity]. cbn. rewrite bool_decide_true by done. by apply bool_decide_eq_true.
Qed.
