(* ===== verification/ReplayServer.v ===== *)
(** The unit tests of the server and its protocol: operating_server.rs,
    user_handler.rs and central_server.rs of src/server/, user_data.rs and
    user_status.rs of src/user/, and the three messages of
    src/client_server_protocol/.

    The users file the tests write is an argument ([Disk]).  Most of the tests of
    the calls never reach what they are named after: the users they make have no
    stream, so the server refuses before it looks at a status ([calls_need_streams]). *)

From S2P Require Import Prelude.
From S2P Require Import Text.
From S2P Require Import Wire.
From S2P Require Import UserStatus.
From S2P Require Import ClientMessage.
From S2P Require Import ServerMessage.
From S2P Require Import ServerResponse.
From S2P Require Import OperatingServer.
From S2P Require Import UserHandler.
From S2P Require Import CentralServer.
From S2P Require Import Server.
From S2P Require Import Sdp.
From S2P Require Import Replay.

#[local] Open Scope replay_scope.

(** * Definitions *)

#[local] Instance hash_order {A} : MapOrder A := { iter := map_to_list; iter_permutation m := Permutation_refl _ }.
#[local] Instance set_order : SetOrder := { Sdp.order := elements; Sdp.order_perm s := Permutation_refl _ }.
#[local] Instance str_eq_dec : EqDecision str := list_eq_dec.

(** ** The standard library's addresses, as far as the tests use them *)

(** [SocketAddr] of an IPv4 address. *)
Record SocketAddr := mk_addr { octets : list Z; port : Z }.

#[local] Instance SocketAddr_eq_dec : EqDecision SocketAddr.
Proof. solve_decision. Defined.

Definition show_addr (a : SocketAddr) : str := join (lit ".") (show <$> octets a) ++ lit ":" ++ show (port a).
(** An octet has up to three digits and no leading zero; a port has digits only. *)
Definition read_octet (s : str) : option Z :=
  match s with
  | [] => None
  | c :: rest => if (c =? 43) || ((c =? 48) && negb (bool_decide (rest = []))) then None else parse_uint 8 s
  end.
Definition read_addr (s : str) : option SocketAddr :=
  match split_once (c! ":") s with
  | Some (ip, p) =>
      match mapM read_octet (split (c! ".") ip), parse_uint 16 p with
      | Some o, Some n => if (List.length o =? 4)%nat && negb (starts_with (lit "+") p) then Some (mk_addr o n) else None
      | _, _ => None
      end
  | None => None
  end.
#[local] Instance addr_wire : Wire SocketAddr := { Wire.display := show_addr; from_str := read_addr }.

#[local] Abbreviation Response := (ServerResponse SocketAddr).
#[local] Abbreviation Users := (World SessionDescriptionProtocol).
#[local] Abbreviation Op := (OperatingServer SocketAddr).

(** [SessionDescriptionProtocol::default()], the derived one. *)
Definition default_sdp : SessionDescriptionProtocol := mk_sdp 0 0 [] [] [] [].

(** ** Users and their status *)

Definition test_new_user_creation : bool :=
  let user := new_user (lit "alice") (lit "secret123") Available in
  (username user === lit "alice") && (password user === lit "secret123") && (status user === Available) &&
  (server_client_stream user === None).

Definition test_update_status : bool :=
  let user := new_user (lit "bob") (lit "pass") Offline in
  let new_status := Occupied (lit "Coding") in
  (status user === Offline) && (status (update_status new_status user) === new_status).

Definition test_user_data_clone : bool :=
  let user := new_user (lit "charlie") (lit "1234") Available in
  let user_clone := update_status Offline user in
  (username user === username user_clone) && (status user =/= status user_clone) && (status user === Available).

Definition test_from_bytes_available : bool := UserStatus.from_bytes (lit "Available") === Some Available.
Definition test_from_bytes_offline : bool := UserStatus.from_bytes (lit "Offline") === Some Offline.
Definition test_from_bytes_occupied_valid : bool :=
  UserStatus.from_bytes (lit "Occupied:Meeting") === Some (Occupied (lit "Meeting")).
Definition test_from_bytes_occupied_with_spaces : bool :=
  UserStatus.from_bytes (lit "Occupied:Coding Hard") === Some (Occupied (lit "Coding Hard")).
Definition test_from_bytes_invalid_format : bool :=
  (UserStatus.from_bytes (lit "Occupied") === None) && (UserStatus.from_bytes (lit "Busy") === None) &&
  (UserStatus.from_bytes (lit "Available:Now") === None).
Definition test_from_bytes_empty : bool := UserStatus.from_bytes [] === None.
Definition test_from_bytes_utf8_error : bool := UserStatus.from_bytes [255] === None.
Definition test_display_implementation : bool :=
  (UserStatus.display Available === lit "Available") && (UserStatus.display Offline === lit "Offline") &&
  (UserStatus.display (Occupied (lit "Gaming")) === lit "Occupied:Gaming").
Definition test_clone_and_equality : bool :=
  let status := Occupied (lit "Work") in (status === status) && (status =/= Available).

(** ** Messages *)

Definition test_login_serialization : bool :=
  let msg : ClientMessage SessionDescriptionProtocol := LogIn (lit "alice") (lit "password123") in
  let bytes := ClientMessage.to_bytes msg in
  (bytes === lit "LOGIN|alice|password123" ++ [10]) &&
  match ClientMessage.from_bytes (SDP := SessionDescriptionProtocol) bytes with
  | Some (LogIn username password) => (username === lit "alice") && (password === lit "password123")
  | _ => false
  end.

Definition test_hello_variant : bool :=
  let bytes := ClientMessage.to_bytes (Hello : ClientMessage SessionDescriptionProtocol) in
  (bytes === lit "HELLO" ++ [10]) && matches!(ClientMessage.from_bytes (SDP := SessionDescriptionProtocol) bytes, Some Hello).

Definition test_call_request_serialization : bool :=
  let sdp_str := lit "v=0" ++ [10] ++ lit "o=- 12345 67890 IN IP4 127.0.0.1" in
  match sdp_from_str sdp_str with
  | Ok offer_sdp =>
      let bytes := ClientMessage.to_bytes (CallRequest (lit "secret_token") offer_sdp (lit "bob")) in
      match ClientMessage.from_bytes (SDP := SessionDescriptionProtocol) bytes with
      | Some (CallRequest token _ to) => (token === lit "secret_token") && (to === lit "bob")
      | _ => false
      end
  | Err _ => false
  end.

Definition test_invalid_messages : bool :=
  forallb (fun b => matches!(ClientMessage.from_bytes (SDP := SessionDescriptionProtocol) b, None))
    [lit "INVALID|data" ++ [10]; lit "LOGIN|only_user" ++ [10]; [0; 159; 146; 150]].

Definition test_call_reject : bool :=
  let msg : ClientMessage SessionDescriptionProtocol := CallReject (lit "alice") (lit "bob") in
  let bytes := ClientMessage.to_bytes msg in
  (bytes === lit "CALLREJECT|alice|bob" ++ [10]) &&
  match ClientMessage.from_bytes (SDP := SessionDescriptionProtocol) bytes with
  | Some (CallReject from_usr to_usr) => (from_usr === lit "alice") && (to_usr === lit "bob")
  | _ => false
  end.

(** [assert_eq!(decoded, msg)]: the messages of these tests hold no description. *)
Definition same_message (a b : ServerMessage SessionDescriptionProtocol) : bool :=
  match a, b with
  | UsernameRequest, UsernameRequest => true
  | ServerMessage.Error x, ServerMessage.Error y => x === y
  | UserStatusUpdate u s, UserStatusUpdate v t => (u === v) && (s === t)
  | _, _ => false
  end.
Definition roundtrip (msg : ServerMessage SessionDescriptionProtocol) : option (ServerMessage SessionDescriptionProtocol) :=
  let bytes := ServerMessage.to_bytes msg in ServerMessage.from_bytes bytes.
Definition survives (msg : ServerMessage SessionDescriptionProtocol) : bool :=
  match roundtrip msg with Some decoded => same_message decoded msg | None => false end.

Definition test_username_request : bool := survives UsernameRequest.
Definition test_error_message : bool := survives (ServerMessage.Error (lit "SomethingBad")).
Definition test_userstate_available : bool := survives (UserStatusUpdate (lit "Bob") Available).
Definition test_userstate_offline : bool := survives (UserStatusUpdate (lit "Charlie") Offline).
Definition test_userstate_occupied : bool := survives (UserStatusUpdate (lit "Dave") (Occupied (lit "OnCall"))).

(** [ServerResponse::from_bytes] *)
Definition decoded (b : bytes) : option Response := ServerResponse.from_bytes b.

Definition test_welcome_and_simple_variants : bool :=
  let bytes := ServerResponse.to_bytes (Welcome : Response) in
  (bytes === lit "WELCOME" ++ [10]) && matches!(decoded bytes, Some Welcome) &&
  (ServerResponse.to_bytes (BadMessage : Response) === lit "BADMSG" ++ [10]).

Definition test_login_ok_serialization : bool :=
  let users := <[lit "bob" := Offline]> (<[lit "alice" := Available]> (∅ : gmap str UserStatus)) in
  match read_addr (lit "127.0.0.1:8080") with
  | Some addr =>
      let bytes := ServerResponse.to_bytes (LoginOk (lit "test_token") addr users) in
      match decoded bytes with
      | Some (LoginOk token address user_map) =>
          (token === lit "test_token") && (address === addr) &&
          (user_map !! lit "alice" === Some Available) && (user_map !! lit "bob" === Some Offline) &&
          (size user_map === 2%nat)
      | _ => false
      end
  | None => false
  end.

Definition test_login_ok_empty_users : bool :=
  match read_addr (lit "0.0.0.0:0") with
  | Some addr =>
      let bytes := ServerResponse.to_bytes (LoginOk (lit "token") addr ∅) in
      match decoded bytes with
      | Some (LoginOk _ _ user_map) => size user_map === 0%nat
      | _ => false
      end
  | None => false
  end.

Definition test_error_variants : bool :=
  let cases : list (Response * bytes) :=
    [(LoginError (lit "invalid pass"), lit "LOGINERROR|invalid pass" ++ [10]);
     (SignupError (lit "user exists"), lit "SIGNUPERROR|user exists" ++ [10]);
     (ServerResponse.Error (lit "fatal crash"), lit "ERROR|fatal crash" ++ [10])] in
  forallb (fun '(resp, expected_str) =>
    let bytes := ServerResponse.to_bytes resp in
    (bytes === expected_str) &&
    match decoded bytes with
    | Some deserialized =>
        match resp, deserialized with
        | ServerResponse.Error a, ServerResponse.Error b | LoginError a, LoginError b | SignupError a, SignupError b => a === b
        | _, _ => true
        end
    | None => false
    end) cases.

Definition test_malformed_login_ok : bool :=
  matches!(decoded (lit "LOGINOK|token|not_an_ip|user,status" ++ [10]), None) &&
  matches!(decoded (lit "LOGINOK|token|127.0.0.1:80" ++ [10]), None).

Definition test_call_responses : bool :=
  (ServerResponse.to_bytes (CallRequestOk : Response) === lit "CALLREQUESTOK" ++ [10]) &&
  matches!(decoded (lit "CALLREQUESTOK" ++ [10]), Some CallRequestOk) &&
  (ServerResponse.to_bytes (CallAcceptError (lit "timeout") : Response) === lit "CALLACCEPTERROR|timeout" ++ [10]).

(** ** The server's operations *)

(** What a test holds: its handler and what the handlers share. *)
Definition fixture : Type := Op * Users.

Definition setup : fixture :=
  (mk_server (mk_addr [127; 0; 0; 1] 8080) None, mk_world ∅ false [] [] []).

Definition setup_with_users (map : list (str * str * UserStatus)) : fixture :=
  let users := foldl (fun users '(name, passwd, status) => <[name := new_user name passwd status]> users) ∅ map in
  (setup.1, mk_world users false [] [] []).

(** The methods, on a fixture: no lock is poisoned in a test. *)
Definition healthy (_ : nat) : bool := false.
Definition signup (disk : Disk) (name passwd : str) (f : fixture) : Response * fixture :=
  let '(r, s, w) := signup_user healthy name passwd disk f.1 f.2 in (r, (s, w)).
Definition login (name passwd : str) (f : fixture) : Response * fixture :=
  let '(r, s, w) := login_user healthy name passwd f.1 f.2 in (r, (s, w)).
Definition logout (name : str) (f : fixture) : Response * fixture :=
  let '(r, s, w) := logout_user healthy name f.1 f.2 in (r, (s, w)).
Definition status_of (name : str) (f : fixture) : option UserStatus := status <$> (OperatingServer.users f.2 !! name).

Definition test_signup_ok (disk : Disk) : bool :=
  let '(event, op_s) := signup disk (lit "alice") (lit "1234") setup in
  matches!(event, SignupOk) && (password <$> (OperatingServer.users op_s.2 !! lit "alice") === Some (lit "1234")).

Definition test_signup_sets_status_offline_by_default (disk : Disk) : bool :=
  let '(_, op_s) := signup disk (lit "alice") (lit "1234") setup in status_of (lit "alice") op_s === Some Offline.

Definition test_signup_existing_user (disk : Disk) : bool :=
  let '(_, op_s) := signup disk (lit "bob") (lit "pass") setup in
  let '(event, op_s) := signup disk (lit "bob") (lit "other") op_s in
  match event with SignupError msg => contains (lit "already exists") msg | _ => false end.

Definition test_login_ok (disk : Disk) : bool :=
  let '(_, op_s) := signup disk (lit "maria") (lit "abcd") setup in
  let '(event, _) := login (lit "maria") (lit "abcd") op_s in matches!(event, LoginOk _ _ _).

Definition test_login_changes_status_to_available (disk : Disk) : bool :=
  let '(_, op_s) := signup disk (lit "maria") (lit "abcd") setup in
  let '(_, op_s) := login (lit "maria") (lit "abcd") op_s in status_of (lit "maria") op_s === Some Available.

Definition test_cannot_login_twice_with_same_user (disk : Disk) : bool :=
  let '(_, op_s) := signup disk (lit "alice") (lit "abcd") setup in
  let '(event, op_s) := login (lit "alice") (lit "abcd") op_s in
  let '(event', _) := login (lit "alice") (lit "abcd") op_s in
  matches!(event, LoginOk _ _ _) && matches!(event', LoginError _).

Definition test_login_wrong_password (disk : Disk) : bool :=
  let '(_, op_s) := signup disk (lit "carl") (lit "mypw") setup in
  let '(event, _) := login (lit "carl") (lit "WRONG") op_s in
  match event with LoginError msg => contains (lit "Wrong password") msg | _ => false end.

Definition test_login_user_not_found : bool :=
  let '(event, _) := login (lit "ghost") (lit "nopw") setup in
  match event with LoginError msg => contains (lit "not found") msg | _ => false end.

Definition logout_user_success : bool :=
  let op_s := setup_with_users [(lit "alice", lit "1233", Available)] in
  let '(_, op_s) := logout (lit "alice") op_s in status_of (lit "alice") op_s === Some Offline.

Definition logout_user_not_found : bool :=
  let '(result, _) := logout (lit "ghost") setup in
  match result with LogoutError msg => contains (lit "ghost") msg | _ => false end.

Definition logout_user_does_not_affect_others : bool :=
  let op_s := setup_with_users [(lit "bob", lit "xxx", Available); (lit "eve", lit "yyy", Occupied (lit "someone"))] in
  let '(_, op_s) := logout (lit "bob") op_s in
  (status_of (lit "bob") op_s === Some Offline) && matches!(status_of (lit "eve") op_s, Some (Occupied _)).

Definition test_get_user_data_ok : bool :=
  let op_s := setup_with_users [(lit "alice", lit "1234", Available)] in
  match get_user_data (lit "alice") op_s.2 with Ok d => username d === lit "alice" | Err _ => false end.

Definition test_get_user_data_not_found : bool := is_err (get_user_data (lit "ghost") setup.2).

Definition test_call_hangup_ok : bool :=
  let op_s := setup_with_users [(lit "alice", lit "xxx", Occupied (lit "bob"))] in
  let '(result, w) := call_hangup healthy (lit "alice") op_s.2 in
  matches!((result : Response), CallHangUpOk) && (status_of (lit "alice") (op_s.1, w) === Some Available).

Definition test_call_hangup_unexpected_status : bool :=
  let op_s := setup_with_users [(lit "alice", lit "xxx", Available)] in
  match (call_hangup healthy (lit "alice") op_s.2).1 : Response with
  | CallHangUpError msg => contains (lit "Unexpected") msg
  | _ => false
  end.

(** The test takes both answers: see [success_is_refused]. *)
Definition test_call_accept_success : bool :=
  let op_s := setup_with_users [(lit "bob", lit "123", Available); (lit "alice", lit "abc", Available)] in
  let '(res, w) := call_request healthy (lit "alice") (lit "bob") default_sdp op_s.2 in
  let alice := status_of (lit "alice") (op_s.1, w) in
  let bob := status_of (lit "bob") (op_s.1, w) in
  match (res : Response) with
  | CallRequestOk => (alice === Some (Occupied (lit "bob"))) && (bob === Some (Occupied (lit "alice")))
  | CallRequestError _ => (alice === Some Available) && (bob === Some Available)
  | _ => false
  end.

(** The four refusals of [call_accept] and the two texts each takes. *)
Definition accept_refused (map : list (str * str * UserStatus)) (one other : str) : bool :=
  match (call_accept healthy (lit "alice") (lit "bob") default_sdp (setup_with_users map).2).1 : Response with
  | CallAcceptError msg => contains one msg || contains other msg
  | _ => false
  end.

Definition test_call_accept_from_user_not_available : bool :=
  accept_refused [(lit "alice", lit "123", Occupied (lit "x")); (lit "bob", lit "abc", Available)]
    (lit "user not available") (lit "user does not exist").
Definition test_call_accept_to_user_not_available : bool :=
  accept_refused [(lit "bob", lit "123", Occupied (lit "x")); (lit "alice", lit "abc", Available)]
    (lit "user not available") (lit "user does not exist").
Definition test_call_accept_from_user_not_found : bool :=
  accept_refused [(lit "bob", lit "123", Available)] (lit "not found") (lit "user does not exist").
Definition test_call_accept_to_user_not_found : bool :=
  accept_refused [(lit "bob", lit "123", Available)] (lit "not found") (lit "user does not exist").

(** [u.get_mut(name).expect(..).update_status(s)] *)
Definition set_status (name : str) (s : UserStatus) (f : fixture) : option fixture :=
  d ← OperatingServer.users f.2 !! name;
  Some (f.1, set_users (<[name := update_status s d]> (OperatingServer.users f.2)) f.2).

Definition test_call_reject_ok : bool :=
  let op_s := setup_with_users [(lit "bob", lit "abc", Available); (lit "alice", lit "123", Available)] in
  match set_status (lit "alice") Available op_s ≫= set_status (lit "bob") Available with
  | None => false
  | Some op_s =>
      let '(_, w) := call_reject (Addr := SocketAddr) healthy (lit "alice") (lit "bob") op_s.2 in
      (status_of (lit "alice") (op_s.1, w) === Some Available) && (status_of (lit "bob") (op_s.1, w) === Some Available)
  end.

Definition test_call_reject_user_not_available : bool :=
  let op_s := setup_with_users [(lit "bob", lit "abc", Available); (lit "alice", lit "123", Available)] in
  match set_status (lit "alice") (Occupied (lit "bob")) op_s ≫= set_status (lit "bob") Available with
  | None => false
  | Some op_s =>
      match (call_reject healthy (lit "alice") (lit "bob") op_s.2).1 : Response with
      | CallRejectError msg => contains (lit "user not available") msg || contains (lit "user does not exist") msg
      | _ => false
      end
  end.

(** ** Dispatch *)

Definition handle (disk : Disk) (msg : ClientMessage SessionDescriptionProtocol) (f : fixture) : Response * fixture :=
  let '(r, s, w) := handle_client_message healthy msg disk f.1 f.2 in (r, (s, w)).

Definition test_dispatch_login (disk : Disk) : bool :=
  let '(_, handler) := signup disk (lit "tester") (lit "pass") setup in
  match (handle disk (LogIn (lit "tester") (lit "pass")) handler).1 with
  | LoginOk u _ _ => u === lit "tester"
  | _ => false
  end.

Definition test_dispatch_signup (disk : Disk) : bool :=
  matches!((handle disk (SignUp (lit "newuser") (lit "123")) setup).1, SignupOk).

Definition test_dispatch_logout (disk : Disk) : bool :=
  let '(_, handler) := signup disk (lit "leaver") (lit "pass") setup in
  let '(_, handler) := login (lit "leaver") (lit "pass") handler in
  let '(response, handler) := handle disk (LogOut (lit "leaver")) handler in
  matches!(response, ServerResponse.Error _) &&
  match status_of (lit "leaver") handler with Some s => s === Offline | None => true end.

Definition test_dispatch_call_hangup (disk : Disk) : bool :=
  let '(_, handler) := signup disk (lit "busy") (lit "pass") setup in
  let handler := default handler (set_status (lit "busy") (Occupied (lit "other")) handler) in
  matches!((handle disk (CallHangup (lit "busy")) handler).1, CallHangUpOk).

Definition test_dispatch_call_request_validation (disk : Disk) : bool :=
  matches!((handle disk (CallRequest (lit "origin") default_sdp (lit "dest")) setup).1, CallRequestError _).

(** ** The users file and the address *)

(** [with_temp_file]: the text is written, read by [load_users_from_mem], and removed. *)
Definition with_temp_file (content : str) (test_fn : result (gmap str UserData) ServerError -> bool) : bool :=
  test_fn (load_users_from_mem (Some (utf8_encode content)) (Ok tt)).

Definition test_load_users_valid_entries : bool :=
  with_temp_file (lit "alice:1234" ++ [10] ++ lit "bob:secret" ++ [10] ++ lit "charlie:pass") (fun result =>
    match result with
    | Ok users =>
        (size users === 3%nat) &&
        match users !! lit "alice" with Some u => (password u === lit "1234") && (status u === Offline) | None => false end &&
        match users !! lit "bob" with Some u => password u === lit "secret" | None => false end
    | Err _ => false
    end).

Definition test_load_users_ignores_malformed_lines : bool :=
  with_temp_file (lit "valid:pass" ++ [10] ++ lit "malformed" ++ [10; 10] ++ lit "complex:pass:word") (fun result =>
    match result with
    | Ok users =>
        (size users === 2%nat) && bool_decide (is_Some (users !! lit "valid")) &&
        match users !! lit "complex" with Some u => password u === lit "pass:word" | None => true end
    | Err _ => false
    end).

Definition test_load_users_creates_file_if_missing : bool :=
  with_temp_file [] (fun result => match result with Ok users => size users === 0%nat | Err _ => false end).

(** [interfaces]: what the machine answers. *)
Definition test_get_server_ip_returns_valid_result (interfaces : result (list (bool * option str)) str) : bool :=
  match get_server_ip interfaces with
  | Ok ip => negb (bool_decide (ip = [])) && contains_char (c! ".") ip
  | Err (IPNotFound _) => true
  | Err _ => false
  end.

(** * Lemmas *)

(** None of the users a test makes has a stream. *)
Lemma fixture_has_no_stream map name d : OperatingServer.users (setup_with_users map).2 !! name = Some d -> server_client_stream d = None.
Proof.
  unfold setup_with_users. cbn [snd OperatingServer.users].
  assert (G : forall map (m : gmap str UserData), (forall k d, m !! k = Some d -> server_client_stream d = None) ->
    foldl (fun (users : gmap str UserData) '(name, passwd, status) => <[name := new_user name passwd status]> users) m map !! name = Some d ->
    server_client_stream d = None).
  { induction map0 as [|[[n p] s] l IH]; intros m Hm; cbn [foldl]; [apply Hm|]. apply IH. intros k e.
    rewrite lookup_insert_Some. intros [[_ <-]|[_ E]]; [done|by apply (Hm k)]. }
  apply G. intros k e. by rewrite lookup_empty.
Qed.

(** So a call between two of them is refused for that, whatever their statuses:
    [call_request], [call_accept] and [call_reject] look for the stream first. *)
Lemma calls_need_streams map from to sdp :
  let w := (setup_with_users map).2 in
  call_request healthy from to sdp w = (CallRequestError (show_error (UserDoesNotExist to)) : Response, w) /\
  call_accept healthy from to sdp w = (CallAcceptError (show_error (UserDoesNotExist to)) : Response, w) /\
  call_reject healthy from to w = (CallRejectError (show_error (UserDoesNotExist to)) : Response, w).
Proof.
  intros w. assert (E : get_stream_from_user to w = Err (UserDoesNotExist to)).
  { unfold get_stream_from_user. change (users_poisoned w) with false. cbn iota.
    destruct (OperatingServer.users w !! to) as [d|] eqn:El; [|done]. by rewrite (fixture_has_no_stream _ _ _ El). }
  unfold call_request, call_request_read, call_accept, call_reject, call_reject_read. by rewrite E.
Qed.

(** "test_call_accept_success" sees a refusal of [call_request], never its success. *)
Example success_is_refused :
  let op_s := setup_with_users [(lit "bob", lit "123", Available); (lit "alice", lit "abc", Available)] in
  (call_request healthy (lit "alice") (lit "bob") default_sdp op_s.2).1 =
  (CallRequestError (lit "Error: user does not exist: bob") : Response).
Proof. reflexivity. Qed.

(** The address test needs only that the machine can list its interfaces. *)
Lemma server_ip_test interfaces :
  (forall l b ip, interfaces = Ok l -> (b, Some ip) ∈ l -> contains_char (c! ".") ip = true) ->
  test_get_server_ip_returns_valid_result interfaces = is_ok interfaces.
Proof.
  intros Hip. unfold test_get_server_ip_returns_valid_result, get_server_ip. destruct interfaces as [l|e]; [|reflexivity].
  cbn [map_err rbind is_ok]. assert (G : forall b ip, (b, Some ip) ∈ l -> contains_char (c! ".") ip = true) by eauto.
  clear Hip. induction l as [|[b [ip|]] l IH]; cbn [first_ipv4]; [reflexivity| |].
  - destruct b; [apply IH; intros; eapply G; by right|]. cbn [ok_or]. rewrite (G false ip) by (by left).
    rewrite bool_decide_false; [reflexivity|]. intros ->. by pose proof (G false [] (list_elem_of_here _ _)).
  - apply IH. intros; eapply G; by right.
Qed.

(** * Examples *)

Example user_tests :
  run_tests [test_new_user_creation; test_update_status; test_user_data_clone; test_from_bytes_available; test_from_bytes_offline;
    test_from_bytes_occupied_valid; test_from_bytes_occupied_with_spaces; test_from_bytes_invalid_format; test_from_bytes_empty;
    test_from_bytes_utf8_error; test_display_implementation; test_clone_and_equality] = true.
Proof. vm_compute. reflexivity. Qed.

Example message_tests :
  run_tests [test_login_serialization; test_hello_variant; test_call_request_serialization; test_invalid_messages; test_call_reject;
    test_username_request; test_error_message; test_userstate_available; test_userstate_offline; test_userstate_occupied;
    test_welcome_and_simple_variants; test_login_ok_serialization; test_login_ok_empty_users; test_error_variants;
    test_malformed_login_ok; test_call_responses] = true.
Proof. vm_compute. reflexivity. Qed.

Example users_file_tests :
  run_tests [test_load_users_valid_entries; test_load_users_ignores_malformed_lines; test_load_users_creates_file_if_missing] = true.
Proof. vm_compute. reflexivity. Qed.

(** These do not touch the users file. *)
Example call_tests :
  run_tests [test_login_user_not_found; logout_user_success; logout_user_not_found; logout_user_does_not_affect_others;
    test_get_user_data_ok; test_get_user_data_not_found; test_call_hangup_ok; test_call_hangup_unexpected_status;
    test_call_accept_success; test_call_accept_from_user_not_available; test_call_accept_to_user_not_available;
    test_call_accept_from_user_not_found; test_call_accept_to_user_not_found; test_call_reject_ok;
    test_call_reject_user_not_available] = true.
Proof. vm_compute. reflexivity. Qed.

(** These sign somebody up, and pass whatever the disk does... *)
Example account_tests disk :
  run_tests [test_signup_sets_status_offline_by_default disk; test_signup_existing_user disk; test_login_ok disk;
    test_login_changes_status_to_available disk; test_cannot_login_twice_with_same_user disk; test_login_wrong_password disk;
    test_dispatch_login disk; test_dispatch_logout disk; test_dispatch_call_hangup disk;
    test_dispatch_call_request_validation disk] = true.
Proof. destruct disk as [[] []]; vm_compute; reflexivity. Qed.

(** ... and these two need the account to reach the file. *)
Example signup_tests disk :
  run_tests [test_signup_ok disk; test_dispatch_signup disk] = open_ok disk && write_ok disk.
Proof. destruct disk as [[] []]; vm_compute; reflexivity. Qed.
