(* ===== verification/ReplayFiles.v ===== *)
(** The unit tests of the data channel and of the file transfer: transport.rs,
    channel.rs, dc_type.rs and dcep.rs of src/sctp_transport/, metadata.rs,
    ftp_message.rs and transferer.rs of src/file/.

    The SCTP library and the file system are arguments; a time measured in a test
    is its least value plus what the machine adds. *)

From S2P Require Import Prelude.
From S2P Require Import Text.
From S2P Require Import Events.
From S2P Require Import DataChannel.
From S2P Require Import FileTransfer.
From S2P Require Import Replay.

#[local] Open Scope replay_scope.

(** * Definitions *)

#[local] Instance str_eq_dec : EqDecision str := list_eq_dec.

(** ** Data channels *)

(** [slow]: the milliseconds the machine adds to the difference of the instants. *)
Definition ack_timed_out_returns_false_when_timeout_zero (slow : Z) : bool := negb (ack_timed_out (1000 + slow) 0).
Definition ack_timed_out_true_when_elapsed_greater_than_timeout (slow : Z) : bool := ack_timed_out (200 + slow) 100.
Definition ack_timed_out_false_when_elapsed_less_than_timeout (slow : Z) : bool := negb (ack_timed_out (50 + slow) 100).
Definition open_timed_out_returns_false_when_timeout_zero (slow : Z) : bool := negb (open_timed_out (1000 + slow) 0).
Definition open_timed_out_true_when_elapsed_greater_than_timeout (slow : Z) : bool := open_timed_out (200 + slow) 100.
Definition open_timed_out_false_when_elapsed_less_than_timeout (slow : Z) : bool := negb (open_timed_out (50 + slow) 100).

Definition test_conversion_from_u8_valid : bool := matches!(try_from 0, Ok Reliable).
Definition test_conversion_from_u8_invalid : bool := is_err (try_from 1).
Definition test_to_u8 : bool := to_u8 Reliable === 0.
Definition test_ordered_flag : bool := ordered Reliable.
Definition test_reliability_type `{Sctp} `{EqDecision ReliabilityType} : bool := reliability_type Reliable === sctp_reliable.

(** [DCEPMessage::to_bytes] and [from_bytes] *)
Definition dcep_bytes (m : DCEPMessage) : bytes := DataChannel.to_bytes m.
Definition dcep_read (b : bytes) : comp (option DCEPMessage) := DataChannel.from_bytes b.
(** [&bytes[i..j]] compared with an array *)
Definition between (i j : nat) (b : bytes) : bytes := firstn (j - i) (skipn i b).

Definition test_ack_message_serialization : bool := dcep_bytes DataChannelAck === [2].
Definition test_ack_message_deserialization : bool := matches!(dcep_read [2], Ret (Some DataChannelAck)).

Definition test_open_message_serialization : bool :=
  let bytes := dcep_bytes (DataChannelOpen Reliable 0 0 (lit "test") (lit "chat")) in
  (nth_error bytes 0 === Some 3) && (nth_error bytes 1 === Some 0) && (between 2 4 bytes === [0; 0]) &&
  (between 4 8 bytes === [0; 0; 0; 0]) && (between 8 10 bytes === [0; 4]) && (between 10 12 bytes === [0; 4]).

Definition test_open_message_deserialization : bool :=
  let bytes := [3; 0; 0; 0; 0; 0; 0; 0; 0; 5; 0; 0] ++ lit "Label" in
  match dcep_read bytes with
  | Ret (Some (DataChannelOpen _ _ _ label protocol)) => (label === lit "Label") && (protocol === [])
  | _ => false
  end.

Definition test_deserialization_invalid_length : bool := matches!(dcep_read [3; 0], Ret None).
Definition test_deserialization_wrong_type : bool := matches!(dcep_read [255], Ret None).

(** ** The SCTP transport *)

Section Transport.
Context {Association Handle : Type} (dflt : Association).

(** [connected]: the flag the transport is given. *)
Definition test_new_initializes_fields : bool :=
  let connected := false in
  let transport : SCTPTransport Association Handle := DataChannel.new dflt in
  (next_stream_id transport === 0) && matches!(association_handle transport, None) && negb connected.

Definition test_accept_data_channel_returns_err_when_disconnected : bool :=
  let connected := false in
  match accept_data_channel [(connected, None)] with Some res => is_err res | None => false end.

(** [open_stream], [opens]: the outcomes of the library on an association that is not connected. *)
Definition test_open_data_channel_fails_without_association (open_stream : Z -> result unit str)
    (opens : Z -> result unit DataChannelError) : bool :=
  let transport : SCTPTransport Association Handle := DataChannel.new dflt in
  is_err (open_data_channel open_stream opens transport).1.

End Transport.

(** ** File metadata *)

(** A file the tests make: the name its path ends with, and the zeros written. *)
Definition create_temp_file_with_size (name : str) (size : nat) : option str * result Z str :=
  (Some name, Ok (Z.of_nat (List.length (replicate size 0)))).

Definition from_and_to_bytes_roundtrip (name : str) : bool :=
  let '(path, file) := create_temp_file_with_size name 10 in
  match metadata_from path file with
  | Ok meta =>
      let bytes := metadata_to_bytes meta in
      (file_size meta === 10) && (file_name meta === name) &&
      (List.length bytes === 8 + 1 + List.length (utf8_encode (file_name meta)))%nat &&
      match metadata_from_bytes bytes with
      | Ret (Some parsed) => (file_size parsed === file_size meta) && (file_name parsed === file_name meta)
      | _ => false
      end
  | Err _ => false
  end.

Definition from_bytes_invalid_cases : bool :=
  matches!(metadata_from_bytes [], Ret None) && matches!(metadata_from_bytes (replicate 5 0), Ret None) &&
  matches!(metadata_from_bytes (to_be 8 100 ++ [5]), Ret None).

Definition from_name_error_returns_err (name : str) : bool :=
  let '(_, file) := create_temp_file_with_size name 1 in is_err (metadata_from None file).

(** ** Messages of the transfer *)

(** [FTPMessage::to_bytes] and [from_bytes] *)
Definition ftp_bytes (m : FTPMessage) : bytes := FileTransfer.to_bytes m.
Definition ftp_read (b : bytes) : comp (option FTPMessage) := FileTransfer.from_bytes b.

Definition file_offer_roundtrip : bool :=
  let meta := mk_metadata 12345 (lit "example.txt") in
  match ftp_read (ftp_bytes (FileOffer 3735928559 meta)) with
  | Ret (Some (FileOffer offer_id file_metadata)) =>
      (offer_id === 3735928559) && (file_size file_metadata === file_size meta) && (file_name file_metadata === file_name meta)
  | _ => false
  end.

Definition accept_reject_eof_variants : bool :=
  matches!(ftp_read (ftp_bytes AcceptFile), Ret (Some AcceptFile)) && matches!(ftp_read (ftp_bytes RejectFile), Ret (Some RejectFile)) &&
  matches!(ftp_read (ftp_bytes EndOfFile), Ret (Some EndOfFile)).

(** The first assertion is the source's: it compares the payload with itself. *)
Definition file_chunk_roundtrip_and_malformed : bool :=
  let payload := [1; 2; 3; 4; 5] in
  match ftp_read (ftp_bytes (FileChunk payload)) with
  | Ret (Some (FileChunk payload)) => payload === payload
  | _ => false
  end &&
  matches!(ftp_read ([4] ++ to_be 4 10 ++ [1; 2; 3]), Ret None).

Definition malformed_file_offer : bool := matches!(ftp_read [1; 0; 0; 0], Ret None).

(** ** The offer *)

(** The trait the offer is generic in. *)
Class DataChannelLike (D : Type) := {
  dc_send : bytes -> D -> result unit FileTransfererError * D;
  dc_recv : nat -> D -> result bytes FileTransfererError * D
}.

(** The real channel, as the outcomes of [DataChannel::send] and [DataChannel::recv]. *)
Record Outcomes := mk_outcomes { sends : list (result unit DataChannelError); reads : list (result bytes DataChannelError) }.
Definition channel_send (_ : bytes) (d : Outcomes) : result unit FileTransfererError * Outcomes :=
  match sends d with
  | [] => (Ok tt, d)
  | r :: rest => (map_err (fun e => ChannelSendError (show_dc_error e)) r, mk_outcomes rest (reads d))
  end.
Definition channel_recv (_ : nat) (d : Outcomes) : result bytes FileTransfererError * Outcomes :=
  match reads d with
  | [] => (Ok [], d)
  | r :: rest => (map_err (fun e => MapError (show_dc_error e)) r, mk_outcomes (sends d) rest)
  end.
#[export] Instance channel_like : DataChannelLike Outcomes := { dc_send := channel_send; dc_recv := channel_recv }.

(** The channel of these tests: what was sent, and the answers left. *)
Record FakeDataChannel := mk_fake { sent : list bytes; responses : list bytes }.

Definition fake_new (responses : list bytes) : FakeDataChannel := mk_fake [] responses.
Definition fake_send (message : bytes) (f : FakeDataChannel) : result unit FileTransfererError * FakeDataChannel :=
  (Ok tt, mk_fake (sent f ++ [message]) (responses f)).
(** What [buff] holds of the next answer; nothing when there is none left.  No thread
    of a test panics with the mutex held, so it is not poisoned. *)
Definition fake_recv (buff : nat) (f : FakeDataChannel) : result bytes FileTransfererError * FakeDataChannel :=
  match responses f with
  | [] => (Ok [], f)
  | data :: rest => (Ok (firstn buff data), mk_fake (sent f) rest)
  end.
#[export] Instance fake_like : DataChannelLike FakeDataChannel := { dc_send := fake_send; dc_recv := fake_recv }.

(** [n] reads of a loop on a channel. *)
Fixpoint received `{DataChannelLike D} (n buff : nat) (d : D) : list (result bytes str) :=
  match n with
  | O => []
  | S n => let '(r, d) := dc_recv buff d in map_err show_transfer_error r :: received n buff d
  end.

(** [file_offer_accepted] on a channel, for [n] turns of its loop. *)
Definition offer_on `{DataChannelLike D} (n : nat) (offer_id : Z) (d : D) (meta : FileMetadata) :
    option (comp (result bool FileTransfererError)) * list bytes :=
  let '(r, d) := dc_send (ftp_bytes (FileOffer offer_id meta)) d in
  file_offer_accepted offer_id meta (map_err show_transfer_error r) (received n 1024 d).

Definition file_offer_accepted_returns_true_on_accept : bool :=
  let meta := mk_metadata 42 (lit "file.bin") in
  let '(res, sent) := offer_on 1 7 (fake_new [ftp_bytes AcceptFile]) meta in
  matches!(res, Some (Ret (Ok true))) && (List.length sent === 1%nat) &&
  match sent with
  | s :: _ =>
      match ftp_read s with
      | Ret (Some (FileOffer offer_id file_metadata)) =>
          (offer_id === 7) && (file_name file_metadata === file_name meta) && (file_size file_metadata === file_size meta)
      | _ => false
      end
  | [] => false
  end.

Definition file_offer_accepted_returns_false_on_reject : bool :=
  let meta := mk_metadata 10 (lit "a.txt") in
  let '(res, _) := offer_on 1 99 (fake_new [ftp_bytes RejectFile]) meta in matches!(res, Some (Ret (Ok false))).

(** * Lemmas *)

(** The timeout tests pass on any machine, but two of them only on one that is
    not fifty milliseconds late. *)
Lemma timeout_tests slow : 0 <= slow ->
  run_tests [ack_timed_out_returns_false_when_timeout_zero slow; ack_timed_out_true_when_elapsed_greater_than_timeout slow;
    open_timed_out_returns_false_when_timeout_zero slow; open_timed_out_true_when_elapsed_greater_than_timeout slow] = true /\
  run_tests [ack_timed_out_false_when_elapsed_less_than_timeout slow; open_timed_out_false_when_elapsed_less_than_timeout slow] =
    (slow <=? 50).
Proof.
  intros Hs. unfold run_tests, ack_timed_out_returns_false_when_timeout_zero, ack_timed_out_true_when_elapsed_greater_than_timeout,
    open_timed_out_returns_false_when_timeout_zero, open_timed_out_true_when_elapsed_greater_than_timeout,
    ack_timed_out_false_when_elapsed_less_than_timeout, open_timed_out_false_when_elapsed_less_than_timeout, ack_timed_out, open_timed_out.
  cbn [forallb id]. rewrite !andb_false_r. cbn [negb]. rewrite (proj2 (Z.ltb_lt 100 (200 + slow))) by lia. split; [reflexivity|].
  destruct (Z.ltb_spec 100 (50 + slow)), (Z.leb_spec slow 50); try lia; reflexivity.
Qed.

(** The tests of the transport, for every library; the last one rests on the
    library's refusal of a stream, or on the channel's. *)
Lemma transport_tests {A H} (dflt : A) open_stream opens :
  run_tests [test_new_initializes_fields (Handle := H) dflt; test_accept_data_channel_returns_err_when_disconnected] = true /\
  test_open_data_channel_fails_without_association (Handle := H) dflt open_stream opens = is_err (open_stream 0) || is_err (opens 0).
Proof.
  split; [reflexivity|]. unfold test_open_data_channel_fails_without_association, open_data_channel. cbn [next_stream_id DataChannel.new].
  by destruct (open_stream 0), (opens 0).
Qed.

Lemma fake_received answers out rest n : Forall (fun d => List.length d <= 1024)%nat answers ->
  received (List.length answers + n) 1024 (mk_fake out (answers ++ rest)) = map Ok answers ++ received n 1024 (mk_fake out rest).
Proof.
  induction 1 as [|d l Hd _ IH]; [done|].
  cbn [List.length Nat.add app map received dc_recv fake_like fake_recv responses sent map_err]. by rewrite take_ge, IH.
Qed.

(** An offer on a channel of the tests ends as the first answer that accepts or
    refuses says, however many other messages come before it. *)
Lemma fake_answers answers id meta (b : bool) :
  Forall (fun d => List.length d <= 1024)%nat answers -> Forall not_answer answers ->
  offer_on (List.length answers + 1) id (fake_new (answers ++ [ftp_bytes (if b then AcceptFile else RejectFile)])) meta =
  (Some (Ret (Ok b)), [ftp_bytes (FileOffer id meta)]).
Proof.
  intros Hl Ha. unfold offer_on, fake_new. cbn [dc_send fake_like fake_send sent responses map_err file_offer_accepted app].
  rewrite fake_received, await_answer_noise by done. by destruct b.
Qed.

(** Any name a file system gives is at most 255 bytes long, and then the metadata survives. *)
Lemma metadata_test name : is_str name -> (List.length (utf8_encode name) < 256)%nat ->
  run_tests [from_and_to_bytes_roundtrip name; from_bytes_invalid_cases; from_name_error_returns_err name] = true.
Proof.
  intros Hn Hl. unfold run_tests. cbn [forallb id].
  replace from_bytes_invalid_cases with true by reflexivity. replace (from_name_error_returns_err name) with true by reflexivity.
  rewrite !andb_true_r. unfold from_and_to_bytes_roundtrip, create_temp_file_with_size, metadata_from. cbn [ok_or rbind map_err].
  rewrite metadata_roundtrip by (split_and!; [cbn; width|done|done]). cbn [file_size file_name].
  unfold metadata_to_bytes. rewrite !length_app, length_to_be. cbn [file_name length]. by rewrite !bool_decide_true.
Qed.

(** * Examples *)

Example channel_tests :
  run_tests [test_conversion_from_u8_valid; test_conversion_from_u8_invalid; test_to_u8; test_ordered_flag;
    test_ack_message_serialization; test_ack_message_deserialization; test_open_message_serialization;
    test_open_message_deserialization; test_deserialization_invalid_length; test_deserialization_wrong_type] = true.
Proof. vm_compute. reflexivity. Qed.

Example reliability_test `{Sctp} `{EqDecision ReliabilityType} : test_reliability_type = true.
Proof. by apply bool_decide_eq_true. Qed.

Example transfer_tests :
  run_tests [file_offer_roundtrip; accept_reject_eof_variants; file_chunk_roundtrip_and_malformed; malformed_file_offer;
    file_offer_accepted_returns_true_on_accept; file_offer_accepted_returns_false_on_reject] = true.
Proof. vm_compute. reflexivity. Qed.
