(* ===== verification/ReplayTransport.v ===== *)
(** The unit tests of the transport: rtp_packet.rs, rtcp_packet.rs and
    jitter.rs of src/transport/, context.rs of src/srtp/, key_manager.rs of
    src/dtls/ and clock_timer.rs of src/clock/.

    The readings of the clock are arguments of the tests that make some, and the
    ciphers and certificates of OpenSSL are the parameters their models have.  The
    test of the clock's derived Debug is left out. *)

From S2P Require Import Prelude.
From S2P Require Import Text.
From S2P Require Import RtpPacket.
From S2P Require Import JitterBuffer.
From S2P Require Import Rtcp.
From S2P Require Import Srtp.
From S2P Require Import SdpAttribute.
From S2P Require Import Dtls.
From S2P Require Import Capture.
From S2P Require Import Replay.

#[local] Open Scope replay_scope.

(** * Definitions *)

(** ** RTP and RTCP packets *)

Definition test_rtp_packet_serialization_roundtrip : bool :=
  let original_packet := mk_packet 2 0 15 true 96 100 5000 1234 [170; 187] in
  let bytes := RtpPacket.to_bytes original_packet in
  (List.length bytes === 35%nat) && (nth_error bytes 3 === Some 1) &&
  match RtpPacket.from_bytes bytes with
  | Ret (Some deserialized) =>
      (total_chunks original_packet === total_chunks deserialized) &&
      (is_i_frame original_packet === is_i_frame deserialized) && is_i_frame deserialized
  | _ => false
  end.

Definition test_bool_false_serialization : bool :=
  let packet := RtpPacket.default in
  let bytes := RtpPacket.to_bytes packet in
  (nth_error bytes 3 === Some 0) &&
  match RtpPacket.from_bytes bytes with Ret (Some deserialized) => negb (is_i_frame deserialized) | _ => false end.

Definition serialize_deserialize_sender_report : bool :=
  let pkt := SenderReport (mk_sender_stats 42 12345) in
  match Rtcp.from_bytes (Rtcp.to_bytes pkt) with Ret (Some parsed) => parsed === pkt | _ => false end.

Definition serialize_deserialize_receiver_report : bool :=
  let pkt := ReceiverReport (mk_receiver_stats 10 2 7) in
  match Rtcp.from_bytes (Rtcp.to_bytes pkt) with Ret (Some parsed) => parsed === pkt | _ => false end.

Definition simple_ascii_packets : bool :=
  matches!(Rtcp.from_bytes (lit "BYE"), Ret (Some Goodbye)) && matches!(Rtcp.from_bytes (lit "HELLO"), Ret (Some Hello)) &&
  matches!(Rtcp.from_bytes (lit "READY"), Ret (Some Ready)).

(** ** The jitter buffer *)

Definition create_packet (seq ts : Z) (is_i_frame : bool) (marker chunks : Z) (payload : bytes) : RtpPacket :=
  mk_packet 2 marker chunks is_i_frame 96 seq ts 12345 payload.

Definition setup_buffer (N : nat) : JitterBuffer := JitterBuffer.new N.

Section JitterTests.
Context (checks : bool).

(** A [pop] whose readings of the clock all give [t]. *)
Definition pop_at (N : nat) (t : Z) (s : JitterBuffer) : option (comp (option bytes * JitterBuffer)) :=
  pop checks N (fun _ => t) t s.
(** The test passes: no loop runs out of fuel, nothing panics, the assertion holds. *)
Definition passes (o : option (comp bool)) : bool := match o with Some (Ret b) => b | _ => false end.
Definition popped (o : option (comp (option bytes * JitterBuffer))) (v : option bytes) : option (comp bool) :=
  let!! (r, _) := o in Some (Ret (r === v)).

(** [t i]: the reading of the clock at the i-th operation on the buffer. *)
Definition test_initial_iframe_requirement (t : nat -> Z) : bool :=
  passes (
    let buffer := setup_buffer 10 in
    let!! buffer := Some (add checks 10 (t 0%nat) (create_packet 1 1000 false 1 1 [1]) buffer) in
    let!! (first, buffer) := pop_at 10 (t 1%nat) buffer in
    let!! buffer := Some (add checks 10 (t 2%nat) (create_packet 2 2000 true 1 1 [2]) buffer) in
    let!! ok := popped (pop_at 10 (t 3%nat) buffer) (Some [2]) in
    Some (Ret (negb (bool_decide (is_Some first)) && ok))).

(** The buffer of the tests below once its first frame is delivered, whatever [pop] gives. *)
Definition first_frame (N : nat) (seq : Z) (t : nat -> Z) : option (comp JitterBuffer) :=
  let!! buffer := Some (add checks N (t 0%nat) (create_packet seq 1000 true 1 1 [255]) (setup_buffer N)) in
  let!! (_, buffer) := pop_at N (t 1%nat) buffer in Some (Ret buffer).

Definition test_ordered_frame_assembly (t : nat -> Z) : bool :=
  passes (
    let!! buffer := first_frame 10 1 t in
    let!! buffer := Some (add checks 10 (t 2%nat) (create_packet 2 3000 false 0 2 [170]) buffer) in
    let!! buffer := Some (add checks 10 (t 3%nat) (create_packet 3 3000 false 1 2 [187]) buffer) in
    popped (pop_at 10 (t 4%nat) buffer) (Some [170; 187])).

Definition test_out_of_order_assembly (t : nat -> Z) : bool :=
  passes (
    let!! buffer := first_frame 10 1 t in
    let!! buffer := Some (add checks 10 (t 2%nat) (create_packet 3 3000 false 1 2 [187]) buffer) in
    let!! buffer := Some (add checks 10 (t 3%nat) (create_packet 2 3000 false 0 2 [170]) buffer) in
    popped (pop_at 10 (t 4%nat) buffer) (Some [170; 187])).

Definition test_incomplete_frame_returns_none (t : nat -> Z) : bool :=
  passes (
    let!! buffer := first_frame 10 1 t in
    let!! buffer := Some (add checks 10 (t 2%nat) (create_packet 2 3000 false 0 3 [170]) buffer) in
    let!! buffer := Some (add checks 10 (t 3%nat) (create_packet 4 3000 false 1 3 [204]) buffer) in
    popped (pop_at 10 (t 4%nat) buffer) None).

Definition test_packet_loss_metrics (t : nat -> Z) : bool :=
  passes (
    let buffer := setup_buffer 10 in
    let!! buffer := Some (add checks 10 (t 0%nat) (create_packet 10 1000 true 1 1 [10]) buffer) in
    let!! buffer := Some (add checks 10 (t 1%nat) (create_packet 12 1066 false 1 1 [12]) buffer) in
    let!! buffer' := Some (add checks 10 (t 2%nat) (create_packet 11 1033 false 1 1 [11]) buffer) in
    Some (Ret ((packets_lost (metrics buffer) === 1) && (packets_lost (metrics buffer') === 0)))).

Definition test_buffer_overwrite_logic (t : nat -> Z) : bool :=
  passes (
    let buffer := setup_buffer 4 in
    let!! buffer := Some (add checks 4 (t 0%nat) (create_packet 0 1000 true 1 1 [1]) buffer) in
    let!! buffer := Some (add checks 4 (t 1%nat) (create_packet 1 1033 false 1 1 [2]) buffer) in
    let!! buffer := Some (add checks 4 (t 2%nat) (create_packet 2 1066 false 1 1 [3]) buffer) in
    let!! buffer := Some (add checks 4 (t 3%nat) (create_packet 3 1100 false 1 1 [4]) buffer) in
    let!! buffer' := Some (add checks 4 (t 4%nat) (create_packet 4 1133 false 1 1 [5]) buffer) in
    Some (Ret ((read_idx buffer === 0%nat) && (read_idx buffer' === 0%nat) && bool_decide (is_Some (slot buffer' 1))))).

Definition test_ignore_old_packets (t : nat -> Z) : bool :=
  passes (
    let!! buffer := first_frame 10 10 t in
    let!! buffer := Some (add checks 10 (t 2%nat) (create_packet 5 500 false 1 1 [238]) buffer) in
    popped (pop_at 10 (t 3%nat) buffer) None).

End JitterTests.

(** ** SRTP and certificates *)

(** [cipher], [hmac]: AES in counter mode and HMAC-SHA1, with their failures. *)
Definition test_srtp_roundtrip {E} (cipher : bytes -> bytes -> bytes -> bool -> result bytes E)
    (hmac : bytes -> bytes -> result bytes E) : bool :=
  match Srtp.new (E := E) (replicate 60 0) with
  | Err _ => true
  | Ok context =>
      let packet := mk_packet 0 1 1 true 96 1 12345 999 [1; 2; 3; 4] in
      match protect cipher hmac context packet true with
      | Ok protected =>
          match unprotect cipher hmac context protected false with
          | Ok unprotected => (payload packet === payload unprotected) && (ssrc packet === ssrc unprotected)
          | Err _ => false
          end
      | Err _ => false
      end
  end.

Definition generates_certificate_and_fingerprint {PKey Identity Pkcs12 Stream} (lib : Library PKey Identity Pkcs12 Stream) : bool :=
  match generate_self_signed_cert lib with
  | Ok cert =>
      negb (bool_decide (fingerprint cert = [])) && contains_char (c! ":") (fingerprint cert) &&
      (List.length (split (c! ":") (fingerprint cert)) === 32%nat) && is_ok (duplicate_identity lib cert)
  | Err _ => false
  end.

(** ** The clock *)

(** A clock is made between the readings [a] and [b], in nanoseconds, and read at [c]. *)
Definition test_new_clock_starts_near_zero (a b c : Z) : bool :=
  match clock_now (new_clock a b) c with Ret elapsed => elapsed <? 5 | Panic => false end.
Definition test_default_implementation (a b c : Z) : bool := test_new_clock_starts_near_zero a b c.
Definition test_time_progression (a b c : Z) : bool :=
  match clock_now (new_clock a b) c with Ret elapsed => 50 <=? elapsed | Panic => false end.
Definition test_monotonicity (a b c d : Z) : bool :=
  match clock_now (new_clock a b) c, clock_now (new_clock a b) d with Ret t1, Ret t2 => t1 <? t2 | _, _ => false end.
(** The clone has the fields of the original. *)
Definition test_clone_preserves_start_time (a b c d : Z) : bool :=
  let clock := new_clock a b in
  let clock_clone := clock in
  match clock_now clock c, clock_now clock_clone d with
  | Ret elapsed_original, Ret elapsed_clone => (Z.abs (elapsed_original - elapsed_clone) <=? 1) && (50 <=? elapsed_clone)
  | _, _ => false
  end.

(** * Examples *)

Example packet_tests :
  run_tests [test_rtp_packet_serialization_roundtrip; test_bool_false_serialization; serialize_deserialize_sender_report;
    serialize_deserialize_receiver_report; simple_ascii_packets] = true.
Proof. vm_compute. reflexivity. Qed.

(** Readings of a millisecond clock. *)
Definition readings (t : nat -> Z) : Prop := forall i, 0 <= t i < 2 ^ 62.

Section JitterExamples.
Context (checks : bool).

(** A packet leaves some statistics, and is then stored or discarded. *)
Definition stored (N : nat) (p : RtpPacket) (s : JitterBuffer) : JitterBuffer :=
  if should_discard N p s then s else store N p s.

Lemma add_store N a p s k : 0 <= k < 2 ^ 22 -> sparse k s -> 0 <= a < 2 ^ 62 -> 0 <= timestamp p < 2 ^ 62 ->
  metrics_poisoned s = false ->
  exists m l q, add checks N a p s = Ret (stored N p (set_stats m q l s)) /\ sparse (k + 1) (stored N p (set_stats m q l s)) /\
    (m, q) = (let '(m', q') := counted_packet (metrics s) (max_seq_seen s) (sequence_number p) in
      (mk_receiver_stats (packets_received m') (packets_lost m') (jitter m), q')).
Proof.
  intros Hk Hs Ha Hp Hm. destruct (add_fine checks N k a p s Hk Hs (conj Ha Hp)) as [-> Hs']. revert Hs'.
  unfold after_add, stored, after_stats. rewrite Hm. destruct (counted_packet _ _ _) as [m q]. intros Hs'.
  do 3 eexists. split_and!; [reflexivity|exact Hs'|]. destruct m. by destruct (last_transit s).
Qed.

Ltac add_step k :=
  match goal with |- context [add _ ?N ?a ?p ?s] =>
    let E := fresh "E" in
    destruct (add_store N a p s k) as (?m & ?l & ?q & -> & ?Hsparse & E);
      [lia|assumption|auto|cbn; lia|reflexivity|cbn [ocbind]]
  end.

Lemma first_frame_eq t seq : readings t -> seq = 1 \/ seq = 10 -> exists m l q,
  let s := mk_buffer (replicate 10 None) (S (pos_of 10 seq)) (pos_of 10 seq) None None false 1000 (t 1%nat) m false l q in
  first_frame checks 10 seq t = Some (Ret s) /\ sparse 1 s.
Proof.
  intros Ht Hseq. pose proof (roomy_new true 10 eq_refl) as H10. unfold first_frame, setup_buffer. add_step 0.
  exists m, l, q. destruct Hseq as [->| ->]; (split; [reflexivity|exact Hsparse]).
Qed.

Lemma jitter_tests t : readings t ->
  run_tests [test_initial_iframe_requirement checks t; test_packet_loss_metrics checks t;
    test_buffer_overwrite_logic checks t; test_ignore_old_packets checks t] = true.
Proof.
  intros Ht. pose proof (roomy_new true 10 eq_refl) as H10. pose proof (roomy_new true 4 eq_refl) as H4.
  unfold run_tests. cbn [forallb id]. rewrite !andb_true_iff. split_and!; [..|done].
  - unfold test_initial_iframe_requirement, setup_buffer. cbv zeta. add_step 0.
    change (stored _ _ _) with (set_stats m q l (JitterBuffer.new 10)) in Hsparse |- *.
    change (pop_at checks 10 (t 1%nat) (set_stats m q l (JitterBuffer.new 10)))
      with (Some (Ret (@None bytes, set_stats m q l (JitterBuffer.new 10)))). cbn [ocbind]. by add_step 1.
  - unfold test_packet_loss_metrics, setup_buffer. cbv zeta. add_step 0. cbn in E. injection E as E ->.
    add_step 1. add_step 2. revert E0 E1. rewrite E. cbn. intros [= E0 ->]. rewrite E0. cbn. intros [= E1 ->]. by rewrite E1.
  - unfold test_buffer_overwrite_logic, setup_buffer. cbv zeta. add_step 0. add_step 1. add_step 2. add_step 3. by add_step 4.
  - unfold test_ignore_old_packets. destruct (first_frame_eq t 10 Ht) as (m & l & q & -> & Hs); [by right|].
    cbn [ocbind]. by add_step 1.
Qed.

Lemma on_time t1 t4 s : 0 <= t1 < 2 ^ 127 -> last_deliver_timestamp s = t1 -> last_frame_completed_timestamp s = 1000 ->
  valid_playout_time checks t4 3000 s = Ret ((t1 =? 0) || (t4 <=? t1 + 2120)).
Proof.
  intros Ht E1 E2. unfold valid_playout_time. rewrite E1, E2. destruct (t1 =? 0); [done|]. unfold TOLERANCE_MILLIS.
  rewrite !checked_fits by width. cbn [cbind orb]. rewrite !checked_fits by width. cbn [cbind]. rewrite checked_fits by width.
  cbn [cbind]. f_equal. f_equal. lia.
Qed.

(** One [pop] of a buffer whose next frame has the time stamp 3000: [v], what it
    gives when the frame is on time. *)
Lemma pop_second (t1 t4 : Z) s p res v : 0 <= t1 < 2 ^ 62 ->
  last_deliver_timestamp s = t1 -> last_frame_completed_timestamp s = 1000 ->
  slot s (read_idx s) = Some p -> timestamp p = 3000 ->
  write_seq (resync_or_clear 10 s) = None ->
  collect 10 10 3000 (read_idx s) 0 [] s = res ->
  match res with
  | None => v = None
  | Some (frame_data, idx, packet) =>
      v = Some frame_data /\ timestamp packet = 3000 /\
      last_deliver_timestamp <$> advance_read_pointers 10 idx s = Some t1 /\
      last_frame_completed_timestamp <$> advance_read_pointers 10 idx s = Some 1000
  end ->
  forall expected, passes (popped (pop_at checks 10 t4 s) expected) =
    ((if (t1 =? 0) || (t4 <=? t1 + 2120) then v else None) === expected).
Proof.
  intros Ht E1 E2 E3 E4 E5 Er Hc expected. unfold pop_at, pop, prepare_next_frame_ts. cbn [prepare_loop]. rewrite E3, E4.
  rewrite (on_time t1) by (done || lia). cbn [ocbind]. destruct (_ || _).
  2:{ rewrite E5. reflexivity. }
  cbn [ocbind]. rewrite Er. destruct res as [[[data idx] q]|]; [|subst v; reflexivity]. destruct Hc as (-> & Eq & D1 & D2).
  destruct (advance_read_pointers 10 idx s) as [s2|]; [|done]. injection D1 as D1. injection D2 as D2.
  unfold synchronize_playout. rewrite D1, D2, Eq. destruct (negb _); cbn [ocbind].
  - change (saturating_sub 3000 1000) with 2000. rewrite checked_fits by width. cbn [cbind ocbind]. destruct (is_i_frame q); reflexivity.
  - destruct (is_i_frame q); reflexivity.
Qed.

Ltac pop_second t P res v :=
  rewrite (pop_second (t 1%nat) (t 4%nat) _ P res v);
    [|done|reflexivity..|repeat match goal with |- _ /\ _ => split end; reflexivity].

(** The first frame was delivered at [t 1] with the time stamp 1000, so the second,
    with 3000, is due 2000 milliseconds later, and played up to 120 milliseconds late. *)
Lemma assembly_tests t : readings t ->
  run_tests [test_ordered_frame_assembly checks t; test_out_of_order_assembly checks t] =
  (t 1%nat =? 0) || (t 4%nat <=? t 1%nat + 2120).
Proof.
  intros Ht. unfold run_tests. cbn [forallb id]. assert (0 <= t 1%nat < 2 ^ 62) by auto.
  assert (G : forall b1 b2 b : bool, b1 = (if b then true else false) -> b2 = (if b then true else false) -> b1 && (b2 && true) = b)
    by (by intros [] [] []).
  unfold test_ordered_frame_assembly, test_out_of_order_assembly.
  destruct (first_frame_eq t 1 Ht) as (m & l & q & -> & Hs); [by left|]. cbn [ocbind].
  set (s := mk_buffer _ _ _ _ _ _ _ _ _ _ _ _) in *. apply G.
  all: add_step 1; add_step 2; set (P := create_packet 2 _ _ _ _ _) in *.
  all: pop_second t P (Some ([170; 187], 4%nat, create_packet 3 3000 false 1 2 [187])) (Some [170; 187]); by destruct (_ || _).
Qed.

Lemma incomplete_test t : readings t -> test_incomplete_frame_returns_none checks t = true.
Proof.
  intros Ht. assert (0 <= t 1%nat < 2 ^ 62) by auto. unfold test_incomplete_frame_returns_none.
  destruct (first_frame_eq t 1 Ht) as (m & l & q & -> & Hs); [by left|]. cbn [ocbind].
  set (s := mk_buffer _ _ _ _ _ _ _ _ _ _ _ _) in *. add_step 1. add_step 2. set (P := create_packet 2 _ _ _ _ _) in *.
  pop_second t P (@None (bytes * nat * RtpPacket)) (@None bytes). by destruct (_ || _).
Qed.

End JitterExamples.

(** The test passes with any cipher and MAC that do what theirs do, and that take
    keys and initialisation vectors of 16 bytes. *)
Lemma srtp_test {E} (cipher : bytes -> bytes -> bytes -> bool -> result bytes E) hmac : crypto_laws cipher hmac ->
  (forall k iv d, List.length k = 16%nat -> List.length iv = 16%nat -> is_ok (cipher k iv d true) = true) ->
  (forall k d, is_ok (hmac k d) = true) ->
  test_srtp_roundtrip cipher hmac = true.
Proof.
  intros Hl Hc Hh. set (ctx := mk_ctx (replicate 16 0) (replicate 16 0) (replicate 14 0) (replicate 14 0)).
  unfold test_srtp_roundtrip. replace (Srtp.new (E := E) (replicate 60 0)) with (Ok (E := SrtpError E) ctx) by reflexivity. cbv iota zeta.
  set (p := mk_packet _ _ _ _ _ _ _ _ _).
  assert (is_ok (protect cipher hmac ctx p true) = true) as Hp.
  { unfold protect, apply_aes_ctr, calculate_hmac. change (get_write_keys ctx true) with (replicate 16 0, replicate 14 0). cbv beta iota.
    change (List.length (RtpPacket.to_bytes p) <? 33)%nat with false. cbv iota zeta.
    specialize (Hc (replicate 16 0) (get_iv (replicate 14 0) (ssrc p) (sequence_number p)) (drop 33 (RtpPacket.to_bytes p)) eq_refl eq_refl).
    destruct (cipher _ _ _ true) as [ct|]; [|done]. cbn [map_err rbind].
    specialize (Hh (replicate 16 0) (take 33 (RtpPacket.to_bytes p) ++ ct)). by destruct (hmac _ _). }
  destruct (protect cipher hmac ctx p true) as [data|] eqn:E1; [|done].
  change false with (negb true) at 1. rewrite (unprotect_protect cipher hmac Hl ctx p true data); [reflexivity| |done].
  split; cbn; try width. repeat constructor; width.
Qed.

(** The certificate's test needs a digest of 32 bytes, and that the certificate is made. *)
Lemma certificate_test {PKey Identity Pkcs12 Stream} (lib : Library PKey Identity Pkcs12 Stream) :
  (forall c d, digest lib c = Ok d -> Forall is_byte d /\ List.length d = 32%nat) ->
  generates_certificate_and_fingerprint lib = is_ok (generate_self_signed_cert lib).
Proof.
  intros Hd. unfold generates_certificate_and_fingerprint. destruct (generate_self_signed_cert lib) as [lc|e] eqn:E; [|done].
  unfold generate_self_signed_cert in E. destruct (generate_ec_key lib) as [k|]; [cbn [rbind] in E|done].
  destruct (build_x509_cert lib k) as [c|]; [cbn [rbind] in E|done].
  destruct (digest lib c) as [d|] eqn:Ed; [cbn [ssl map_err rbind] in E|done]. apply Hd in Ed as [Hb Hl].
  destruct (build2 lib _ k c _) as [p|]; [cbn [ssl map_err rbind] in E|done].
  destruct (to_der lib p) as [der|]; [cbn [ssl map_err rbind] in E|done].
  destruct (from_pkcs12 lib der _) as [i|] eqn:Ei; [cbn [map_err rbind] in E|done]. injection E as <-.
  unfold duplicate_identity. cbn [fingerprint pkcs12_der]. rewrite Ei. cbn [map_err is_ok]. rewrite andb_true_r.
  unfold fingerprint_from_digest. change (lit ":") with [c! ":"]. rewrite split_join.
  - rewrite length_map, Hl. destruct d as [|x [|y d]]; try done. cbn [map join hex_byte app contains_char existsb].
    rewrite Z.eqb_refl, !orb_true_r. reflexivity.
  - by destruct d.
  - apply Forall_map. eapply Forall_impl; [exact Hb|]. intros b Hb'. by apply hex_byte_spec.
Qed.

(** The monotonic clock: the tests that only wait pass on any machine; the others
    need it not to stall. *)
Lemma clock_tests a b c d : a <= b <= c -> c <= d ->
  test_time_progression a b (c + 50000000) = true /\
  test_monotonicity a b c (c + 10000000 + (d - c)) = true /\
  (c - a < 5000000 -> test_new_clock_starts_near_zero a b c = true /\ test_default_implementation a b c = true) /\
  (d - c <= 1000000 -> test_clone_preserves_start_time a b (c + 50000000) (d + 50000000) = true).
Proof.
  intros Hab Hcd.
  assert (R : forall x, b <= x -> clock_now (new_clock a b) x = Ret ((x - a) / 1000000 - (b - a) / 1000000)).
  { intros x Hx. unfold clock_now, new_clock, elapsed_millis. cbn [instant start_time]. rewrite !Z.max_r by lia.
    pose proof (Z.div_le_mono (b - a) (x - a) 1000000 ltac:(lia) ltac:(lia)). by rewrite (proj2 (Z.ltb_ge _ _)). }
  unfold test_time_progression, test_monotonicity, test_new_clock_starts_near_zero, test_default_implementation,
    test_clone_preserves_start_time, test_new_clock_starts_near_zero. rewrite !R by lia.
  split_and!; intros; rewrite ?andb_true_iff, ?Z.leb_le, ?Z.ltb_lt; Z.to_euclidean_division_equations; lia.
Qed.
