(* ===== verification/ReplayMedia.v ===== *)
(** The unit tests of src/media/: the ring buffer, the microphone and the speaker
    on IEEE floats, the frames, and the codecs.

    Opus, openh264 and the colour conversion are arguments of the tests that call
    them: what those tests then ask of the libraries is in the lemmas. *)

From stdpp Require Import sorting.
From S2P Require Import Prelude.
From S2P Require Import Text.
From S2P Require Import F32.
From S2P Require Import Config.
From S2P Require Import RtpPacket.
From S2P Require Import Audio.
From S2P Require Import Sound.
From S2P Require Import Media.
From S2P Require Import Capture.
From S2P Require Import Codec.
From S2P Require Import Replay.
From Stdlib Require Import SpecFloat.

#[local] Open Scope replay_scope.

(** * Definitions *)

(** ** Floats: literals, [==] and the usual tolerance *)

(** The decimal n/d, rounded once. *)
Definition dec (n d : Z) : f32 := fdiv (of_int n) (of_int d).
Definition feq (x y : f32) : bool := SFeqb x y.
Fixpoint all_feq (l m : list f32) : bool :=
  match l, m with
  | [], [] => true
  | x :: l, y :: m => feq x y && all_feq l m
  | _, _ => false
  end.
Definition EPSILON : f32 := fdiv one (of_int 8388608).
(** [(x - y).abs() < f32::EPSILON] *)
Definition close (x y : f32) : bool := flt (SFabs (fsub x y)) EPSILON.

(** ** The ring buffer *)

Definition test_buffer_flow : comp bool :=
  let rb := Audio.new zero 10 in
  let! rb := push (map of_int [1; 2; 3; 4; 5]) rb in
  let! c1 := pop_chunk 2 rb in
  let! c2 := pop_chunk 2 c1.2 in
  let! c3 := pop_chunk 2 c2.2 in
  Ret match c1.1, c2.1, c3.1 with
      | Some chunk1, Some chunk2, None => all_feq chunk1 (map of_int [1; 2]) && all_feq chunk2 (map of_int [3; 4])
      | _, _, _ => false
      end.

Definition test_buffer_wrap_around : comp bool :=
  let rb := Audio.new zero 4 in
  let! rb := push (map of_int [1; 2; 3]) rb in
  let! c := pop_chunk 2 rb in
  let! rb := push (map of_int [4; 5]) c.2 in
  let! c := pop_chunk 3 rb in
  Ret match c.1 with Some chunk => all_feq chunk (map of_int [3; 4; 5]) | None => false end.

Definition test_audio_frame_creation : bool :=
  let data := [zero; half; fsub zero half] in
  let frame := mk_audio data 123456789 in
  all_feq (Audio.data frame) data && (Audio.timestamp frame === 123456789).

(** ** The microphone *)

Definition test_convert_to_mono_stereo : comp bool :=
  let! result := convert_to_mono [one; zero; half; half; one; one] 2 in Ret (all_feq result [half; half; one]).

Definition test_convert_to_mono_pass_through : comp bool :=
  let input := [dec 1 10; dec 2 10; dec 3 10] in
  let! result := convert_to_mono input 1 in Ret (all_feq result input).

Definition test_convert_to_mono_multichannel : comp bool :=
  let! result := convert_to_mono [one; half; dec 2 10; dec 8 10; dec 1 10; dec 1 10] 3 in Ret (all_feq result [one; dec 8 10]).

(** [resample_linear] of the tests' inputs takes two turns of its loop. *)
Definition resampled (input : list f32) (phase step : f32) : comp (list f32 * f32) :=
  match resample_linear 3 input phase step with Some c => c | None => Panic end.

Definition test_resample_linear_upsample : comp bool :=
  let! r := resampled [zero; one] zero half in
  let '(resampled, phase) := r in
  Ret match resampled with
      | [x; y] => close x zero && close y half && feq phase zero
      | _ => false
      end.

Definition test_resample_phase_continuity : comp bool :=
  let! r := resampled [zero; one] zero half in
  let '(res1, phase) := r in
  let! r := resampled [one; of_int 2] phase half in
  let '(res2, _) := r in
  Ret match last res1, head res2 with Some x, Some y => feq x half && feq y one | _, _ => false end.

Definition test_mute_toggling : bool :=
  let muted := toggle_mute false in muted && negb (toggle_mute muted).

(** ** The speaker *)

Definition test_prune_buffer : bool :=
  let '(buffer, phase) := prune_buffer (replicate 10 zero) (dec 45 10) in
  (List.length buffer === 6%nat) && close phase half.

Definition test_prune_buffer_all_consumed : bool :=
  let '(buffer, phase) := prune_buffer (map of_int [1; 2; 3]) (of_int 4) in
  (List.length buffer === 0%nat) && feq phase zero.

Definition test_process_audio_frame_mono_to_stereo : bool :=
  match process_audio_frame (replicate 4 zero) (map of_int [1; 2]) zero one 2 with
  | Some (Ret (x :: y :: z :: _, _)) => feq x one && feq y one && feq z zero
  | _ => false
  end.

Definition test_process_audio_frame_interpolation : bool :=
  match process_audio_frame [zero] [zero; of_int 10] half (dec 1 10) 1 with
  | Some (Ret (x :: _, phase)) => feq x (of_int 5) && close phase (dec 6 10)
  | _ => false
  end.

Definition test_fetch_new_samples : bool :=
  let queue := [map of_int [1; 2]; [of_int 3]] in
  let buffer := fetch_new_samples true queue [] in
  let buffer2 := fetch_new_samples (A := f32) true [] [] in
  all_feq buffer (map of_int [1; 2; 3]) && matches!(buffer2, []).

(** ** Frames *)

Definition same_frame (f g : Frame) : bool :=
  (Media.data f === Media.data g) && (width f === width g) && (height f === height g) && (time f === time g).

(** A frame, the length of its bytes, and the frame they give back. *)
Definition frame_survives (f : Frame) (len : nat) : bool :=
  match frame_to_bytes f with
  | Ok bytes =>
      (List.length bytes === len) &&
      match frame_from_bytes bytes with Ret (Some g) => same_frame f g | _ => false end
  | Err _ => false
  end.

Definition test_frame_serialization_roundtrip : bool := frame_survives (mk_frame [10; 20; 30; 40; 50; 60] 2 1 123456789) 30.
Definition test_frame_with_empty_data : bool := frame_survives (mk_frame [] 640 480 99999) 24.
Definition test_from_bytes_too_short : bool := matches!(frame_from_bytes (replicate 15 0), Ret None).
Definition test_from_bytes_exactly_header_size : bool :=
  let header_only_bytes := [1; 0; 0; 0; 0; 0; 0; 0; 0; 0; 0; 0; 0; 0; 0; 0; 2; 0; 0; 0; 3; 0; 0; 0] in
  match frame_from_bytes header_only_bytes with
  | Ret (Some frame) => (time frame === 1) && (width frame === 2) && (height frame === 3) && (List.length (Media.data frame) === 0%nat)
  | _ => false
  end.

(** ** Opus *)

Section Opus.
Context {E D : Type} `{Opus E D f32}.

Definition create_dummy_frame (samples : nat) (pattern : f32) : AudioFrame f32 := mk_audio (replicate samples pattern) 123456.

(** [created]: what the library's constructor gives. *)
Definition test_encoder_initialization (created : result E str) : bool := is_ok (new_audio_encoder created).
Definition test_decoder_initialization (created : result D str) : bool := is_ok (new_audio_decoder created).

(** A new encoder's first frame; [None] when there is no encoder, or a panic. *)
Definition first_encoded (created : result E str) (frame : AudioFrame f32) : option (result bytes AudioError) :=
  match new_audio_encoder created with
  | Ok a => match (encode_audio frame a).1 with Ret r => Some r | Panic => None end
  | Err _ => None
  end.

Definition test_encode_silence (created : result E str) : bool :=
  match first_encoded created (create_dummy_frame 960 zero) with
  | Some (Ok bytes) => negb (List.length bytes =? 0)%nat && (List.length bytes <? 100)%nat
  | _ => false
  end.

Definition test_encode_signal (created : result E str) : bool :=
  match first_encoded created (create_dummy_frame 960 half) with
  | Some (Ok bytes) => negb (List.length bytes =? 0)%nat && (10 <? List.length bytes)%nat
  | _ => false
  end.

(** The result is not looked at. *)
Definition test_encode_buffer_size_constraint (created : result E str) : bool :=
  match first_encoded created (create_dummy_frame 1 zero) with Some _ => true | None => false end.

Definition test_decode_garbage_data (created : result D str) : bool :=
  match new_audio_decoder created with
  | Ok d => is_ok (decode_audio zero [0; 255; 12; 33] d).1
  | Err _ => false
  end.

Definition test_decode_empty_packet (created : result D str) : bool :=
  match new_audio_decoder created with
  | Ok d => match (decode_audio zero [] d).1 with Ok samples => negb (List.length samples =? 0)%nat | Err _ => true end
  | Err _ => false
  end.

End Opus.

(** ** The video codec *)

Section Video.
Context {F64 E D Yuv : Type}.
(** The conversion of a literal, and the libraries. *)
Context (f64 : Z -> F64) (with_api_config : EncoderConfig (F32 := f32) -> result E str).
Context {Source : Type} (slices : bytes * bytes * bytes -> Z * Z -> Z * Z * Z -> comp Source).
Context (encode : E -> Source -> result (bytes * FrameType) str * E).

Definition test_media_config (chunk_size : Z) : MediaConfig F64 f32 :=
  mk_media 0 (f64 4) (f64 4) (of_int 30) 30 chunk_size 0 0 96 (lit "H264") 90000 2 (lit "video") (lit "audio") (lit "RTP/AVP")
    50 1 48000 960 97 (lit "OPUS").

(** The test's image: what [alloc] gives, its planes filled with 128. *)
Definition gray (alloc : YuvPlanarImage) : YuvPlanarImage :=
  mk_yuv (map (fun _ => 128) (y_plane alloc)) (map (fun _ => 128) (u_plane alloc)) (map (fun _ => 128) (v_plane alloc))
    (y_stride alloc) (u_stride alloc) (v_stride alloc) (yuv_width alloc) (yuv_height alloc).

Definition encoder_new_and_encode_attempt (alloc : YuvPlanarImage) : bool :=
  let cfg := test_media_config 1024 in
  match new_encoder cfg with_api_config with
  | Ok enc =>
      match (encode_frame slices encode (gray alloc) 12345 enc).1 with
      | Ret (Ok ef) => (frame_time ef === 12345) && negb (List.length (chunks ef) =? 0)%nat
      | Ret (Err (Capture.EncodingError _)) => true
      | _ => false
      end
  | Err e => matches!(e, Capture.EncoderInitializationError)
  end.

Definition new_encoder_respects_chunk_size_config (alloc : YuvPlanarImage) : bool :=
  let small_cfg := test_media_config 1 in
  match new_encoder small_cfg with_api_config with
  | Ok enc =>
      match (encode_frame slices encode (gray alloc) 1 enc).1 with
      | Ret (Ok ef) =>
          negb (List.length (chunks ef) =? 0)%nat &&
          forallb (fun c => Z.of_nat (List.length c) <=? rtp_max_chunk_size small_cfg) (chunks ef)
      | Ret (Err (Capture.EncodingError _)) => true
      | _ => false
      end
  | Err e => matches!(e, Capture.EncoderInitializationError)
  end.

Definition test_decoder_new (created : result D str) : bool := is_ok (new_decoder created).

(** [decoded]: what the library gives for the bytes 0 to 4. *)
Definition test_decode_invalid_data_returns_error (dimensions : Yuv -> Z * Z) (to_rgb : Yuv -> result bytes str)
    (created : result D str) (decoded : result (option Yuv) str) : bool :=
  match new_decoder created with
  | Ok _ =>
      match decode_frame dimensions to_rgb decoded with
      | Err (Capture.DecodingError _) | Err EmptyFrameError => true
      | _ => false
      end
  | Err _ => false
  end.

Context (convert : Z -> Z -> bytes -> Z -> result YuvPlanarImage str).

Definition test_rgb_to_yuv420_2x2_valid : bool :=
  let frame := mk_frame [255; 0; 0; 0; 255; 0; 0; 0; 255; 255; 255; 255] 2 2 0 in
  match rgb_to_yuv420 convert frame with
  | Ret (Ok yuv) =>
      (yuv_width yuv === width frame) && (yuv_height yuv === height frame) &&
      (Z.of_nat (List.length (y_plane yuv)) === width frame * height frame) &&
      (Z.of_nat (List.length (u_plane yuv)) === (width frame / 2) * (height frame / 2)) &&
      (Z.of_nat (List.length (v_plane yuv)) === (width frame / 2) * (height frame / 2)) &&
      (0 <? foldr Z.add 0 (y_plane yuv))
  | _ => false
  end.

Definition test_rgb_to_yuv420_insufficient_data_errors : bool :=
  let frame := mk_frame [255; 0; 0; 0; 255; 0; 0; 0; 255] 2 2 0 in
  match rgb_to_yuv420 convert frame with Ret res => is_err res | Panic => false end.

(** The packets of the pipeline's test, one for every chunk. *)
Definition rtp_chunks (media : MediaConfig F64 f32) (encoded : EncodedFrame) (frame_time : Z) : list RtpPacket :=
  let total_chunks := wrap 8 (Z.of_nat (List.length (chunks encoded))) in
  imap (fun i chunk => mk_packet (rtp_version media) 0 total_chunks (is_i encoded) (video_payload_type media) (Z.of_nat i)
    frame_time 55 chunk) (chunks encoded).

Definition by_sequence_number (p q : RtpPacket) : Prop := sequence_number p <= sequence_number q.
#[export] Instance by_sequence_number_dec p q : Decision (by_sequence_number p q).
Proof. unfold by_sequence_number. apply _. Defined.

(** [config], [created]: the configuration in the working directory and the
    decoder; the test ends well when it cannot get one of its steps done. *)
Definition test_generate_frame_from_chunks_h264 (config : option (MediaConfig F64 f32)) (created : result D str)
    (decode : D -> bytes -> option (bytes * Z * Z) * D) : bool :=
  match config with
  | None => true
  | Some media =>
      match new_encoder media with_api_config, new_decoder created with
      | Ok encoder, Ok decoder =>
          let raw_frame := mk_frame (replicate (Z.to_nat 230400) 128) 320 240 0 in
          match rgb_to_yuv420 convert raw_frame with
          | Ret (Ok yuv_frame) =>
              match (encode_frame slices encode yuv_frame (time raw_frame) encoder).1 with
              | Ret (Ok encoded) =>
                  negb (List.length (chunks encoded) =? 0)%nat &&
                  let packets := merge_sort by_sequence_number (rtp_chunks media encoded (time raw_frame)) in
                  let data := List.concat (payload <$> packets) in
                  match (generate_frame_from_chunks decode decoder data).1 with
                  | Some decoded => Media.data decoded === Media.data raw_frame
                  | None => true
                  end
              | Ret (Err _) => true
              | Panic => false
              end
          | Ret (Err _) => true
          | Panic => false
          end
      | _, _ => true
      end
  end.

End Video.

(** * Lemmas *)

(** The last test of the encoder only needs an encoder: it says nothing of a
    frame of one sample. *)
Lemma buffer_size_test {E D} `{Opus E D f32} (created : result E str) :
  test_encode_buffer_size_constraint created = is_ok created /\
  test_encoder_initialization created = is_ok created.
Proof.
  unfold test_encode_buffer_size_constraint, test_encoder_initialization, first_encoded, new_audio_encoder.
  destruct created as [e|]; [|done]. cbn [map_err rbind is_ok]. split; [|done].
  pose proof (encode_audio_total (create_dummy_frame 1 zero) (mk_audio_encoder e)) as Ht.
  by destruct (encode_audio _ _).1 as [[]|].
Qed.

Section VideoFacts.
Context {F64 E D Yuv : Type} (f64 : Z -> F64) (with_api_config : EncoderConfig (F32 := f32) -> result E str).
Context {Source : Type} (slices : bytes * bytes * bytes -> Z * Z -> Z * Z * Z -> comp Source).
Context (encode : E -> Source -> result (bytes * FrameType) str * E).
Context (slices_total : forall p d s, slices p d s <> Panic).

Lemma encode_frame_ok yuv t (enc : Encoder (E := E)) : 0 < max_chunk_size enc ->
  match (encode_frame slices encode yuv t enc).1 with
  | Ret (Ok ef) => exists source b ft e, encode (h264 enc) source = (Ok (b, ft), e) /\ List.concat (chunks ef) = b /\
      Forall (fun c => 0 < List.length c <= Z.to_nat (max_chunk_size enc))%nat (chunks ef) /\ frame_time ef = t
  | Ret (Err e) => exists t, e = Capture.EncodingError t
  | Panic => False
  end.
Proof.
  intros Hn. destruct (encode_frame slices encode yuv t enc) as [r enc'] eqn:E1. cbn [fst].
  destruct r as [[ef|e]|].
  - destruct (encode_frame_pieces _ _ _ _ _ _ _ Hn E1) as (src & b & ft & e & H1 & H2 & H3 & H4 & _). by exists src, b, ft, e.
  - unfold encode_frame in E1. destruct (slices _ _ _) as [src|]; [|done]. destruct (encode (h264 enc) src) as [[[b ft]|x] e'].
    + unfold generate_chunks_from_bitstream in E1. by rewrite (proj2 (Z.eqb_neq _ _)) in E1 by lia.
    + injection E1 as <- _. by eexists.
  - unfold encode_frame in E1. destruct (slices _ _ _) as [src|] eqn:Es; [|by apply slices_total in Es].
    destruct (encode (h264 enc) src) as [[[b ft]|x] e']; [|done].
    unfold generate_chunks_from_bitstream in E1. by rewrite (proj2 (Z.eqb_neq _ _)) in E1 by lia.
Qed.

(** The encoder's tests pass with any library that gives no empty bitstream. *)
Lemma encoder_tests alloc : (forall e s b ft e', encode e s = (Ok (b, ft), e') -> b <> []) ->
  run_tests [encoder_new_and_encode_attempt f64 with_api_config slices encode alloc;
    new_encoder_respects_chunk_size_config f64 with_api_config slices encode alloc] = true.
Proof.
  intros Hb. unfold run_tests, encoder_new_and_encode_attempt, new_encoder_respects_chunk_size_config, new_encoder.
  cbn [forallb id]. rewrite andb_true_r. apply andb_true_iff. split.
  all: destruct (with_api_config _) as [x|]; [|done]; cbn [map_err rbind]; cbv zeta.
  all: match goal with |- context [encode_frame slices encode ?y ?t ?enc] => pose proof (encode_frame_ok y t enc) as H end.
  all: specialize (H ltac:(done)); destruct (encode_frame _ _ _ _ _).1 as [[ef|e]|]; [|by destruct H as [? ->]|done].
  all: destruct H as (src & b & ft & e' & H1 & H2 & H3 & H4); apply Hb in H1.
  all: assert (Hc : negb (List.length (chunks ef) =? 0)%nat = true) by (destruct (chunks ef); [by subst b|done]); rewrite Hc.
  - rewrite H4. by rewrite bool_decide_true.
  - apply forallb_forall. intros c Hin. eapply Forall_forall in H3; [|by apply list_elem_of_In]. apply Z.leb_le. cbn in H3 |- *. lia.
Qed.

(** The packets are in order already, so sorting them changes nothing. *)
Lemma rtp_chunks_sorted (media : MediaConfig F64 f32) ef t :
  merge_sort by_sequence_number (rtp_chunks media ef t) = rtp_chunks media ef t.
Proof.
  assert (Hin : forall p, p ∈ rtp_chunks media ef t -> rtp_chunks media ef t !! Z.to_nat (sequence_number p) = Some p).
  { intros p (i & c & -> & Hc)%elem_of_lookup_imap. cbn [sequence_number]. unfold rtp_chunks. by rewrite Nat2Z.id, list_lookup_imap, Hc. }
  assert (Transitive by_sequence_number) by (intros p q r; unfold by_sequence_number; lia).
  assert (Total by_sequence_number) by (intros p q; unfold by_sequence_number; lia).
  apply Sorted_unique_strong with by_sequence_number; [done| | | |apply merge_sort_Permutation].
  - intros p q Hp Hq H1 H2. rewrite merge_sort_Permutation in Hp. unfold by_sequence_number in *.
    apply Hin in Hp, Hq. replace (sequence_number q) with (sequence_number p) in Hq by lia. congruence.
  - by apply Sorted_merge_sort.
  - apply StronglySorted_Sorted. unfold rtp_chunks. generalize (wrap 8 (Z.of_nat (List.length (chunks ef)))) as n. intros n.
    set (f := fun (k i : nat) (c : bytes) => mk_packet (rtp_version media) 0 n (is_i ef) (video_payload_type media) (Z.of_nat (k + i)) t 55 c).
    change (StronglySorted by_sequence_number (imap (f 0%nat) (chunks ef))). generalize 0%nat as k. induction (chunks ef) as [|c l IH]; intros k; [constructor|].
    rewrite imap_cons. rewrite (imap_ext _ (f (S k))) by (intros; cbn; unfold f; do 2 f_equal; lia). constructor; [apply IH|].
    apply Forall_forall. intros p (i & c' & -> & _)%elem_of_lookup_imap. unfold by_sequence_number, f. cbn [sequence_number]. lia.
Qed.

(** When every step of the pipeline's test can be done, the decoder is given the
    encoder's bitstream, and the gray picture has to come back byte by byte. *)
Lemma pipeline_test convert (media : MediaConfig F64 f32) e (d : D) decode yuv src b ft e' :
  0 < rtp_max_chunk_size media -> b <> [] ->
  (forall c, with_api_config c = Ok e) ->
  convert 320 240 (replicate (Z.to_nat 230400) 128) 960 = Ok yuv ->
  slices (y_plane yuv, u_plane yuv, v_plane yuv) (yuv_width yuv, yuv_height yuv) (y_stride yuv, u_stride yuv, v_stride yuv) = Ret src ->
  encode e src = (Ok (b, ft), e') ->
  test_generate_frame_from_chunks_h264 with_api_config slices encode convert (Some media) (Ok d) decode =
  match (decode d b).1 with Some (data, _, _) => data === replicate (Z.to_nat 230400) 128 | None => true end.
Proof.
  intros Hn Hb Ha Hc Hs He. unfold test_generate_frame_from_chunks_h264, new_encoder. rewrite Ha. cbn [map_err rbind new_decoder].
  set (raw := replicate (Z.to_nat 230400) 128) in *. unfold rgb_to_yuv420. cbn [Media.width Media.height Media.data time].
  change (wrap 32 320) with 320. change (wrap 32 240) with 240. change (fitsb 32 (320 * 3)) with true. cbv iota.
  change (320 * 3) with 960. rewrite Hc. cbn [map_err].
  assert (H : exists cs x, encode_frame slices encode yuv 0 (mk_encoder e (rtp_max_chunk_size media)) =
    (Ret (Ok (mk_encoded cs 0 match ft with I | IDR => true | _ => false end)), x) /\ List.concat cs = b).
  { unfold encode_frame. rewrite Hs. cbn [h264 Codec.max_chunk_size]. rewrite He. unfold generate_chunks_from_bitstream.
    rewrite (proj2 (Z.eqb_neq _ _)) by lia. do 2 eexists. split; [reflexivity|]. apply chunk_loop_concat; lia. }
  destruct H as (cs & x & -> & Hcat). cbn [fst chunks]. rewrite rtp_chunks_sorted. unfold rtp_chunks. rewrite fmap_imap.
  cbn [chunks]. rewrite (imap_ext _ (fun _ c => c)) by done.
  assert (Hi : imap (fun (_ : nat) (c : bytes) => c) cs = cs) by (clear; induction cs as [|c cs IH]; [done|]; rewrite imap_cons; by f_equal).
  rewrite Hi, Hcat. replace (negb (List.length cs =? 0)%nat) with true by (by destruct cs; [subst b|]).
  unfold generate_frame_from_chunks. by destruct (decode d b) as [[[[data w] h]|] d'].
Qed.

End VideoFacts.

(** * Examples *)

Example sound_tests :
  run_tests [returns test_buffer_flow; returns test_buffer_wrap_around; test_audio_frame_creation;
    returns test_convert_to_mono_stereo; returns test_convert_to_mono_pass_through; returns test_convert_to_mono_multichannel;
    returns test_resample_linear_upsample; returns test_resample_phase_continuity; test_mute_toggling;
    test_prune_buffer; test_prune_buffer_all_consumed; test_process_audio_frame_mono_to_stereo;
    test_process_audio_frame_interpolation; test_fetch_new_samples] = true.
Proof. vm_compute. reflexivity. Qed.

Example frame_tests :
  run_tests [test_frame_serialization_roundtrip; test_frame_with_empty_data; test_from_bytes_too_short;
    test_from_bytes_exactly_header_size] = true.
Proof. vm_compute. reflexivity. Qed.
